(* ===== verification/_CoqProject ===== *)
-Q . S2P
Prelude.v
JsValue.v
Json.v
Html.v
JsonParse.v
Schema.v
StableSort.v
Binder.v
Coherence.v
Registry.v
Persist.v
Url.v
Route.v
Models.v
History.v
Session.v
Startup.v
Proxy.v
System.v
