(* ===== verification/Prelude.v ===== *)
(** * A verification development for ComfyUI-web

    The repository is a small web front end for a ComfyUI backend.  It has
    two programs:

    - [src/server.js], an Express server.  It serves the workflow JSON file
      ([GET/POST /api/workflow], functions [loadWorkflow]/[saveWorkflow]),
      keeps a model registry in [data/models.json]
      ([GET/POST /api/models], [DELETE /api/models/:id], functions
      [loadModels]/[saveModels]), submits a workflow to the backend
      ([POST /api/run]) and proxies [/api/comfyui/*] to the backend.
    - [src/public/app.js], the browser client.  It holds four globals
      ([workflow], [objectInfo], [modelRegistry], [promptHistory]), renders
      every node of the workflow as a card of editable fields
      ([renderWorkflow]), resolves the choices of a field from the backend
      schema ([getInputMeta], [parseChoices]) or from the model registry
      ([inferModelChoices]), writes edits back into the node's positional
      [widgets_values] array, toggles a node's [mode], submits the workflow
      and collects output images from the backend history
      ([collectImagesFromHistory], [loadHistory]).

    The client and the server talk over HTTP with JSON documents; both
    sides are written against untyped JavaScript values, so the development
    models the values themselves.

    ** Files, in dependency order

    - [Prelude] (this file): the notation scope [js_scope], the exception
      monad [throws] (with the notation [let! x := c in k]) for JavaScript
      code that can raise a [TypeError], the array assignment [js_set]
      (JavaScript [a[i] = v], which extends the array with holes when [i]
      is out of range), the loops [map_throws] (a [forEach] that stops at
      the first exception, keeping what it did before) and [all_throws],
      the hint databases [js] and [js_simpl] and the tactic [case_throws].
    - [JsValue]: the type [value] of JavaScript values that the code
      handles (undefined, null, booleans, numbers, strings, arrays and
      objects with ordered keys), truthiness, [||], [??], property access
      (plain, optional [?.] and throwing), [===], [ToString],
      [toLowerCase], [String.prototype.includes] and the order of own
      property keys (array indices first).
    - [Json]: [JSON.stringify], compact and indented ([serialize] with a
      gap, as [saveWorkflow] calls it), and [formatValue] (app.js lines
      19-24).
    - [Html]: the part of the browser's HTML tokenizer that decides which
      start tags a text assigned to [innerHTML] opens (tags, attributes,
      comments and declarations, and the text states of [textarea],
      [style], [script], [plaintext] and the like), with the composition
      lemma for a text inserted into a template.
    - [JsonParse]: [JSON.parse] as a recursive-descent parser with fuel
      ([JSON_parse] gives it one more than the length of the text), the
      proof that this fuel is enough, the type of the values it returns,
      the value [normalize_opt v] that the text of [v] parses back to, and
      the round trip.
    - [Schema]: the schema resolver [parseChoices], [getInputMeta],
      [inferModelChoices] (app.js lines 26-48).  The interface a client
      of the resolver relies on is the class [Resolver] with its laws
      [ResolverSpec]; the code is the instance [code_resolver], and the
      relation [schema_resolves] is the specification of spec section 4.1
      it refines.
    - [StableSort]: the stable sort that orders the cards by title
      ([nodes.slice().sort(...)], app.js lines 92-94) as an insertion sort,
      over the class [Collation] for [localeCompare].
    - [Binder]: the parameter binder: the DOM controls of a field (select,
      number, text) with the browser's value sanitisation, the derivation
      of every card and field ([renderWorkflow], app.js lines 86-177), the
      page state ([page]: the workflow and the rendered view) and its
      handlers, the [change] listener writing an edit back and the enable
      toggle, and [applyModelOverride] (app.js lines 50-56).
    - [Coherence]: the page the [change] and toggle listeners leave (they
      mutate the node and do not re-render) compared with the page
      [renderWorkflow] builds from the updated workflow.
    - [Registry]: the server's model registry ([POST /api/models],
      [DELETE /api/models/:id], server.js lines 111-147) as functions from
      the parsed registry document to a response and the document written
      back, and the step relation [srv_step] that interleaves the read and
      the write of concurrent requests at their [await]s.
    - [Persist]: [GET/POST /api/workflow] with the body parser
      [express.json({ limit: '5mb' })] (its [Content-Type] test, charset
      check, limit and strict parse) and the server's
      [loadWorkflow]/[saveWorkflow] on the text of the workflow file
      (server.js lines 17, 29-36, 84-100), and the client's [loadWorkflow]
      and save button (app.js lines 259-263, 325-332).
    - [Models]: [GET /api/models] (server.js lines 102-109), the client's
      [loadModels] with [renderModels] (the markup of every item of the
      model list), the registration form and the delete buttons (app.js
      lines 58-84, 277-282, 312-322), composed with [Registry]'s handlers
      through the route of [Route];
      the client state is [modelRegistry], the items of the list, the
      form's fields and the output log.  It also shows that the server reads back the registry
      document it wrote, the abstraction [Registry] makes of the file.
    - [History]: the run button, [loadHistory], the refresh button,
      [collectImagesFromHistory] and [renderGallery] with its history
      buttons (app.js lines 186-357) as functions on a state holding
      [promptHistory], the output log, the pending delayed loads and the
      gallery, with network answers as inputs, and the step relation
      [hist_step] running these events in any order.
    - [Session]: the client's session ([workflow], [objectInfo],
      [modelRegistry], the log) with [loadObjectInfo] (app.js lines
      265-276), the effect of [loadModels] and [loadWorkflow], and the
      step relation [session_step] running them among the user's edits
      and toggles.
    - [Startup]: the server's configuration from the environment,
      [ensureDataFiles], the server's [loadModels] and [saveModels] on the
      text of the registry file, with the proof that the file reads back
      the document written, and [GET /api/config] (server.js lines 12,
      20-27, 38-45, 80-82), and the page's [loadConfig] and [init] (app.js
      lines 253-263, 359-365) running the loaders in turn on the whole
      page state, stopping at the first rejection.
    - [Url]: the WHATWG URL parser for the two calls of [comfyUrl]
      (server.js lines 48-49): [parse_url] for the absolute URL in
      [COMFYUI_BASE_URL] (scheme, credentials, host with the IPv4 parser,
      port with its default elided, path, query) and [new_URL] for a path
      against it, and the serialiser [url_href]; also the form parser the
      backend applies to a query.
    - [Route]: the URL the delete button fetches
      ([`/api/models/${model.id}`], app.js line 79) resolved against the
      page by [new_URL], the match of its path against
      [app.delete('/api/models/:id')] (server.js line 134) and
      [decodeURIComponent] on the parameter, as Express applies it.
    - [Proxy]: [comfyUrl] on the configured base text, the checks [fetch]
      makes on a URL before sending, the request [proxyToComfyUI] sends
      and what becomes of the answer (server.js lines 47-78, 164-167),
      and [POST /api/run] (lines 149-162).
    - [System]: the page after [init] and the server's two files as one
      state, with every listener of app.js as a constructor of the step
      relation [sys_step] running its component's handler on that state
      (the server's answers computed from the files, ComfyUI's answers as
      inputs), and [boot], the state once [init] ran.  The invariant
      [page_ok] is proved by rule induction from the component lemmas.

    ** What the theorems show

    The claims are listed in the project manifest, C1 to C37; their
    doc comments in the files carry the ids.  In short:
    - Binder (C1, C2, C5, C6, C28): one field per declared input whatever
      the length of [widgets_values]; an edit is stored at the field's
      index only and survives every re-render; a text field loses line
      breaks; the cards follow the stable order by title.
    - Schema (C3, C4): the code's lookup refines the specification
      ([required] before [optional], array before object shape); schema
      choices win over the name heuristic.
    - Page, session and start-up (C7-C11, C32): every reachable session
      shows the render of its workflow under the current schema, so a
      refresh completing after an edit keeps it (C7, spec section 5);
      [init] establishes that invariant once the configuration and the
      workflow have loaded (C8); on the whole page with all its
      listeners, a good page (cards, gallery, model list and history ids
      consistent with the globals) stays good under every sequence of
      events (C9) and [init] leaves a good page (C10); the listeners'
      in-place update of the page equals a full render of the updated
      workflow (C11); a registry answer that is not JSON stops [init]
      before the schema is fetched (C32).
    - Registry (C12-C15): a valid creation appends exactly one entry;
      deletion removes every entry with the id or answers 404 and writes
      nothing; the stored document stays an array under any interleaving;
      two concurrent creations can lose an entry.
    - Model registry end to end (C16-C23): a registration the server
      accepts reaches the binder's name heuristic after the reload (C16,
      spec sections 4.2 and 6), and reaches the cards only at the next
      metadata refresh (C17); every name of the registry is inserted in
      the page as markup, so a name opens its own elements (C18), and a
      name that opens [plaintext] leaves its item without a delete button
      (C19); a registration the server rejects is not reported and the
      form is cleared (C20); the delete button, whose URL goes through the
      URL parser and the route's [decodeURIComponent], withdraws the entry
      from the file and the client's registry for the ids the server
      generates (C21), deletes another entry for an id holding a [?]
      (C22) and nothing for an id ending in a stray [%] (C23).
    - History and gallery (C24-C27): ids in the history and in pending
      loads are truthy in every reachable state; the gallery always shows
      the whole current history or one of its current entries (C25); an
      accepted run schedules its own delayed load, whose firing, with no
      refresh from the user, puts the run's images at the front of the
      gallery (C26); every output image is linked exactly once.
    - Persistence (C29-C31): a save followed by a load gives the client
      back the workflow it saved (C29, spec section 8); a save the server
      refuses is still reported as saved (C30); a request not typed JSON,
      which any site can make the user's browser send, replaces the
      stored workflow by [{}] (C31).
    - Proxy (C33-C37): a path [/api/comfyui//h/...] sends the request,
      cookies included, to the host [h], domains and IPv4 addresses in
      any notation alike (C33); a path whose authority [new URL] refuses
      or that carries credentials ends the server with one request (C34);
      an image link of the gallery reaches [/view] with the filename, type
      and subfolder the backend's form parser reads back (C35); an
      unreachable backend ends the server through an uncaught rejection
      while [/api/run] answers 500 (C36); the path of [COMFYUI_BASE_URL] is
      ignored (C37).

    The built-in models carry lemmas of their own that the claims rest
    on: [JsonParse.parse_serialize] ([JSON.parse] reads back what
    [JSON.stringify] writes), [JsonParse.JSON_parse_fuel_enough] (the
    fuel is enough), [JsonParse.JSON_parse_json_value] (no [undefined],
    no repeated key) and [StableSort.isort_characterised] (the insertion
    sort is the only sorted stable reordering, so the card order does not
    depend on the engine's stable sorting algorithm).

    ** Bounds and limits of the model

    Every recursion is structural (on values, lists and strings) except
    [JSON.parse]'s, which runs on fuel.  A result found with some fuel is
    found with any fuel above the number of characters it consumed
    ([parse_stable], by induction on the fuel), so fuel one more than the
    length of the text is enough: [JSON_parse] is the parser with
    unbounded fuel, and the round trip is proved with exactly that
    fuel.  Numbers are modelled as integers ([Z]): the code
    never does arithmetic on them; it prints them, tests their truthiness
    and compares them with [0] and [4], so fractional numbers, [NaN] and
    [-0] are left out; the parser returns [None] on a number with a
    fraction or an exponent, and on a [\u] escape outside ASCII, as on
    a syntax error.  Strings are sequences of 8-bit characters;
    [toLowerCase] is modelled on ASCII letters.  Objects are association
    lists in insertion order; a property read returns the first binding, a
    write replaces it in place or appends it.  Objects have no identity:
    [===] between two objects is false, where JavaScript compares
    references; the one [===] the model applies to values that can be
    objects is [promptHistory.find] on prompt ids (app.js line 291),
    which ComfyUI returns as strings.  Parsed JSON has no array
    holes; an assignment out of range fills the gap with [undefined], the
    only way the code observes a hole.  The DOM is modelled by the values
    it holds (the options of a select, the sanitised value of an input),
    not by its tree.  Network calls and file I/O are inputs of the
    operations that use them; the messages of [SyntaxError]s thrown by
    [response.json()] are abstracted to one text.

    ** Not modelled

    The static file server ([express.static]) and [app.listen] are I/O
    with nothing computed.  The checks [fetch] makes on the headers the proxy
    copies (undici's refusal of hop-by-hop headers and of a
    [content-length] that differs from the re-serialised body) are not
    modelled; the proxy claims are about requests whose headers pass
    them.  The DOM is modelled by the values and the
    markup the code writes into it, not by its tree; the HTML tokenizer
    is modelled only as far as it decides which start tags open (no
    character references, script-data escapes or tree construction beyond
    the switch to the text states).  The response headers Express sets
    itself ([content-length], [content-type]) are not modelled, and the
    body parser's [Content-Type] grammar leaves out obsolete forms.  The
    URL parser refuses the [file] scheme and the schemes that are not
    special, and keeps hosts as written where the standard would apply
    IDNA or IPv6 compression (IPv4 hosts are parsed and normalised).  [init] is modelled as the sequence it runs when no user
    event comes between its steps, and in [System] a request to the
    server is answered before the next event (the interleaving of
    concurrent server requests is [Registry]'s [srv_step]). *)

From Stdlib Require Export ZArith String Ascii Lia.
From stdpp Require Export base list strings relations.

Declare Scope js_scope.
Delimit Scope js_scope with js.

(** ** Exceptions

    JavaScript code that can throw is modelled as a function into [throws]:
    [Ret a] is a normal completion with value [a], [Throw e] an exception
    that propagates to the caller. *)

Inductive exn : Type :=
  | TypeError (what : string)
  | SyntaxError (what : string)
  | SystemError (what : string).

(** [error.message] *)
Definition exn_message (e : exn) : string :=
  match e with TypeError m | SyntaxError m | SystemError m => m end.

Inductive throws (A : Type) : Type :=
  | Ret (a : A)
  | Throw (e : exn).
Arguments Ret {A} a.
Arguments Throw {A} e.

Definition throws_bind {A B} (c : throws A) (k : A -> throws B) : throws B :=
  match c with
  | Ret a => k a
  | Throw e => Throw e
  end.

Notation "'let!' x ':=' c 'in' k" := (throws_bind c (fun x => k))
  (at level 10, x name, c at level 100, k at level 200) : js_scope.

Open Scope js_scope.

(** [forEach] whose callback can throw: the callbacks run in order and the
    first exception stops the loop.  The results computed before the
    exception are returned with it, because the code appends each result
    to the DOM as soon as it is computed. *)
Fixpoint map_throws {A B} (f : A -> throws B) (l : list A) : list B * option exn :=
  match l with
  | [] => ([], None)
  | x :: l' =>
      match f x with
      | Throw e => ([], Some e)
      | Ret b => let '(bs, r) := map_throws f l' in (b :: bs, r)
      end
  end.

(** [forEach] whose result is only used when the whole loop completes. *)
Definition all_throws {A B} (f : A -> throws B) (l : list A) : throws (list B) :=
  match map_throws f l with
  | (bs, None) => Ret bs
  | (_, Some e) => Throw e
  end.

(** ** JavaScript array assignment

    [a[i] = v] on an array [a]: inside the array it replaces the element,
    past the end it extends the array, the positions in between being holes
    ([d] stands for what a hole reads as). *)
Fixpoint js_set {A} (d : A) (l : list A) (i : nat) (v : A) : list A :=
  match l, i with
  | [], 0 => [v]
  | [], S i' => d :: js_set d [] i' v
  | _ :: l', 0 => v :: l'
  | x :: l', S i' => x :: js_set d l' i' v
  end.

Create HintDb js discriminated.
Create Rewrite HintDb js_simpl.

(** ** Shared tactics *)

(** Case on a [throws] computation in the goal, keeping its equation. *)
Ltac case_throws :=
  match goal with
  | |- context [match ?c with Ret _ => _ | Throw _ => _ end] =>
      let E := fresh "E" in destruct c eqn:E
  end.

(** ** Lemmas on [map_throws] and [js_set] *)

(** Lists related one by one by a relation that fixes a projection. *)
Lemma Forall2_map_eq {A B C} (f : A -> C) (g : B -> C) (l : list A) (k : list B) :
  Forall2 (fun x y => g y = f x) l k -> map g k = map f l.
Proof. induction 1; simpl; by f_equal. Qed.

Section map_throws_lemmas.
Context {A B : Type} (f : A -> throws B).

Lemma map_throws_total (l : list A) (g : A -> B) :
  (forall x, x ∈ l -> f x = Ret (g x)) ->
  map_throws f l = (map g l, None).
Proof.
  induction l as [|x l IH]; intros Hf; [done|].
  simpl. rewrite Hf by set_solver. rewrite IH by set_solver. done.
Qed.

Lemma all_throws_total (l : list A) (g : A -> B) :
  (forall x, x ∈ l -> f x = Ret (g x)) ->
  all_throws f l = Ret (map g l).
Proof. intros Hf. unfold all_throws. by rewrite (map_throws_total l g Hf). Qed.

Lemma map_throws_complete (l : list A) (bs : list B) :
  map_throws f l = (bs, None) -> length bs = length l.
Proof.
  revert bs. induction l as [|x l IH]; intros bs H; simpl in H; [by inv H|].
  destruct (f x); [|done].
  destruct (map_throws f l) as [bs' r] eqn:E. inv H. simpl. f_equal. by apply IH.
Qed.

Lemma all_throws_length (l : list A) (bs : list B) :
  all_throws f l = Ret bs -> length bs = length l.
Proof.
  unfold all_throws. destruct (map_throws f l) as [bs' [e|]] eqn:E; [done|].
  intros H. inv H. by apply map_throws_complete.
Qed.

(** When every callback completes, the loop completes, and its results
    are related to the elements one by one. *)
Lemma all_throws_Forall2 (P : A -> B -> Prop) (l : list A) :
  (forall x, x ∈ l -> exists b, f x = Ret b /\ P x b) ->
  exists bs, all_throws f l = Ret bs /\ Forall2 P l bs.
Proof.
  unfold all_throws. induction l as [|x l IH]; intros Hf; simpl; [by exists []|].
  destruct (Hf x) as [b [Hb HP]]; [by left|]. rewrite Hb.
  destruct IH as [bs [Hbs HPs]]; [intros y Hy; apply Hf; by right|].
  destruct (map_throws f l) as [bs' [e|]]; [done|]. inv Hbs.
  exists (b :: bs). split; [done|]. by constructor.
Qed.

(** The results computed before an exception are those of the first
    elements of the loop, one by one. *)
Lemma map_throws_prefix (l : list A) :
  Forall2 (fun x b => f x = Ret b) (take (length (map_throws f l).1) l) (map_throws f l).1.
Proof.
  induction l as [|x l IH]; simpl; [constructor|].
  destruct (f x) as [b|e] eqn:Hx; simpl; [|constructor].
  destruct (map_throws f l) as [bs r]. simpl in *. by constructor.
Qed.
(** A loop that completes gives one result per element, and conversely. *)
Lemma all_throws_Forall2_inv (l : list A) (bs : list B) :
  all_throws f l = Ret bs -> Forall2 (fun x b => f x = Ret b) l bs.
Proof.
  unfold all_throws. destruct (map_throws f l) as [bs' [e|]] eqn:E; [done|]. intros [= <-].
  pose proof (map_throws_prefix l) as H. rewrite E in H. simpl in H.
  by rewrite (map_throws_complete l bs' E), firstn_all in H.
Qed.

Lemma all_throws_of_Forall2 (l : list A) (bs : list B) :
  Forall2 (fun x b => f x = Ret b) l bs -> all_throws f l = Ret bs.
Proof.
  unfold all_throws. induction 1 as [|x b l bs Hx _ IH]; simpl; [done|]. rewrite Hx.
  destruct (map_throws f l) as [bs' [e|]]; [done|]. by inv IH.
Qed.
End map_throws_lemmas.

Section js_set_lemmas.
Context {A : Type} (d : A).

Lemma js_set_length (l : list A) (i : nat) (v : A) :
  length (js_set d l i v) = Nat.max (length l) (S i).
Proof.
  revert l. induction i as [|i IH]; intros [|x l]; simpl; [done|lia| |].
  - rewrite (IH []). simpl. lia.
  - rewrite IH. lia.
Qed.

Lemma js_set_lookup_eq (l : list A) (i : nat) (v : A) :
  js_set d l i v !! i = Some v.
Proof. revert l. induction i as [|i IH]; intros [|x l]; simpl; done. Qed.

Lemma js_set_lookup_ne (l : list A) (i j : nat) (v : A) :
  i <> j -> j < length l -> js_set d l i v !! j = l !! j.
Proof.
  revert i j. induction l as [|x l IH]; intros [|i] [|j] Hne Hj; simpl in *;
    try lia; try done.
  apply IH; lia.
Qed.

(** Inside the array, assignment is stdpp's list insert. *)
Lemma js_set_insert (l : list A) (i : nat) (v : A) :
  i < length l -> js_set d l i v = <[i:=v]> l.
Proof.
  revert i. induction l as [|x l IH]; intros [|i] Hi; simpl in *; try lia; try done.
  f_equal. apply IH. lia.
Qed.

(** Past the end, every position between the old end and [i] is a hole. *)
Lemma js_set_lookup_gap (l : list A) (i j : nat) (v : A) :
  length l <= j < i -> js_set d l i v !! j = Some d.
Proof.
  revert l j. induction i as [|i IH]; intros [|x l] [|j] Hj; simpl in *; try lia; try done.
  - apply (IH []). simpl. lia.
  - apply IH. lia.
Qed.
(** Reading another position through a default gives what it gave
    before: an old element, or [d] for a hole or past the end. *)
Lemma js_set_lookup_ne_default (l : list A) (i j : nat) (v : A) :
  i <> j -> default d (js_set d l i v !! j) = default d (l !! j).
Proof.
  intros Hne. destruct (decide (j < length l)) as [Hj|Hj].
  - by rewrite js_set_lookup_ne.
  - rewrite (lookup_ge_None_2 l j) by lia.
    destruct (decide (j < i)) as [Hji|Hji].
    + by rewrite js_set_lookup_gap by lia.
    + rewrite lookup_ge_None_2; [done|]. rewrite js_set_length. lia.
Qed.
End js_set_lemmas.

(** A filter whose predicate holds everywhere keeps the whole list. *)
Lemma filter_all_true {A} (P : A -> Prop) `{!forall x, Decision (P x)} (l : list A) :
  (forall x, x ∈ l -> P x) -> filter P l = l.
Proof.
  induction l as [|x l IH]; intros HP; [done|].
  rewrite filter_cons_True by (apply HP; by left). f_equal. apply IH.
  intros y Hy. apply HP. by right.
Qed.

#[export] Hint Rewrite @js_set_length @js_set_lookup_eq : js_simpl.
#[export] Hint Resolve map_throws_total all_throws_total : js.

(** ** Lemmas on strings *)

(** stdpp makes string concatenation opaque to [simpl]; these are its
    defining equations. *)
Lemma str_app_nil_l (a : string) : ("" ++ a)%string = a.
Proof. reflexivity. Qed.

Lemma str_app_cons (x : ascii) (a b : string) : (String x a ++ b)%string = String x (a ++ b).
Proof. reflexivity. Qed.

Lemma str_app_assoc (a b c : string) : ((a ++ b) ++ c = a ++ (b ++ c))%string.
Proof. induction a as [|x a IH]; [done|]. by rewrite !str_app_cons, IH. Qed.

Lemma str_app_nil_r (a : string) : (a ++ "")%string = a.
Proof. induction a as [|x a IH]; [done|]. by rewrite str_app_cons, IH. Qed.

Lemma str_length_app (a b : string) :
  String.length (a ++ b) = String.length a + String.length b.
Proof. induction a as [|x a IH]; [done|]. rewrite str_app_cons. simpl. by rewrite IH. Qed.

#[export] Hint Rewrite str_app_nil_l str_app_cons str_app_assoc str_length_app : js_simpl.
