(* ===== verification/JsValue.v ===== *)
(** * JavaScript values and the operations of the language the code uses

    Both programs of the repository handle parsed JSON documents as untyped
    JavaScript values: the workflow, the schema metadata ([objectInfo]), the
    model registry, request bodies.  This file gives them one type [value]
    and the operators the source applies to them: truthiness (used by [!x],
    [x || y] and [if (x)]), the nullish test of [x ?? y] and [x?.p],
    property reads and writes, [ToString] (template literals, [String(x)],
    DOM attribute assignment), [toLowerCase] and [includes]. *)

From S2P Require Import Prelude.
From Stdlib Require Import DecimalString DecimalPos DecimalZ.
From stdpp Require Import sorting.

Set Warnings "-register-all".

Inductive value : Type :=
  | VUndef
  | VNull
  | VBool (b : bool)
  | VNum (n : Z)
  | VStr (s : string)
  | VArr (xs : list value)
  | VObj (props : list (string * value)).

(** ** Induction with a hypothesis for each element of an array or object *)

Section value_ind_nested.
Context (P : value -> Prop)
  (HU : P VUndef) (HN : P VNull) (HB : forall b, P (VBool b))
  (HZ : forall n, P (VNum n)) (HS : forall s, P (VStr s))
  (HA : forall xs, Forall P xs -> P (VArr xs))
  (HO : forall ps, Forall (fun kv => P kv.2) ps -> P (VObj ps)).

Fixpoint value_ind' (v : value) : P v :=
  match v with
  | VUndef => HU
  | VNull => HN
  | VBool b => HB b
  | VNum n => HZ n
  | VStr s => HS s
  | VArr xs =>
      HA xs ((fix go (l : list value) : Forall P l :=
                match l with
                | [] => @List.Forall_nil _ P
                | x :: l' => @List.Forall_cons _ P x l' (value_ind' x) (go l')
                end) xs)
  | VObj ps =>
      HO ps ((fix go (l : list (string * value)) : Forall (fun kv => P kv.2) l :=
                match l with
                | [] => @List.Forall_nil _ (fun kv => P kv.2)
                | kv :: l' => @List.Forall_cons _ (fun kv => P kv.2) kv l' (value_ind' kv.2) (go l')
                end) ps)
  end.
End value_ind_nested.

(** ** Decidable equality *)

Fixpoint value_eqb (a b : value) : bool :=
  match a, b with
  | VUndef, VUndef | VNull, VNull => true
  | VBool x, VBool y => Bool.eqb x y
  | VNum x, VNum y => Z.eqb x y
  | VStr x, VStr y => String.eqb x y
  | VArr xs, VArr ys =>
      (fix go (xs ys : list value) : bool :=
         match xs, ys with
         | [], [] => true
         | x :: xs', y :: ys' => value_eqb x y && go xs' ys'
         | _, _ => false
         end) xs ys
  | VObj ps, VObj qs =>
      (fix go (ps qs : list (string * value)) : bool :=
         match ps, qs with
         | [], [] => true
         | (k, x) :: ps', (k', y) :: qs' =>
             String.eqb k k' && value_eqb x y && go ps' qs'
         | _, _ => false
         end) ps qs
  | _, _ => false
  end.

Lemma value_eqb_eq (a b : value) : value_eqb a b = true <-> a = b.
Proof.
  revert b. induction a as [| | x | x | x | xs IH | ps IH] using value_ind';
    intros [| | y | y | y | ys | qs]; simpl; try (split; congruence).
  - rewrite Bool.eqb_true_iff. split; congruence.
  - rewrite Z.eqb_eq. split; congruence.
  - rewrite String.eqb_eq. split; congruence.
  - revert ys. induction IH as [|x xs Hx _ IHxs]; intros [|y ys]; try (split; congruence).
    rewrite andb_true_iff, Hx, IHxs. split; [intros [-> Heq]; by inv Heq | intros Heq; by inv Heq].
  - revert qs. induction IH as [|[k x] ps Hx _ IHps]; intros [|[k' y] qs]; try (split; congruence).
    simpl in Hx. rewrite !andb_true_iff, String.eqb_eq, Hx, IHps.
    split; [intros [[-> ->] Heq]; by inv Heq | intros Heq; by inv Heq].
Qed.

#[export] Instance value_eq_dec : EqDecision value :=
  fun a b => match value_eqb a b as r return value_eqb a b = r -> Decision (a = b) with
             | true => fun H => left (proj1 (value_eqb_eq a b) H)
             | false => fun H => right (fun Heq => Bool.diff_false_true
                                          (eq_trans (eq_sym H) (proj2 (value_eqb_eq a b) Heq)))
             end eq_refl.

(** ** Truthiness, [||] and [??] *)

(** [ToBoolean]: [undefined], [null], [false], [0] and the empty string are
    falsy; every array and object is truthy, the empty ones included. *)
Definition truthy (v : value) : bool :=
  match v with
  | VUndef | VNull => false
  | VBool b => b
  | VNum n => negb (Z.eqb n 0)
  | VStr s => negb (String.eqb s "")
  | VArr _ | VObj _ => true
  end.

Definition nullish (v : value) : bool :=
  match v with VUndef | VNull => true | _ => false end.

(** [a || b] *)
Definition js_or (a b : value) : value := if truthy a then a else b.

(** [a ?? b] *)
Definition coalesce (a b : value) : value := if nullish a then b else a.


(** ** [ToString] *)

Definition z_to_str (n : Z) : string := NilZero.string_of_int (Z.to_int n).

(** [String(v)], template literals and DOM attribute assignment; an array
    prints as [join(',')], where [null] and [undefined] print as the empty
    string. *)
Fixpoint to_str (v : value) : string :=
  match v with
  | VUndef => "undefined"
  | VNull => "null"
  | VBool true => "true"
  | VBool false => "false"
  | VNum n => z_to_str n
  | VStr s => s
  | VArr xs =>
      String.concat ","
        ((fix go (l : list value) : list string :=
            match l with
            | [] => []
            | x :: l' => (if nullish x then "" else to_str x) :: go l'
            end) xs)
  | VObj _ => "[object Object]"
  end.

(** The [textContent] setter: [null] and [undefined] clear the text
    (the attribute is a nullable [DOMString]), any other value is
    converted with [String(v)]. *)
Definition text_content (v : value) : string := if nullish v then "" else to_str v.

(** ** Property access *)

Fixpoint assoc_get (k : string) (ps : list (string * value)) : option value :=
  match ps with
  | [] => None
  | (k', v) :: ps' => if String.eqb k k' then Some v else assoc_get k ps'
  end.

(** An array index: the canonical decimal form of an integer below
    [2^32 - 1]. *)
Definition digit_of (c : ascii) : option N :=
  let n := nat_of_ascii c in
  if (48 <=? n) && (n <=? 57) then Some (N.of_nat (n - 48)) else None.

Fixpoint digits_acc (acc : N) (s : string) : option N :=
  match s with
  | EmptyString => Some acc
  | String c s' =>
      match digit_of c with
      | Some d => digits_acc (10 * acc + d)%N s'
      | None => None
      end
  end.

Definition array_index (k : string) : option N :=
  match k with
  | String "0"%char EmptyString => Some 0%N
  | String c _ =>
      match digit_of c with
      | Some 0%N | None => None
      | Some _ =>
          match digits_acc 0 k with
          | Some n => if (n <? 4294967295)%N then Some n else None
          | None => None
          end
      end
  | EmptyString => None
  end.

(** [o.k] and [o[k]] on a value that is not [null] or [undefined]: a
    missing property reads as [undefined]; an array and a string have
    their [length] (of a string, its number of bytes) and their elements
    at the array indices. *)
Definition get (o : value) (k : string) : value :=
  match o with
  | VObj ps => default VUndef (assoc_get k ps)
  | VArr xs =>
      if String.eqb k "length" then VNum (Z.of_nat (length xs)) else
      match array_index k with
      | Some i => default VUndef (xs !! N.to_nat i)
      | None => VUndef
      end
  | VStr s =>
      if String.eqb k "length" then VNum (Z.of_nat (String.length s)) else
      match array_index k with
      | Some i => match String.get (N.to_nat i) s with Some c => VStr (String c EmptyString) | None => VUndef end
      | None => VUndef
      end
  | _ => VUndef
  end.

(** [o?.k]: [undefined] when [o] is nullish. *)
Definition get_opt (o : value) (k : string) : value :=
  if nullish o then VUndef else get o k.

(** [o.k] where [o] may be nullish: reading a property of [null] or
    [undefined] throws. *)
Definition get_strict (o : value) (k : string) : throws value :=
  if nullish o then Throw (TypeError ("Cannot read properties of " ++ to_str o))
  else Ret (get o k).

(** [o[i]] with a number [i]: an array element, a character of a string,
    or the property named by the decimal form of [i]; a number or a
    boolean has no such property. *)
Definition get_index (o : value) (i : Z) : value :=
  match o with
  | VArr xs => if (i <? 0)%Z then VUndef else default VUndef (xs !! Z.to_nat i)
  | VObj ps => default VUndef (assoc_get (z_to_str i) ps)
  | VStr _ => get o (z_to_str i)
  | _ => VUndef
  end.

(** [o?.[i]] *)
Definition get_index_opt (o : value) (i : Z) : value :=
  if nullish o then VUndef else get_index o i.

(** Assignment [o.k = v] on an object: an existing property keeps its place
    in the key order, a new one goes last. *)
Fixpoint assoc_set (k : string) (v : value) (ps : list (string * value)) :
    list (string * value) :=
  match ps with
  | [] => [(k, v)]
  | (k', x) :: ps' => if String.eqb k k' then (k', v) :: ps' else (k', x) :: assoc_set k v ps'
  end.

(** On a primitive the assignment is silently dropped (the client script is
    not a module, so it runs in sloppy mode). *)
Definition set (o : value) (k : string) (v : value) : value :=
  match o with
  | VObj ps => VObj (assoc_set k v ps)
  | _ => o
  end.

(** [o[i] = v] with a number [i >= 0]. *)
Definition set_index (o : value) (i : nat) (v : value) : value :=
  match o with
  | VArr xs => VArr (js_set VUndef xs i v)
  | VObj ps => VObj (assoc_set (z_to_str (Z.of_nat i)) v ps)
  | _ => o
  end.

(** [a === b]: primitives compare by value; two arrays or objects are equal
    only when they are the same reference, which the code never compares. *)
Definition strict_eq (a b : value) : bool :=
  match a, b with
  | VUndef, VUndef | VNull, VNull => true
  | VBool x, VBool y => Bool.eqb x y
  | VNum x, VNum y => Z.eqb x y
  | VStr x, VStr y => String.eqb x y
  | _, _ => false
  end.

(** ** Strings *)

Definition ascii_lower (c : ascii) : ascii :=
  let n := nat_of_ascii c in
  if (65 <=? n) && (n <=? 90) then ascii_of_nat (n + 32) else c.

(** [s.toLowerCase()] *)
Fixpoint to_lower (s : string) : string :=
  match s with
  | EmptyString => EmptyString
  | String c s' => String (ascii_lower c) (to_lower s')
  end.

(** [s.includes(t)]: [t] occurs in [s] at some position. *)
Fixpoint includes (s t : string) : bool :=
  String.prefix t s ||
  match s with
  | EmptyString => false
  | String _ s' => includes s' t
  end.

(** ** Lemmas on the operators *)

Lemma coalesce_present (a b : value) : nullish a = false -> coalesce a b = a.
Proof. unfold coalesce. by intros ->. Qed.

Lemma coalesce_absent (a b : value) : nullish a = true -> coalesce a b = b.
Proof. unfold coalesce. by intros ->. Qed.

Lemma truthy_not_nullish (v : value) : truthy v = true -> nullish v = false.
Proof. by destruct v. Qed.

Lemma assoc_get_set_eq (k : string) (v : value) (ps : list (string * value)) :
  assoc_get k (assoc_set k v ps) = Some v.
Proof.
  induction ps as [|[k' x] ps IH]; simpl; [by rewrite String.eqb_refl|].
  destruct (String.eqb_spec k k') as [->|Hne]; simpl.
  - by rewrite String.eqb_refl.
  - apply String.eqb_neq in Hne. by rewrite Hne.
Qed.

Lemma assoc_get_set_ne (k k' : string) (v : value) (ps : list (string * value)) :
  k <> k' -> assoc_get k' (assoc_set k v ps) = assoc_get k' ps.
Proof.
  intros Hne. induction ps as [|[k'' x] ps IH]; simpl.
  - apply String.eqb_neq in Hne. rewrite String.eqb_sym in Hne. by rewrite Hne.
  - destruct (String.eqb_spec k k'') as [->|Hne']; simpl.
    + apply String.eqb_neq in Hne. rewrite String.eqb_sym in Hne. by rewrite Hne.
    + by rewrite IH.
Qed.

(** A write keeps the key order: it appends the key only when it is new. *)
Lemma assoc_set_keys (k : string) (v : value) (ps : list (string * value)) :
  map fst (assoc_set k v ps) =
  if bool_decide (k ∈ map fst ps) then map fst ps else map fst ps ++ [k].
Proof.
  induction ps as [|[k' x] ps IH]; simpl; [done|].
  destruct (String.eqb_spec k k') as [->|Hne]; simpl.
  - rewrite bool_decide_true; [done|]. by left.
  - rewrite IH. case_bool_decide as Hin; case_bool_decide as Hin'; try done.
    + exfalso. apply Hin'. by right.
    + exfalso. apply elem_of_cons in Hin' as [Heq|Hin']; [done|]. done.
Qed.

Lemma get_set_eq (ps : list (string * value)) (k : string) (v : value) :
  get (set (VObj ps) k v) k = v.
Proof. simpl. by rewrite assoc_get_set_eq. Qed.

Lemma get_set_ne (ps : list (string * value)) (k k' : string) (v : value) :
  k <> k' -> get (set (VObj ps) k v) k' = get (VObj ps) k'.
Proof. intros Hne. simpl. by rewrite assoc_get_set_ne. Qed.

Lemma get_index_arr (xs : list value) (i : nat) :
  get_index (VArr xs) (Z.of_nat i) = default VUndef (xs !! i).
Proof.
  simpl. destruct (Z.ltb_spec (Z.of_nat i) 0); [lia|]. by rewrite Nat2Z.id.
Qed.

(** Distinct numbers print differently, so [o[i]] and [o[j]] name
    different properties when [i <> j]. *)
Lemma to_int_nonnil (z : Z) : Z.to_int z <> Decimal.Pos Decimal.Nil /\ Z.to_int z <> Decimal.Neg Decimal.Nil.
Proof.
  destruct z as [|p|p]; simpl; split; try done; intros [= Hp];
    by apply (DecimalPos.Unsigned.to_uint_nonnil p).
Qed.

Lemma z_to_str_inj (a b : Z) : z_to_str a = z_to_str b -> a = b.
Proof.
  unfold z_to_str. intros H. apply DecimalZ.to_int_inj.
  destruct (to_int_nonnil a) as [Ha1 Ha2], (to_int_nonnil b) as [Hb1 Hb2].
  apply (f_equal NilZero.int_of_string) in H. rewrite !NilZero.isi in H by done. congruence.
Qed.

(** A number does not print as [length], so [s[i]] is never [s.length]. *)
Lemma z_to_str_not_length (a : Z) : String.eqb (z_to_str a) "length" = false.
Proof.
  destruct (String.eqb_spec (z_to_str a) "length") as [H|]; [|done]. exfalso.
  unfold z_to_str in H. destruct (to_int_nonnil a) as [Ha1 Ha2].
  apply (f_equal NilZero.int_of_string) in H. rewrite NilZero.isi in H by done. discriminate.
Qed.

(** The empty string has no character at any index. *)
Lemma get_index_str_empty (i : Z) : get_index (VStr "") i = VUndef.
Proof.
  unfold get_index, get. rewrite z_to_str_not_length.
  destruct (array_index _) as [n|]; [|done]. by destruct (N.to_nat n).
Qed.

(** [String.prefix t s] holds exactly when [s] starts with [t]. *)
Lemma prefix_app (s t : string) :
  String.prefix t s = true <-> exists q, s = (t ++ q)%string.
Proof.
  revert s. induction t as [|c t IH]; intros s; simpl.
  - split; intros; [by exists s | by destruct s].
  - destruct s as [|c' s]; simpl.
    + split; [discriminate|]. by intros [q Hq].
    + destruct (Ascii.ascii_dec c c') as [->|Hne].
      * rewrite IH. split; intros [q Hq]; exists q; cbn in *; [by subst | by injection Hq].
      * split; [discriminate|]. intros [q Hq]. cbn in Hq. injection Hq as Heq _. congruence.
Qed.

Lemma includes_spec (s t : string) :
  includes s t = true <-> exists p q, s = (p ++ t ++ q)%string.
Proof.
  induction s as [|c s IH]; cbn [includes]; rewrite orb_true_iff, prefix_app.
  - split.
    + intros [[q Hq]|Hf]; [|discriminate]. exists ""%string, q. by cbn.
    + intros [p [q Hpq]]. left. destruct p; [by exists q|done].
  - rewrite IH. split.
    + intros [[q Hq]|[p [q Hpq]]].
      * by exists ""%string, q.
      * exists (String c p), q. by rewrite Hpq.
    + intros [[|c' p] [q Hpq]]; cbn in Hpq.
      * left. by exists q.
      * right. exists p, q. by injection Hpq.
Qed.

#[export] Hint Resolve coalesce_present coalesce_absent truthy_not_nullish : js.
#[export] Hint Rewrite assoc_get_set_eq get_set_eq get_index_arr : js_simpl.

(** ** Enumeration order of the properties of an object

    [Object.entries], [Object.keys] and [JSON.stringify] list the keys that
    are array indices first, in increasing numeric order, then the other
    keys in the order they were created. *)

Section own_order.
Context {A : Type}.

Fixpoint insert_index (i : N) (kv : string * A) (l : list (N * (string * A))) :
    list (N * (string * A)) :=
  match l with
  | [] => [(i, kv)]
  | (j, kv') :: l' =>
      if (i <=? j)%N then (i, kv) :: l else (j, kv') :: insert_index i kv l'
  end.

Fixpoint index_props (ps : list (string * A)) : list (N * (string * A)) :=
  match ps with
  | [] => []
  | kv :: ps' =>
      match array_index kv.1 with
      | Some i => insert_index i kv (index_props ps')
      | None => index_props ps'
      end
  end.

Definition own_order (ps : list (string * A)) : list (string * A) :=
  map snd (index_props ps) ++ filter (fun kv => array_index kv.1 = None) ps.
End own_order.

Lemma insert_index_perm {A} (i : N) (kv : string * A) l :
  insert_index i kv l ≡ₚ (i, kv) :: l.
Proof.
  induction l as [|[j kv'] l IH]; simpl; [done|].
  destruct (i <=? j)%N; [done|]. rewrite IH. apply Permutation_swap.
Qed.

Lemma index_props_perm {A} (ps : list (string * A)) :
  map snd (index_props ps) ≡ₚ filter (fun kv => ¬ array_index kv.1 = None) ps.
Proof.
  induction ps as [|kv ps IH]; simpl; [done|].
  destruct (array_index kv.1) as [i|] eqn:E.
  - rewrite filter_cons_True by (rewrite E; done).
    rewrite insert_index_perm. simpl. by rewrite IH.
  - rewrite filter_cons_False by (rewrite E; tauto). done.
Qed.

(** The enumeration order lists every property once. *)
Lemma own_order_perm {A} (ps : list (string * A)) : own_order ps ≡ₚ ps.
Proof.
  unfold own_order. rewrite index_props_perm, Permutation_app_comm.
  apply (filter_app_complement (fun kv => array_index kv.1 = None)).
Qed.

(** The order depends on the keys only, so it commutes with a map over the
    values. *)
Lemma own_order_map {A B} (f : A -> B) (ps : list (string * A)) :
  own_order (map (fun kv => (kv.1, f kv.2)) ps) = map (fun kv => (kv.1, f kv.2)) (own_order ps).
Proof.
  unfold own_order. rewrite map_app. f_equal.
  - assert (Hins : forall i kv (l : list (N * (string * A))),
      insert_index i (kv.1, f kv.2) (map (fun p => (p.1, (p.2.1, f p.2.2))) l) =
      map (fun p => (p.1, (p.2.1, f p.2.2))) (insert_index i kv l)).
    { intros i kv l. induction l as [|[j kv'] l IH]; simpl; [done|].
      destruct (i <=? j)%N; simpl; [done|]. by rewrite IH. }
    assert (Hidx : index_props (map (fun kv => (kv.1, f kv.2)) ps) =
                   map (fun p => (p.1, (p.2.1, f p.2.2))) (index_props ps)).
    { induction ps as [|kv ps IH]; simpl; [done|].
      destruct (array_index kv.1); [|done]. by rewrite IH, Hins. }
    rewrite Hidx, !map_map. done.
  - induction ps as [|kv ps IH]; simpl; [done|].
    destruct (decide (array_index kv.1 = None)).
    + rewrite !filter_cons_True by done. simpl. by rewrite IH.
    + rewrite !filter_cons_False by done. done.
Qed.

(** ** Lists of properties already in enumeration order *)

Section ordered.
Context {A : Type}.

(** [a] may come before [b] among the array-index keys. *)
Definition idx_le (a b : string * A) : Prop :=
  match array_index a.1, array_index b.1 with
  | Some i, Some j => (i <= j)%N
  | _, _ => False
  end.

(** The array-index keys in increasing order, then the other keys. *)
Definition props_ordered (l : list (string * A)) : Prop :=
  exists xs ys, l = xs ++ ys /\ StronglySorted idx_le xs /\
    Forall (fun kv => array_index kv.1 <> None) xs /\ Forall (fun kv => array_index kv.1 = None) ys.

Lemma index_props_app_other (l1 l2 : list (string * A)) :
  Forall (fun kv => array_index kv.1 = None) l2 -> index_props (l1 ++ l2) = index_props l1.
Proof.
  intros H2. induction l1 as [|kv l1 IH]; simpl.
  - induction H2 as [|kv l2 Hkv _ IH2]; simpl; [done|]. by rewrite Hkv.
  - by rewrite IH.
Qed.

Lemma index_props_tags (l : list (string * A)) :
  Forall (fun p => array_index p.2.1 = Some p.1) (index_props l).
Proof.
  induction l as [|kv l IH]; simpl; [constructor|].
  destruct (array_index kv.1) as [i|] eqn:E; [|done].
  induction IH as [|[j kv'] l' Hj Hl' IH']; simpl; [by constructor|].
  destruct (i <=? j)%N; constructor; try done. by constructor.
Qed.

Lemma index_props_sorted (l : list (string * A)) :
  StronglySorted (fun p q => (p.1 <= q.1)%N) (index_props l).
Proof.
  induction l as [|kv l IH]; simpl; [constructor|].
  destruct (array_index kv.1) as [i|]; [|done].
  induction IH as [|[j kv'] l' Hl' IH' Hj]; simpl; [repeat constructor|].
  destruct (i <=? j)%N eqn:Eij.
  - apply N.leb_le in Eij. constructor; [by constructor|].
    constructor; [done|]. eapply Forall_impl; [exact Hj|]. simpl. intros. lia.
  - apply N.leb_gt in Eij. constructor; [done|].
    rewrite insert_index_perm. constructor; [simpl; lia|done].
Qed.

Lemma index_props_of_sorted (l : list (string * A)) :
  StronglySorted idx_le l -> Forall (fun kv => array_index kv.1 <> None) l ->
  map snd (index_props l) = l.
Proof.
  intros Hs Hi. cut (index_props l = map (fun kv => (default 0%N (array_index kv.1), kv)) l).
  { intros ->. rewrite map_map. apply map_id. }
  induction Hs as [|kv l Hs IH Hle]; simpl; [done|].
  apply Forall_cons in Hi as [Hkv Hi]. rewrite IH by done.
  destruct (array_index kv.1) as [i|] eqn:E; [|done]. simpl.
  destruct l as [|kv' l]; [done|]. simpl.
  apply Forall_cons in Hle as [Hle _]. unfold idx_le in Hle. rewrite E in Hle.
  destruct (array_index kv'.1) as [j|]; [|done]. simpl. by rewrite (proj2 (N.leb_le i j) Hle).
Qed.

(** A list in enumeration order is left as it is. *)
Lemma own_order_ordered (l : list (string * A)) : props_ordered l -> own_order l = l.
Proof.
  intros (xs & ys & -> & Hs & Hx & Hy). unfold own_order.
  rewrite index_props_app_other, index_props_of_sorted by done.
  rewrite filter_app, (filter_all_true _ ys) by (by apply Forall_forall). f_equal.
  rewrite <- (app_nil_l ys) at 2. f_equal.
  induction Hx as [|kv xs' Hkv _ IH]; [done|]. rewrite filter_cons_False by exact Hkv. apply IH. by inversion Hs.
Qed.

Lemma own_order_is_ordered (l : list (string * A)) : props_ordered (own_order l).
Proof.
  exists (map snd (index_props l)), (filter (fun kv => array_index kv.1 = None) l).
  split; [done|]. pose proof (index_props_tags l) as Ht. pose proof (index_props_sorted l) as Hs.
  split_and!.
  - induction Hs as [|p l' Hs IH Hp]; simpl; constructor.
    + apply IH. by inversion Ht.
    + apply Forall_cons in Ht as [Htp Ht]. apply Forall_map.
      eapply Forall_impl; [apply Forall_and; split; [exact Hp|exact Ht]|].
      intros q [Hpq Hq]. unfold idx_le. by rewrite Htp, Hq.
  - apply Forall_map. eapply Forall_impl; [exact Ht|]. simpl. intros p ->. done.
  - apply Forall_forall. intros kv Hkv. by apply list_elem_of_filter in Hkv as [? _].
Qed.

End ordered.

(** Dropping properties and changing values keeps the order. *)
Lemma props_ordered_omap {A B} (F : string * A -> option (string * B)) (l : list (string * A)) :
  (forall kv kv', F kv = Some kv' -> kv'.1 = kv.1) ->
  props_ordered l -> props_ordered (omap F l).
Proof.
  intros HF (xs & ys & -> & Hs & Hx & Hy). rewrite omap_app.
  exists (omap F xs), (omap F ys). split; [done|]. split_and!.
  - induction Hs as [|kv xs Hs IH Hle]; simpl; [constructor|].
    apply Forall_cons in Hx as [Hkv Hx].
    destruct (F kv) as [kv'|] eqn:E; [|by apply IH]. constructor; [by apply IH|].
    apply Forall_forall. intros kv2 Hkv2. apply list_elem_of_omap in Hkv2 as (kv1 & Hin & E1).
    rewrite Forall_forall in Hle. specialize (Hle kv1 Hin). unfold idx_le in *.
    by rewrite (HF _ _ E), (HF _ _ E1).
  - apply Forall_forall. intros kv2 Hkv2. apply list_elem_of_omap in Hkv2 as (kv1 & Hin & E1).
    rewrite (HF _ _ E1). rewrite Forall_forall in Hx. by apply Hx.
  - apply Forall_forall. intros kv2 Hkv2. apply list_elem_of_omap in Hkv2 as (kv1 & Hin & E1).
    rewrite (HF _ _ E1). rewrite Forall_forall in Hy. by apply Hy.
Qed.
