(* ===== verification/Json.v ===== *)
(** * [JSON.stringify] and [formatValue]

    The client shows a value that is neither a string, a number nor nullish
    as its JSON text ([formatValue], app.js lines 19-24), and both programs
    send and store documents as JSON text.  This file models
    [JSON.stringify] over [JsValue.value], compact and indented:
    [undefined] has no JSON text, becomes [null] inside an array and drops
    its property inside an object; strings are quoted with the escapes of
    the standard; properties follow the enumeration order [own_order]. *)

From S2P Require Import Prelude JsValue.

Local Open Scope string_scope.

Definition chr (n : nat) : string := String (ascii_of_nat n) EmptyString.

Definition dquote : string := chr 34.
Definition backslash : string := chr 92.

Definition hex_digit (n : nat) : string :=
  if Nat.ltb n 10 then chr (48 + n) else chr (87 + n).

(** The escape of one character of a string literal. *)
Definition escape_char (c : ascii) : string :=
  let n := nat_of_ascii c in
  if Nat.eqb n 34 then backslash ++ dquote
  else if Nat.eqb n 92 then backslash ++ backslash
  else if Nat.eqb n 8 then backslash ++ "b"
  else if Nat.eqb n 12 then backslash ++ "f"
  else if Nat.eqb n 10 then backslash ++ "n"
  else if Nat.eqb n 13 then backslash ++ "r"
  else if Nat.eqb n 9 then backslash ++ "t"
  else if Nat.ltb n 32 then backslash ++ "u00" ++ hex_digit (Nat.div n 16) ++ hex_digit (Nat.modulo n 16)
  else String c EmptyString.

Fixpoint escape (s : string) : string :=
  match s with
  | EmptyString => EmptyString
  | String c s' => escape_char c ++ escape s'
  end.

(** [QuoteJSONString] *)
Definition quote (s : string) : string := dquote ++ escape s ++ dquote.

(** The brackets around the serialised elements or members
    ([SerializeJSONArray] and [SerializeJSONObject]): with an empty gap
    they are joined by commas; otherwise each goes on a line of its own,
    indented by [indent] followed by the gap, and the closing bracket on a
    line indented by [indent]. *)
Definition wrap (op cl gap indent : string) (parts : list string) : string :=
  match parts with
  | [] => op ++ cl
  | _ =>
      if String.eqb gap "" then op ++ String.concat "," parts ++ cl
      else
        let nl := String (ascii_of_nat 10) EmptyString in
        op ++ nl ++ indent ++ gap ++ String.concat ("," ++ nl ++ indent ++ gap) parts
           ++ nl ++ indent ++ cl
  end.

(** [SerializeJSONProperty] with the gap [gap] (the [space] argument of
    [JSON.stringify]) at the indentation [indent]; [None] is the result
    [undefined]. *)
Fixpoint serialize (gap indent : string) (v : value) : option string :=
  match v with
  | VUndef => None
  | VNull => Some "null"
  | VBool true => Some "true"
  | VBool false => Some "false"
  | VNum n => Some (z_to_str n)
  | VStr s => Some (quote s)
  | VArr xs =>
      Some (wrap "[" "]" gap indent
              ((fix go (l : list value) : list string :=
                  match l with
                  | [] => []
                  | x :: l' => default "null" (serialize gap (indent ++ gap) x) :: go l'
                  end) xs))
  | VObj ps =>
      Some (wrap "{" "}" gap indent
              (omap (fun kv : string * option string =>
                       match kv.2 with
                       | Some s => Some (quote kv.1 ++ ":" ++ (if String.eqb gap "" then "" else " ") ++ s)
                       | None => None
                       end)
                 (own_order
                    ((fix go (l : list (string * value)) : list (string * option string) :=
                        match l with
                        | [] => []
                        | (k, x) :: l' => (k, serialize gap (indent ++ gap) x) :: go l'
                        end) ps))))
  end.

(** [JSON.stringify(v)]: the compact form, as [res.json], [fetch] bodies
    and [formatValue] use it. *)
Definition stringify (v : value) : option string := serialize "" "" v.

(** [JSON.stringify(v, null, 2)], the form [saveWorkflow] and [saveModels]
    write to disk (server.js lines 34-36 and 43-45). *)
Definition stringify_pretty (v : value) : option string := serialize "  " "" v.

(** [formatValue] (app.js lines 19-24). *)
Definition formatValue (v : value) : string :=
  match v with
  | VStr s => s
  | VNum n => z_to_str n
  | VUndef | VNull => ""
  | _ => default "" (stringify v)
  end.
