(* ===== verification/Html.v ===== *)
(** * The start tags a browser creates from markup

    Three places of the client write markup: [renderModels] sets the
    [innerHTML] of every list item of the registry from a template literal
    with the fields of the entry (app.js lines 70-77), and [renderGallery]
    sets fixed placeholder paragraphs (app.js lines 191, 192 and 208).  The
    elements the browser creates are the start tags its HTML tokenizer
    emits from that text.

    This file models the tokenizer of the HTML Living Standard (section
    13.2.5) as far as it decides which start tags a text opens: the data
    state, tag open, end tag open, tag name, the attribute states with
    quoted and unquoted values, self-closing tags, the markup declaration
    (comments with their end states, DOCTYPE, bogus comments), and the
    text states the tree builder switches to after the start tag of
    [title], [textarea] (RCDATA), [style], [xmp], [iframe], [noembed],
    [noframes] (RAWTEXT), [script] (script data) and [plaintext], which
    only the element's end tag ends.  A start tag is emitted when its [>]
    is read, with its name in lower case.  Not modelled: character
    references (they produce text, never a tag), the comment less-than
    sign states (they only report parse errors), the escape states of
    script data, [noscript] (RAWTEXT only when scripting is enabled), and
    the tree construction stage beyond these switches (foreign content,
    [template] contents, ignored tags): a start tag counts as an element.

    [tk_run_app] is the composition lemma: the tokenizer runs over a
    concatenation as over its parts in turn, so a field inserted between
    two pieces of a template after which the tokenizer is back in the data
    state adds exactly the tags of the field. *)

From S2P Require Import Prelude JsValue Json.

Local Open Scope string_scope.

(** The tag being read: a start tag with its name so far (lower case), or
    an end tag, whose name no state needs. *)
Inductive tag := StartTag (name : string) | EndTag.

Inductive tk_state :=
  | TData                                   (* data *)
  | TTagOpen                                (* tag open, after [<] *)
  | TEndTagOpen                             (* end tag open, after [</] *)
  | TTagName (t : tag)                      (* tag name *)
  | TBeforeAttrName (t : tag)               (* before attribute name *)
  | TAttrName (t : tag)                     (* attribute name *)
  | TAfterAttrName (t : tag)                (* after attribute name *)
  | TBeforeAttrValue (t : tag)              (* before attribute value *)
  | TAttrValueQuoted (t : tag) (q : ascii)  (* attribute value, quoted by [q] *)
  | TAttrValueUnquoted (t : tag)            (* attribute value (unquoted) *)
  | TAfterAttrValueQuoted (t : tag)         (* after attribute value (quoted) *)
  | TSelfClosing (t : tag)                  (* self-closing start tag *)
  | TMarkupDecl (buf : string)              (* markup declaration open, the characters after [<!] so far *)
  | TCommentStart | TCommentStartDash | TComment | TCommentEndDash | TCommentEnd | TCommentEndBang
  | TBogusComment                           (* bogus comment, up to [>] *)
  | TDoctype                                (* the DOCTYPE states, up to [>] *)
  | TText (name : string)                   (* RCDATA, RAWTEXT or script data of the element [name] *)
  | TTextLt (name : string)                 (* ... after [<] *)
  | TTextEndOpen (name : string)            (* ... after [</] *)
  | TTextEndName (name buf : string)        (* ... reading a possible end tag name *)
  | TPlaintext.                             (* PLAINTEXT: the rest is text *)

Definition is_alpha (c : ascii) : bool :=
  let n := nat_of_ascii c in (Nat.leb 65 n && Nat.leb n 90) || (Nat.leb 97 n && Nat.leb n 122).

Definition html_ws (c : ascii) : bool :=
  let n := nat_of_ascii c in
  Nat.eqb n 9 || Nat.eqb n 10 || Nat.eqb n 12 || Nat.eqb n 13 || Nat.eqb n 32.

Definition is_quote (c : ascii) : bool := Nat.eqb (nat_of_ascii c) 34 || Nat.eqb (nat_of_ascii c) 39.

(** The state the tree builder puts the tokenizer in after it inserted
    the element of a start tag (section 13.2.6.4.7, "in body"): the text
    of [title] and [textarea] is RCDATA, of [style], [xmp], [iframe],
    [noembed] and [noframes] RAWTEXT, of [script] script data, all ended
    by the element's end tag, and everything after [plaintext] is text. *)
Definition after_start_tag (name : string) : tk_state :=
  if String.eqb name "plaintext" then TPlaintext
  else if existsb (String.eqb name) ["title"; "textarea"; "style"; "xmp"; "iframe"; "noembed"; "noframes";
                                     "script"]
  then TText name else TData.

(** A tag ends at its [>]: a start tag is emitted. *)
Definition emit (t : tag) : tk_state * list string :=
  match t with
  | StartTag n => (after_start_tag n, [n])
  | EndTag => (TData, [])
  end.

Definition append_lower (t : tag) (c : ascii) : tag :=
  match t with StartTag n => StartTag (n ++ String (ascii_lower c) EmptyString) | EndTag => EndTag end.

(** A character of the text of [name], reconsumed in its text state. *)
Definition text_char (name : string) (c : ascii) : tk_state :=
  if Ascii.eqb c "<" then TTextLt name else TText name.

(** The markup declaration open state looks ahead for [--], [DOCTYPE]
    (any case) or [[CDATA[]; [buf] holds the characters read so far. *)
Definition markup_decl (buf : string) (c : ascii) : tk_state :=
  let b := (buf ++ String c EmptyString)%string in
  if String.eqb b "--" then TCommentStart
  else if String.eqb (to_lower b) "doctype" then TDoctype
  else if String.eqb b "[CDATA[" then TBogusComment
  else if String.prefix b "--" || String.prefix (to_lower b) "doctype" || String.prefix b "[CDATA[" then TMarkupDecl b
  else if Ascii.eqb c ">" then TData else TBogusComment.

(** One character: the next state and the start tags emitted. *)
Definition tk_step (st : tk_state) (c : ascii) : tk_state * list string :=
  match st with
  | TData => if Ascii.eqb c "<" then (TTagOpen, []) else (TData, [])
  | TTagOpen =>
      if Ascii.eqb c "!" then (TMarkupDecl "", [])
      else if Ascii.eqb c "/" then (TEndTagOpen, [])
      else if is_alpha c then (TTagName (StartTag (String (ascii_lower c) EmptyString)), [])
      else if Ascii.eqb c "?" then (TBogusComment, [])
      else if Ascii.eqb c "<" then (TTagOpen, [])
      else (TData, [])
  | TEndTagOpen =>
      if is_alpha c then (TTagName EndTag, [])
      else if Ascii.eqb c ">" then (TData, []) else (TBogusComment, [])
  | TTagName t =>
      if html_ws c then (TBeforeAttrName t, [])
      else if Ascii.eqb c "/" then (TSelfClosing t, [])
      else if Ascii.eqb c ">" then emit t
      else (TTagName (append_lower t c), [])
  | TBeforeAttrName t =>
      if html_ws c then (TBeforeAttrName t, [])
      else if Ascii.eqb c "/" then (TSelfClosing t, [])
      else if Ascii.eqb c ">" then emit t
      else (TAttrName t, [])
  | TAttrName t =>
      if html_ws c then (TAfterAttrName t, [])
      else if Ascii.eqb c "/" then (TSelfClosing t, [])
      else if Ascii.eqb c ">" then emit t
      else if Ascii.eqb c "=" then (TBeforeAttrValue t, [])
      else (TAttrName t, [])
  | TAfterAttrName t =>
      if html_ws c then (TAfterAttrName t, [])
      else if Ascii.eqb c "/" then (TSelfClosing t, [])
      else if Ascii.eqb c "=" then (TBeforeAttrValue t, [])
      else if Ascii.eqb c ">" then emit t
      else (TAttrName t, [])
  | TBeforeAttrValue t =>
      if html_ws c then (TBeforeAttrValue t, [])
      else if is_quote c then (TAttrValueQuoted t c, [])
      else if Ascii.eqb c ">" then emit t
      else (TAttrValueUnquoted t, [])
  | TAttrValueQuoted t q => if Ascii.eqb c q then (TAfterAttrValueQuoted t, []) else (TAttrValueQuoted t q, [])
  | TAttrValueUnquoted t =>
      if html_ws c then (TBeforeAttrName t, [])
      else if Ascii.eqb c ">" then emit t
      else (TAttrValueUnquoted t, [])
  | TAfterAttrValueQuoted t =>
      if html_ws c then (TBeforeAttrName t, [])
      else if Ascii.eqb c "/" then (TSelfClosing t, [])
      else if Ascii.eqb c ">" then emit t
      else (TAttrName t, [])
  | TSelfClosing t =>
      if Ascii.eqb c ">" then emit t
      else if html_ws c then (TBeforeAttrName t, [])
      else (TAttrName t, [])
  | TMarkupDecl buf => (markup_decl buf c, [])
  | TCommentStart =>
      if Ascii.eqb c "-" then (TCommentStartDash, [])
      else if Ascii.eqb c ">" then (TData, []) else (TComment, [])
  | TCommentStartDash =>
      if Ascii.eqb c "-" then (TCommentEnd, [])
      else if Ascii.eqb c ">" then (TData, []) else (TComment, [])
  | TComment => if Ascii.eqb c "-" then (TCommentEndDash, []) else (TComment, [])
  | TCommentEndDash => if Ascii.eqb c "-" then (TCommentEnd, []) else (TComment, [])
  | TCommentEnd =>
      if Ascii.eqb c ">" then (TData, [])
      else if Ascii.eqb c "!" then (TCommentEndBang, [])
      else if Ascii.eqb c "-" then (TCommentEnd, []) else (TComment, [])
  | TCommentEndBang =>
      if Ascii.eqb c "-" then (TCommentEndDash, [])
      else if Ascii.eqb c ">" then (TData, []) else (TComment, [])
  | TBogusComment => if Ascii.eqb c ">" then (TData, []) else (TBogusComment, [])
  | TDoctype => if Ascii.eqb c ">" then (TData, []) else (TDoctype, [])
  | TText n => (text_char n c, [])
  | TTextLt n => if Ascii.eqb c "/" then (TTextEndOpen n, []) else (text_char n c, [])
  | TTextEndOpen n =>
      if is_alpha c then (TTextEndName n (String (ascii_lower c) EmptyString), []) else (text_char n c, [])
  | TTextEndName n buf =>
      if is_alpha c then (TTextEndName n (buf ++ String (ascii_lower c) EmptyString), [])
      else if String.eqb buf n && html_ws c then (TBeforeAttrName EndTag, [])
      else if String.eqb buf n && Ascii.eqb c "/" then (TSelfClosing EndTag, [])
      else if String.eqb buf n && Ascii.eqb c ">" then (TData, [])
      else (text_char n c, [])
  | TPlaintext => (TPlaintext, [])
  end.

Fixpoint tk_run (st : tk_state) (s : string) : tk_state * list string :=
  match s with
  | EmptyString => (st, [])
  | String c s' =>
      let '(st1, e1) := tk_step st c in
      let '(st2, e2) := tk_run st1 s' in
      (st2, (e1 ++ e2)%list)
  end.

(** The start tags of markup assigned to [innerHTML]. *)
Definition start_tags (html : string) : list string := (tk_run TData html).2.

(** A text after which the tokenizer is back in the data state. *)
Definition data_closed (s : string) : bool :=
  match (tk_run TData s).1 with TData => true | _ => false end.

(** ** Lemmas *)

Lemma tk_run_app (st : tk_state) (a b : string) :
  tk_run st (a ++ b) =
    let '(st1, e1) := tk_run st a in
    let '(st2, e2) := tk_run st1 b in
    (st2, (e1 ++ e2)%list).
Proof.
  revert st. induction a as [|c a IH]; intros st.
  - rewrite str_app_nil_l. cbn. by destruct (tk_run st b).
  - rewrite str_app_cons. cbn. destruct (tk_step st c) as [st1 e1]. rewrite IH.
    destruct (tk_run st1 a) as [st2 e2]. destruct (tk_run st2 b) as [st3 e3].
    by rewrite app_assoc.
Qed.

(** A text inserted in the data state after which the tokenizer is in the
    data state again adds exactly its own start tags. *)
Lemma start_tags_insert (pre s : string) (tags : list string) (post : string) :
  tk_run TData pre = (TData, tags) -> data_closed s = true ->
  start_tags (pre ++ s ++ post) = (tags ++ start_tags s ++ (tk_run TData post).2)%list.
Proof.
  intros Hpre Hs. unfold start_tags, data_closed in *.
  rewrite tk_run_app, Hpre. cbv iota beta. rewrite tk_run_app.
  destruct (tk_run TData s) as [st e]. destruct st; try done.
  by destruct (tk_run TData post).
Qed.

(** Everything after a [plaintext] start tag is text. *)
Lemma tk_run_plaintext (s : string) : tk_run TPlaintext s = (TPlaintext, []).
Proof. induction s as [|c s IH]; [done|]. cbn. by rewrite IH. Qed.

(** A text closed in the data state runs to its own start tags. *)
Lemma tk_run_closed (a : string) : data_closed a = true -> tk_run TData a = (TData, start_tags a).
Proof.
  unfold data_closed, start_tags. destruct (tk_run TData a) as [st e]. cbn. by destruct st.
Qed.

(** A [plaintext] start tag inserted in the data state ends the markup:
    the start tags are those before it and [plaintext]. *)
Lemma start_tags_plaintext (pre a b post : string) (tags : list string) :
  tk_run TData pre = (TData, tags) -> data_closed a = true ->
  start_tags (pre ++ (a ++ "<plaintext>" ++ b) ++ post) = (tags ++ start_tags a ++ ["plaintext"])%list.
Proof.
  intros Hpre Ha. unfold start_tags at 1. rewrite tk_run_app, Hpre. cbv iota beta.
  rewrite (tk_run_app TData (a ++ "<plaintext>" ++ b) post), (tk_run_app TData a ("<plaintext>" ++ b)),
    (tk_run_closed a Ha). cbv iota beta. rewrite tk_run_app.
  replace (tk_run TData "<plaintext>") with (TPlaintext, ["plaintext"]) by reflexivity. cbv iota beta.
  rewrite !tk_run_plaintext. cbn. by rewrite !app_nil_r.
Qed.
