(* ===== verification/JsonParse.v ===== *)
(** * [JSON.parse] and the round trip through JSON text

    Every document of the repository travels as JSON text: the client posts
    [JSON.stringify(workflow)], Express parses the body ([express.json]),
    [saveWorkflow] writes [JSON.stringify(workflow, null, 2)] to disk,
    [loadWorkflow] reads it back with [JSON.parse], [res.json] sends it
    compact and the client parses it with [response.json()].

    This file models [JSON.parse] as a recursive-descent parser over the
    text, with fuel bounding the depth of its calls ([parse_value],
    [parse_elems], [parse_members]); [JSON_parse] runs it with fuel one
    more than the length of the text, which is enough for every text:
    [JSON_parse_fuel_enough] shows it is the parser with unbounded fuel,
    and [JSON_parse_json_value] that what it returns is a JSON value.  Objects are built as
    [JSON.parse] builds them, by [CreateDataProperty] in the order of the
    text ([assoc_set]: a repeated key keeps its first position and takes
    its last value).

    The parser accepts the JSON grammar with two restrictions of the
    model of values: a number with a fraction or an exponent, and a
    [\u] escape of a character outside ASCII, are not represented and
    make it return [None] (as a syntax error does).

    The main theorem, [parse_serialize], is the round trip: the text of
    [serialize gap indent v] for any gap made of spaces parses back to the
    value [normalize_opt v] that [JSON.parse] yields in JavaScript
    (undefined properties dropped, undefined elements become null,
    properties in enumeration order). *)

From Stdlib Require Import DecimalString DecimalZ DecimalPos.
From S2P Require Import Prelude JsValue Json.

Local Open Scope string_scope.

(** The double quote character (code 34), usable in patterns. *)
Abbreviation QUOTE := (Ascii false true false false false true false false).

(** ** The parser *)


Definition is_ws (c : ascii) : bool :=
  let n := nat_of_ascii c in
  Nat.eqb n 32 || Nat.eqb n 9 || Nat.eqb n 10 || Nat.eqb n 13.

Fixpoint skip_ws (s : string) : string :=
  match s with
  | String c s' => if is_ws c then skip_ws s' else s
  | EmptyString => EmptyString
  end.

Definition hex_val (c : ascii) : option nat :=
  let n := nat_of_ascii c in
  if (Nat.leb 48 n) && (Nat.leb n 57) then Some (n - 48)
  else if (Nat.leb 97 n) && (Nat.leb n 102) then Some (n - 87)
  else if (Nat.leb 65 n) && (Nat.leb n 70) then Some (n - 55)
  else None.

(** The character of a one-letter escape: a backslash followed by a
    double quote, a backslash, a slash, [b], [f], [n], [r] or [t]. *)
Definition unescape (e : ascii) : option ascii :=
  let n := nat_of_ascii e in
  if Nat.eqb n 34 then Some (ascii_of_nat 34)
  else if Nat.eqb n 92 then Some (ascii_of_nat 92)
  else if Nat.eqb n 47 then Some (ascii_of_nat 47)
  else if Nat.eqb n 98 then Some (ascii_of_nat 8)
  else if Nat.eqb n 102 then Some (ascii_of_nat 12)
  else if Nat.eqb n 110 then Some (ascii_of_nat 10)
  else if Nat.eqb n 114 then Some (ascii_of_nat 13)
  else if Nat.eqb n 116 then Some (ascii_of_nat 9)
  else None.

(** The code unit of [\uXXXX]. *)
Definition hex4 (a b c d : ascii) : option nat :=
  match hex_val a, hex_val b, hex_val c, hex_val d with
  | Some x, Some y, Some z, Some w => Some (((x * 16 + y) * 16 + z) * 16 + w)
  | _, _, _, _ => None
  end.

Definition cons_fst (c : ascii) (r : option (string * string)) : option (string * string) :=
  match r with
  | Some (t, rest) => Some (String c t, rest)
  | None => None
  end.

(** The characters of a string literal after its opening quote: its
    contents and the text after the closing quote.  A raw control
    character is a syntax error. *)
Fixpoint parse_chars (s : string) : option (string * string) :=
  match s with
  | EmptyString => None
  | String c s1 =>
      let n := nat_of_ascii c in
      if Nat.eqb n 34 then Some (EmptyString, s1)
      else if Nat.eqb n 92 then
        match s1 with
        | String e s2 =>
            match unescape e with
            | Some c' => cons_fst c' (parse_chars s2)
            | None =>
                if Nat.eqb (nat_of_ascii e) 117 then
                  match s2 with
                  | String h1 (String h2 (String h3 (String h4 s3))) =>
                      match hex4 h1 h2 h3 h4 with
                      | Some code => if Nat.ltb code 128
                                     then cons_fst (ascii_of_nat code) (parse_chars s3)
                                     else None
                      | None => None
                      end
                  | _ => None
                  end
                else None
            end
        | EmptyString => None
        end
      else if Nat.ltb n 32 then None
      else cons_fst c (parse_chars s1)
  end.

(** The digits at the head of a string, and the rest. *)
Fixpoint take_digits (s : string) : string * string :=
  match s with
  | String c s' =>
      match digit_of c with
      | Some _ => let '(d, r) := take_digits s' in (String c d, r)
      | None => (EmptyString, s)
      end
  | EmptyString => (EmptyString, EmptyString)
  end.

(** The integer part of a number: [0] alone, or the digits that follow a
    digit from 1 to 9. *)
Definition int_digits (s : string) : string * string :=
  match s with
  | String "0"%char r => ("0", r)
  | _ => take_digits s
  end.

(** A number: an optional minus sign, then its integer part.  A fraction or an exponent is outside the model. *)
Definition parse_number (s : string) : option (value * string) :=
  let '(sign, s1) := match s with
                     | String "-"%char r => ("-", r)
                     | _ => ("", s)
                     end in
  let '(ds, r) := int_digits s1 in
  match ds with
  | EmptyString => None
  | _ =>
      match r with
      | String c _ =>
          if Ascii.eqb c "." || Ascii.eqb c "e" || Ascii.eqb c "E" then None
          else option_map (fun i => (VNum (Z.of_int i), r)) (NilZero.int_of_string (sign ++ ds))
      | EmptyString => option_map (fun i => (VNum (Z.of_int i), r)) (NilZero.int_of_string (sign ++ ds))
      end
  end.

(** A value, after white space: the first character decides its kind. *)
Fixpoint parse_value (fuel : nat) (s : string) : option (value * string) :=
  match fuel with
  | O => None
  | S f =>
      match skip_ws s with
      | EmptyString => None
      | String c r =>
          if Ascii.eqb c "n" then
            match r with
            | String "u"%char (String "l"%char (String "l"%char r')) => Some (VNull, r')
            | _ => None
            end
          else if Ascii.eqb c "t" then
            match r with
            | String "r"%char (String "u"%char (String "e"%char r')) => Some (VBool true, r')
            | _ => None
            end
          else if Ascii.eqb c "f" then
            match r with
            | String "a"%char (String "l"%char (String "s"%char (String "e"%char r'))) =>
                Some (VBool false, r')
            | _ => None
            end
          else if Ascii.eqb c QUOTE then
            match parse_chars r with
            | Some (t, r') => Some (VStr t, r')
            | None => None
            end
          else if Ascii.eqb c "[" then
            match skip_ws r with
            | String c' r' => if Ascii.eqb c' "]" then Some (VArr [], r') else parse_elems f r []
            | EmptyString => None
            end
          else if Ascii.eqb c "{" then
            match skip_ws r with
            | String c' r' => if Ascii.eqb c' "}" then Some (VObj [], r') else parse_members f r []
            | EmptyString => None
            end
          else parse_number (String c r)
      end
  end

(** The elements of an array after its opening bracket; [acc] holds the
    elements already read. *)
with parse_elems (fuel : nat) (s : string) (acc : list value) : option (value * string) :=
  match fuel with
  | O => None
  | S f =>
      match parse_value f s with
      | Some (x, r) =>
          match skip_ws r with
          | String ","%char r' => parse_elems f r' (acc ++ [x])
          | String "]"%char r' => Some (VArr (acc ++ [x]), r')
          | _ => None
          end
      | None => None
      end
  end

(** The members of an object after its opening brace; each is added with
    [CreateDataProperty] to the members [acc] already read. *)
with parse_members (fuel : nat) (s : string) (acc : list (string * value)) :
    option (value * string) :=
  match fuel with
  | O => None
  | S f =>
      match skip_ws s with
      | String c r =>
          if Ascii.eqb c QUOTE then
            match parse_chars r with
            | Some (k, r1) =>
                match skip_ws r1 with
                | String ":"%char r2 =>
                    match parse_value f r2 with
                    | Some (x, r3) =>
                        match skip_ws r3 with
                        | String ","%char r4 => parse_members f r4 (assoc_set k x acc)
                        | String "}"%char r4 => Some (VObj (assoc_set k x acc), r4)
                        | _ => None
                        end
                    | None => None
                    end
                | _ => None
                end
            | None => None
            end
          else None
      | EmptyString => None
      end
  end.

(** [JSON.parse(text)]: a value followed by white space only. *)
Definition JSON_parse (text : string) : option value :=
  match parse_value (S (String.length text)) text with
  | Some (v, r) => match skip_ws r with EmptyString => Some v | _ => None end
  | None => None
  end.

(** The branches of [parse_value] that read no nested value. *)
Definition parse_scalar (c : ascii) (r : string) : option (value * string) :=
  if Ascii.eqb c "n" then
    match r with
    | String "u"%char (String "l"%char (String "l"%char r')) => Some (VNull, r')
    | _ => None
    end
  else if Ascii.eqb c "t" then
    match r with
    | String "r"%char (String "u"%char (String "e"%char r')) => Some (VBool true, r')
    | _ => None
    end
  else if Ascii.eqb c "f" then
    match r with
    | String "a"%char (String "l"%char (String "s"%char (String "e"%char r'))) =>
        Some (VBool false, r')
    | _ => None
    end
  else if Ascii.eqb c QUOTE then
    match parse_chars r with
    | Some (t, r') => Some (VStr t, r')
    | None => None
    end
  else parse_number (String c r).

(** ** What [JSON.parse(JSON.stringify(v))] is *)

(** The value read back from the text of [v]; [None] when [v] has no
    text. *)
Fixpoint normalize_opt (v : value) : option value :=
  match v with
  | VUndef => None
  | VArr xs =>
      Some (VArr ((fix go (l : list value) : list value :=
                     match l with
                     | [] => []
                     | x :: l' => default VNull (normalize_opt x) :: go l'
                     end) xs))
  | VObj ps =>
      Some (VObj (omap (fun kv : string * option value =>
                          match kv.2 with Some x => Some (kv.1, x) | None => None end)
                   (own_order
                      ((fix go (l : list (string * value)) : list (string * option value) :=
                          match l with
                          | [] => []
                          | (k, x) :: l' => (k, normalize_opt x) :: go l'
                          end) ps))))
  | _ => Some v
  end.

(** Objects without a repeated key, at every depth: the values JavaScript
    can hold. *)
Fixpoint keys_unique (v : value) : Prop :=
  match v with
  | VArr xs => (fix go (l : list value) : Prop :=
                  match l with [] => True | x :: l' => keys_unique x /\ go l' end) xs
  | VObj ps => NoDup (map fst ps) /\
      (fix go (l : list (string * value)) : Prop :=
         match l with [] => True | (_, x) :: l' => keys_unique x /\ go l' end) ps
  | _ => True
  end.

(** The values [JSON.parse] returns: no [undefined] at any depth and no
    object with a repeated key. *)
Fixpoint json_value (v : value) : Prop :=
  match v with
  | VUndef => False
  | VArr xs => (fix go (l : list value) : Prop :=
                  match l with [] => True | x :: l' => json_value x /\ go l' end) xs
  | VObj ps => NoDup (map fst ps) /\
      (fix go (l : list (string * value)) : Prop :=
         match l with [] => True | (_, x) :: l' => json_value x /\ go l' end) ps
  | _ => True
  end.

(** The text that may follow a number without extending it. *)
Definition num_end (r : string) : bool :=
  match r with
  | EmptyString => true
  | String c _ =>
      match digit_of c with
      | Some _ => false
      | None => negb (Ascii.eqb c "." || Ascii.eqb c "e" || Ascii.eqb c "E")
      end
  end.

Fixpoint ws_only (s : string) : bool :=
  match s with
  | EmptyString => true
  | String c s' => is_ws c && ws_only s'
  end.

(** The executable test of [keys_unique]. *)
Fixpoint keys_uniqueb (v : value) : bool :=
  match v with
  | VArr xs => (fix go (l : list value) : bool :=
                  match l with [] => true | x :: l' => keys_uniqueb x && go l' end) xs
  | VObj ps => bool_decide (NoDup (List.map fst ps)) &&
      (fix go (l : list (string * value)) : bool :=
         match l with [] => true | (_, x) :: l' => keys_uniqueb x && go l' end) ps
  | _ => true
  end.

(** ** White space *)

Lemma skip_ws_app (w s : string) : ws_only w = true -> skip_ws (w ++ s) = skip_ws s.
Proof.
  induction w as [|c w IH]; [done|]. rewrite str_app_cons. simpl.
  intros [Hc Hw]%andb_prop. rewrite Hc. by apply IH.
Qed.

Lemma skip_ws_stop (c : ascii) (s : string) : is_ws c = false -> skip_ws (String c s) = String c s.
Proof. simpl. by intros ->. Qed.

Lemma parse_value_ws (f : nat) (w s : string) :
  ws_only w = true -> parse_value f (w ++ s) = parse_value f s.
Proof. intros Hw. destruct f; [done|]. simpl. by rewrite skip_ws_app. Qed.

Lemma parse_elems_ws (f : nat) (w s : string) acc :
  ws_only w = true -> parse_elems f (w ++ s) acc = parse_elems f s acc.
Proof. intros Hw. destruct f; [done|]. simpl. by rewrite parse_value_ws. Qed.

Lemma parse_members_ws (f : nat) (w s : string) acc :
  ws_only w = true -> parse_members f (w ++ s) acc = parse_members f s acc.
Proof. intros Hw. destruct f; [done|]. simpl. by rewrite skip_ws_app. Qed.

Lemma ws_only_app (a b : string) : ws_only (a ++ b) = ws_only a && ws_only b.
Proof. induction a as [|c a IH]; [done|]. rewrite str_app_cons. simpl. by rewrite IH, andb_assoc. Qed.

Lemma num_end_ws (w s : string) (c : ascii) :
  ws_only w = true -> is_ws c = false ->
  Ascii.eqb c "," || Ascii.eqb c "]" || Ascii.eqb c "}" = true -> num_end (w ++ String c s) = true.
Proof.
  destruct w as [|c' w]; [|rewrite str_app_cons]; simpl.
  - intros _ _. by destruct c as [[] [] [] [] [] [] [] []].
  - intros [Hc' _]%andb_prop _ _. by destruct c' as [[] [] [] [] [] [] [] []].
Qed.

(** ** String literals *)

(** Each escape of [escape_char] is read back as the character it
    escapes (checked on the 256 characters). *)
Lemma parse_escape_char (c : ascii) (rest : string) :
  parse_chars (escape_char c ++ rest) = cons_fst c (parse_chars rest).
Proof. destruct c as [[] [] [] [] [] [] [] []]; reflexivity. Qed.

Lemma parse_chars_escape (s rest : string) :
  parse_chars (escape s ++ dquote ++ rest) = Some (s, rest).
Proof.
  induction s as [|c s IH]; [done|]. cbn [escape].
  by rewrite str_app_assoc, parse_escape_char, IH.
Qed.

(** ** Numbers *)

Lemma nzhead_not_D0 (d d' : Decimal.uint) : Decimal.nzhead d <> Decimal.D0 d'.
Proof. induction d; simpl; done. Qed.

(** The decimal digits of a positive number do not start with [0]. *)
Definition head_ok (u : Decimal.uint) : Prop :=
  match u with Decimal.Nil | Decimal.D0 _ => False | _ => True end.

Lemma pos_to_uint_head (p : positive) : head_ok (Pos.to_uint p).
Proof.
  pose proof (DecimalPos.Unsigned.to_of (Pos.to_uint p)) as H.
  rewrite DecimalPos.Unsigned.of_to in H. simpl in H.
  pose proof (DecimalPos.Unsigned.to_uint_nonzero p) as Hz.
  destruct (Pos.to_uint p) as [|d|d|d|d|d|d|d|d|d|d]; simpl; try done.
  unfold Decimal.unorm in H. simpl in H.
  destruct (Decimal.nzhead d) as [|d'|d'|d'|d'|d'|d'|d'|d'|d'|d'] eqn:E; try done.
  by apply (nzhead_not_D0 d d').
Qed.

Lemma take_digits_uint (u : Decimal.uint) (rest : string) :
  num_end rest = true ->
  take_digits (NilEmpty.string_of_uint u ++ rest) = (NilEmpty.string_of_uint u, rest).
Proof.
  intros Hr. induction u; cbn [NilEmpty.string_of_uint]; rewrite ?str_app_cons; simpl;
    rewrite ?IHu; try done.
  destruct rest as [|c r]; [done|]. simpl in *. by destruct (digit_of c).
Qed.

Lemma parse_number_digits (sign : string) (u : Decimal.uint) (rest : string) :
  sign = "" \/ sign = "-" -> head_ok u -> num_end rest = true ->
  parse_number (sign ++ NilEmpty.string_of_uint u ++ rest) =
    option_map (fun i => (VNum (Z.of_int i), rest))
      (NilZero.int_of_string (sign ++ NilEmpty.string_of_uint u)).
Proof.
  intros Hs Hu Hr. assert (Hrest : forall ds, ds <> "" ->
    match rest with
    | String c _ =>
        if Ascii.eqb c "." || Ascii.eqb c "e" || Ascii.eqb c "E" then None
        else option_map (fun i => (VNum (Z.of_int i), rest)) (NilZero.int_of_string (sign ++ ds))
    | EmptyString => option_map (fun i => (VNum (Z.of_int i), rest)) (NilZero.int_of_string (sign ++ ds))
    end = option_map (fun i => (VNum (Z.of_int i), rest)) (NilZero.int_of_string (sign ++ ds))).
  { intros ds _. destruct rest as [|c r]; [done|]. simpl in Hr.
    destruct (digit_of c); [done|]. apply negb_true_iff in Hr. by rewrite Hr. }
  destruct Hs as [-> | ->];
  destruct u as [|d|d|d|d|d|d|d|d|d|d]; try done; unfold parse_number, int_digits;
  cbn [NilEmpty.string_of_uint]; rewrite ?str_app_nil_l, ?str_app_cons; simpl;
  rewrite take_digits_uint by done; by apply Hrest.
Qed.

(** The text of every integer is read back as that integer. *)
Lemma parse_number_z (n : Z) (rest : string) :
  num_end rest = true -> parse_number (z_to_str n ++ rest) = Some (VNum n, rest).
Proof.
  intros Hr. destruct n as [|p|p].
  - destruct rest as [|c r]; [done|]. simpl in Hr. unfold parse_number. simpl.
    destruct (digit_of c); [done|]. apply negb_true_iff in Hr. by rewrite Hr.
  - pose proof (pos_to_uint_head p) as Hh. unfold z_to_str. simpl.
    assert (E : NilZero.string_of_uint (Pos.to_uint p) = NilEmpty.string_of_uint (Pos.to_uint p)).
    { by destruct (Pos.to_uint p). }
    rewrite E. rewrite <- (str_app_nil_l (NilEmpty.string_of_uint _ ++ rest)).
    rewrite parse_number_digits by auto. rewrite str_app_nil_l, <- E.
    change (NilZero.string_of_uint (Pos.to_uint p)) with (NilZero.string_of_int (Z.to_int (Z.pos p))).
    rewrite NilZero.isi.
    + simpl. by rewrite <- (DecimalZ.of_to (Z.pos p)).
    + simpl. intros [= Hp]. by apply (DecimalPos.Unsigned.to_uint_nonnil p).
    + done.
  - pose proof (pos_to_uint_head p) as Hh. unfold z_to_str. simpl.
    assert (E : NilZero.string_of_uint (Pos.to_uint p) = NilEmpty.string_of_uint (Pos.to_uint p)).
    { by destruct (Pos.to_uint p). }
    rewrite E. change (String "-" (NilEmpty.string_of_uint (Pos.to_uint p)) ++ rest)
      with ("-" ++ NilEmpty.string_of_uint (Pos.to_uint p) ++ rest).
    rewrite parse_number_digits by auto.
    change ("-" ++ NilEmpty.string_of_uint (Pos.to_uint p))
      with (String "-" (NilEmpty.string_of_uint (Pos.to_uint p))).
    rewrite <- E.
    change (String "-" (NilZero.string_of_uint (Pos.to_uint p)))
      with (NilZero.string_of_int (Z.to_int (Z.neg p))).
    rewrite NilZero.isi.
    + simpl. by rewrite <- (DecimalZ.of_to (Z.neg p)).
    + done.
    + simpl. intros [= Hp]. by apply (DecimalPos.Unsigned.to_uint_nonnil p).
Qed.

Lemma parse_chars_escape_q (s rest : string) :
  parse_chars (escape s ++ String QUOTE rest) = Some (s, rest).
Proof. apply (parse_chars_escape s rest). Qed.

(** ** Shapes of the text *)

Lemma serialize_arr (gap indent : string) (xs : list value) :
  serialize gap indent (VArr xs) =
    Some (wrap "[" "]" gap indent (map (fun x => default "null" (serialize gap (indent ++ gap) x)) xs)).
Proof. reflexivity. Qed.

Lemma serialize_obj (gap indent : string) (ps : list (string * value)) :
  serialize gap indent (VObj ps) =
    Some (wrap "{" "}" gap indent
            (omap (fun kv : string * option string =>
                     match kv.2 with
                     | Some s => Some (quote kv.1 ++ ":" ++ (if String.eqb gap "" then "" else " ") ++ s)
                     | None => None
                     end)
               (map (fun kv => (kv.1, serialize gap (indent ++ gap) kv.2)) (own_order ps)))).
Proof.
  simpl. do 3 f_equal. rewrite <- own_order_map. f_equal.
  induction ps as [|[k x] ps IH]; simpl; by f_equal.
Qed.

(** The members [JSON.parse] reads back from the members [qs]. *)
Definition norm_members (qs : list (string * value)) : list (string * value) :=
  omap (fun kv : string * option value => match kv.2 with Some x => Some (kv.1, x) | None => None end)
    (map (fun kv => (kv.1, normalize_opt kv.2)) qs).

Lemma normalize_arr (xs : list value) :
  normalize_opt (VArr xs) = Some (VArr (map (fun x => default VNull (normalize_opt x)) xs)).
Proof. reflexivity. Qed.

Lemma normalize_obj (ps : list (string * value)) :
  normalize_opt (VObj ps) = Some (VObj (norm_members (own_order ps))).
Proof.
  unfold norm_members. rewrite <- own_order_map. simpl. do 4 f_equal.
  induction ps as [|[k x] ps IH]; simpl; by f_equal.
Qed.

Lemma keys_unique_arr (xs : list value) : keys_unique (VArr xs) <-> Forall keys_unique xs.
Proof.
  simpl. induction xs as [|x xs IH]; [split; constructor|].
  rewrite Forall_cons, <- IH. done.
Qed.

Lemma keys_unique_obj (ps : list (string * value)) :
  keys_unique (VObj ps) <-> NoDup (map fst ps) /\ Forall (fun kv => keys_unique kv.2) ps.
Proof.
  simpl. apply and_iff_compat_l. induction ps as [|[k x] ps IH]; [split; constructor|].
  rewrite Forall_cons, <- IH. done.
Qed.

Lemma keys_uniqueb_spec (v : value) : keys_uniqueb v = true <-> keys_unique v.
Proof.
  induction v as [| | | | |xs IH|ps IH] using value_ind'; try done.
  - rewrite keys_unique_arr. simpl. induction IH as [|x xs Hx _ IHxs]; [split; constructor|].
    rewrite andb_true_iff, Forall_cons, Hx, IHxs. done.
  - rewrite keys_unique_obj. simpl. rewrite andb_true_iff, bool_decide_eq_true.
    apply and_iff_compat_l. induction IH as [|[k x] ps Hx _ IHps]; [split; constructor|].
    rewrite andb_true_iff, Forall_cons, Hx, IHps. done.
Qed.

#[export] Instance keys_unique_dec (v : value) : Decision (keys_unique v).
Proof.
  destruct (keys_uniqueb v) eqn:E; [left|right]; rewrite <- keys_uniqueb_spec; [done|].
  by rewrite E.
Defined.

Lemma serialize_None (gap indent : string) (v : value) :
  serialize gap indent v = None <-> v = VUndef.
Proof. destruct v as [| |[]| | | |]; simpl; done. Qed.

Lemma normalize_None (v : value) : normalize_opt v = None <-> v = VUndef.
Proof. destruct v as [| |[]| | | |]; simpl; done. Qed.

(** The text of a value starts with a character that is neither white
    space nor a closing bracket. *)
Definition text_head (t : string) : Prop :=
  match t with
  | String c _ => is_ws c = false /\ c <> "]"%char /\ c <> "}"%char
  | EmptyString => False
  end.

Lemma z_to_str_head (n : Z) : text_head (z_to_str n).
Proof.
  unfold z_to_str. destruct n as [|p|p]; simpl; [done| |done].
  pose proof (pos_to_uint_head p) as Hh.
  by destruct (Pos.to_uint p).
Qed.

Lemma wrap_head (c : ascii) (cl gap indent : string) (parts : list string) :
  text_head (String c EmptyString) -> text_head (wrap (String c EmptyString) cl gap indent parts).
Proof. intros Hc. unfold wrap. destruct parts; [done|]. by destruct (String.eqb gap ""). Qed.

Lemma serialize_head (gap indent : string) (v : value) (t : string) :
  serialize gap indent v = Some t -> text_head t.
Proof.
  destruct v as [| |[]|n|s|xs|ps]; simpl; intros [= <-]; try done.
  - apply z_to_str_head.
  - by apply wrap_head.
  - by apply wrap_head.
Qed.

Lemma skip_ws_head (w t r : string) :
  ws_only w = true -> text_head t -> skip_ws (w ++ t ++ r) = t ++ r.
Proof.
  intros Hw Ht. rewrite skip_ws_app by done. destruct t as [|c t]; [done|].
  rewrite str_app_cons. apply skip_ws_stop, Ht.
Qed.

(** The separators [wrap] puts around and between the parts. *)
Lemma wrap_shape (op cl gap indent : string) (parts : list string) :
  ws_only gap = true -> ws_only indent = true -> parts <> [] ->
  exists w1 w2 w3, ws_only w1 = true /\ ws_only w2 = true /\ ws_only w3 = true /\
    wrap op cl gap indent parts = (op ++ w1 ++ String.concat ("," ++ w2) parts ++ w3 ++ cl)%string.
Proof.
  intros Hg Hi Hp. unfold wrap. destruct parts as [|p ps]; [done|].
  destruct (String.eqb gap "").
  - exists "", "", "". by rewrite !str_app_nil_l, str_app_nil_r.
  - set (nl := String (ascii_of_nat 10) EmptyString).
    assert (Hnl : ws_only nl = true) by done.
    exists (nl ++ indent ++ gap)%string, (nl ++ indent ++ gap)%string, (nl ++ indent)%string.
    rewrite !ws_only_app, Hnl, Hg, Hi. split_and!; try done.
    by rewrite !str_app_assoc.
Qed.

Lemma concat_cons_cons (sep p q : string) (ps : list string) :
  String.concat sep (p :: q :: ps) = (p ++ sep ++ String.concat sep (q :: ps))%string.
Proof. reflexivity. Qed.

(** ** Reading back the text of each kind of value *)

(** The first character of the text of a number. *)
Definition num_head (c : ascii) : bool :=
  Ascii.eqb c "-" || match digit_of c with Some _ => true | None => false end.

Lemma num_head_dispatch (c : ascii) :
  num_head c = true ->
  is_ws c = false /\ Ascii.eqb c "n" = false /\ Ascii.eqb c "t" = false /\
  Ascii.eqb c "f" = false /\ Ascii.eqb c QUOTE = false /\ Ascii.eqb c "[" = false /\
  Ascii.eqb c "{" = false.
Proof.
  destruct c as [[] [] [] [] [] [] [] []]; vm_compute;
    first [intros H; discriminate H | intros _; repeat split].
Qed.

Lemma z_to_str_num_head (n : Z) : exists c r, z_to_str n = String c r /\ num_head c = true.
Proof.
  unfold z_to_str. destruct n as [|p|p]; simpl; [by eexists _, _| |by eexists _, _].
  pose proof (pos_to_uint_head p) as Hh.
  destruct (Pos.to_uint p); try done; by eexists _, _.
Qed.

Lemma parse_value_num (f : nat) (n : Z) (rest : string) :
  0 < f -> num_end rest = true -> parse_value f (z_to_str n ++ rest) = Some (VNum n, rest).
Proof.
  intros Hf Hr. destruct (z_to_str_num_head n) as (c & r & E & Hc).
  destruct (num_head_dispatch c Hc) as (Hws & Hn & Ht & Hfa & Hq & Hb & Hbr).
  destruct f as [|f]; [lia|]. cbn [parse_value].
  rewrite E, str_app_cons, skip_ws_stop by done.
  rewrite Hn, Ht, Hfa, Hq, Hb, Hbr, <- str_app_cons, <- E. by apply parse_number_z.
Qed.

Lemma dquote_char : dquote = String QUOTE EmptyString.
Proof. reflexivity. Qed.

Lemma parse_value_str (f : nat) (s rest : string) :
  0 < f -> parse_value f (quote s ++ rest) = Some (VStr s, rest).
Proof.
  intros Hf. destruct f as [|f]; [lia|]. unfold quote.
  rewrite dquote_char, !str_app_assoc, str_app_cons, str_app_nil_l. cbn [parse_value].
  rewrite skip_ws_stop by done. simpl. rewrite <- dquote_char.
  by rewrite parse_chars_escape.
Qed.

Lemma parse_value_lit (f : nat) (v : value) (t rest : string) :
  0 < f -> (v = VNull /\ t = "null") \/ (v = VBool true /\ t = "true") \/
           (v = VBool false /\ t = "false") ->
  parse_value f (t ++ rest) = Some (v, rest).
Proof.
  intros Hf Hv. destruct f as [|f]; [lia|].
  by destruct Hv as [[-> ->]|[[-> ->]|[-> ->]]].
Qed.

Lemma assoc_set_fresh (k : string) (x : value) (acc : list (string * value)) :
  k ∉ List.map fst acc -> assoc_set k x acc = (acc ++ [(k, x)])%list.
Proof.
  induction acc as [|[k' y] acc IH]; simpl; [done|]. intros Hk.
  rewrite elem_of_cons in Hk. destruct (String.eqb_spec k k') as [->|_]; [tauto|].
  rewrite IH; [done|tauto].
Qed.

Lemma text_head_split (w t r : string) :
  ws_only w = true -> text_head t ->
  exists c q, t = String c q /\ skip_ws (w ++ t ++ r) = String c (q ++ r) /\
    Ascii.eqb c "]" = false /\ Ascii.eqb c "}" = false.
Proof.
  intros Hw Ht. rewrite skip_ws_head by done. destruct t as [|c q]; [done|].
  destruct Ht as (_ & Hb & Hc). exists c, q. split; [done|].
  rewrite !Ascii.eqb_neq. by rewrite str_app_cons.
Qed.

Lemma concat_head (sep p : string) (ps : list string) :
  String.concat sep (p :: ps) =
    (p ++ match ps with [] => "" | _ => sep ++ String.concat sep ps end)%string.
Proof. destruct ps; [by rewrite str_app_nil_r|done]. Qed.

(** ** The round trip *)

Section round_trip.
Variable gap : string.
Hypothesis Hgap : ws_only gap = true.

(** The round trip for one value, at any indentation, followed by any
    text that cannot extend it, with fuel above the length of its text. *)
Definition reads_back (v : value) : Prop :=
  forall indent t rest f,
    ws_only indent = true -> keys_unique v -> serialize gap indent v = Some t ->
    num_end rest = true -> String.length t < f ->
    parse_value f (t ++ rest) = (fun x => (x, rest)) <$> normalize_opt v.

(** The text of an element: [null] for [undefined]. *)
Definition part (indent : string) (x : value) : string :=
  default "null" (serialize gap indent x).

Lemma part_head (indent : string) (x : value) : text_head (part indent x).
Proof.
  unfold part. destruct (serialize gap indent x) eqn:E; [|done].
  by apply (serialize_head gap indent x).
Qed.

Lemma part_reads (indent rest : string) (x : value) (f : nat) :
  reads_back x -> keys_unique x -> ws_only indent = true -> num_end rest = true ->
  String.length (part indent x) < f ->
  parse_value f (part indent x ++ rest) = Some (default VNull (normalize_opt x), rest).
Proof.
  intros Hx Hk Hi Hr Hf. unfold part in *. destruct (serialize gap indent x) as [t|] eqn:E.
  - simpl in *. rewrite (Hx indent t rest f) by done. destruct (normalize_opt x) eqn:En; [done|].
    apply normalize_None in En. subst x. done.
  - apply serialize_None in E. subst x. apply (parse_value_lit f VNull); [simpl in Hf; lia|by left].
Qed.

Lemma parse_elem_step (indent : string) (x : value) (z : string) (g : nat) (acc : list value) :
  reads_back x -> keys_unique x -> ws_only indent = true -> num_end z = true ->
  String.length (part indent x) < g ->
  parse_elems (S g) (part indent x ++ z) acc =
    match skip_ws z with
    | String ","%char r' => parse_elems g r' (acc ++ [default VNull (normalize_opt x)])
    | String "]"%char r' => Some (VArr (acc ++ [default VNull (normalize_opt x)]), r')
    | _ => None
    end.
Proof. intros. cbn [parse_elems]. by rewrite part_reads. Qed.

Lemma parse_elems_ok (indent w2 w3 rest : string) (xs : list value) (acc : list value) (f : nat) :
  Forall (fun x => reads_back x /\ keys_unique x) xs -> xs <> [] ->
  ws_only indent = true -> ws_only w2 = true -> ws_only w3 = true ->
  String.length (String.concat ("," ++ w2) (map (part indent) xs) ++ w3 ++ "]") < f ->
  parse_elems f (String.concat ("," ++ w2) (map (part indent) xs) ++ w3 ++ "]" ++ rest) acc =
    Some (VArr (acc ++ map (fun x => default VNull (normalize_opt x)) xs), rest).
Proof.
  revert acc f. induction xs as [|x xs IH]; intros acc f Hall Hne Hi Hw2 Hw3 Hlen; [done|].
  apply Forall_cons in Hall as [[Hx Hkx] Hall].
  destruct f as [|g]; [lia|]. destruct xs as [|y ys].
  - cbn [map String.concat] in *. autorewrite with js_simpl in *. cbn [String.length] in *.
    rewrite parse_elem_step by (try apply num_end_ws; done || lia).
    by rewrite skip_ws_app.
  - cbn [map] in *. rewrite concat_cons_cons in *. autorewrite with js_simpl in *.
    cbn [String.length] in *.
    rewrite parse_elem_step by (try done; try lia; apply num_end_ws; by rewrite ?ws_only_app).
    rewrite skip_ws_stop by done. cbv beta iota. rewrite parse_elems_ws by done.
    rewrite IH; [by rewrite <- app_assoc|done..|lia].
Qed.
(** The space after the colon of a member. *)
Definition colon_space : string := if String.eqb gap "" then "" else " ".

(** The texts of the members of an object that are not [undefined]. *)
Definition member_parts (indent : string) (qs : list (string * value)) : list string :=
  omap (fun kv : string * option string =>
          match kv.2 with
          | Some s => Some (quote kv.1 ++ ":" ++ colon_space ++ s)
          | None => None
          end)
    (map (fun kv => (kv.1, serialize gap indent kv.2)) qs).

Lemma member_parts_cons (indent k : string) (x : value) (qs : list (string * value)) :
  member_parts indent ((k, x) :: qs) =
    match serialize gap indent x with
    | Some t => (quote k ++ ":" ++ colon_space ++ t) :: member_parts indent qs
    | None => member_parts indent qs
    end.
Proof. unfold member_parts. simpl. by destruct (serialize gap indent x). Qed.

Lemma norm_members_cons (k : string) (x : value) (qs : list (string * value)) :
  norm_members ((k, x) :: qs) =
    match normalize_opt x with
    | Some nx => (k, nx) :: norm_members qs
    | None => norm_members qs
    end.
Proof. unfold norm_members. simpl. by destruct (normalize_opt x). Qed.

Lemma member_parts_nil (indent : string) (qs : list (string * value)) :
  member_parts indent qs = [] -> norm_members qs = [].
Proof.
  induction qs as [|[k x] qs IH]; [done|]. rewrite member_parts_cons, norm_members_cons.
  destruct (serialize gap indent x) eqn:E; [done|]. apply serialize_None in E. by subst x.
Qed.

Lemma parse_member_step (indent k : string) (x nx : value) (t z : string) (g : nat) acc :
  reads_back x -> keys_unique x -> ws_only indent = true -> serialize gap indent x = Some t ->
  normalize_opt x = Some nx -> num_end z = true -> String.length t < g ->
  parse_members (S g) ((quote k ++ ":" ++ colon_space ++ t) ++ z) acc =
    match skip_ws z with
    | String ","%char r4 => parse_members g r4 (assoc_set k nx acc)
    | String "}"%char r4 => Some (VObj (assoc_set k nx acc), r4)
    | _ => None
    end.
Proof.
  intros Hx Hk Hi Ht Hn Hz Hg. unfold quote. rewrite dquote_char.
  autorewrite with js_simpl. cbn [parse_members].
  rewrite skip_ws_stop by done. cbv beta iota. rewrite Ascii.eqb_refl.
  rewrite parse_chars_escape_q. cbv beta iota.
  rewrite skip_ws_stop by done. cbv beta iota.
  rewrite parse_value_ws by (unfold colon_space; by destruct (String.eqb gap "")).
  by rewrite (Hx indent t z g), Hn.
Qed.
Lemma parse_members_ok (indent w2 w3 rest : string) (qs : list (string * value))
    (acc : list (string * value)) (f : nat) :
  Forall (fun kv => reads_back kv.2 /\ keys_unique kv.2) qs ->
  NoDup (List.map fst acc ++ List.map fst (norm_members qs))%list ->
  ws_only indent = true -> ws_only w2 = true -> ws_only w3 = true ->
  member_parts indent qs <> [] ->
  String.length (String.concat ("," ++ w2) (member_parts indent qs) ++ w3 ++ "}") < f ->
  parse_members f (String.concat ("," ++ w2) (member_parts indent qs) ++ w3 ++ "}" ++ rest) acc =
    Some (VObj (acc ++ norm_members qs)%list, rest).
Proof.
  revert acc f. induction qs as [|[k x] qs IH]; intros acc f Hall Hnd Hi Hw2 Hw3 Hne Hlen; [done|].
  apply Forall_cons in Hall as [[Hx Hkx] Hall]. simpl in Hx, Hkx.
  rewrite member_parts_cons in *. rewrite norm_members_cons in *.
  destruct (serialize gap indent x) as [t|] eqn:Ex.
  2: { apply serialize_None in Ex. subst x. by apply IH. }
  destruct (normalize_opt x) as [nx|] eqn:En.
  2: { apply normalize_None in En. subst x. done. }
  assert (Hk : k ∉ List.map fst acc).
  { intros Hin. apply NoDup_app in Hnd as (_ & Hdis & _). by apply (Hdis k); [|left]. }
  destruct f as [|g]; [lia|].
  set (m := (quote k ++ ":" ++ colon_space ++ t)%string) in *.
  assert (Hm : String.length t < String.length m).
  { subst m. autorewrite with js_simpl. cbn [String.length]. lia. }
  destruct (member_parts indent qs) as [|p ps] eqn:Emp.
  - cbn [String.concat] in *. autorewrite with js_simpl in Hlen. cbn [String.length] in Hlen.
    subst m. rewrite (parse_member_step indent k x nx t) by (try done; try lia; by apply num_end_ws).
    rewrite skip_ws_app, str_app_cons, str_app_nil_l, skip_ws_stop by done. cbv beta iota.
    rewrite assoc_set_fresh by done. by rewrite (member_parts_nil indent qs Emp).
  - rewrite concat_cons_cons in *. autorewrite with js_simpl in Hlen. cbn [String.length] in Hlen.
    rewrite (str_app_assoc m). subst m.
    rewrite (parse_member_step indent k x nx t) by (try done; try lia; by apply (num_end_ws "")).
    rewrite !str_app_assoc, (str_app_cons ","%char), str_app_nil_l, skip_ws_stop by done.
    cbv beta iota.
    rewrite parse_members_ws by done. rewrite assoc_set_fresh by done.
    rewrite IH; [by rewrite <- app_assoc|done| | done..| |].
    + by rewrite map_app, <- app_assoc.
    + done.
    + autorewrite with js_simpl. cbn [String.length]. lia.
Qed.
Lemma member_parts_head (indent : string) (qs : list (string * value)) :
  Forall text_head (member_parts indent qs).
Proof.
  induction qs as [|[k x] qs IH]; [constructor|]. rewrite member_parts_cons.
  destruct (serialize gap indent x); [|done]. by constructor.
Qed.

Lemma norm_members_keys (qs : list (string * value)) :
  List.map fst (norm_members qs) `sublist_of` List.map fst qs.
Proof.
  induction qs as [|[k x] qs IH]; [done|]. rewrite norm_members_cons.
  destruct (normalize_opt x); simpl; by constructor.
Qed.

(** The first character of a non-empty list of parts, after the opening
    bracket and white space, is not a closing bracket. *)
Lemma skip_ws_first (w sep p : string) (ps : list string) (r : string) :
  ws_only w = true -> text_head p ->
  exists c q, skip_ws (w ++ String.concat sep (p :: ps) ++ r) = String c q /\
    Ascii.eqb c "]" = false /\ Ascii.eqb c "}" = false.
Proof.
  intros Hw Hp. rewrite concat_head, str_app_assoc.
  destruct (text_head_split w p (match ps with [] => "" | _ => sep ++ String.concat sep ps end ++ r)%string Hw Hp)
    as (c & q & -> & Hs & Hb & Hc).
  eexists c, _. split; [exact Hs|done].
Qed.

(** An array reads back when its elements do. *)
Lemma reads_back_arr (xs : list value) : Forall reads_back xs -> reads_back (VArr xs).
Proof.
  intros IH indent t rest f Hi Hk Ht Hr Hf.
  rewrite serialize_arr in Ht. inv Ht. rewrite normalize_arr. simpl fmap.
  change (map (fun x => default "null" (serialize gap (indent ++ gap) x)) xs)
    with (map (part (indent ++ gap)) xs) in *.
  destruct f as [|g]; [lia|].
  destruct xs as [|x xs'].
  + done.
  + assert (Hig : ws_only (indent ++ gap) = true) by (rewrite ws_only_app, Hi; done).
    destruct (wrap_shape "[" "]" gap indent (map (part (indent ++ gap)) (x :: xs')) Hgap Hi)
      as (w1 & w2 & w3 & Hw1 & Hw2 & Hw3 & E); [done|].
    rewrite E in *. autorewrite with js_simpl in Hf. cbn [String.length] in Hf.
    rewrite !str_app_assoc, (str_app_cons "["%char), str_app_nil_l. cbn [parse_value].
    rewrite skip_ws_stop by done. simpl Ascii.eqb. cbv beta iota.
    destruct (skip_ws_first w1 ("," ++ w2) (part (indent ++ gap) x) (map (part (indent ++ gap)) xs')
                (w3 ++ "]" ++ rest) Hw1 (part_head _ x)) as (c & q & Hs & Hc & _).
    change (part (indent ++ gap) x :: map (part (indent ++ gap)) xs')
      with (map (part (indent ++ gap)) (x :: xs')) in Hs.
    rewrite Hs, Hc, parse_elems_ws by done.
    rewrite (parse_elems_ok (indent ++ gap)); [done| |done|done..|].
    * apply keys_unique_arr in Hk. apply Forall_and. split; [done|]. done.
    * autorewrite with js_simpl. cbn [String.length]. lia.
Qed.

(** An object reads back when its property values do. *)
Lemma reads_back_obj (ps : list (string * value)) :
  Forall (fun kv => reads_back kv.2) ps -> reads_back (VObj ps).
Proof.
  intros IH indent t rest f Hi Hk Ht Hr Hf.
  rewrite serialize_obj in Ht. inv Ht. rewrite normalize_obj. simpl fmap.
  change (omap _ (map (fun kv => (kv.1, serialize gap (indent ++ gap) kv.2)) (own_order ps)))
    with (member_parts (indent ++ gap) (own_order ps)) in *.
  apply keys_unique_obj in Hk as [Hnd Hks].
  destruct f as [|g]; [lia|].
  destruct (member_parts (indent ++ gap) (own_order ps)) as [|p ps'] eqn:Emp.
  + simpl. by rewrite (member_parts_nil _ _ Emp).
  + assert (Hig : ws_only (indent ++ gap) = true) by (rewrite ws_only_app, Hi; done).
    destruct (wrap_shape "{" "}" gap indent (p :: ps') Hgap Hi)
      as (w1 & w2 & w3 & Hw1 & Hw2 & Hw3 & E); [done|].
    rewrite E in *. autorewrite with js_simpl in Hf. cbn [String.length] in Hf.
    rewrite !str_app_assoc, (str_app_cons "{"%char), str_app_nil_l. cbn [parse_value].
    rewrite skip_ws_stop by done. simpl Ascii.eqb. cbv beta iota.
    pose proof (member_parts_head (indent ++ gap) (own_order ps)) as Hh. rewrite Emp in Hh.
    destruct (skip_ws_first w1 ("," ++ w2) p ps' (w3 ++ "}" ++ rest) Hw1 (Forall_inv Hh))
      as (c & q & Hs & _ & Hc).
    rewrite Hs, Hc, parse_members_ws by done. rewrite <- Emp.
    rewrite (parse_members_ok (indent ++ gap)); [done| | |done..| |].
    * rewrite (own_order_perm ps). apply Forall_and. split; [done|]. done.
    * simpl. apply (sublist_NoDup _ (List.map fst (own_order ps))); [|apply norm_members_keys].
      by rewrite (own_order_perm ps).
    * by rewrite Emp.
    * rewrite Emp. autorewrite with js_simpl. cbn [String.length]. lia.
Qed.

Lemma reads_back_all (v : value) : reads_back v.
Proof.
  induction v as [| |b|n|s|xs IH|ps IH] using value_ind';
    [| | | | |by apply reads_back_arr|by apply reads_back_obj];
    intros indent t rest f Hi Hk Ht Hr Hf.
  - done.
  - inv Ht. by apply parse_value_lit; [lia|left].
  - destruct b; inv Ht; apply parse_value_lit; try lia; [right; left|right; right]; done.
  - inv Ht. apply parse_value_num; [lia|done].
  - inv Ht. apply parse_value_str. lia.
Qed.
End round_trip.

(** ** The round trip *)

(** [JSON.parse] reads back what [JSON.stringify] writes, compact or
    indented with any gap of white space: the text of a value whose
    objects have distinct keys parses, with the fuel [JSON_parse] gives
    it, to the value with its [undefined] properties dropped, its
    [undefined] elements replaced by [null] and its properties in
    enumeration order. *)
Theorem parse_serialize (gap : string) (v : value) (t : string) :
  ws_only gap = true -> keys_unique v -> serialize gap "" v = Some t ->
  JSON_parse t = normalize_opt v.
Proof.
  intros Hg Hk Ht. unfold JSON_parse.
  pose proof (reads_back_all gap Hg v "" t "" (S (String.length t)) eq_refl Hk Ht eq_refl
                (Nat.lt_succ_diag_r _)) as H.
  rewrite str_app_nil_r in H. rewrite H. by destruct (normalize_opt v).
Qed.

(** ** The values [JSON.parse] gives back are fixed points *)

Lemma norm_members_omap (qs : list (string * value)) :
  norm_members qs = omap (fun kv => (fun x => (kv.1, x)) <$> normalize_opt kv.2) qs.
Proof.
  induction qs as [|[k x] qs IH]; [done|]. rewrite norm_members_cons. simpl.
  destruct (normalize_opt x); by rewrite IH.
Qed.

Lemma norm_members_ordered (ps : list (string * value)) :
  own_order (norm_members (own_order ps)) = norm_members (own_order ps).
Proof.
  apply own_order_ordered. rewrite norm_members_omap.
  apply props_ordered_omap; [|apply own_order_is_ordered].
  intros kv kv' E. destruct (normalize_opt kv.2); by inv E.
Qed.

Lemma normalize_idem (v w : value) : normalize_opt v = Some w -> normalize_opt w = Some w.
Proof.
  revert w. induction v as [| |b|n|s|xs IH|ps IH] using value_ind'; intros w Hw;
    try (by inv Hw).
  - rewrite normalize_arr in Hw. inv Hw. rewrite normalize_arr, map_map. do 2 f_equal.
    apply map_ext_in. intros x Hx. rewrite Forall_forall in IH.
    destruct (normalize_opt x) as [y|] eqn:E; simpl; [|done]. apply list_elem_of_In in Hx. by rewrite (IH x Hx y E).
  - rewrite normalize_obj in Hw. inv Hw. rewrite normalize_obj, norm_members_ordered. do 2 f_equal.
    assert (IH' : Forall (fun kv => forall w, normalize_opt kv.2 = Some w -> normalize_opt w = Some w)
                    (own_order ps)) by by rewrite (own_order_perm ps).
    clear IH. induction IH' as [|[k x] qs Hx _ IHq]; [done|].
    rewrite !norm_members_cons. destruct (normalize_opt x) as [y|] eqn:E; [|done].
    rewrite norm_members_cons, (Hx y E). by rewrite IHq.
Qed.

Lemma keys_unique_normalize (v w : value) :
  keys_unique v -> normalize_opt v = Some w -> keys_unique w.
Proof.
  revert w. induction v as [| |b|n|s|xs IH|ps IH] using value_ind'; intros w Hk Hw;
    try (by inv Hw).
  - rewrite normalize_arr in Hw. inv Hw. apply keys_unique_arr in Hk. apply keys_unique_arr.
    apply Forall_map. rewrite Forall_forall in IH, Hk |- *. intros x Hx.
    destruct (normalize_opt x) as [y|] eqn:E; simpl; [|done]. by apply (IH x Hx y); [apply Hk|].
  - rewrite normalize_obj in Hw. inv Hw. apply keys_unique_obj in Hk as [Hnd Hks].
    apply keys_unique_obj. split.
    + apply (sublist_NoDup _ (List.map fst (own_order ps))); [|apply norm_members_keys].
      by rewrite (own_order_perm ps).
    + assert (H : Forall (fun kv => keys_unique kv.2 /\
                    forall w, keys_unique kv.2 -> normalize_opt kv.2 = Some w -> keys_unique w)
                    (own_order ps)).
      { rewrite (own_order_perm ps). apply Forall_and. by split. }
      clear IH Hks Hnd. induction H as [|[k x] qs [Hkx Hx] _ IHq]; [done|].
      rewrite norm_members_cons. destruct (normalize_opt x) as [y|] eqn:E; [|done].
      constructor; [by apply (Hx y)|done].
Qed.

(** ** The values [JSON.parse] builds have distinct keys *)

Lemma assoc_set_Forall (P : string * value -> Prop) (k : string) (x : value) acc :
  Forall P acc -> P (k, x) -> Forall P (assoc_set k x acc).
Proof.
  intros Hacc Hx. induction Hacc as [|[k' y] acc Hy Hacc IH]; simpl; [by constructor|].
  destruct (String.eqb_spec k k') as [<-|_]; by constructor.
Qed.

Lemma assoc_set_NoDup (k : string) (x : value) acc :
  NoDup (List.map fst acc) -> NoDup (List.map fst (assoc_set k x acc)).
Proof.
  intros Hnd. rewrite assoc_set_keys. case_bool_decide as Hin; [done|].
  apply NoDup_app. split_and!; [done| |by apply NoDup_singleton].
  intros k' Hk' ->%list_elem_of_singleton. done.
Qed.

(** The values the parser builds are closed under any property that
    holds of the literals and is preserved by arrays and by objects
    without a repeated key. *)
Section parse_closed.
Context (P : value -> Prop) (PN : P VNull) (PB : forall b, P (VBool b))
  (PZ : forall z, P (VNum z)) (PS : forall t, P (VStr t))
  (PA : forall xs, Forall P xs -> P (VArr xs))
  (PO : forall ps, NoDup (List.map fst ps) -> Forall (fun kv => P kv.2) ps -> P (VObj ps)).

Lemma parse_closed (f : nat) :
  (forall s v r, parse_value f s = Some (v, r) -> P v) /\
  (forall s acc v r, Forall P acc -> parse_elems f s acc = Some (v, r) -> P v) /\
  (forall s acc v r, NoDup (List.map fst acc) -> Forall (fun kv => P kv.2) acc ->
     parse_members f s acc = Some (v, r) -> P v).
Proof.
  induction f as [|f (IHv & IHe & IHm)]; [done|]. split_and!.
  - intros s v r. cbn [parse_value]. destruct (skip_ws s) as [|c s']; [done|].
    unfold parse_number, option_map. repeat case_match; intros Hp; simplify_eq; try done;
      first [apply PB | apply PZ | apply PS | solve [apply PA; constructor] | solve [apply PO; constructor]
            | solve [eapply (IHe _ []); [exact (List.Forall_nil _)|exact Hp]]
            | solve [eapply (IHm _ []); [exact (NoDup_nil_2)|exact (List.Forall_nil _)|exact Hp]]].
  - intros s acc v r Hacc. cbn [parse_elems]. repeat case_match; intros Hp; simplify_eq; try done;
      match goal with Hv : parse_value f _ = Some (?x, _) |- _ =>
        assert (P x) by (eapply IHv; exact Hv) end;
      first [apply PA | refine (IHe _ _ _ _ _ Hp)];
      (apply Forall_app; split; [done|by constructor]).
  - intros s acc v r Hnd Hacc. cbn [parse_members]. repeat case_match; intros Hp; simplify_eq; try done;
      match goal with Hv : parse_value f _ = Some (?x, _) |- _ =>
        assert (P x) by (eapply IHv; exact Hv) end;
      first [apply PO | refine (IHm _ _ _ _ _ _ Hp)];
      first [by apply assoc_set_NoDup | by apply assoc_set_Forall].
Qed.
End parse_closed.

Lemma parse_keys_unique (f : nat) :
  (forall s v r, parse_value f s = Some (v, r) -> keys_unique v) /\
  (forall s acc v r, Forall keys_unique acc -> parse_elems f s acc = Some (v, r) -> keys_unique v) /\
  (forall s acc v r, NoDup (List.map fst acc) -> Forall (fun kv => keys_unique kv.2) acc ->
     parse_members f s acc = Some (v, r) -> keys_unique v).
Proof.
  apply parse_closed; try done.
  - intros xs. apply keys_unique_arr.
  - intros ps ? ?. by apply keys_unique_obj.
Qed.

(** ** Termination: the fuel of [JSON_parse] is enough *)

Lemma skip_ws_len (s : string) : String.length (skip_ws s) <= String.length s.
Proof. induction s as [|c s IH]; cbn; [lia|]. destruct (is_ws c); cbn; lia. Qed.

Lemma parse_chars_len (s t r : string) :
  parse_chars s = Some (t, r) -> String.length r < String.length s.
Proof.
  revert t. induction s as [s IH] using (induction_ltof1 _ String.length); unfold ltof in IH.
  intros t H. destruct s as [|c s1]; [done|]. cbn [parse_chars] in H.
  assert (Hc : forall c' s' t', String.length s' < String.length (String c s1) ->
            cons_fst c' (parse_chars s') = Some (t', r) -> String.length r < String.length (String c s1)).
  { intros c' s' t' Hl Hs. unfold cons_fst in Hs. case_match; [|done]. destruct p. simplify_eq.
    etrans; [by eapply IH|done]. }
  repeat case_match; simplify_eq; cbn in *; try lia; eapply Hc; eauto; cbn; lia.
Qed.

Lemma take_digits_len (s d r : string) :
  take_digits s = (d, r) -> String.length d + String.length r = String.length s.
Proof.
  revert d r. induction s as [|c s IH]; intros d r H; cbn in H; [by simplify_eq|].
  destruct (digit_of c); [|simplify_eq; done].
  destruct (take_digits s) as [d' r'] eqn:E. simplify_eq. cbn. rewrite <- (IH _ _ eq_refl). lia.
Qed.

Lemma int_digits_len (s d r : string) :
  int_digits s = (d, r) -> String.length d + String.length r = String.length s.
Proof.
  unfold int_digits. intros H. destruct s as [|c s']; [by apply take_digits_len|].
  destruct c as [[] [] [] [] [] [] [] []]; try (by apply take_digits_len). by simplify_eq.
Qed.

Lemma parse_number_len (s r : string) (v : value) :
  parse_number s = Some (v, r) -> String.length r < String.length s.
Proof.
  unfold parse_number. intros H.
  assert (Hs : forall sign s1, (sign, s1) = match s with String "-"%char r => ("-", r) | _ => ("", s) end ->
            String.length s1 <= String.length s).
  { intros sign s1 E. repeat case_match; simplify_eq; cbn; lia. }
  destruct (match s with String "-"%char r => ("-", r) | _ => ("", s) end) as [sign s1] eqn:E1.
  specialize (Hs sign s1 eq_refl).
  destruct (int_digits s1) as [ds r1] eqn:E2.
  assert (Hl : String.length ds + String.length r1 = String.length s1).
  { by apply int_digits_len. }
  destruct ds; [done|]. cbn in Hl.
  repeat case_match; unfold option_map in *; repeat case_match; simplify_eq; lia.
Qed.

Lemma parse_value_S (f : nat) (s : string) :
  parse_value (S f) s =
    match skip_ws s with
    | EmptyString => None
    | String c r =>
        if Ascii.eqb c "[" then
          match skip_ws r with
          | String c' r' => if Ascii.eqb c' "]" then Some (VArr [], r') else parse_elems f r []
          | EmptyString => None
          end
        else if Ascii.eqb c "{" then
          match skip_ws r with
          | String c' r' => if Ascii.eqb c' "}" then Some (VObj [], r') else parse_members f r []
          | EmptyString => None
          end
        else parse_scalar c r
    end.
Proof.
  cbn [parse_value]. destruct (skip_ws s) as [|c r]; [done|]. unfold parse_scalar.
  destruct (Ascii.eqb_spec c "["); [by subst|]. destruct (Ascii.eqb_spec c "{"); [by subst|].
  reflexivity.
Qed.

Lemma parse_scalar_len (c : ascii) (r r' : string) (v : value) :
  parse_scalar c r = Some (v, r') -> String.length r' <= String.length r.
Proof.
  unfold parse_scalar. intros H.
  repeat (case_match; simplify_eq; cbn; try lia).
  - match goal with E : parse_chars _ = _ |- _ => apply parse_chars_len in E end. lia.
  - apply parse_number_len in H. cbn in H. lia.
Qed.

(** ** The fuel is enough *)

(** A result found with some fuel is found with any fuel above the number
    of characters it consumed, and it consumes at least one. *)
Definition value_stable (n : nat) : Prop :=
  forall s v r, parse_value n s = Some (v, r) ->
  String.length r < String.length s /\
  forall f, String.length s - String.length r < f -> parse_value f s = Some (v, r).

Definition elems_stable (n : nat) : Prop :=
  forall s acc v r, parse_elems n s acc = Some (v, r) ->
  String.length r < String.length s /\
  forall f, String.length s - String.length r < f -> parse_elems f s acc = Some (v, r).

Definition members_stable (n : nat) : Prop :=
  forall s acc v r, parse_members n s acc = Some (v, r) ->
  String.length r < String.length s /\
  forall f, String.length s - String.length r < f -> parse_members f s acc = Some (v, r).

Lemma fuel_S (n : nat) (P : nat -> Prop) (Q : Prop) :
  Q /\ (forall g, n <= g -> P (S g)) -> Q /\ (forall f, n < f -> P f).
Proof. intros [HQ HP]. split; [done|]. intros [|g] Hg; [lia|]. apply HP. lia. Qed.

Lemma skip_ws_cons_len (s r : string) (c : ascii) :
  skip_ws s = String c r -> String.length r < String.length s.
Proof. intros E. pose proof (skip_ws_len s) as H. rewrite E in H. cbn in H. lia. Qed.

(** The character cases of a separator: the two that continue, the
    others fail. *)
Ltac sep_cases c H := destruct c as [[] [] [] [] [] [] [] []]; try discriminate H; cbn in H.

Section fuel_step.
Variable n : nat.
Hypotheses (IHv : value_stable n) (IHe : elems_stable n) (IHm : members_stable n).

Lemma value_stable_S : value_stable (S n).
Proof.
  intros s v r H. apply (fuel_S _ (fun f => parse_value f s = Some (v, r))); cbv beta.
  setoid_rewrite parse_value_S. rewrite parse_value_S in H.
  destruct (skip_ws s) as [|c r0] eqn:Ews; [done|]. apply skip_ws_cons_len in Ews.
  destruct (Ascii.eqb c "["); [|destruct (Ascii.eqb c "{")].
  - destruct (skip_ws r0) as [|c' r1] eqn:E0; [done|]. apply skip_ws_cons_len in E0.
    destruct (Ascii.eqb c' "]"); [simplify_eq; split; [lia|done]|].
    destruct (IHe _ _ _ _ H) as [Hlt Hst]. split; [lia|]. intros g Hg. apply Hst. lia.
  - destruct (skip_ws r0) as [|c' r1] eqn:E0; [done|]. apply skip_ws_cons_len in E0.
    destruct (Ascii.eqb c' "}"); [simplify_eq; split; [lia|done]|].
    destruct (IHm _ _ _ _ H) as [Hlt Hst]. split; [lia|]. intros g Hg. apply Hst. lia.
  - apply parse_scalar_len in H as Hl. split; [lia|done].
Qed.

Lemma elems_stable_S : elems_stable (S n).
Proof.
  intros s acc v r H. apply (fuel_S _ (fun f => parse_elems f s acc = Some (v, r))); cbv beta.
  cbn [parse_elems] in H |- *.
  destruct (parse_value n s) as [[x r1]|] eqn:E1; [|done]. destruct (IHv _ _ _ E1) as [Hl1 Hs1].
  destruct (skip_ws r1) as [|c r2] eqn:E2; [done|]. pose proof (skip_ws_cons_len _ _ _ E2).
  sep_cases c H.
  - simplify_eq. split; [lia|]. intros g Hg. by rewrite (Hs1 g), E2 by lia.
  - destruct (IHe _ _ _ _ H) as [Hl Hs]. split; [lia|]. intros g Hg.
    rewrite (Hs1 g), E2 by lia. apply Hs. lia.
Qed.

Lemma members_stable_S : members_stable (S n).
Proof.
  intros s acc v r H. apply (fuel_S _ (fun f => parse_members f s acc = Some (v, r))); cbv beta.
  cbn [parse_members] in H |- *.
  destruct (skip_ws s) as [|c r0] eqn:E0; [done|]. apply skip_ws_cons_len in E0.
  destruct (Ascii.eqb c QUOTE); [|done].
  destruct (parse_chars r0) as [[k r1]|] eqn:E1; [|done]. apply parse_chars_len in E1.
  destruct (skip_ws r1) as [|c1 r2] eqn:E2; [done|]. pose proof (skip_ws_cons_len _ _ _ E2).
  sep_cases c1 H.
  destruct (parse_value n r2) as [[x r3]|] eqn:E3; [|done]. destruct (IHv _ _ _ E3) as [Hl3 Hs3].
  destruct (skip_ws r3) as [|c3 r4] eqn:E4; [done|]. pose proof (skip_ws_cons_len _ _ _ E4).
  sep_cases c3 H.
  - simplify_eq. split; [lia|]. intros g Hg. by rewrite (Hs3 g), E4 by lia.
  - destruct (IHm _ _ _ _ H) as [Hl Hs]. split; [lia|]. intros g Hg.
    rewrite (Hs3 g), E4 by lia. apply Hs. lia.
Qed.
End fuel_step.

Lemma parse_stable (n : nat) : value_stable n /\ elems_stable n /\ members_stable n.
Proof.
  induction n as [|n (IHv & IHe & IHm)].
  - split_and!; intros ? *; cbn; done.
  - split_and!; [apply value_stable_S|apply elems_stable_S|apply members_stable_S]; done.
Qed.

Lemma json_value_arr (xs : list value) : json_value (VArr xs) <-> Forall json_value xs.
Proof.
  simpl. induction xs as [|x xs IH]; [split; constructor|].
  rewrite Forall_cons, <- IH. done.
Qed.

Lemma json_value_obj (ps : list (string * value)) :
  json_value (VObj ps) <-> NoDup (map fst ps) /\ Forall (fun kv => json_value kv.2) ps.
Proof.
  simpl. apply and_iff_compat_l. induction ps as [|[k x] ps IH]; [split; constructor|].
  rewrite Forall_cons, <- IH. done.
Qed.

(** [JSON_parse] terminates with the answer of the unbounded
    parser.  The fuel it runs with, one more than the length of the text,
    is enough: the text parses to [v] exactly when some fuel, however
    large, reads [v] followed by white space only. *)
Theorem JSON_parse_fuel_enough (text : string) (v : value) :
  JSON_parse text = Some v <->
  exists fuel r, parse_value fuel text = Some (v, r) /\ skip_ws r = EmptyString.
Proof.
  unfold JSON_parse. split.
  - destruct (parse_value _ text) as [[v' r]|] eqn:E; [|done].
    destruct (skip_ws r) eqn:Er; [|done]. intros [= <-]. by exists (S (String.length text)), r.
  - intros (fuel & r & Hp & Hr). destruct (proj1 (parse_stable fuel) _ _ _ Hp) as [_ Hs].
    rewrite (Hs (S (String.length text))), Hr by lia. done.
Qed.

(** Every value [JSON.parse] returns is a JSON value: no
    [undefined] at any depth and no object with a repeated key, whatever
    the text (a key repeated in the text keeps one property). *)
Theorem JSON_parse_json_value (text : string) (v : value) :
  JSON_parse text = Some v -> json_value v.
Proof.
  unfold JSON_parse. destruct (parse_value _ text) as [[v' r]|] eqn:E; [|done].
  destruct (skip_ws r); [|done]. intros [= <-].
  refine (proj1 (parse_closed json_value _ _ _ _ _ _ _) _ _ _ E); try done.
  - intros xs. apply json_value_arr.
  - intros ps ? ?. by apply json_value_obj.
Qed.

(** ** Witness *)

(** A node's values with a hole ([undefined]), an [undefined] property and
    an array-index key written after another key. *)
Definition ex_json : value :=
  VObj [("widgets_values", VArr [VNum (-3); VUndef; VStr "a photo of a cat"]);
        ("skip", VUndef); ("7", VBool false)].

Lemma parse_serialize_witness :
  exists t, stringify_pretty ex_json = Some t /\
    JSON_parse t = Some (VObj [("7", VBool false);
                               ("widgets_values", VArr [VNum (-3); VNull; VStr "a photo of a cat"])]).
Proof.
  eexists. split; [reflexivity|].
  rewrite (parse_serialize "  " ex_json); [reflexivity|reflexivity| |reflexivity].
  apply keys_uniqueb_spec. reflexivity.
Defined.

(** A text with a repeated key and nested arrays. *)
Definition ex_dup_text : string :=
  "{" ++ dquote ++ "a" ++ dquote ++ ":[[1],[]]," ++ dquote ++ "a" ++ dquote ++ ":[true]}".

(** The fuel of the length of the text is enough for it, and its value
    has one property [a]. *)
Lemma JSON_parse_json_value_witness :
  JSON_parse ex_dup_text = Some (VObj [("a", VArr [VBool true])]) /\
  json_value (VObj [("a", VArr [VBool true])]).
Proof.
  split; [reflexivity|]. apply (JSON_parse_json_value ex_dup_text). reflexivity.
Defined.
