(* ===== verification/Schema.v ===== *)
(** * The schema resolver

    For an input of a node, the client looks for a list of legal values:
    first in the backend's schema metadata ([objectInfo], fetched from
    [/object_info]) with [getInputMeta] and [parseChoices], then, when the
    schema gives none, in the model registry by the name of the input
    ([inferModelChoices]); app.js lines 26-48 and 130-131.

    The file holds the code's definitions, a relational specification of the
    lookup order and of the two descriptor shapes of spec section 4.1
    ([schema_resolves]), the proof that the code computes exactly that
    relation, and the interface [Resolver]/[ResolverSpec] through which the
    binder uses the resolver. *)

From S2P Require Import Prelude JsValue.

(** ** The code *)

(** [parseChoices(meta)] (app.js lines 26-34): the last element of an
    array-shaped descriptor when it is an array, else the [choices] field
    when it is an array, else nothing. *)
Definition parseChoices (meta : value) : option (list value) :=
  if negb (truthy meta) then None else
  let from_array :=
    match meta with
    | VArr xs =>
        match get_index meta (Z.of_nat (length xs) - 1) with
        | VArr last => Some last
        | _ => None
        end
    | _ => None
    end in
  match from_array with
  | Some c => Some c
  | None =>
      match get_opt meta "choices" with
      | VArr c => Some c
      | _ => None
      end
  end.

(** [getInputMeta(nodeType, inputName)] (app.js lines 44-48), with the
    global [objectInfo] passed explicitly.  The keys are the property keys
    [ToString(nodeType)] and [ToString(inputName)]. *)
Definition getInputMeta (objectInfo nodeType inputName : value) : value :=
  let entry := get objectInfo (to_str nodeType) in
  if negb (truthy objectInfo) || negb (truthy entry) then VNull else
  let input := js_or (get entry "input") (VObj []) in
  js_or (js_or (get_opt (get input "required") (to_str inputName))
               (get_opt (get input "optional") (to_str inputName)))
        VNull.

(** The name heuristic of [inferModelChoices]. *)
Definition model_like (s : string) : bool :=
  let lower := to_lower s in
  includes lower "model" || includes lower "ckpt" || includes lower "vae".

(** [inferModelChoices(inputName)] (app.js lines 36-42), with the global
    [modelRegistry] passed explicitly.  [inputName.toLowerCase()] throws on
    a value that is not a string, [modelRegistry.map] on a value that is not
    an array, and [model.name] on a nullish entry. *)
Definition inferModelChoices (modelRegistry inputName : value) :
    throws (option (list value)) :=
  match inputName with
  | VStr s =>
      if negb (model_like s) then Ret None else
      match modelRegistry with
      | VArr ms => let! names := all_throws (fun m => get_strict m "name") ms in Ret (Some names)
      | _ => Throw (TypeError "modelRegistry.map is not a function")
      end
  | _ => Throw (TypeError "inputName.toLowerCase is not a function")
  end.

(** [parseChoices(meta) || inferModelChoices(input.name)] (app.js lines
    130-131): an array, even an empty one, is truthy, so the registry is
    consulted only when the schema gives no array. *)
Definition resolveChoices (objectInfo modelRegistry nodeType inputName : value) :
    throws (option (list value)) :=
  match parseChoices (getInputMeta objectInfo nodeType inputName) with
  | Some c => Ret (Some c)
  | None => inferModelChoices modelRegistry inputName
  end.

(** ** The interface the binder relies on *)

(** A registry the client can map over: an array of non-nullish entries
    ([modelRegistry = data.models || []] with a well-formed [models.json]). *)
Definition registry_ok (reg : value) : Prop :=
  match reg with
  | VArr ms => Forall (fun m => nullish m = false) ms
  | _ => False
  end.

Class Resolver := {
  resolve : value -> value -> value -> value -> throws (option (list value))
}.

(** What the binder needs of a resolver: on a string input name and a
    well-formed registry it completes. *)
Class ResolverSpec `{Res : Resolver} := {
  resolve_total : forall oi reg nodeType s,
    registry_ok reg -> exists c, resolve oi reg nodeType (VStr s) = Ret c
}.

#[export] Instance code_resolver : Resolver := {| resolve := resolveChoices |}.

(** ** The specification of section 4.1 *)

(** The descriptor found for an input: the [required] entry when it is
    present (truthy), else the [optional] one; none when the metadata
    document or its entry for the node type is absent. *)
Inductive schema_entry (oi : value) (t n : string) : value -> Prop :=
  | entry_required d :
      truthy oi = true -> truthy (get oi t) = true ->
      get_opt (get (js_or (get (get oi t) "input") (VObj [])) "required") n = d ->
      truthy d = true ->
      schema_entry oi t n d
  | entry_optional d :
      truthy oi = true -> truthy (get oi t) = true ->
      truthy (get_opt (get (js_or (get (get oi t) "input") (VObj [])) "required") n) = false ->
      get_opt (get (js_or (get (get oi t) "input") (VObj [])) "optional") n = d ->
      truthy d = true ->
      schema_entry oi t n d.

(** The choice list a descriptor carries: array shape first, then object
    shape. *)
Inductive descriptor_choices : value -> list value -> Prop :=
  | choices_array xs c :
      last xs = Some (VArr c) -> descriptor_choices (VArr xs) c
  | choices_object d c :
      (forall xs c', d = VArr xs -> last xs <> Some (VArr c')) ->
      get_opt d "choices" = VArr c ->
      truthy d = true ->
      descriptor_choices d c.

Definition schema_resolves (oi : value) (t n : string) (c : list value) : Prop :=
  exists d, schema_entry oi t n d /\ descriptor_choices d c.

(** ** Lemmas *)

Lemma get_index_last (xs : list value) :
  get_index (VArr xs) (Z.of_nat (length xs) - 1) = default VUndef (last xs).
Proof.
  simpl. destruct xs as [|x xs] using rev_ind; [done|].
  rewrite length_app. simpl.
  destruct (Z.ltb_spec (Z.of_nat (length xs + 1) - 1) 0); [lia|].
  replace (Z.to_nat (Z.of_nat (length xs + 1) - 1)) with (length xs) by lia.
  rewrite last_app, lookup_app_r, Nat.sub_diag by lia. done.
Qed.

Lemma descriptor_choices_nonarray (d : value) (c : list value) :
  (forall xs, d <> VArr xs) -> truthy d = true ->
  descriptor_choices d c <-> get_opt d "choices" = VArr c.
Proof.
  intros Hna Ht. split.
  - intros Hd. destruct Hd as [xs c' _|]; [by destruct (Hna xs)|done].
  - intros Hc. apply choices_object; [|done|done]. intros xs c' ->. by destruct (Hna xs).
Qed.

(** [parseChoices] computes exactly the choices a descriptor carries. *)
Lemma parseChoices_spec (d : value) (c : list value) :
  parseChoices d = Some c <-> descriptor_choices d c.
Proof.
  unfold parseChoices. destruct (truthy d) eqn:Ht; simpl.
  2:{ split; [done|]. intros Hd. destruct Hd; [done|congruence]. }
  destruct d as [| | | | |xs|ps];
    try (rewrite descriptor_choices_nonarray by done;
         destruct (get_opt _ "choices"); split; congruence).
  rewrite get_index_last. unfold get_opt. simpl.
  destruct (last xs) as [[| | | | |c'|]|] eqn:Hl; simpl.
  6:{ split; [intros [= <-]; by constructor|].
      intros Hd. inversion Hd as [? ? Hlast|? ? Hnot _ _]; subst; [congruence|].
      exfalso. by eapply Hnot. }
  all: split; [discriminate|]; intros Hd;
    inversion Hd as [? ? Hlast|? ? _ Hget _]; subst; [congruence|by simpl in Hget].
Qed.

(** The value [getInputMeta] returns: the descriptor of [schema_entry] when
    there is one, and a descriptor of [schema_entry] whenever it is truthy. *)
Lemma getInputMeta_spec (oi nodeType inputName : value) :
  let t := to_str nodeType in let n := to_str inputName in
  (forall d, schema_entry oi t n d -> getInputMeta oi nodeType inputName = d) /\
  (truthy (getInputMeta oi nodeType inputName) = true ->
   schema_entry oi t n (getInputMeta oi nodeType inputName)).
Proof.
  intros t n. unfold getInputMeta. cbv zeta. fold t n.
  set (R := get_opt (get (js_or (get (get oi t) "input") (VObj [])) "required") n).
  set (O := get_opt (get (js_or (get (get oi t) "input") (VObj [])) "optional") n).
  split.
  - intros d Hd. destruct Hd as [d Ho He HR Hd|d Ho He HR HO Hd]; fold R in HR;
      try fold O in HO; rewrite Ho, He; simpl; unfold js_or.
    + rewrite HR, Hd. cbn. by rewrite Hd.
    + rewrite HR, HO. cbn. by rewrite Hd.
  - destruct (truthy oi) eqn:Ho; [|done].
    destruct (truthy (get oi t)) eqn:He; [|done]. simpl. unfold js_or.
    destruct (truthy R) eqn:HR; simpl; [rewrite HR; intros _; by apply entry_required|].
    destruct (truthy O) eqn:HO; simpl; [rewrite HO; intros _; by apply entry_optional|done].
Qed.

Lemma parseChoices_falsy (d : value) : truthy d = false -> parseChoices d = None.
Proof. unfold parseChoices. by intros ->. Qed.

Lemma schema_entry_truthy oi t n d : schema_entry oi t n d -> truthy d = true.
Proof. by intros []. Qed.

#[export] Hint Resolve parseChoices_falsy schema_entry_truthy : js.

(** ** Theorems *)

(** The code's schema lookup against the relation of section 4.1. *)
Lemma schema_lookup_spec (oi nodeType inputName : value) (c : list value) :
  parseChoices (getInputMeta oi nodeType inputName) = Some c <->
  schema_resolves oi (to_str nodeType) (to_str inputName) c.
Proof.
  destruct (getInputMeta_spec oi nodeType inputName) as [Hfound Hcomplete].
  split.
  - intros Hp. exists (getInputMeta oi nodeType inputName). split.
    + apply Hcomplete. destruct (truthy _) eqn:Ht; [done|].
      by rewrite parseChoices_falsy in Hp.
    + by apply parseChoices_spec.
  - intros [d [He Hd]]. rewrite (Hfound d He). by apply parseChoices_spec.
Qed.

(** C3: the schema lookup of the code ([getInputMeta] then [parseChoices])
    yields the list [c] exactly when the specification of section 4.1
    resolves the input to [c]: [required] before [optional], the array
    shape before the object shape, and nothing for an absent document. *)
Theorem resolver_refines_spec (oi nodeType inputName : value) (c : list value) :
  parseChoices (getInputMeta oi nodeType inputName) = Some c <->
  schema_resolves oi (to_str nodeType) (to_str inputName) c.
Proof. apply schema_lookup_spec. Qed.

(** C4: when the schema resolves an input, its choices win: the registry
    and the input name are not consulted, so nothing can throw. *)
Theorem schema_takes_priority (oi reg nodeType inputName : value) (c : list value) :
  schema_resolves oi (to_str nodeType) (to_str inputName) c ->
  resolveChoices oi reg nodeType inputName = Ret (Some c).
Proof.
  intros Hs. unfold resolveChoices. by rewrite (proj2 (schema_lookup_spec _ _ _ c) Hs).
Qed.

(** With the metadata document absent (the fetch failed or has not
    completed: [objectInfo] is [null]), every lookup degrades to the name
    heuristic and the schema lookup itself never throws. *)
Theorem degraded_metadata (oi reg nodeType inputName : value) :
  truthy oi = false ->
  getInputMeta oi nodeType inputName = VNull /\
  resolveChoices oi reg nodeType inputName = inferModelChoices reg inputName.
Proof.
  intros Ho. unfold resolveChoices, getInputMeta. rewrite Ho. done.
Qed.

(** The name heuristic on a registry of non-null entries, when the
    schema resolves nothing. *)
Lemma heuristic_fallback_ok (oi nodeType : value) (ms : list value) (s : string) :
  (forall c, ~ schema_resolves oi (to_str nodeType) s c) ->
  Forall (fun m => nullish m = false) ms ->
  resolveChoices oi (VArr ms) nodeType (VStr s) =
    Ret (if model_like s then Some (map (fun m => get m "name") ms) else None).
Proof.
  intros Hno Hms. unfold resolveChoices.
  destruct (parseChoices _) as [c|] eqn:Hp.
  { exfalso. apply (Hno c). by apply (proj1 (schema_lookup_spec oi nodeType (VStr s) c)). }
  simpl. destruct (model_like s); [|done]. simpl.
  rewrite (all_throws_total _ _ (fun m => get m "name")); [done|].
  intros m Hm. unfold get_strict. rewrite Forall_forall in Hms. by rewrite (Hms m Hm).
Qed.

(** The name heuristic applies only when the schema gives no choices,
    and then gives the names of all registered models exactly when the
    lower-cased input name contains [model], [ckpt] or [vae]. *)
Theorem heuristic_fallback (oi nodeType : value) (ms : list value) (s : string) :
  (forall c, ~ schema_resolves oi (to_str nodeType) s c) ->
  Forall (fun m => nullish m = false) ms ->
  resolveChoices oi (VArr ms) nodeType (VStr s) =
    Ret (if model_like s then Some (map (fun m => get m "name") ms) else None).
Proof. apply heuristic_fallback_ok. Qed.

(** The resolver of the code meets the interface the binder relies on. *)
#[export] Instance code_resolver_spec : ResolverSpec (Res := code_resolver).
Proof.
  constructor. intros oi [| | | | |ms|] nodeType name Hreg; try done.
  simpl. unfold resolveChoices.
  destruct (parseChoices (getInputMeta oi nodeType (VStr name))) as [c|]; [by eexists|].
  unfold inferModelChoices. destruct (model_like name); [|by eexists]. simpl.
  rewrite (all_throws_total _ _ (fun m => get m "name")); [by eexists|].
  intros m Hm. unfold get_strict. simpl in Hreg. rewrite Forall_forall in Hreg. by rewrite (Hreg m Hm).
Qed.

(** ** Witnesses on concrete metadata *)

(** A fragment of [/object_info]: [KSampler] with a required combo, a
    required integer and an optional object-shaped descriptor. *)
Definition ex_object_info : value :=
  VObj [("KSampler",
         VObj [("input",
                VObj [("required",
                       VObj [("sampler_name", VArr [VArr [VStr "euler"; VStr "ddim"]]);
                             ("seed", VArr [VStr "INT"; VObj [("default", VNum 0)]])]);
                      ("optional",
                       VObj [("vae_name", VObj [("choices", VArr [VStr "a.vae"])])])])])].

Definition ex_registry : value := VArr [VObj [("name", VStr "sdxl")]].

Lemma schema_takes_priority_witness :
  schema_resolves ex_object_info "KSampler" "sampler_name" [VStr "euler"; VStr "ddim"] /\
  resolveChoices ex_object_info (VNum 5) (VStr "KSampler") (VStr "sampler_name") =
    Ret (Some [VStr "euler"; VStr "ddim"]).
Proof.
  assert (Hs : schema_resolves ex_object_info "KSampler" "sampler_name" [VStr "euler"; VStr "ddim"]).
  { exists (VArr [VArr [VStr "euler"; VStr "ddim"]]). split.
    - apply entry_required; reflexivity.
    - apply choices_array; reflexivity. }
  split; [exact Hs|].
  exact (schema_takes_priority ex_object_info (VNum 5) (VStr "KSampler") (VStr "sampler_name") _ Hs).
Defined.

Lemma degraded_metadata_witness :
  truthy VNull = false /\
  resolveChoices VNull ex_registry (VStr "CheckpointLoaderSimple") (VStr "ckpt_name") =
    inferModelChoices ex_registry (VStr "ckpt_name").
Proof.
  split; [reflexivity|].
  exact (proj2 (degraded_metadata VNull ex_registry (VStr "CheckpointLoaderSimple")
                  (VStr "ckpt_name") eq_refl)).
Defined.

(** The examples of spec section 8: with no schema entry, [ckpt_name] gets
    the registered names and [seed] gets none. *)
Lemma heuristic_fallback_witness :
  resolveChoices VNull ex_registry (VStr "CheckpointLoaderSimple") (VStr "ckpt_name") =
    Ret (Some [VStr "sdxl"]) /\
  resolveChoices VNull ex_registry (VStr "KSampler") (VStr "seed") = Ret None.
Proof.
  assert (Hno : forall t n c, ~ schema_resolves VNull t n c).
  { intros t n c [d [Hd _]]. destruct Hd; discriminate. }
  unfold ex_registry. split.
  - rewrite (heuristic_fallback VNull (VStr "CheckpointLoaderSimple") [VObj [("name", VStr "sdxl")]]
               "ckpt_name" (Hno _ _) ltac:(repeat constructor)).
    reflexivity.
  - rewrite (heuristic_fallback VNull (VStr "KSampler") [VObj [("name", VStr "sdxl")]]
               "seed" (Hno _ _) ltac:(repeat constructor)).
    reflexivity.
Defined.
