(* ===== verification/StableSort.v ===== *)
(** * The stable sort that orders the cards

    [renderWorkflow] shows the nodes in the order of
    [nodes.slice().sort((a, b) => (a.title || '').localeCompare(b.title || ''))]
    (app.js lines 92-94).  [Array.prototype.sort] is stable, and with a
    comparator that is a total preorder its result is the only stable
    sorted permutation of the input, whatever algorithm the engine runs.
    This file models the sort as an insertion sort over a comparator
    ([isort]), and its variant whose comparator can throw ([isort_t]); it
    proves that [isort] is a permutation, sorted and stable, and that any
    stable sorted permutation is equal to it, so that the model of the card
    order does not depend on the engine.

    The collation of [localeCompare] is a [Class]: the theorems hold for any
    collation that is a total preorder ([CollationLaws]); the executable
    instance compares code units ([String.compare]), the order the spec
    describes as ascending lexicographic. *)

From S2P Require Import Prelude.
From stdpp Require Import sorting.

Class Collation := { collate : string -> string -> comparison }.

Class CollationLaws `{Col : Collation} := {
  collate_antisym : forall a b, collate a b = CompOpp (collate b a);
  collate_le_trans : forall a b c,
    collate a b <> Gt -> collate b c <> Gt -> collate a c <> Gt
}.

#[export] Instance code_unit_collation : Collation := {| collate := String.compare |}.

Lemma ascii_compare_N (c d : ascii) :
  Ascii.compare c d = N.compare (N_of_ascii c) (N_of_ascii d).
Proof. reflexivity. Qed.

Lemma string_compare_le_trans (a b c : string) :
  String.compare a b <> Gt -> String.compare b c <> Gt -> String.compare a c <> Gt.
Proof.
  revert b c. induction a as [|x a IH]; intros [|y b] [|z c]; simpl; try done.
  rewrite !ascii_compare_N.
  destruct (N.compare_spec (N_of_ascii x) (N_of_ascii y)) as [Hxy|Hxy|Hxy];
  destruct (N.compare_spec (N_of_ascii y) (N_of_ascii z)) as [Hyz|Hyz|Hyz];
  destruct (N.compare_spec (N_of_ascii x) (N_of_ascii z)) as [Hxz|Hxz|Hxz];
    try done; try lia.
  apply IH.
Qed.

#[export] Instance code_unit_collation_laws : CollationLaws (Col := code_unit_collation).
Proof.
  constructor.
  - apply String.compare_antisym.
  - apply string_compare_le_trans.
Qed.

(** ** Insertion sort *)

Section isort.
Context {A : Type} (cmp : A -> A -> comparison).

(** [x] goes before the first element it is not greater than, so that it
    stays before the elements equal to it that followed it. *)
Fixpoint insert (x : A) (l : list A) : list A :=
  match l with
  | [] => [x]
  | y :: l' => match cmp x y with Gt => y :: insert x l' | _ => x :: l end
  end.

Fixpoint isort (l : list A) : list A :=
  match l with
  | [] => []
  | x :: l' => insert x (isort l')
  end.

Lemma insert_perm (x : A) (l : list A) : insert x l ≡ₚ x :: l.
Proof.
  induction l as [|y l IH]; simpl; [done|].
  destruct (cmp x y); try done. rewrite IH. apply Permutation_swap.
Qed.

Lemma isort_perm (l : list A) : isort l ≡ₚ l.
Proof. induction l as [|x l IH]; simpl; [done|]. by rewrite insert_perm, IH. Qed.
End isort.

(** ** Sorted, stable, and the only stable sort *)

Section isort_laws.
Context {A : Type} (cmp : A -> A -> comparison).
Hypothesis cmp_antisym : forall a b, cmp a b = CompOpp (cmp b a).
Hypothesis cmp_le_trans : forall a b c, cmp a b <> Gt -> cmp b c <> Gt -> cmp a c <> Gt.

(** [a] may come before [b]. *)
Definition le (a b : A) : Prop := cmp a b <> Gt.
(** [a] and [b] compare equal: a stable sort keeps their order. *)
Definition eqv (a b : A) : Prop := cmp a b = Eq.

#[export] Instance eqv_dec (a b : A) : Decision (eqv a b).
Proof. unfold eqv. apply _. Defined.

(** A list is a stable reordering of [l] when every class of equal
    elements appears in it in the order it has in [l]. *)
Definition stable (l l' : list A) : Prop :=
  forall z, filter (eqv z) l' = filter (eqv z) l.

Lemma eqv_refl (a : A) : eqv a a.
Proof. unfold eqv. pose proof (cmp_antisym a a). by destruct (cmp a a). Qed.

Lemma eqv_sym (a b : A) : eqv a b -> eqv b a.
Proof. unfold eqv. intros H. by rewrite cmp_antisym, H. Qed.

Lemma le_total_eqv (a b : A) : le a b -> le b a -> eqv a b.
Proof.
  unfold le, eqv. rewrite (cmp_antisym b a). by destruct (cmp a b).
Qed.

Lemma eqv_trans (a b c : A) : eqv a b -> eqv b c -> eqv a c.
Proof.
  intros Hab Hbc. apply le_total_eqv; unfold le, eqv in *.
  - apply (cmp_le_trans a b c); congruence.
  - apply (cmp_le_trans c b a).
    + rewrite (cmp_antisym c b), Hbc. done.
    + rewrite (cmp_antisym b a), Hab. done.
Qed.

Lemma gt_le (a b : A) : cmp a b = Gt -> le b a.
Proof. unfold le. intros H. by rewrite cmp_antisym, H. Qed.

Lemma insert_sorted (x : A) (s : list A) :
  StronglySorted le s -> StronglySorted le (insert cmp x s).
Proof.
  induction 1 as [|y s Hs IH Hy]; simpl; [repeat constructor|].
  destruct (cmp x y) eqn:Hxy.
  3: { constructor; [done|]. rewrite insert_perm. constructor; [by apply gt_le|done]. }
  all: constructor; [by constructor|]; constructor; [unfold le; by rewrite Hxy|].
  all: eapply Forall_impl; [exact Hy|]; intros z Hz; apply (cmp_le_trans x y z); by rewrite ?Hxy.
Qed.

Lemma isort_sorted (l : list A) : StronglySorted le (isort cmp l).
Proof. induction l; simpl; [constructor|]. by apply insert_sorted. Qed.

(** [x] is inserted before every element it is equal to. *)
Lemma insert_filter_eqv (z x : A) (s : list A) :
  filter (eqv z) (insert cmp x s) = filter (eqv z) (x :: s).
Proof.
  induction s as [|y s IH]; simpl; [done|].
  destruct (cmp x y) eqn:Hxy; try done.
  rewrite !filter_cons, IH, filter_cons.
  destruct (decide (eqv z y)) as [Hy|Hy], (decide (eqv z x)) as [Hx|Hx]; try done.
  exfalso. unfold eqv in *. pose proof (eqv_trans x z y (eqv_sym z x Hx) Hy) as E.
  unfold eqv in E. congruence.
Qed.

Lemma isort_stable (l : list A) : stable l (isort cmp l).
Proof.
  intros z. induction l as [|x l IH]; simpl; [done|].
  rewrite insert_filter_eqv, !filter_cons. by case_decide; rewrite IH.
Qed.
(** Two sorted, stable reorderings of the same elements are equal. *)
Lemma sorted_stable_eq (l1 l2 : list A) :
  StronglySorted le l1 -> StronglySorted le l2 -> l1 ≡ₚ l2 ->
  (forall z, filter (eqv z) l1 = filter (eqv z) l2) -> l1 = l2.
Proof.
  intros Hs1. revert l2. induction Hs1 as [|a r1 Hr1 IH Ha]; intros l2 Hs2 Hp Hf.
  { symmetry. apply Permutation_nil_r. by symmetry. }
  destruct Hs2 as [|b r2 Hr2 Hb]; [by apply Permutation_nil_r in Hp|].
  assert (a = b) as <-.
  { pose proof (Hf a) as Hfa. rewrite !filter_cons, decide_True in Hfa by apply eqv_refl.
    destruct (decide (eqv a b)) as [Hab|Hab]; [congruence|]. exfalso. apply Hab.
    assert (b ∈ a :: r1) as [->|Hb1]%elem_of_cons by (rewrite Hp; left).
    { apply eqv_refl. }
    assert (a ∈ b :: r2) as [->|Ha2]%elem_of_cons by (rewrite <- Hp; left).
    { apply eqv_refl. }
    rewrite Forall_forall in Ha, Hb. apply le_total_eqv; auto. }
  f_equal. apply IH; [done|by apply Permutation_cons_inv in Hp|].
  intros z. specialize (Hf z). rewrite !filter_cons in Hf. case_decide; [by injection Hf|done].
Qed.

(** For a comparator that is a total preorder, [isort] is
    characterised by its result: a list is [isort l] exactly when it is a
    reordering of [l], sorted, and keeps the elements that compare equal
    in their order in [l].  Every stable sort computes it, so the card
    order does not depend on the algorithm behind [Array.prototype.sort]. *)
Theorem isort_characterised (l l' : list A) :
  l' = isort cmp l <-> l' ≡ₚ l /\ StronglySorted le l' /\ stable l l'.
Proof.
  split.
  - intros ->. split; [apply isort_perm|]. split; [apply isort_sorted|apply isort_stable].
  - intros (Hp & Hs & Hst). apply sorted_stable_eq; [done|apply isort_sorted| |].
    + by rewrite Hp, isort_perm.
    + intros z. by rewrite (Hst z), (isort_stable l z).
Qed.
End isort_laws.

(** ** The sort with a comparator that can throw *)

Section isort_t.
Context {A : Type} (cmpt : A -> A -> throws comparison).

Fixpoint insert_t (x : A) (l : list A) : throws (list A) :=
  match l with
  | [] => Ret [x]
  | y :: l' =>
      let! c := cmpt x y in
      match c with
      | Gt => let! r := insert_t x l' in Ret (y :: r)
      | _ => Ret (x :: l)
      end
  end.

Fixpoint isort_t (l : list A) : throws (list A) :=
  match l with
  | [] => Ret []
  | x :: l' => let! s := isort_t l' in insert_t x s
  end.

(** When the comparator completes on the elements of the list, the sort
    completes and is [isort]. *)
Lemma isort_t_total (cmp : A -> A -> comparison) (l : list A) :
  (forall a b, a ∈ l -> b ∈ l -> cmpt a b = Ret (cmp a b)) ->
  isort_t l = Ret (isort cmp l).
Proof.
  induction l as [|x l IH]; intros Hc; simpl; [done|].
  rewrite IH by (intros a b Ha Hb; apply Hc; by right).
  simpl. assert (Hin : forall y, y ∈ isort cmp l -> cmpt x y = Ret (cmp x y)).
  { intros y Hy. apply Hc; [by left|]. right. by rewrite <- (isort_perm cmp l). }
  clear IH Hc. induction (isort cmp l) as [|y s IHs]; simpl; [done|].
  rewrite (Hin y) by by left. simpl.
  destruct (cmp x y); try done. rewrite IHs; [done|]. intros z Hz. apply Hin. by right.
Qed.
End isort_t.

(** ** Witness *)

(** Nodes keyed by title, compared by title only. *)
Definition by_key (a b : string * nat) : comparison := String.compare a.1 b.1.

Lemma isort_characterised_witness :
  let l := [("b", 0); ("a", 1); ("b", 2)] in
  isort by_key l = [("a", 1); ("b", 0); ("b", 2)] /\
  [("a", 1); ("b", 0); ("b", 2)] ≡ₚ l /\
  StronglySorted (le by_key) [("a", 1); ("b", 0); ("b", 2)] /\
  stable by_key l [("a", 1); ("b", 0); ("b", 2)].
Proof.
  intros l. split; [reflexivity|].
  apply (isort_characterised by_key (fun a b => String.compare_antisym a.1 b.1)
           (fun a b c => string_compare_le_trans a.1 b.1 c.1) l).
  reflexivity.
Defined.
