(* ===== verification/Binder.v ===== *)
(** * The parameter binder

    [renderWorkflow] (app.js lines 86-177) turns every node of the workflow
    into a card: a heading, an enable toggle bound to [node.mode], and one
    field per declared input.  A field's control is a select when the
    resolver gives choices, a number input for [INT] and [FLOAT] inputs and a
    text input otherwise; its initial value is [widgets_values[i]], else the
    input's [default], else the empty string.  An edit writes the control's
    value back into [node.widgets_values[i]].

    The DOM is modelled by what the code reads back from it: the options of
    a select and which one is selected, and the value of an input after the
    browser's sanitisation (a number input keeps only a valid floating-point
    number, a text input drops line breaks).  Each card records the position
    of its node in [workflow.nodes]: the sorted array holds the same node
    objects, so a handler of the card mutates that node of the workflow. *)

From S2P Require Import Prelude JsValue Json Schema StableSort.

(** ** Controls *)

Inductive control : Type :=
  | Select (options : list string) (selected : option nat)
  | NumberInput (step : string) (val : string)
  | TextInput (val : string).

(** [control.value] *)
Definition control_value (c : control) : string :=
  match c with
  | Select opts (Some i) => default "" (opts !! i)
  | Select _ None => ""
  | NumberInput _ v => v
  | TextInput v => v
  end.

Fixpoint find_index (s : string) (l : list string) : option nat :=
  match l with
  | [] => None
  | x :: l' => if String.eqb s x then Some 0 else S <$> find_index s l'
  end.

(** [select.value = s]: the first option whose value is [s] is selected;
    when there is none, no option is selected and the value reads as the
    empty string. *)
Definition select_set (opts : list string) (s : string) : control :=
  Select opts (find_index s opts).

Definition is_digit (c : ascii) : bool :=
  let n := nat_of_ascii c in (48 <=? n) && (n <=? 57).

(** The leading digits of a string, as their number and the rest. *)
Fixpoint span_digits (s : string) : nat * string :=
  match s with
  | String c s' => if is_digit c then let '(n, r) := span_digits s' in (S n, r) else (0, s)
  | EmptyString => (0, EmptyString)
  end.

Definition exponent_ok (s : string) : bool :=
  match s with
  | EmptyString => true
  | String e s' =>
      if (Ascii.eqb e "e") || (Ascii.eqb e "E") then
        let s'' := match s' with
                   | String c r => if (Ascii.eqb c "-") || (Ascii.eqb c "+") then r else s'
                   | EmptyString => s'
                   end in
        let '(n, r) := span_digits s'' in (0 <? n) && String.eqb r ""
      else false
  end.

(** A valid floating-point number of HTML: an optional minus sign, digits,
    a fraction of at least one digit, or both, and an optional exponent. *)
Definition valid_float (s : string) : bool :=
  let s1 := match s with
            | String c r => if Ascii.eqb c "-" then r else s
            | EmptyString => s
            end in
  let '(n1, r1) := span_digits s1 in
  match r1 with
  | String c r2 =>
      if Ascii.eqb c "." then
        let '(n2, r3) := span_digits r2 in (0 <? n2) && exponent_ok r3
      else (0 <? n1) && exponent_ok r1
  | EmptyString => 0 <? n1
  end.

(** The value sanitisation of [<input type=number>]. *)
Definition sanitize_number (s : string) : string := if valid_float s then s else "".

(** The value sanitisation of [<input type=text>]: line feeds and carriage
    returns are removed. *)
Fixpoint strip_newlines (s : string) : string :=
  match s with
  | EmptyString => EmptyString
  | String c s' =>
      if (nat_of_ascii c =? 10) || (nat_of_ascii c =? 13) then strip_newlines s'
      else String c (strip_newlines s')
  end.

(** The control of one field with its initial value (app.js lines
    139-163).  [choices[0]] is the first choice, [undefined] for an empty
    list; [value ?? 0] never takes its right side, [value] having already
    fallen back to the empty string. *)
Definition make_control (choices : option (list value)) (inputType v : value) : control :=
  match choices with
  | Some cs =>
      select_set (map to_str cs)
        (to_str (js_or (js_or v (get_index (VArr cs) 0)) (VStr "")))
  | None =>
      if strict_eq inputType (VStr "INT") then
        NumberInput "1" (sanitize_number (to_str (coalesce v (VNum 0))))
      else if strict_eq inputType (VStr "FLOAT") then
        NumberInput "0.01" (sanitize_number (to_str (coalesce v (VNum 0))))
      else TextInput (strip_newlines (formatValue v))
  end.

(** ** Fields *)

Record field := {
  f_index : nat;
  f_label : string;
  f_control : control
}.

(** [currentValue ?? input.default ?? ''] with
    [currentValue = node.widgets_values?.[index]] (app.js lines 132-133). *)
Definition currentValue (node : value) (index : nat) (input : value) : value :=
  coalesce (coalesce (get_index_opt (get node "widgets_values") (Z.of_nat index))
                     (get input "default"))
           (VStr "").

(** The field of the input at position [index] (app.js lines 128-167):
    [input.name] throws when the input is nullish, the resolver may throw
    on a name that is not a string. *)
Definition derive_field `{Resolver} (objectInfo modelRegistry node : value)
    (index : nat) (input : value) : throws field :=
  let! name := get_strict input "name" in
  let! choices := resolve objectInfo modelRegistry (get node "type") name in
  let v := currentValue node index input in
  Ret {| f_index := index;
         f_label := (to_str name ++ " (" ++ to_str (get input "type") ++ ")")%string;
         f_control := make_control choices (get input "type") v |}.

Inductive body : Type :=
  | Placeholder
  | Fields (fs : list field).

(** [node.inputs || []] *)
Definition node_inputs (node : value) : value := js_or (get node "inputs") (VArr []).

Definition indexed {A} (l : list A) : list (nat * A) := zip (seq 0 (length l)) l.

(** The body of a card (app.js lines 123-171): the placeholder when
    [inputs.length === 0], else one field per input; [forEach] throws on
    a value that is not an array. *)
Definition derive_body `{Resolver} (objectInfo modelRegistry node : value) : throws body :=
  let inputs := node_inputs node in
  if strict_eq (get inputs "length") (VNum 0) then Ret Placeholder else
  match inputs with
  | VArr xs =>
      let! fs := all_throws (fun ix => derive_field objectInfo modelRegistry node ix.1 ix.2)
                   (indexed xs) in
      Ret (Fields fs)
  | _ => Throw (TypeError "inputs.forEach is not a function")
  end.

(** ** Cards *)

Record card := {
  c_node : nat;
  c_heading : string;
  c_subtitle : string;
  c_checked : bool;
  c_body : body
}.

(** [node.mode !== 4] *)
Definition enabled (node : value) : bool := negb (strict_eq (get node "mode") (VNum 4)).

(** One card (app.js lines 96-175); [i] is the position of the node in
    [workflow.nodes]. *)
Definition render_card `{Resolver} (objectInfo modelRegistry : value) (i : nat)
    (node : value) : throws card :=
  let! title := get_strict node "title" in
  let! b := derive_body objectInfo modelRegistry node in
  Ret {| c_node := i;
         c_heading := to_str (js_or title (get node "type"));
         c_subtitle := (to_str (get node "type") ++ " · ID " ++ to_str (get node "id"))%string;
         c_checked := enabled node;
         c_body := b |}.

(** The comparator [(a.title || '').localeCompare(b.title || '')] on nodes
    tagged with their position. *)
Definition title_compare `{Collation} (a b : nat * value) : throws comparison :=
  let! ta := get_strict a.2 "title" in
  match js_or ta (VStr "") with
  | VStr sa =>
      let! tb := get_strict b.2 "title" in
      Ret (collate sa (to_str (js_or tb (VStr ""))))
  | _ => Throw (TypeError "localeCompare is not a function")
  end.

(** The title a node is sorted by, [(node.title || '')], for a node whose
    title is absent or a string. *)
Definition title_key (node : value) : string :=
  match js_or (get node "title") (VStr "") with VStr s => s | _ => "" end.

Definition title_ok (node : value) : Prop :=
  nullish node = false /\ exists s, js_or (get node "title") (VStr "") = VStr s.

Definition by_title `{Collation} (a b : nat * value) : comparison :=
  collate (title_key a.2) (title_key b.2).

Record view := {
  v_count : string;
  v_cards : list card;
  v_error : option exn
}.

(** [renderWorkflow()] (app.js lines 86-177): nothing happens without a
    workflow; otherwise the list is cleared, the node count shown, the
    nodes sorted by title and one card appended per node until a card
    throws. *)
Definition renderWorkflow `{Resolver} `{Collation}
    (workflow objectInfo modelRegistry : value) (old : view) : view :=
  if negb (truthy workflow) then old else
  let nodes := js_or (get workflow "nodes") (VArr []) in
  let count := text_content (get nodes "length") in
  match nodes with
  | VArr ns =>
      match isort_t title_compare (indexed ns) with
      | Throw e => {| v_count := count; v_cards := []; v_error := Some e |}
      | Ret sorted =>
          let '(cs, err) := map_throws (fun ix => render_card objectInfo modelRegistry ix.1 ix.2) sorted in
          {| v_count := count; v_cards := cs; v_error := err |}
      end
  | _ => {| v_count := count; v_cards := []; v_error := Some (TypeError "nodes.slice is not a function") |}
  end.

(** ** Handlers *)

(** [node.widgets_values = node.widgets_values || [];
     node.widgets_values[index] = v] (app.js lines 165-166, and 53-54). *)
Definition write_widget (node : value) (index : nat) (v : value) : value :=
  set node "widgets_values" (set_index (js_or (get node "widgets_values") (VArr [])) index v).

(** [node.mode = checked ? 0 : 4] (app.js line 113). *)
Definition set_mode (node : value) (checked : bool) : value :=
  set node "mode" (VNum (if checked then 0 else 4)).

(** A handler of a card mutates the node object it was built from, which is
    [workflow.nodes[i]]. *)
Definition update_node (workflow : value) (i : nat) (f : value -> value) : value :=
  match get workflow "nodes" with
  | VArr ns => set workflow "nodes" (VArr (alter f i ns))
  | _ => workflow
  end.

(** What the user does to a control: pick the [j]-th option of a select, or
    type a string into an input. *)
Inductive user_input : Type :=
  | Pick (j : nat)
  | Enter (s : string).

(** The control after the user's input, with the browser's sanitisation;
    [None] when the input does not fit the control. *)
Definition control_change (c : control) (ev : user_input) : option control :=
  match c, ev with
  | Select opts _, Pick j => if decide (j < length opts) then Some (Select opts (Some j)) else None
  | NumberInput st _, Enter s => Some (NumberInput st (sanitize_number s))
  | TextInput _, Enter s => Some (TextInput (strip_newlines s))
  | _, _ => None
  end.

(** The page: the [workflow] global and the cards on screen. *)
Record page := {
  pg_workflow : value;
  pg_view : view
}.

Definition set_field_control (j : nat) (ctl : control) (c : card) : card :=
  match c_body c with
  | Fields fs =>
      {| c_node := c_node c; c_heading := c_heading c; c_subtitle := c_subtitle c;
         c_checked := c_checked c;
         c_body := Fields (alter (fun f => {| f_index := f_index f; f_label := f_label f;
                                             f_control := ctl |}) j fs) |}
  | Placeholder => c
  end.

Definition set_card_checked (b : bool) (c : card) : card :=
  {| c_node := c_node c; c_heading := c_heading c; c_subtitle := c_subtitle c;
     c_checked := b; c_body := c_body c |}.

Definition map_cards (f : list card -> list card) (v : view) : view :=
  {| v_count := v_count v; v_cards := f (v_cards v); v_error := v_error v |}.

(** The [change] listener of the [j]-th field of the [k]-th card
    (app.js lines 164-167). *)
Definition on_change (pg : page) (k j : nat) (ev : user_input) : page :=
  match v_cards (pg_view pg) !! k with
  | Some c =>
      match c_body c with
      | Fields fs =>
          match fs !! j with
          | Some f =>
              match control_change (f_control f) ev with
              | Some ctl =>
                  {| pg_workflow := update_node (pg_workflow pg) (c_node c)
                                      (fun n => write_widget n (f_index f) (VStr (control_value ctl)));
                     pg_view := map_cards (alter (set_field_control j ctl) k) (pg_view pg) |}
              | None => pg
              end
          | None => pg
          end
      | Placeholder => pg
      end
  | None => pg
  end.

(** The [change] listener of the checkbox of the [k]-th card (app.js lines
    112-114): the click flips [checked], the listener writes the mode. *)
Definition on_toggle (pg : page) (k : nat) : page :=
  match v_cards (pg_view pg) !! k with
  | Some c =>
      let checked := negb (c_checked c) in
      {| pg_workflow := update_node (pg_workflow pg) (c_node c) (fun n => set_mode n checked);
         pg_view := map_cards (alter (set_card_checked checked) k) (pg_view pg) |}
  | None => pg
  end.

(** [node.inputs?.findIndex((input) => input.name === inputName)] *)
Fixpoint find_input (inputName : value) (xs : list value) : throws Z :=
  match xs with
  | [] => Ret (-1)%Z
  | x :: xs' =>
      let! n := get_strict x "name" in
      if strict_eq n inputName then Ret 0%Z
      else let! r := find_input inputName xs' in Ret (if (r <? 0)%Z then r else r + 1)%Z
  end.

(** [applyModelOverride(node, inputName, value)] (app.js lines 50-56): the
    value goes to the position of the first input with that name; nothing
    changes when there is none.  No code of the repository calls it. *)
Definition applyModelOverride (node inputName v : value) : throws value :=
  let! inputs := get_strict node "inputs" in
  match inputs with
  | VUndef | VNull => Ret node
  | VArr xs =>
      let! idx := find_input inputName xs in
      if (0 <=? idx)%Z then Ret (write_widget node (Z.to_nat idx) v) else Ret node
  | _ => Throw (TypeError "node.inputs.findIndex is not a function")
  end.

(** ** Lemmas *)

Lemma indexed_from_lookup {A} (k : nat) (l : list A) (i : nat) :
  zip (seq k (length l)) l !! i = (fun x => (k + i, x)) <$> l !! i.
Proof.
  revert k i. induction l as [|x l IH]; intros k [|i]; simpl; try done.
  - by rewrite Nat.add_0_r.
  - rewrite IH. by rewrite Nat.add_succ_r.
Qed.

Lemma indexed_lookup {A} (l : list A) (i : nat) :
  indexed l !! i = (fun x => (i, x)) <$> l !! i.
Proof. apply (indexed_from_lookup 0). Qed.

Lemma length_indexed {A} (l : list A) : length (indexed l) = length l.
Proof. unfold indexed. rewrite length_zip, length_seq. lia. Qed.

(** An input the binder can read: a non-nullish value with a string name. *)
Definition input_ok (x : value) : Prop :=
  nullish x = false /\ exists s, get x "name" = VStr s.

Section with_resolver.
Context `{RS : ResolverSpec}.

Lemma derive_field_ok (oi reg node : value) (i : nat) (x : value) :
  registry_ok reg -> input_ok x ->
  exists f ch, derive_field oi reg node i x = Ret f /\
    resolve oi reg (get node "type") (get x "name") = Ret ch /\
    f_index f = i /\
    f_control f = make_control ch (get x "type") (currentValue node i x).
Proof.
  intros Hreg [Hx [s Hs]]. destruct (resolve_total oi reg (get node "type") s Hreg) as [ch Hch].
  unfold derive_field, get_strict. rewrite Hx, Hs. simpl. rewrite Hch. simpl.
  by eexists _, ch.
Qed.

(** C1: for a node with a non-empty array of readable inputs, the binder
    derives exactly one field per declared input, the [i]-th field for
    the [i]-th input, whatever the length of [widgets_values] (shorter,
    longer or absent); each field's control is built from the resolver's
    answer and the current value of that input. *)
Theorem fields_cover_inputs (oi reg node : value) (xs : list value) :
  node_inputs node = VArr xs -> xs <> [] -> registry_ok reg -> Forall input_ok xs ->
  exists fs, derive_body oi reg node = Ret (Fields fs) /\ length fs = length xs /\
    forall i f, fs !! i = Some f ->
      f_index f = i /\
      exists x ch, xs !! i = Some x /\
        resolve oi reg (get node "type") (get x "name") = Ret ch /\
        f_control f = make_control ch (get x "type") (currentValue node i x).
Proof.
  intros Hin Hne Hreg Hok. unfold derive_body. rewrite Hin. simpl.
  assert (Hlen : (Z.of_nat (length xs) =? 0)%Z = false).
  { apply Z.eqb_neq. destruct xs; [done|]. simpl. lia. }
  rewrite Hlen.
  set (P := fun (ix : nat * value) f => f_index f = ix.1 /\ exists ch,
              resolve oi reg (get node "type") (get ix.2 "name") = Ret ch /\
              f_control f = make_control ch (get ix.2 "type") (currentValue node ix.1 ix.2)).
  destruct (all_throws_Forall2 (fun ix => derive_field oi reg node ix.1 ix.2) P (indexed xs))
    as [fs [Hfs HP]].
  { intros [i x] Hix. apply list_elem_of_lookup in Hix as [i' Hi'].
    rewrite indexed_lookup in Hi'. destruct (xs !! i') as [x'|] eqn:Hx'; inv Hi'.
    rewrite Forall_forall in Hok.
    destruct (derive_field_ok oi reg node i x Hreg (Hok x (list_elem_of_lookup_2 _ _ _ Hx')))
      as [f [ch [Hf [Hch [Hi Hc]]]]].
    exists f. split; [done|]. split; [done|]. by exists ch. }
  rewrite Hfs. simpl. exists fs. split; [done|]. split.
  { apply Forall2_length in HP. by rewrite <- HP, length_indexed. }
  intros i f Hf. destruct (Forall2_lookup_r _ _ _ _ _ HP Hf) as [[i' x] [Hix [Hidx [ch [Hch Hc]]]]].
  rewrite indexed_lookup in Hix. destruct (xs !! i) as [x'|] eqn:Hx; inv Hix.
  simpl in *. split; [done|]. by exists x, ch.
Qed.
End with_resolver.

(** [widgets_values] as the write-back can update it: an array, an object
    (some node types keep their values under keys), or absent (any falsy
    value, replaced by a fresh array).  On a truthy primitive the
    assignment [widgets_values[i] = v] would be dropped. *)
Definition widgets_storable (w : value) : Prop :=
  match w with
  | VArr _ | VObj _ => True
  | _ => truthy w = false
  end.

Definition widgets_ok (node : value) : Prop := widgets_storable (get node "widgets_values").

Lemma set_index_arr_read (xs : list value) (i j : nat) (v : value) :
  get_index (set_index (VArr xs) i v) (Z.of_nat j) =
    if decide (i = j) then v else get_index (VArr xs) (Z.of_nat j).
Proof.
  simpl set_index. rewrite !get_index_arr.
  case_decide; [subst; by rewrite js_set_lookup_eq|by apply js_set_lookup_ne_default].
Qed.

Lemma set_index_obj_read (qs : list (string * value)) (i j : nat) (v : value) :
  get_index (set_index (VObj qs) i v) (Z.of_nat j) =
    if decide (i = j) then v else get_index (VObj qs) (Z.of_nat j).
Proof.
  simpl. case_decide as Hij; [subst; by rewrite assoc_get_set_eq|].
  rewrite assoc_get_set_ne; [done|]. intros Heq. apply z_to_str_inj in Heq. lia.
Qed.

(** [node.widgets_values || []] is an array that reads like the old value,
    or the old object itself. *)
Lemma widgets_or_empty (w : value) :
  widgets_storable w ->
  (exists xs, js_or w (VArr []) = VArr xs /\
     forall j, get_index (VArr xs) (Z.of_nat j) = get_index_opt w (Z.of_nat j)) \/
  (exists qs, w = VObj qs /\ js_or w (VArr []) = w).
Proof.
  unfold widgets_storable. intros Hw. destruct w as [| |b|n|s|xs|qs]; unfold js_or; simpl truthy in *.
  6:{ left. exists xs. split; [done|]. intros j. done. }
  6:{ right. by exists qs. }
  all: left; exists []; split; [try destruct b; try rewrite Hw; done|].
  all: intros j; rewrite get_index_arr; unfold get_index_opt; try (simpl; by destruct (Z.ltb (Z.of_nat j) 0)).
  destruct s; [|done]. cbn [nullish negb]. rewrite get_index_str_empty. simpl. by destruct (Z.ltb (Z.of_nat j) 0).
Qed.

(** What the binder reads at position [j] after the write-back at [i]. *)
Lemma widget_read_write (ps : list (string * value)) (i j : nat) (v : value) :
  widgets_ok (VObj ps) ->
  get_index_opt (get (write_widget (VObj ps) i v) "widgets_values") (Z.of_nat j) =
    if decide (i = j) then v
    else get_index_opt (get (VObj ps) "widgets_values") (Z.of_nat j).
Proof.
  unfold widgets_ok, write_widget. rewrite get_set_eq. intros Hok.
  destruct (widgets_or_empty _ Hok) as [[xs [-> Hread]]|[qs [Hq ->]]].
  - unfold get_index_opt at 1. simpl nullish. cbv iota.
    rewrite set_index_arr_read, Hread. done.
  - rewrite Hq. unfold get_index_opt. simpl nullish. cbv iota. apply set_index_obj_read.
Qed.

(** An edit of the field at [i] is read back at [i] and nowhere else. *)
Lemma write_widget_read (ps : list (string * value)) (i j : nat) (v input : value) :
  widgets_ok (VObj ps) -> nullish v = false ->
  currentValue (write_widget (VObj ps) i v) j input =
    if decide (i = j) then v else currentValue (VObj ps) j input.
Proof.
  intros Hok Hv. unfold currentValue. rewrite widget_read_write by done.
  case_decide; [|done]. by rewrite (coalesce_present v), (coalesce_present v).
Qed.

Lemma write_widget_get_ne (ps : list (string * value)) (i : nat) (v : value) (k : string) :
  k <> "widgets_values" -> get (write_widget (VObj ps) i v) k = get (VObj ps) k.
Proof. intros Hk. unfold write_widget. by apply get_set_ne. Qed.

Lemma update_node_nodes (wf : value) (ns : list value) (i : nat) (f : value -> value) :
  get wf "nodes" = VArr ns -> get (update_node wf i f) "nodes" = VArr (alter f i ns).
Proof.
  unfold update_node. intros Hn. rewrite Hn.
  destruct wf as [| | | | | |ps]; simpl in Hn; try discriminate. apply get_set_eq.
Qed.

(** C2 (spec section 5): a value written by an edit survives any later
    metadata refresh: re-deriving the field under any schema and registry
    builds its control from the edited value, read again at tier 1. *)
Theorem edit_survives_refresh `{Resolver} (oi reg : value) (ps : list (string * value))
    (i : nat) (s : string) (input : value) (f : field) :
  widgets_ok (VObj ps) ->
  derive_field oi reg (write_widget (VObj ps) i (VStr s)) i input = Ret f ->
  exists ch, resolve oi reg (get (VObj ps) "type") (get input "name") = Ret ch /\
    f_control f = make_control ch (get input "type") (VStr s).
Proof.
  intros Hok Hf. remember (write_widget (VObj ps) i (VStr s)) as node' eqn:Hnode.
  assert (Hty : get node' "type" = get (VObj ps) "type").
  { subst node'. by apply write_widget_get_ne. }
  assert (Hcur : currentValue node' i input = VStr s).
  { subst node'. rewrite write_widget_read by done. by rewrite decide_True. }
  unfold derive_field, get_strict in Hf. rewrite Hty, Hcur in Hf.
  destruct (nullish input); [done|]. cbn [throws_bind] in Hf.
  destruct (resolve oi reg (get (VObj ps) "type") (get input "name")) as [ch|e]; [|done].
  cbn [throws_bind] in Hf. injection Hf as <-. by exists ch.
Qed.

(** C5: the [change] listener of a field stores the control's value, as a
    string, at the field's index of the node the card was built from; the
    node's other positions and the other nodes are unchanged. *)
Theorem on_change_writes (pg : page) (k j : nat) (ev : user_input) (c : card)
    (fs : list field) (f : field) (ctl : control) (ns : list value)
    (ps : list (string * value)) :
  v_cards (pg_view pg) !! k = Some c -> c_body c = Fields fs -> fs !! j = Some f ->
  control_change (f_control f) ev = Some ctl ->
  get (pg_workflow pg) "nodes" = VArr ns -> ns !! c_node c = Some (VObj ps) ->
  widgets_ok (VObj ps) ->
  exists ns' node', get (pg_workflow (on_change pg k j ev)) "nodes" = VArr ns' /\
    ns' !! c_node c = Some node' /\
    (forall m, m <> c_node c -> ns' !! m = ns !! m) /\
    (forall idx input, currentValue node' idx input =
       if decide (f_index f = idx) then VStr (control_value ctl)
       else currentValue (VObj ps) idx input).
Proof.
  intros Hc Hb Hf Hctl Hns Hn Hok. unfold on_change. rewrite Hc, Hb, Hf, Hctl. simpl.
  rewrite (update_node_nodes _ ns) by done.
  eexists _, (write_widget (VObj ps) (f_index f) (VStr (control_value ctl))).
  split; [done|]. split; [by rewrite list_lookup_alter_eq, Hn|]. split.
  - intros m Hm. by rewrite list_lookup_alter_ne.
  - intros idx input. by apply write_widget_read.
Qed.

(** The node of the workflow at position [i]. *)
Definition node_at (pg : page) (i : nat) : option value :=
  match get (pg_workflow pg) "nodes" with
  | VArr ns => ns !! i
  | _ => None
  end.

Lemma on_toggle_spec (pg : page) (k : nat) (c : card) (ns : list value) :
  v_cards (pg_view pg) !! k = Some c -> get (pg_workflow pg) "nodes" = VArr ns ->
  v_cards (pg_view (on_toggle pg k)) !! k = Some (set_card_checked (negb (c_checked c)) c) /\
  get (pg_workflow (on_toggle pg k)) "nodes" =
    VArr (alter (fun n => set_mode n (negb (c_checked c))) (c_node c) ns).
Proof.
  intros Hc Hns. unfold on_toggle. rewrite Hc. simpl. split.
  - by rewrite list_lookup_alter_eq, Hc.
  - by apply update_node_nodes.
Qed.

Lemma set_mode_obj (ps : list (string * value)) (b : bool) :
  exists qs, set_mode (VObj ps) b = VObj qs.
Proof. by eexists. Qed.

Lemma set_mode_read (ps : list (string * value)) (b : bool) :
  get (set_mode (VObj ps) b) "mode" = VNum (if b then 0 else 4) /\
  enabled (set_mode (VObj ps) b) = b.
Proof.
  unfold enabled, set_mode. rewrite get_set_eq. split; [done|]. by destruct b.
Qed.

(** The enable toggle collapses [mode] to two values.  On a freshly
    rendered card the first click writes 4 to an enabled node and 0 to a
    disabled one, whatever number [mode] held; the second click writes the
    collapsed original value back (0 unless [mode] was 4) and leaves the
    card as it was rendered. *)
Theorem toggle_twice_collapses (pg : page) (k : nat) (c : card) (ns : list value)
    (ps : list (string * value)) :
  v_cards (pg_view pg) !! k = Some c -> c_checked c = enabled (VObj ps) ->
  get (pg_workflow pg) "nodes" = VArr ns -> ns !! c_node c = Some (VObj ps) ->
  (exists n1, node_at (on_toggle pg k) (c_node c) = Some n1 /\
     get n1 "mode" = VNum (if enabled (VObj ps) then 4 else 0)) /\
  (exists n2, node_at (on_toggle (on_toggle pg k) k) (c_node c) = Some n2 /\
     get n2 "mode" = VNum (if enabled (VObj ps) then 0 else 4) /\
     enabled n2 = enabled (VObj ps)) /\
  v_cards (pg_view (on_toggle (on_toggle pg k) k)) !! k = Some c.
Proof.
  intros Hc Hchk Hns Hn.
  destruct (on_toggle_spec pg k c ns Hc Hns) as [Hc1 Hns1].
  destruct (on_toggle_spec _ k _ _ Hc1 Hns1) as [Hc2 Hns2].
  unfold node_at. rewrite Hns2, Hns1. cbn [c_node c_checked set_card_checked] in *.
  rewrite !list_lookup_alter_eq, Hn. cbn -[set_mode].
  destruct (set_mode_obj ps (negb (c_checked c))) as [qs Hqs].
  destruct (set_mode_read ps (negb (c_checked c))) as [Hm1 He1].
  rewrite Hqs in *. destruct (set_mode_read qs (negb (negb (c_checked c)))) as [Hm2 He2].
  rewrite Hchk, ?negb_involutive in *.
  split; [|split].
  - eexists. split; [done|]. rewrite Hm1. by destruct (enabled (VObj ps)).
  - eexists. split; [done|]. rewrite Hm2, He2. by destruct (enabled (VObj ps)).
  - rewrite Hc2. destruct c; simpl in *. by subst.
Qed.

(** ** The initial value of a select *)

Lemma find_index_lookup (s : string) (l : list string) (i : nat) :
  find_index s l = Some i -> l !! i = Some s.
Proof.
  revert i. induction l as [|x l IH]; intros i; simpl; [done|].
  destruct (String.eqb_spec s x) as [->|]; [by intros [= <-]|].
  destruct (find_index s l) as [i'|] eqn:E; [|done]. intros [= <-]. simpl. by apply IH.
Qed.

Lemma find_index_None (s : string) (l : list string) :
  find_index s l = None <-> s ∉ l.
Proof.
  induction l as [|x l IH]; simpl; [split; [intros _; apply not_elem_of_nil|done]|].
  rewrite not_elem_of_cons. destruct (String.eqb_spec s x) as [->|Hne]; [split; [done|intros [H _]; by destruct H]|].
  destruct (find_index s l) as [i|]; simpl.
  - split; [done|]. intros [_ H]. by apply IH in H.
  - split; [|done]. intros _. split; [done|]. by apply IH.
Qed.

Lemma select_set_value (opts : list string) (s : string) :
  control_value (select_set opts s) = if bool_decide (s ∈ opts) then s else "".
Proof.
  unfold select_set. simpl. destruct (find_index s opts) as [i|] eqn:E.
  - rewrite bool_decide_true; [by rewrite (find_index_lookup _ _ _ E)|].
    apply list_elem_of_lookup. exists i. by apply find_index_lookup.
  - rewrite bool_decide_false; [done|]. by apply find_index_None.
Qed.

(** The value a select shows when it is built.  A truthy current value
    is shown only when it is one of the choices, and otherwise the select
    shows no option (value [""]), even when there are choices; a falsy
    current value ([0], [false], [""]) shows the first choice. *)
Theorem select_initial_value (cs : list value) (ty v : value) :
  control_value (make_control (Some cs) ty v) =
    if truthy v then (if bool_decide (to_str v ∈ map to_str cs) then to_str v else "")
    else match cs with
         | c0 :: _ => if truthy c0 then to_str c0 else ""
         | [] => ""
         end.
Proof.
  unfold make_control. rewrite select_set_value. unfold js_or.
  destruct (truthy v) eqn:Hv; [by rewrite Hv|].
  destruct cs as [|c0 cs]; simpl; [done|].
  destruct (truthy c0) eqn:Hc0; simpl; rewrite ?Hc0.
  - rewrite bool_decide_true; [done|]. by left.
  - by destruct (bool_decide _).
Qed.

(** ** Text fields and line breaks *)

Definition is_line_break (c : ascii) : bool :=
  (nat_of_ascii c =? 10) || (nat_of_ascii c =? 13).

Fixpoint has_line_break (s : string) : bool :=
  match s with
  | EmptyString => false
  | String c s' => is_line_break c || has_line_break s'
  end.

Lemma strip_newlines_clean (s : string) : has_line_break (strip_newlines s) = false.
Proof.
  induction s as [|c s IH]; simpl; [done|].
  destruct ((nat_of_ascii c =? 10) || (nat_of_ascii c =? 13)) eqn:E; simpl; [done|].
  unfold is_line_break. by rewrite E, IH.
Qed.

(** C6: a text field cannot hold a line break.  A stored string is shown
    with its line breaks removed, and whatever the user enters, the value
    the [change] listener writes back has none: editing a multi-line
    prompt through this page joins its lines. *)
Theorem text_field_drops_line_breaks (ty : value) (s : string) :
  strict_eq ty (VStr "INT") = false -> strict_eq ty (VStr "FLOAT") = false ->
  control_value (make_control None ty (VStr s)) = strip_newlines s /\
  forall ev ctl, control_change (make_control None ty (VStr s)) ev = Some ctl ->
    has_line_break (control_value ctl) = false.
Proof.
  intros Hi Hf. unfold make_control. rewrite Hi, Hf. split; [done|].
  intros [j|s'] ctl Hc; simpl in Hc; [done|]. injection Hc as <-. apply strip_newlines_clean.
Qed.

(** ** The order of the cards *)

Lemma title_compare_total `{Collation} (a b : nat * value) :
  title_ok a.2 -> title_ok b.2 -> title_compare a b = Ret (by_title a b).
Proof.
  intros [Ha [sa Hsa]] [Hb [sb Hsb]]. unfold title_compare, get_strict, by_title, title_key.
  rewrite Ha, Hb. simpl. rewrite Hsa. simpl. by rewrite Hsb.
Qed.

Lemma render_card_node `{Resolver} (oi reg : value) (i : nat) (node : value) (c : card) :
  render_card oi reg i node = Ret c -> c_node c = i.
Proof.
  unfold render_card. destruct (get_strict node "title"); [|done]. simpl.
  destruct (derive_body oi reg node); [|done]. simpl. intros Hc. by inv Hc.
Qed.

(** C28: the cards are shown in the stable order of the nodes by title:
    when every title is absent or a string, the cards [renderWorkflow]
    appends are those of the first nodes of [isort] by title, and of all
    of them when no card throws. *)
Theorem cards_in_title_order `{Resolver} `{Collation} (wf oi reg : value) (old : view)
    (ns : list value) :
  truthy wf = true -> get wf "nodes" = VArr ns -> Forall title_ok ns ->
  let v := renderWorkflow wf oi reg old in
  map c_node (v_cards v) = take (length (v_cards v)) (map fst (isort by_title (indexed ns))) /\
  (v_error v = None -> length (v_cards v) = length ns).
Proof.
  intros Hwf Hn Hok v. subst v. unfold renderWorkflow. rewrite Hwf, Hn. simpl.
  rewrite (isort_t_total title_compare by_title).
  2: { intros a b Ha Hb. rewrite Forall_forall in Hok.
       apply list_elem_of_lookup in Ha as [i Hi], Hb as [j Hj].
       rewrite indexed_lookup in Hi, Hj.
       destruct (ns !! i) eqn:Ei, (ns !! j) eqn:Ej; inv Hi; inv Hj.
       apply title_compare_total; apply Hok; eapply list_elem_of_lookup_2; eauto. }
  set (sorted := isort by_title (indexed ns)).
  pose proof (map_throws_prefix (fun ix => render_card oi reg ix.1 ix.2) sorted) as Hpre.
  pose proof (map_throws_complete (fun ix => render_card oi reg ix.1 ix.2) sorted) as Hcomp.
  destruct (map_throws _ sorted) as [cs err]. simpl in *. split.
  - rewrite <- fmap_take. apply Forall2_map_eq.
    eapply Forall2_impl; [exact Hpre|]. intros [i x] c. apply render_card_node.
  - intros ->. rewrite (Hcomp cs) by done. subst sorted.
    by rewrite (Permutation_length (isort_perm _ _)), length_indexed.
Qed.

(** ** Witnesses on a concrete workflow *)

Definition ex_seed : value := VObj [("name", VStr "seed"); ("type", VStr "INT")].
Definition ex_sampler : value := VObj [("name", VStr "sampler_name"); ("type", VStr "COMBO")].
Definition ex_ckpt : value := VObj [("name", VStr "ckpt_name"); ("type", VStr "STRING")].

(** A [KSampler] node with an unusual [mode] 2, a stored sampler name that
    the schema does not list, and a [widgets_values] shorter than its
    inputs. *)
Definition ex_node_props : list (string * value) :=
  [("id", VNum 3); ("type", VStr "KSampler"); ("title", VStr "Sampler"); ("mode", VNum 2);
   ("inputs", VArr [ex_seed; ex_sampler; ex_ckpt]);
   ("widgets_values", VArr [VNum 42; VStr "dpm"])].

Definition ex_node : value := VObj ex_node_props.

Definition ex_workflow : value := VObj [("nodes", VArr [ex_node])].

(** Three nodes: one titled after another, one without a title (sorted as
    the empty string), and one whose title sorts first. *)
Definition ex_titled : value :=
  VObj [("nodes", VArr [VObj [("id", VNum 1); ("type", VStr "KSampler"); ("title", VStr "Sampler")];
                         VObj [("id", VNum 2); ("type", VStr "SaveImage")];
                         VObj [("id", VNum 3); ("type", VStr "CheckpointLoaderSimple");
                               ("title", VStr "Loader")]])].

Definition ex_blank_view : view := {| v_count := ""; v_cards := []; v_error := None |}.

Definition ex_page : page :=
  {| pg_workflow := ex_workflow;
     pg_view := renderWorkflow ex_workflow ex_object_info ex_registry
                  {| v_count := ""; v_cards := []; v_error := None |} |}.

Definition ex_fields : list field :=
  [{| f_index := 0; f_label := "seed (INT)"; f_control := NumberInput "1" "42" |};
   {| f_index := 1; f_label := "sampler_name (COMBO)"; f_control := Select ["euler"; "ddim"] None |};
   {| f_index := 2; f_label := "ckpt_name (STRING)"; f_control := Select ["sdxl"] (Some 0) |}].

Definition ex_card : card :=
  {| c_node := 0; c_heading := "Sampler"; c_subtitle := "KSampler · ID 3";
     c_checked := true; c_body := Fields ex_fields |}.

Lemma fields_cover_inputs_witness :
  exists fs, derive_body ex_object_info ex_registry ex_node = Ret (Fields fs) /\ length fs = 3.
Proof.
  destruct (@fields_cover_inputs code_resolver code_resolver_spec ex_object_info ex_registry
              ex_node [ex_seed; ex_sampler; ex_ckpt] eq_refl ltac:(discriminate)
              ltac:(simpl; repeat constructor) ltac:(repeat econstructor))
    as [fs [Hfs [Hlen _]]].
  exists fs. split; [exact Hfs|exact Hlen].
Defined.

Lemma edit_survives_refresh_witness :
  exists ch, resolve ex_object_info ex_registry (get ex_node "type") (get ex_seed "name") = Ret ch /\
    f_control {| f_index := 0; f_label := "seed (INT)"; f_control := NumberInput "1" "7" |} =
    make_control ch (get ex_seed "type") (VStr "7").
Proof.
  apply (edit_survives_refresh ex_object_info ex_registry ex_node_props 0 "7" ex_seed).
  - exact I.
  - vm_compute. reflexivity.
Defined.

Lemma on_change_writes_witness :
  exists ns' node', get (pg_workflow (on_change ex_page 0 1 (Pick 0))) "nodes" = VArr ns' /\
    ns' !! 0 = Some node' /\ currentValue node' 1 ex_sampler = VStr "euler" /\
    currentValue node' 0 ex_seed = VNum 42.
Proof.
  destruct (on_change_writes ex_page 0 1 (Pick 0) ex_card ex_fields
              {| f_index := 1; f_label := "sampler_name (COMBO)";
                 f_control := Select ["euler"; "ddim"] None |}
              (Select ["euler"; "ddim"] (Some 0)) [ex_node] ex_node_props)
    as [ns' [node' [H1 [H2 [_ H4]]]]];
    [vm_compute; reflexivity..|exact I|].
  exists ns', node'. split; [exact H1|]. split; [exact H2|].
  rewrite !H4. split; reflexivity.
Defined.

Lemma toggle_twice_collapses_witness :
  exists n1 n2, node_at (on_toggle ex_page 0) 0 = Some n1 /\ get n1 "mode" = VNum 4 /\
    node_at (on_toggle (on_toggle ex_page 0) 0) 0 = Some n2 /\ get n2 "mode" = VNum 0.
Proof.
  destruct (toggle_twice_collapses ex_page 0 ex_card [ex_node] ex_node_props)
    as [[n1 [H1 Hm1]] [[n2 [H2 [Hm2 _]]] _]]; [vm_compute; reflexivity..|].
  exists n1, n2. split; [exact H1|]. split; [exact Hm1|]. split; [exact H2|exact Hm2].
Defined.

Definition ex_multiline : string := String "a" (String (ascii_of_nat 10) (String "b" EmptyString)).

Lemma text_field_drops_line_breaks_witness :
  control_value (make_control None (VStr "STRING") (VStr ex_multiline)) = "ab"%string /\
  has_line_break ex_multiline = true.
Proof.
  destruct (text_field_drops_line_breaks (VStr "STRING") ex_multiline eq_refl eq_refl) as [H _].
  split; [rewrite H; reflexivity|reflexivity].
Defined.

Lemma cards_in_title_order_witness :
  map c_node (v_cards (renderWorkflow ex_titled ex_object_info ex_registry ex_blank_view)) =
    [1; 2; 0].
Proof.
  destruct (cards_in_title_order ex_titled ex_object_info ex_registry ex_blank_view
              [VObj [("id", VNum 1); ("type", VStr "KSampler"); ("title", VStr "Sampler")];
               VObj [("id", VNum 2); ("type", VStr "SaveImage")];
               VObj [("id", VNum 3); ("type", VStr "CheckpointLoaderSimple");
                     ("title", VStr "Loader")]])
    as [Horder _].
  - reflexivity.
  - reflexivity.
  - repeat (constructor; [split; [reflexivity | eexists; reflexivity] |]). constructor.
  - rewrite Horder. vm_compute. reflexivity.
Defined.

