(* ===== verification/Coherence.v ===== *)
(** * The page a handler leaves is the page a render builds

    The [change] listener of a field and the toggle of a card (app.js
    lines 164-167 and 112-114) do not re-render the workflow: they mutate
    the node object the card was built from and leave the DOM as the user
    left it.  [renderWorkflow] runs again only when the metadata is
    refreshed ([loadObjectInfo], app.js lines 265-276) or the workflow is
    loaded.

    This file proves that the page the listeners leave is the page
    [renderWorkflow] builds from the updated workflow with the same
    schema and registry: the same cards in the same order, every other
    card and field unchanged, the edited control showing what a render
    shows.  For a select this holds when the option picked is the first
    option with its text and is not empty: a render selects the first
    option with the stored text, and shows the first choice for an empty
    value ([Binder.select_initial_value]).  The session of the page, with edits, toggles, metadata
    refreshes and registry reloads in any order, keeps the page the render
    of its workflow under the schema and registry of its last render. *)

From S2P Require Import Prelude JsValue Json Schema StableSort Binder.

(** ** Controls read back *)

(** A pick a render shows again: the option picked is not empty and is
    the first option with its text. *)
Definition pick_faithful (c : control) (ev : user_input) : bool :=
  match c, ev with
  | Select opts _, Pick j =>
      match opts !! j with
      | Some o => negb (String.eqb o "") && bool_decide (find_index o opts = Some j)
      | None => true
      end
  | _, _ => true
  end.

Lemma sanitize_number_idem (s : string) : sanitize_number (sanitize_number s) = sanitize_number s.
Proof. unfold sanitize_number. destruct (valid_float s) eqn:E; [by rewrite E|reflexivity]. Qed.

Lemma strip_newlines_idem (s : string) : strip_newlines (strip_newlines s) = strip_newlines s.
Proof.
  induction s as [|c s IH]; simpl; [done|].
  destruct ((nat_of_ascii c =? 10) || (nat_of_ascii c =? 13)) eqn:E; simpl; [done|].
  by rewrite E, IH.
Qed.

(** The control a render builds from the value a change wrote is the
    control the change left. *)
Lemma control_reread (ch : option (list value)) (ty v : value) (ev : user_input) (ctl : control) :
  control_change (make_control ch ty v) ev = Some ctl ->
  pick_faithful (make_control ch ty v) ev = true ->
  make_control ch ty (VStr (control_value ctl)) = ctl.
Proof.
  destruct ch as [cs|].
  - unfold make_control at 1 2, select_set. destruct ev as [j|s]; simpl; [|done].
    case_decide as Hj; [|done]. intros [= <-]. simpl.
    destruct (map to_str cs !! j) as [o|] eqn:Ho; [|apply lookup_ge_None in Ho; lia].
    simpl. intros [Hne Hfi]%andb_true_iff.
    unfold make_control, select_set, js_or. simpl truthy. rewrite Hne. simpl.
    rewrite Hne. simpl. apply bool_decide_eq_true in Hfi. by rewrite Hfi.
  - intros Hc _. unfold make_control in *.
    destruct (strict_eq ty (VStr "INT")); [|destruct (strict_eq ty (VStr "FLOAT"))];
      destruct ev as [j|s]; simpl in Hc; try discriminate; injection Hc as <-; simpl;
      by rewrite ?sanitize_number_idem, ?strip_newlines_idem.
Qed.

(** ** Fields, bodies and cards of an updated node *)

Definition set_ctl (ctl : control) (f : field) : field :=
  {| f_index := f_index f; f_label := f_label f; f_control := ctl |}.

Section derive.
Context `{Resolver}.

Lemma derive_field_index (oi reg node : value) (i : nat) (x : value) (f : field) :
  derive_field oi reg node i x = Ret f -> f_index f = i.
Proof.
  unfold derive_field. destruct (get_strict x "name"); [|done]. simpl.
  destruct (resolve _ _ _ _); [|done]. by intros [= <-].
Qed.

(** The field of input [j] after a write at [idx]: unchanged at another
    position, the control built from the written value at [idx]. *)
Lemma derive_field_write (oi reg : value) (ps : list (string * value)) (idx j : nat) (s : string)
    (x : value) (f : field) :
  widgets_ok (VObj ps) -> derive_field oi reg (VObj ps) j x = Ret f ->
  exists ch, f_control f = make_control ch (get x "type") (currentValue (VObj ps) j x) /\
    derive_field oi reg (write_widget (VObj ps) idx (VStr s)) j x =
      Ret (if decide (idx = j) then set_ctl (make_control ch (get x "type") (VStr s)) f else f).
Proof.
  intros Hok. unfold derive_field.
  rewrite write_widget_get_ne, write_widget_read by done.
  destruct (get_strict x "name") as [name|]; [|done]. cbn [throws_bind].
  destruct (resolve oi reg (get (VObj ps) "type") name) as [ch|]; [|done]. cbn [throws_bind].
  intros [= <-]. exists ch. split; [done|]. by case_decide.
Qed.

(** The body of a node after the [change] listener of its field [j]
    wrote the control's value: the same fields, the [j]-th with the new
    control. *)
Lemma derive_body_write (oi reg : value) (ps : list (string * value)) (j : nat)
    (fs : list field) (f : field) (ev : user_input) (ctl : control) :
  widgets_ok (VObj ps) -> derive_body oi reg (VObj ps) = Ret (Fields fs) -> fs !! j = Some f ->
  control_change (f_control f) ev = Some ctl -> pick_faithful (f_control f) ev = true ->
  f_index f = j /\
  derive_body oi reg (write_widget (VObj ps) j (VStr (control_value ctl))) =
    Ret (Fields (alter (set_ctl ctl) j fs)).
Proof.
  intros Hok Hb Hf Hctl Hpf. unfold derive_body, node_inputs in *.
  rewrite write_widget_get_ne by done.
  destruct (strict_eq _ (VNum 0)); [done|].
  destruct (js_or (get (VObj ps) "inputs") (VArr [])) as [| | | | |xs|]; try done.
  destruct (all_throws _ (indexed xs)) as [fs'|] eqn:Ea; [|done]. injection Hb as Hb. subst fs'.
  apply all_throws_Forall2_inv in Ea.
  destruct (Forall2_lookup_r _ _ _ _ _ Ea Hf) as [[j' x] [Hjx Hd]].
  rewrite indexed_lookup in Hjx. destruct (xs !! j) as [x'|] eqn:Hx; [|done].
  injection Hjx as Ej Ex. subst j' x'.
  pose proof (derive_field_index _ _ _ _ _ _ Hd) as Hidx. split; [done|].
  rewrite (all_throws_of_Forall2 _ _ (alter (set_ctl ctl) j fs)); [done|].
  apply Forall2_lookup. intros m. pose proof (proj1 (Forall2_lookup _ _ _) Ea m) as Hm.
  destruct (decide (m = j)) as [->|Hne].
  - rewrite list_lookup_alter_eq, Hf, indexed_lookup, Hx. constructor. cbn [fst snd].
    destruct (derive_field_write oi reg ps j j (control_value ctl) x f Hok Hd) as [ch [Hc ->]].
    rewrite decide_True by done. rewrite Hc in Hctl, Hpf. by rewrite (control_reread _ _ _ ev ctl Hctl Hpf).
  - rewrite list_lookup_alter_ne by done. rewrite indexed_lookup in Hm |- *.
    destruct (xs !! m) as [y|]; destruct (fs !! m) as [b|];
      inversion Hm as [? ? Hd'|]; subst; constructor.
    cbn [fst snd] in Hd' |- *.
    destruct (derive_field_write oi reg ps j m (control_value ctl) y b Hok Hd') as [ch [_ ->]].
    by rewrite decide_False.
Qed.

(** A node that reads like another, but for its [mode], has the same body. *)
Lemma derive_body_ext (oi reg n n' : value) :
  get n' "inputs" = get n "inputs" -> get n' "type" = get n "type" ->
  get n' "widgets_values" = get n "widgets_values" ->
  derive_body oi reg n' = derive_body oi reg n.
Proof.
  intros Hi Ht Hw. unfold derive_body, node_inputs, derive_field, currentValue.
  by rewrite Hi, Ht, Hw.
Qed.

Lemma get_strict_set_ne (ps : list (string * value)) (k k' : string) (v : value) :
  k <> k' -> get_strict (set (VObj ps) k v) k' = get_strict (VObj ps) k'.
Proof. intros Hk. unfold get_strict. simpl nullish. cbv iota. f_equal. by apply get_set_ne. Qed.

Lemma get_strict_write (ps : list (string * value)) (i : nat) (v : value) (k : string) :
  k <> "widgets_values" -> get_strict (write_widget (VObj ps) i v) k = get_strict (VObj ps) k.
Proof. intros Hk. unfold get_strict. simpl nullish. cbv iota. f_equal. by apply write_widget_get_ne. Qed.

(** The card of a node after the [change] listener of its field [j]. *)
Lemma render_card_write (oi reg : value) (i : nat) (ps : list (string * value)) (c : card)
    (fs : list field) (j : nat) (f : field) (ev : user_input) (ctl : control) :
  widgets_ok (VObj ps) -> render_card oi reg i (VObj ps) = Ret c -> c_body c = Fields fs ->
  fs !! j = Some f -> control_change (f_control f) ev = Some ctl ->
  pick_faithful (f_control f) ev = true ->
  f_index f = j /\
  render_card oi reg i (write_widget (VObj ps) j (VStr (control_value ctl))) =
    Ret (set_field_control j ctl c).
Proof.
  intros Hok Hc Hb Hf Hctl Hpf. unfold render_card in *. rewrite get_strict_write by done.
  destruct (get_strict (VObj ps) "title") as [title|]; [|done]. cbn [throws_bind] in *.
  destruct (derive_body oi reg (VObj ps)) as [b|] eqn:Eb; [|done]. injection Hc as <-.
  cbn [c_body] in Hb. subst b.
  destruct (derive_body_write oi reg ps j fs f ev ctl) as [Hidx ->]; [done..|].
  split; [done|]. unfold set_field_control, enabled. cbn [c_node c_heading c_subtitle c_checked c_body].
  by rewrite !write_widget_get_ne.
Qed.

(** The card of a node after its toggle wrote the mode. *)
Lemma render_card_toggle (oi reg : value) (i : nat) (ps : list (string * value)) (c : card) (b : bool) :
  render_card oi reg i (VObj ps) = Ret c ->
  render_card oi reg i (set_mode (VObj ps) b) = Ret (set_card_checked b c).
Proof.
  intros Hc. destruct (set_mode_read ps b) as [_ He].
  unfold render_card in *. unfold set_mode at 1. rewrite get_strict_set_ne by done.
  rewrite (derive_body_ext oi reg (VObj ps)) by (unfold set_mode; by apply get_set_ne).
  destruct (get_strict (VObj ps) "title") as [title|]; [|done]. cbn [throws_bind] in *.
  destruct (derive_body oi reg (VObj ps)) as [bd|]; [|done]. injection Hc as <-.
  rewrite He. unfold set_card_checked. cbn [c_node c_heading c_subtitle c_checked c_body]. unfold set_mode. by rewrite !get_set_ne.
Qed.

End derive.

(** ** Sorting and looping over a list with one element updated *)

Section update_lists.
Context {A : Type}.

Lemma insert_t_map (cmpt : A -> A -> throws comparison) (g : A -> A) (x : A) (s : list A) :
  (forall a b, cmpt (g a) (g b) = cmpt a b) ->
  insert_t cmpt (g x) (map g s) = throws_bind (insert_t cmpt x s) (fun r => Ret (map g r)).
Proof.
  intros Hg. induction s as [|y s IH]; simpl; [done|]. rewrite Hg.
  destruct (cmpt x y) as [[]|e]; simpl; try done. rewrite IH.
  by destruct (insert_t cmpt x s).
Qed.

(** A sort whose comparator reads through [g] commutes with [g]. *)
Lemma isort_t_map (cmpt : A -> A -> throws comparison) (g : A -> A) (l : list A) :
  (forall a b, cmpt (g a) (g b) = cmpt a b) ->
  isort_t cmpt (map g l) = throws_bind (isort_t cmpt l) (fun r => Ret (map g r)).
Proof.
  intros Hg. induction l as [|x l IH]; simpl; [done|]. rewrite IH.
  destruct (isort_t cmpt l); simpl; [by apply insert_t_map|done].
Qed.

Lemma isort_t_perm (cmpt : A -> A -> throws comparison) (l r : list A) :
  isort_t cmpt l = Ret r -> r ≡ₚ l.
Proof.
  revert r. induction l as [|x l IH]; simpl; intros r; [by intros [= <-]|].
  destruct (isort_t cmpt l) as [s|]; simpl; [|done]. specialize (IH s eq_refl).
  rewrite <- IH. clear IH. revert r. induction s as [|y s IHs]; simpl; intros r.
  - by intros [= <-].
  - destruct (cmpt x y) as [[]|e]; simpl; try (by intros [= <-]).
    destruct (insert_t cmpt x s) as [r'|]; simpl; [|done]. intros [= <-].
    rewrite (IHs r' eq_refl). by rewrite Permutation_swap.
Qed.

(** The loop of [forEach] over a list in which [g] updated the elements
    that satisfy [P]: the results of those elements are updated by [h]. *)
Lemma map_throws_update {B} (F : A -> throws B) (g : A -> A) (h : B -> B) (P : A -> bool)
    (Q : B -> bool) (l : list A) :
  (forall x, x ∈ l -> P x = false -> g x = x) ->
  (forall x, x ∈ l -> P x = true ->
     (forall b, F x = Ret b -> F (g x) = Ret (h b)) /\ (forall e, F x = Throw e -> F (g x) = Throw e)) ->
  (forall x b, x ∈ l -> F x = Ret b -> Q b = P x) ->
  map_throws F (map g l) =
    (map (fun b => if Q b then h b else b) (map_throws F l).1, (map_throws F l).2).
Proof.
  intros Hid Hupd HQ. induction l as [|x l IH]; simpl; [done|].
  assert (IH' : map_throws F (map g l) =
    (map (fun b => if Q b then h b else b) (map_throws F l).1, (map_throws F l).2))
    by (apply IH; intros; [apply Hid|apply Hupd|eapply HQ]; try done; by right).
  assert (Hx0 : x ∈ x :: l) by by left.
  destruct (P x) eqn:Px.
  - destruct (Hupd x Hx0 Px) as [Hr Ht].
    destruct (F x) as [b|e] eqn:Fx.
    + rewrite (Hr b eq_refl), IH'. destruct (map_throws F l). simpl.
      by rewrite (HQ x b Hx0 Fx), Px.
    + by rewrite (Ht e eq_refl).
  - rewrite (Hid x Hx0 Px).
    destruct (F x) as [b|e] eqn:Fx; [|done].
    rewrite IH'. destruct (map_throws F l). simpl.
    by rewrite (HQ x b Hx0 Fx), Px.
Qed.

(** Updating the element at [k] of a list whose elements have distinct
    keys [q] is updating the element with the key of that element. *)
Lemma alter_as_map (q : A -> nat) (h : A -> A) (k : nat) (c : A) (l : list A) :
  NoDup (map q l) -> l !! k = Some c ->
  alter h k l = map (fun b => if Nat.eqb (q b) (q c) then h b else b) l.
Proof.
  intros Hnd Hk. apply list_eq. intros m.
  change (map (fun b => if Nat.eqb (q b) (q c) then h b else b) l)
    with ((fun b => if Nat.eqb (q b) (q c) then h b else b) <$> l).
  rewrite list_lookup_fmap. destruct (decide (m = k)) as [->|Hne].
  - rewrite list_lookup_alter_eq, Hk. simpl. by rewrite Nat.eqb_refl.
  - rewrite list_lookup_alter_ne by done. destruct (l !! m) as [b|] eqn:Hm; simpl; [|done].
    destruct (Nat.eqb_spec (q b) (q c)) as [Hq|]; [|done]. exfalso. apply Hne.
    apply (NoDup_lookup (map q l) m k (q c)); [done| |].
    + change (map q l) with (q <$> l). rewrite list_lookup_fmap, Hm. simpl. by rewrite Hq.
    + change (map q l) with (q <$> l). by rewrite list_lookup_fmap, Hk.
Qed.

(** The positions tagging a list. *)
Lemma indexed_alter (f : A -> A) (i : nat) (l : list A) :
  indexed (alter f i l) = map (fun ix => if Nat.eqb ix.1 i then (ix.1, f ix.2) else ix) (indexed l).
Proof.
  apply list_eq. intros m.
  change (map ?F (indexed l)) with (F <$> indexed l).
  rewrite list_lookup_fmap, !indexed_lookup. destruct (decide (m = i)) as [->|Hne].
  - rewrite list_lookup_alter_eq. destruct (l !! i); simpl; [|done]. by rewrite Nat.eqb_refl.
  - rewrite list_lookup_alter_ne by done. destruct (l !! m); simpl; [|done].
    by rewrite (proj2 (Nat.eqb_neq m i) Hne).
Qed.

Lemma indexed_elem (l : list A) (x : nat * A) : x ∈ indexed l -> l !! x.1 = Some x.2.
Proof.
  intros [m Hm]%list_elem_of_lookup. rewrite indexed_lookup in Hm.
  destruct (l !! m) eqn:E; [|done]. by inv Hm.
Qed.

Lemma indexed_NoDup (l : list A) : NoDup (map fst (indexed l)).
Proof.
  unfold indexed. change (map fst ?z) with (fst <$> z).
  rewrite fst_zip by (rewrite length_seq; lia). apply NoDup_seq.
Qed.
End update_lists.

(** ** A render of the workflow with one node updated *)

Section render_update.
Context `{Resolver} `{Collation}.

(** The cards of a render show distinct nodes. *)
Lemma rendered_nodes_NoDup (oi reg : value) (ns : list value) (sorted : list (nat * value)) :
  isort_t title_compare (indexed ns) = Ret sorted ->
  NoDup (map c_node (map_throws (fun ix => render_card oi reg ix.1 ix.2) sorted).1).
Proof.
  intros Es. pose proof (map_throws_prefix (fun ix => render_card oi reg ix.1 ix.2) sorted) as Hp.
  set (mt := map_throws (fun ix => render_card oi reg ix.1 ix.2) sorted) in *.
  rewrite (Forall2_map_eq fst c_node (take (length mt.1) sorted) mt.1).
  - change (map fst ?z) with (fst <$> z). rewrite fmap_take.
    eapply sublist_NoDup; [|apply sublist_take].
    change (fst <$> sorted) with (map fst sorted).
    rewrite (isort_t_perm _ _ _ Es). apply indexed_NoDup.
  - eapply Forall2_impl; [exact Hp|]. intros ix c Hc. by apply render_card_node in Hc.
Qed.

(** The card at [k] of a render is the card of the node it names. *)
Lemma rendered_card (oi reg : value) (ns : list value) (sorted : list (nat * value)) (k : nat) (c : card) :
  isort_t title_compare (indexed ns) = Ret sorted ->
  (map_throws (fun ix => render_card oi reg ix.1 ix.2) sorted).1 !! k = Some c ->
  exists n, ns !! c_node c = Some n /\ render_card oi reg (c_node c) n = Ret c.
Proof.
  intros Es Hk. pose proof (map_throws_prefix (fun ix => render_card oi reg ix.1 ix.2) sorted) as Hp.
  destruct (Forall2_lookup_r _ _ _ _ _ Hp Hk) as [x [Hx Hr]].
  pose proof (render_card_node _ _ _ _ _ Hr) as Hn. exists x.2. rewrite Hn. split; [|done].
  apply indexed_elem. rewrite <- (isort_t_perm _ _ _ Es).
  apply list_elem_of_lookup_2 in Hx. apply elem_of_take in Hx as [i [Hi _]]. by apply list_elem_of_lookup_2 in Hi.
Qed.

(** Updating a node that a card shows, in a way that keeps its title and
    changes its card by [h], changes the render by [h] at that card. *)
Lemma renderWorkflow_update (wps : list (string * value)) (ns : list value) (upd : value -> value)
    (h : card -> card) (k : nat) (c : card) (oi reg : value) (old : view) :
  get (VObj wps) "nodes" = VArr ns ->
  (forall y, get_strict (upd y) "title" = get_strict y "title") ->
  v_cards (renderWorkflow (VObj wps) oi reg old) !! k = Some c ->
  (forall n, ns !! c_node c = Some n -> render_card oi reg (c_node c) n = Ret c ->
     render_card oi reg (c_node c) (upd n) = Ret (h c)) ->
  renderWorkflow (update_node (VObj wps) (c_node c) upd) oi reg old =
    map_cards (alter h k) (renderWorkflow (VObj wps) oi reg old).
Proof.
  intros Hns Htitle Hc Hrc. unfold renderWorkflow in Hc |- *. unfold update_node.
  rewrite Hns, get_set_eq. rewrite Hns in Hc. cbn [set truthy negb js_or get] in Hc |- *.
  rewrite length_alter, indexed_alter.
  set (g := fun ix : nat * value => if Nat.eqb ix.1 (c_node c) then (ix.1, upd ix.2) else ix).
  rewrite (isort_t_map _ g).
  2:{ intros a b. unfold g, title_compare.
      destruct (Nat.eqb a.1 (c_node c)), (Nat.eqb b.1 (c_node c)); cbn [snd]; by rewrite ?Htitle. }
  destruct (isort_t title_compare (indexed ns)) as [sorted|e] eqn:Es; cbn [throws_bind] in Hc |- *;
    [|simpl in Hc; done].
  destruct (map_throws (fun ix => render_card oi reg ix.1 ix.2) sorted) as [cs err] eqn:Em.
  cbn [v_cards] in Hc.
  destruct (rendered_card oi reg ns sorted k c Es) as [n [Hn Hrn]]; [by rewrite Em|].
  rewrite (map_throws_update _ g h (fun ix => Nat.eqb ix.1 (c_node c)) (fun b => Nat.eqb (c_node b) (c_node c))).
  - rewrite Em. unfold map_cards. cbn [v_count v_cards v_error fst snd]. f_equal. symmetry.
    apply alter_as_map; [|done].
    pose proof (rendered_nodes_NoDup oi reg ns sorted Es) as Hnd. by rewrite Em in Hnd.
  - intros x _ Hx. unfold g. by rewrite Hx.
  - intros [m y] Hx Hm. apply Nat.eqb_eq in Hm. cbn [fst snd] in *. subst m.
    rewrite (isort_t_perm _ _ _ Es) in Hx. apply indexed_elem in Hx. cbn [fst snd] in Hx.
    rewrite Hx in Hn. injection Hn as ->. unfold g. cbn [fst snd]. rewrite Nat.eqb_refl.
    split; intros ?; rewrite Hrn; [intros [= <-]; by apply Hrc|done].
  - intros x b _ Hb. by rewrite (render_card_node _ _ _ _ _ Hb).
Qed.
End render_update.

(** ** Pages *)

(** The page shows the render of its workflow, an object, under the
    schema [oi] and the registry [reg]. *)
Definition page_rendered `{Resolver} `{Collation} (pg : page) (oi reg : value) : Prop :=
  exists wps, pg_workflow pg = VObj wps /\ pg_view pg = renderWorkflow (VObj wps) oi reg (pg_view pg).

(** The nodes of the workflow are objects whose [widgets_values] the
    listeners can write. *)
Definition nodes_ok (wf : value) : Prop :=
  exists ns, get wf "nodes" = VArr ns /\ Forall (fun n => exists ps, n = VObj ps /\ widgets_ok (VObj ps)) ns.

(** The user's input to the [j]-th field of the [k]-th card is one a
    render shows again. *)
Definition edit_faithful (pg : page) (k j : nat) (ev : user_input) : Prop :=
  forall c fs f, v_cards (pg_view pg) !! k = Some c -> c_body c = Fields fs -> fs !! j = Some f ->
    pick_faithful (f_control f) ev = true.

Lemma renderWorkflow_old `{Resolver} `{Collation} (wps : list (string * value)) (oi reg : value)
    (old old' : view) :
  renderWorkflow (VObj wps) oi reg old = renderWorkflow (VObj wps) oi reg old'.
Proof. done. Qed.

Lemma write_widget_title (y : value) (i : nat) (v : value) :
  get_strict (write_widget y i v) "title" = get_strict y "title".
Proof. destruct y as [| | | | | |ps]; try done. by apply get_strict_write. Qed.

Lemma set_mode_title (y : value) (b : bool) : get_strict (set_mode y b) "title" = get_strict y "title".
Proof. destruct y as [| | | | | |ps]; try done. by apply get_strict_set_ne. Qed.

Lemma update_node_obj (wps : list (string * value)) (i : nat) (f : value -> value) :
  exists wps', update_node (VObj wps) i f = VObj wps'.
Proof. unfold update_node. destruct (get (VObj wps) "nodes"); by eexists. Qed.

(** The listeners keep the nodes writable. *)
Lemma nodes_ok_update (wf : value) (i : nat) (f : value -> value) :
  (forall ps, widgets_ok (VObj ps) -> exists qs, f (VObj ps) = VObj qs /\ widgets_ok (VObj qs)) ->
  nodes_ok wf -> nodes_ok (update_node wf i f).
Proof.
  intros Hf [ns [Hns Hok]]. exists (alter f i ns). split; [by apply update_node_nodes|].
  apply Forall_lookup. intros m n Hm. rewrite Forall_lookup in Hok.
  destruct (decide (m = i)) as [->|Hne].
  - rewrite list_lookup_alter_eq in Hm. destruct (ns !! i) as [n0|] eqn:E; simpl in Hm; [|done].
    injection Hm as <-. destruct (Hok i n0 E) as [ps [-> Hw]]. by apply Hf.
  - rewrite list_lookup_alter_ne in Hm by done. by apply (Hok m).
Qed.

Lemma write_widget_ok (ps : list (string * value)) (i : nat) (v : value) :
  widgets_ok (VObj ps) -> exists qs, write_widget (VObj ps) i v = VObj qs /\ widgets_ok (VObj qs).
Proof.
  intros Hw. eexists. split; [reflexivity|]. unfold widgets_ok.
  change (widgets_storable (get (write_widget (VObj ps) i v) "widgets_values")).
  unfold write_widget. rewrite get_set_eq.
  destruct (widgets_or_empty _ Hw) as [[xs [-> _]]|[qs [-> ->]]]; done.
Qed.

Lemma set_mode_ok (ps : list (string * value)) (b : bool) :
  widgets_ok (VObj ps) -> exists qs, set_mode (VObj ps) b = VObj qs /\ widgets_ok (VObj qs).
Proof.
  intros Hw. eexists. split; [reflexivity|]. unfold widgets_ok.
  change (widgets_storable (get (set_mode (VObj ps) b) "widgets_values")).
  unfold set_mode. by rewrite get_set_ne.
Qed.

Section listeners.
Context `{Resolver} `{Collation}.

(** The [change] listener leaves the page a render shows. *)
Lemma on_change_rendered (pg : page) (oi reg : value) (k j : nat) (ev : user_input) :
  page_rendered pg oi reg -> nodes_ok (pg_workflow pg) -> edit_faithful pg k j ev ->
  page_rendered (on_change pg k j ev) oi reg.
Proof.
  intros [wps [Hwf Hv]] [ns [Hns Hok]] Hfa. rewrite Hwf in Hns. unfold on_change.
  destruct (v_cards (pg_view pg) !! k) as [c|] eqn:Hc; [|by exists wps].
  destruct (c_body c) as [|fs] eqn:Hb; [by exists wps|].
  destruct (fs !! j) as [f|] eqn:Hf; [|by exists wps].
  destruct (control_change (f_control f) ev) as [ctl|] eqn:Hctl; [|by exists wps].
  rewrite Hwf. set (upd := fun n => write_widget n (f_index f) (VStr (control_value ctl))).
  destruct (update_node_obj wps (c_node c) upd) as [wps' Hu].
  exists wps'. split; [done|]. cbn [pg_view pg_workflow].
  rewrite (renderWorkflow_old wps' oi reg _ (pg_view pg)), <- Hu, Hv at 1. symmetry.
  apply (renderWorkflow_update _ ns); [done|intros; apply write_widget_title|by rewrite <- Hv|].
  intros n Hn Hrn. rewrite Forall_lookup in Hok. destruct (Hok _ n Hn) as [ps [-> Hw]].
  destruct (render_card_write oi reg (c_node c) ps c fs j f ev ctl) as [Hidx Hr]; try done.
  - by apply (Hfa c fs f).
  - unfold upd. by rewrite Hidx.
Qed.

(** The toggle leaves the page a render shows. *)
Lemma on_toggle_rendered (pg : page) (oi reg : value) (k : nat) :
  page_rendered pg oi reg -> nodes_ok (pg_workflow pg) -> page_rendered (on_toggle pg k) oi reg.
Proof.
  intros [wps [Hwf Hv]] [ns [Hns Hok]]. rewrite Hwf in Hns. unfold on_toggle.
  destruct (v_cards (pg_view pg) !! k) as [c|] eqn:Hc; [|by exists wps].
  rewrite Hwf. set (upd := fun n => set_mode n (negb (c_checked c))).
  destruct (update_node_obj wps (c_node c) upd) as [wps' Hu].
  exists wps'. split; [done|]. cbn [pg_view pg_workflow].
  rewrite (renderWorkflow_old wps' oi reg _ (pg_view pg)), <- Hu, Hv at 1. symmetry.
  apply (renderWorkflow_update _ ns); [done|intros; apply set_mode_title|by rewrite <- Hv|].
  intros n Hn Hrn. rewrite Forall_lookup in Hok. destruct (Hok _ n Hn) as [ps [-> Hw]].
  by apply render_card_toggle.
Qed.
End listeners.

(** ** Theorems *)

(** C11: the [change] listener of a field and the toggle of a card leave
    the page that [renderWorkflow] builds from the updated workflow with
    the same schema and registry: the incremental update of the page by
    the listeners agrees with a full render.  For the [change] listener
    the input must be one a render shows again ([edit_faithful]): any
    number or text, and a pick of a non-empty option that is the first
    with its text. *)
Theorem listeners_match_render `{Resolver} `{Collation} (pg : page) (oi reg : value)
    (k j : nat) (ev : user_input) :
  page_rendered pg oi reg -> nodes_ok (pg_workflow pg) ->
  (edit_faithful pg k j ev -> page_rendered (on_change pg k j ev) oi reg) /\
  page_rendered (on_toggle pg k) oi reg.
Proof.
  intros Hr Hok. split; [intros Hfa; by apply on_change_rendered|by apply on_toggle_rendered].
Qed.

(** ** Witness *)

Definition ex_node : value :=
  VObj [("id", VNum 1); ("type", VStr "KSampler"); ("title", VStr "Sampler"); ("mode", VNum 0);
        ("inputs", VArr [VObj [("name", VStr "seed"); ("type", VStr "INT")]]);
        ("widgets_values", VArr [VNum 5])].

Definition ex_wps : list (string * value) := [("nodes", VArr [ex_node])].

Definition ex_blank : view := {| v_count := ""; v_cards := []; v_error := None |}.

Definition ex_page : page :=
  {| pg_workflow := VObj ex_wps; pg_view := renderWorkflow (VObj ex_wps) VNull (VArr []) ex_blank |}.

Lemma ex_page_ok : page_rendered ex_page VNull (VArr []) /\ nodes_ok (pg_workflow ex_page).
Proof.
  split; [by exists ex_wps|]. exists [ex_node]. split; [reflexivity|].
  apply Forall_singleton. eexists. split; [reflexivity|]. exact I.
Qed.

(** Typing 7 into the seed field, or toggling the card, leaves a page
    that is a render of the workflow. *)
Lemma listeners_match_render_witness :
  page_rendered (on_change ex_page 0 0 (Enter "7")) VNull (VArr []) /\
  page_rendered (on_toggle ex_page 0) VNull (VArr []).
Proof.
  destruct ex_page_ok as [Hr Hok].
  destruct (listeners_match_render ex_page VNull (VArr []) 0 0 (Enter "7") Hr Hok) as [H1 H2].
  split; [|exact H2]. apply H1. intros c fs f _ _ _. by destruct (f_control f).
Defined.
