(* ===== verification/Registry.v ===== *)
(** * The model registry of the server

    [data/models.json] holds a document [{ models: [...] }].  The server
    reads it whole ([loadModels]) and writes it whole ([saveModels]) in
    each request that changes it (server.js lines 38-45, 111-147):
    [POST /api/models] validates [name] and [type], appends an entry with a
    fresh id and a timestamp; [DELETE /api/models/:id] filters the entries
    by id and answers 404 when nothing was removed.

    The file is modelled by the value [JSON.parse] reads from it ([None]
    when the read or the parse fails); the fresh id and the timestamp are
    inputs of the handler.  Each handler awaits the read before it writes,
    so two requests can interleave: [srv_step] is the step relation of the
    server with its requests in flight, each at its read or its write. *)

From S2P Require Import Prelude JsValue.

(** A response: the status code and the JSON body. *)
Record response := {
  status : Z;
  payload : value
}.

Definition error_response (code : Z) (msg : string) : response :=
  {| status := code; payload := VObj [("error", VStr msg)] |}.

Definition ok_response : response := {| status := 200; payload := VObj [("ok", VBool true)] |}.

(** ** [POST /api/models] *)

(** The part before the first [await]: destructuring the body and the
    validation [if (!name || !type)] (server.js lines 113-116).  [inl] is an
    early response, [inr] the fields of the new entry. *)
Definition post_validate (body : value) : response + (value * value * value * value) :=
  if nullish body then inl (error_response 500 "Cannot destructure the body") else
  let name := get body "name" in
  let type := get body "type" in
  if negb (truthy name) || negb (truthy type)
  then inl (error_response 400 "name and type are required")
  else inr (name, type, get body "path", get body "note").

(** The entry of server.js lines 118-125. *)
Definition new_entry (name type modelPath note : value) (uuid now : string) : value :=
  VObj [("id", VStr uuid); ("name", name); ("type", type);
        ("path", js_or modelPath (VStr "")); ("note", js_or note (VStr ""));
        ("addedAt", VStr now)].

(** The part after [loadModels()] resolved with [doc]:
    [models.models.push(entry)], then [saveModels(models)]
    (server.js lines 126-128).  The second component is the document
    written back, [None] when the handler fails before writing. *)
Definition post_commit (doc name type modelPath note : value) (uuid now : string) :
    response * option value :=
  match get_strict doc "models" with
  | Ret (VArr ms) =>
      let entry := new_entry name type modelPath note uuid now in
      ({| status := 200; payload := entry |}, Some (set doc "models" (VArr (ms ++ [entry]))))
  | Ret _ => (error_response 500 "models.models.push is not a function", None)
  | Throw _ => (error_response 500 "Cannot read properties of null", None)
  end.

(** The whole handler run without interruption; the file after it. *)
Definition post_models (file : option value) (body : value) (uuid now : string) :
    response * option value :=
  match post_validate body with
  | inl r => (r, file)
  | inr (name, type, modelPath, note) =>
      match file with
      | None => (error_response 500 "cannot read models.json", file)
      | Some doc =>
          let '(r, written) := post_commit doc name type modelPath note uuid now in
          (r, match written with Some d => Some d | None => file end)
      end
  end.

(** ** [DELETE /api/models/:id] *)

Fixpoint filter_throws {A} (p : A -> throws bool) (l : list A) : throws (list A) :=
  match l with
  | [] => Ret []
  | x :: l' =>
      let! keep := p x in
      let! r := filter_throws p l' in
      Ret (if keep then x :: r else r)
  end.

(** [(model) => model.id !== req.params.id] *)
Definition keep_model (id : string) (m : value) : throws bool :=
  let! mid := get_strict m "id" in Ret (negb (strict_eq mid (VStr id))).

(** server.js lines 134-147. *)
Definition delete_model (file : option value) (id : string) : response * option value :=
  match file with
  | None => (error_response 500 "cannot read models.json", file)
  | Some doc =>
      match get_strict doc "models" with
      | Ret (VArr ms) =>
          match filter_throws (keep_model id) ms with
          | Ret ms' =>
              if decide (length ms' = length ms)
              then (error_response 404 "model not found", file)
              else (ok_response, Some (set doc "models" (VArr ms')))
          | Throw _ => (error_response 500 "Cannot read properties of null", file)
          end
      | _ => (error_response 500 "models.models.filter is not a function", file)
      end
  end.

(** ** Requests in flight *)

(** A creation request is at its start, awaiting the read, or answered. *)
Inductive post_phase : Type :=
  | AtStart
  | AfterLoad (doc : value)
  | Answered (r : response).

Record post_req := {
  pr_body : value;
  pr_uuid : string;
  pr_now : string;
  pr_phase : post_phase
}.

Record server := {
  sv_file : option value;
  sv_reqs : list post_req
}.

Definition with_phase (r : post_req) (ph : post_phase) : post_req :=
  {| pr_body := pr_body r; pr_uuid := pr_uuid r; pr_now := pr_now r; pr_phase := ph |}.

(** One step of one request: its read of the file, or its write.  The
    requests run in any order, which is what the event loop of Node.js
    allows across an [await]. *)
Inductive srv_step : server -> server -> Prop :=
  | step_early s i r resp :
      sv_reqs s !! i = Some r -> pr_phase r = AtStart ->
      post_validate (pr_body r) = inl resp ->
      srv_step s {| sv_file := sv_file s;
                    sv_reqs := <[i := with_phase r (Answered resp)]> (sv_reqs s) |}
  | step_load_fail s i r fields :
      sv_reqs s !! i = Some r -> pr_phase r = AtStart ->
      post_validate (pr_body r) = inr fields -> sv_file s = None ->
      srv_step s {| sv_file := sv_file s;
                    sv_reqs := <[i := with_phase r (Answered (error_response 500 "cannot read models.json"))]> (sv_reqs s) |}
  | step_load s i r fields doc :
      sv_reqs s !! i = Some r -> pr_phase r = AtStart ->
      post_validate (pr_body r) = inr fields -> sv_file s = Some doc ->
      srv_step s {| sv_file := sv_file s;
                    sv_reqs := <[i := with_phase r (AfterLoad doc)]> (sv_reqs s) |}
  | step_commit s i r doc name type modelPath note resp written :
      sv_reqs s !! i = Some r -> pr_phase r = AfterLoad doc ->
      post_validate (pr_body r) = inr (name, type, modelPath, note) ->
      post_commit doc name type modelPath note (pr_uuid r) (pr_now r) = (resp, written) ->
      srv_step s {| sv_file := match written with Some d => Some d | None => sv_file s end;
                    sv_reqs := <[i := with_phase r (Answered resp)]> (sv_reqs s) |}.

(** ** Theorems *)

Lemma post_validate_ok (body : value) :
  nullish body = false -> truthy (get body "name") = true -> truthy (get body "type") = true ->
  post_validate body = inr (get body "name", get body "type", get body "path", get body "note").
Proof. intros Hb Hn Ht. unfold post_validate. by rewrite Hb, Hn, Ht. Qed.

(** The uninterrupted creation handler on a valid request. *)
Lemma post_models_ok (ps : list (string * value)) (ms : list value) (body : value)
    (uuid now : string) :
  get (VObj ps) "models" = VArr ms -> nullish body = false ->
  truthy (get body "name") = true -> truthy (get body "type") = true ->
  let entry := new_entry (get body "name") (get body "type") (get body "path")
                 (get body "note") uuid now in
  post_models (Some (VObj ps)) body uuid now =
    ({| status := 200; payload := entry |}, Some (set (VObj ps) "models" (VArr (ms ++ [entry])))).
Proof.
  intros Hms Hb Hn Ht entry. unfold post_models. rewrite post_validate_ok by done.
  unfold post_commit, get_strict. simpl nullish. cbv iota. by rewrite Hms.
Qed.

(** C12: a creation with a [name] and a [type] answers 200 with the new
    entry and stores the registry with exactly that entry appended: fresh
    id, [path] and [note] defaulting to the empty string, the timestamp. *)
Theorem post_models_appends (ps : list (string * value)) (ms : list value) (body : value)
    (uuid now : string) :
  get (VObj ps) "models" = VArr ms -> nullish body = false ->
  truthy (get body "name") = true -> truthy (get body "type") = true ->
  let entry := new_entry (get body "name") (get body "type") (get body "path")
                 (get body "note") uuid now in
  post_models (Some (VObj ps)) body uuid now =
    ({| status := 200; payload := entry |}, Some (set (VObj ps) "models" (VArr (ms ++ [entry])))).
Proof. apply post_models_ok. Qed.

(** A creation without a truthy [name] or [type] is rejected with 400
    before the file is read, and the stored registry is unchanged. *)
Theorem post_models_rejects (file : option value) (body : value) (uuid now : string) :
  nullish body = false ->
  truthy (get body "name") = false \/ truthy (get body "type") = false ->
  post_models file body uuid now = (error_response 400 "name and type are required", file).
Proof.
  intros Hb Hnt. unfold post_models, post_validate. rewrite Hb.
  destruct Hnt as [-> | ->]; [done|]. by destruct (truthy (get body "name")).
Qed.

Lemma strict_eq_str (v : value) (s : string) : strict_eq v (VStr s) = true <-> v = VStr s.
Proof.
  destruct v; simpl; try (split; congruence). rewrite String.eqb_eq. split; congruence.
Qed.

Lemma filter_throws_keep (id : string) (ms : list value) :
  Forall (fun m => nullish m = false) ms ->
  filter_throws (keep_model id) ms = Ret (filter (fun m => get m "id" <> VStr id) ms).
Proof.
  induction 1 as [|m ms Hm _ IH]; [done|]. simpl. rewrite IH.
  unfold keep_model, get_strict. rewrite Hm. simpl.
  destruct (strict_eq (get m "id") (VStr id)) eqn:E; simpl.
  - apply strict_eq_str in E. by rewrite filter_cons_False by (intros H; by apply H).
  - rewrite filter_cons_True; [done|]. intros Heq. apply strict_eq_str in Heq. congruence.
Qed.

(** The answer of [DELETE /api/models/:id] and the file it leaves. *)
Lemma delete_model_ok (ps : list (string * value)) (ms : list value) (id : string) :
  get (VObj ps) "models" = VArr ms -> Forall (fun m => nullish m = false) ms ->
  delete_model (Some (VObj ps)) id =
    if decide (Exists (fun m => get m "id" = VStr id) ms)
    then (ok_response, Some (set (VObj ps) "models"
                               (VArr (filter (fun m => get m "id" <> VStr id) ms))))
    else (error_response 404 "model not found", Some (VObj ps)).
Proof.
  intros Hms Hok. unfold delete_model, get_strict. simpl nullish. cbv iota.
  rewrite Hms. cbv beta iota. rewrite filter_throws_keep by done.
  destruct (decide (Exists (fun m => get m "id" = VStr id) ms)) as [Hex|Hex];
  destruct (decide (length (filter (fun m => get m "id" <> VStr id) ms) = length ms)) as [Hlen|Hlen];
    try done.
  - exfalso. apply Exists_exists in Hex as [m [Hm Hid]].
    assert (Hlt : length (filter (fun m => get m "id" <> VStr id) ms) < length ms).
    { apply length_filter_lt with m; [done|]. by intros H. }
    lia.
  - exfalso. apply Hlen. f_equal. apply filter_all_true. intros x Hx Hid.
    apply Hex, Exists_exists. by exists x.
Qed.

(** C13: deleting an id that no entry has answers 404 and writes nothing;
    deleting an id that some entry has removes every entry with that id
    and stores the rest in their order. *)
Theorem delete_model_spec (ps : list (string * value)) (ms : list value) (id : string) :
  get (VObj ps) "models" = VArr ms -> Forall (fun m => nullish m = false) ms ->
  delete_model (Some (VObj ps)) id =
    if decide (Exists (fun m => get m "id" = VStr id) ms)
    then (ok_response, Some (set (VObj ps) "models"
                               (VArr (filter (fun m => get m "id" <> VStr id) ms))))
    else (error_response 404 "model not found", Some (VObj ps)).
Proof. apply delete_model_ok. Qed.

(** ** Interleavings *)

(** The stored registry document has an array of entries. *)
Definition registry_doc_ok (file : option value) : Prop :=
  forall doc, file = Some doc -> exists ms, get doc "models" = VArr ms.

Lemma post_commit_written (doc name type modelPath note : value) (uuid now : string)
    (resp : response) (d : value) :
  post_commit doc name type modelPath note uuid now = (resp, Some d) ->
  exists ms, get d "models" = VArr ms.
Proof.
  unfold post_commit, get_strict. destruct (nullish doc); [done|]. cbv iota.
  destruct (get doc "models") as [| | | | |ms|] eqn:Hm; try done.
  intros [= _ <-]. destruct doc as [| | | | | |ps]; simpl in Hm; try discriminate.
  rewrite get_set_eq. by eexists.
Qed.

(** C14: whatever the interleaving of the reads and writes of concurrent
    creations, the stored document keeps an array of entries (proved by
    induction on the steps). *)
Theorem registry_doc_ok_reachable (s s' : server) :
  registry_doc_ok (sv_file s) -> rtc srv_step s s' -> registry_doc_ok (sv_file s').
Proof.
  intros Hok Hsteps. induction Hsteps as [s|s1 s2 s3 Hstep _ IH]; [done|].
  apply IH. inversion Hstep; subst; simpl; try done.
  destruct written as [d|]; [|done].
  intros d' [= <-]. by eapply post_commit_written.
Qed.

Definition req0 (body : value) (uuid now : string) : post_req :=
  {| pr_body := body; pr_uuid := uuid; pr_now := now; pr_phase := AtStart |}.

Definition ans (r : post_req) : option response :=
  match pr_phase r with Answered p => Some p | _ => None end.

(** C15: two concurrent creations can lose an entry.  When both handlers
    read [models.json] before either writes it, both answer 200 with their
    entry, and the file keeps only the entry of the one that wrote last. *)
Theorem concurrent_creates_lose_entry :
  let doc := VObj [("models", VArr [])] in
  let a := VObj [("name", VStr "sdxl"); ("type", VStr "checkpoint")] in
  let b := VObj [("name", VStr "vae-ft"); ("type", VStr "vae")] in
  exists s, rtc srv_step {| sv_file := Some doc; sv_reqs := [req0 a "id-a" "t1"; req0 b "id-b" "t2"] |} s /\
    map (fun r => status <$> ans r) (sv_reqs s) = [Some 200%Z; Some 200%Z] /\
    exists ms, (fun d => get d "models") <$> sv_file s = Some (VArr ms) /\ length ms = 1.
Proof.
  intros doc a b. eexists. split.
  - eapply rtc_l. { eapply (step_load _ 0); done. } simpl.
    eapply rtc_l. { eapply (step_load _ 1); done. } simpl.
    eapply rtc_l. { eapply (step_commit _ 0); done. } simpl.
    eapply rtc_l. { eapply (step_commit _ 1); done. } simpl.
    apply rtc_refl.
  - split; [done|]. eexists. split; [done|]. done.
Qed.

(** Creations that do not interleave, run one after the other. *)
Fixpoint post_serial (file : option value) (reqs : list (value * string * string)) :
    option value :=
  match reqs with
  | [] => file
  | (body, uuid, now) :: reqs' => post_serial (post_models file body uuid now).2 reqs'
  end.

Definition entry_of (req : value * string * string) : value :=
  let '(body, uuid, now) := req in
  new_entry (get body "name") (get body "type") (get body "path") (get body "note") uuid now.

(** Run one after the other, valid creations append their entries in
    the order of the requests. *)
Theorem post_serial_appends (ps : list (string * value)) (ms : list value)
    (reqs : list (value * string * string)) :
  get (VObj ps) "models" = VArr ms ->
  Forall (fun req => let '(body, _, _) := req in
            nullish body = false /\ truthy (get body "name") = true /\
            truthy (get body "type") = true) reqs ->
  exists ps', post_serial (Some (VObj ps)) reqs = Some (VObj ps') /\
    get (VObj ps') "models" = VArr (ms ++ map entry_of reqs).
Proof.
  revert ps ms. induction reqs as [|[[body uuid] now] reqs IH]; intros ps ms Hms Hok.
  - exists ps. simpl. by rewrite app_nil_r.
  - inversion Hok as [|? ? Hx Hrest]; subst. destruct Hx as [Hb [Hn Ht]]. simpl.
    rewrite (post_models_ok ps ms) by done. simpl.
    destruct (IH (assoc_set "models" (VArr (ms ++ [entry_of (body, uuid, now)])) ps)
                 (ms ++ [entry_of (body, uuid, now)])) as [ps' [Hrun Hget]]; [|done|].
    + apply (get_set_eq ps "models").
    + exists ps'. split; [done|]. simpl in Hget |- *. by rewrite Hget, <- app_assoc.
Qed.

(** ** Witnesses *)

Definition ex_sdxl : value := VObj [("name", VStr "sdxl"); ("type", VStr "checkpoint")].
Definition ex_no_type : value := VObj [("name", VStr "sdxl")].

Lemma post_models_appends_witness :
  post_models (Some (VObj [("models", VArr [])])) ex_sdxl "id-1" "2026-01-01T00:00:00.000Z" =
    ({| status := 200;
        payload := new_entry (VStr "sdxl") (VStr "checkpoint") VUndef VUndef
                     "id-1" "2026-01-01T00:00:00.000Z" |},
     Some (VObj [("models", VArr [new_entry (VStr "sdxl") (VStr "checkpoint") VUndef VUndef
                                    "id-1" "2026-01-01T00:00:00.000Z"])])).
Proof.
  rewrite (post_models_appends [("models", VArr [])] [] ex_sdxl "id-1" "2026-01-01T00:00:00.000Z");
    reflexivity.
Defined.

Lemma post_models_rejects_witness :
  post_models (Some (VObj [("models", VArr [])])) ex_no_type "id-1" "t" =
    (error_response 400 "name and type are required", Some (VObj [("models", VArr [])])).
Proof.
  apply post_models_rejects; [reflexivity|right; reflexivity].
Defined.

Lemma delete_model_spec_witness :
  delete_model (Some (VObj [("models", VArr [VObj [("id", VStr "a")]])])) "b" =
    (error_response 404 "model not found", Some (VObj [("models", VArr [VObj [("id", VStr "a")]])])) /\
  delete_model (Some (VObj [("models", VArr [VObj [("id", VStr "a")]])])) "a" =
    (ok_response, Some (VObj [("models", VArr [])])).
Proof.
  split.
  - rewrite (delete_model_spec [("models", VArr [VObj [("id", VStr "a")]])] [VObj [("id", VStr "a")]] "b");
      [|reflexivity|repeat constructor].
    rewrite decide_False; [reflexivity|]. intros Hex. inversion Hex as [? ? Hid|? ? Hrest]; subst.
    + discriminate Hid.
    + inversion Hrest.
  - rewrite (delete_model_spec [("models", VArr [VObj [("id", VStr "a")]])] [VObj [("id", VStr "a")]] "a");
      [|reflexivity|repeat constructor].
    rewrite decide_True; [|by constructor]. reflexivity.
Defined.

Lemma registry_doc_ok_reachable_witness :
  exists s', rtc srv_step {| sv_file := Some (VObj [("models", VArr [])]);
                            sv_reqs := [req0 ex_sdxl "id-1" "t"] |} s' /\
    registry_doc_ok (sv_file s').
Proof.
  assert (H0 : registry_doc_ok (Some (VObj [("models", VArr [])]))).
  { intros d [= <-]. by eexists. }
  eassert (Hs : rtc srv_step {| sv_file := Some (VObj [("models", VArr [])]);
                                sv_reqs := [req0 ex_sdxl "id-1" "t"] |} _).
  { eapply rtc_l; [eapply (step_load _ 0); reflexivity|]. simpl.
    eapply rtc_l; [eapply (step_commit _ 0); reflexivity|]. apply rtc_refl. }
  eexists. split; [exact Hs|]. eapply registry_doc_ok_reachable; [|exact Hs]. exact H0.
Defined.

Lemma post_serial_appends_witness :
  exists ps', post_serial (Some (VObj [("models", VArr [])]))
                [(ex_sdxl, "id-1", "t1"); (VObj [("name", VStr "vae-ft"); ("type", VStr "vae")], "id-2", "t2")] =
              Some (VObj ps') /\
  get (VObj ps') "models" =
    VArr (map entry_of [(ex_sdxl, "id-1", "t1"); (VObj [("name", VStr "vae-ft"); ("type", VStr "vae")], "id-2", "t2")]).
Proof.
  exact (post_serial_appends [("models", VArr [])] []
           [(ex_sdxl, "id-1", "t1"); (VObj [("name", VStr "vae-ft"); ("type", VStr "vae")], "id-2", "t2")]
           eq_refl ltac:(repeat constructor)).
Defined.
