(* ===== verification/Persist.v ===== *)
(** * Saving and loading the workflow

    The workflow travels through four JSON conversions.  The client's save
    button posts [JSON.stringify(workflow)] (app.js lines 325-332); Express
    parses the body with [express.json({ limit: '5mb' })] (server.js line
    17); [POST /api/workflow] writes [JSON.stringify(req.body, null, 2)]
    to the workflow file ([saveWorkflow], server.js lines 34-36 and 93-100).
    [GET /api/workflow] reads the file back with [JSON.parse]
    ([loadWorkflow], lines 29-32 and 84-91) and answers with [res.json];
    the client's [loadWorkflow] (app.js lines 259-263) stores
    [response.json()] in its global [workflow].

    The server's state is the text of the workflow file; a read may fail
    (the file is missing or cannot be read at that moment), which is an
    input of the handler.  An HTTP answer is its status and its body text.
    The client's state is its [workflow] and its output log.

    The body parser reads a body only for a request typed
    [application/json] (the client's header); any other request keeps
    [req.body = {}].

    The theorems: a save followed by a load gives the client the workflow
    it saved (spec section 8); every workflow the client loads is of the
    form the round trip preserves; a save the server rejects is still
    reported as saved; a request that is not typed JSON replaces the
    stored workflow by [{}]; a load that fails replaces the client's
    workflow by the error body, which the next save writes over the
    stored workflow. *)

From S2P Require Import Prelude JsValue Json JsonParse Registry.

Local Open Scope string_scope.

(** ** HTTP *)

Record http := {
  h_status : Z;
  h_body : string
}.

(** [res.status(code).json(v)]: the body is [JSON.stringify(v)]. *)
Definition send (r : response) : http :=
  {| h_status := status r; h_body := default "" (stringify (payload r)) |}.

(** ** The server *)

(** The body size limit of [express.json({ limit: '5mb' })], in bytes. *)
Definition body_limit : N := 5 * 1024 * 1024.

(** ** Content types

    [express.json] parses a body only when the request's [Content-Type]
    is [application/json] (its default [type] option, tested by
    [type-is] on the header parsed by [media-typer]); any other request
    goes through with [req.body] left as [{}].  A header is a media type
    [type/subtype] (case-insensitive) followed by parameters
    [; key=value], each value a token or a quoted string; a header that
    does not parse is not JSON.  The [charset] parameter must name a
    UTF encoding. *)

(** The characters of a token (RFC 7230). *)
Definition tchar (c : ascii) : bool :=
  let n := nat_of_ascii c in
  (Nat.leb 48 n && Nat.leb n 57) || (Nat.leb 65 n && Nat.leb n 90) || (Nat.leb 97 n && Nat.leb n 122) ||
  existsb (Nat.eqb n) [33; 35; 36; 37; 38; 39; 42; 43; 45; 46; 94; 95; 96; 124; 126].

Fixpoint take_while (p : ascii -> bool) (s : string) : string * string :=
  match s with
  | String c s' => if p c then let '(a, b) := take_while p s' in (String c a, b) else ("", s)
  | EmptyString => ("", "")
  end.

Fixpoint skip_spaces (s : string) : string :=
  match s with String " " s' => skip_spaces s' | _ => s end.

(** The rest of a quoted string after its opening quote: its value with
    the escapes removed, and the text after the closing quote. *)
Fixpoint quoted_rest (s : string) : option (string * string) :=
  match s with
  | EmptyString => None
  | String c s' =>
      if Ascii.eqb c (ascii_of_nat 34) then Some ("", s')
      else if Ascii.eqb c "\" then
        match s' with
        | String e s'' => if Nat.leb 32 (nat_of_ascii e) && Nat.leb (nat_of_ascii e) 126
                          then option_map (fun '(v, r) => (String e v, r)) (quoted_rest s'') else None
        | EmptyString => None
        end
      else if Nat.ltb (nat_of_ascii c) 32 || Nat.eqb (nat_of_ascii c) 127 then None
      else option_map (fun '(v, r) => (String c v, r)) (quoted_rest s')
  end.

(** The parameters [; key=value] of a header, keys lower-cased; [None]
    when the text is not a sequence of parameters. *)
Fixpoint ct_params (fuel : nat) (s : string) : option (list (string * string)) :=
  match fuel with
  | O => None
  | S fuel' =>
      match s with
      | EmptyString => Some []
      | String ";" s1 =>
          let '(k, s2) := take_while tchar (skip_spaces s1) in
          if String.eqb k "" then None else
          match skip_spaces s2 with
          | String "=" s3 =>
              let s4 := skip_spaces s3 in
              let value := match s4 with
                           | String c s5 => if Ascii.eqb c (ascii_of_nat 34) then quoted_rest s5
                                            else let '(v, r) := take_while tchar s4 in
                                                 if String.eqb v "" then None else Some (v, r)
                           | EmptyString => None
                           end in
              match value with
              | Some (v, r) => option_map (cons (to_lower k, v)) (ct_params fuel' (skip_spaces r))
              | None => None
              end
          | _ => None
          end
      | _ => None
      end
  end.

(** The parameters of a [Content-Type] whose media type is
    [application/json]; [None] for any other request. *)
Definition json_params (ctype : option string) : option (list (string * string)) :=
  match ctype with
  | None => None
  | Some ct =>
      let '(mt, params) := take_while (fun c => negb (Ascii.eqb c ";")) ct in
      if String.eqb (to_lower mt) "application/json" then ct_params (S (String.length params)) params
      else None
  end.

(** The [charset] parameter (the last one given), lower-cased, or empty. *)
Definition charset (params : list (string * string)) : string :=
  to_lower (fold_left (fun acc kv => if String.eqb kv.1 "charset" then kv.2 else acc) params "").

(** The header the client sends with every [POST] (app.js lines 316 and
    325). *)
Definition client_json : option string := Some "application/json".

(** The body of a JSON request, read by [express.json] in its default
    strict mode: a body over the limit is refused with 413; an empty body
    is [{}]; a body whose first character after white space is neither
    [{] nor [[] or that does not parse is refused with 400. *)
Definition json_body (body : string) : http + value :=
  if N.ltb body_limit (N.of_nat (String.length body))
  then inl {| h_status := 413; h_body := "PayloadTooLargeError: request entity too large" |}
  else if String.eqb body "" then inr (VObj [])
  else match skip_ws body with
       | String c _ =>
           if Ascii.eqb c "{" || Ascii.eqb c "["
           then match JSON_parse body with
                | Some v => inr v
                | None => inl {| h_status := 400; h_body := "SyntaxError: Unexpected token in JSON" |}
                end
           else inl {| h_status := 400; h_body := "SyntaxError: Unexpected token in JSON" |}
       | EmptyString => inl {| h_status := 400; h_body := "SyntaxError: Unexpected end of JSON input" |}
       end.

(** A charset [express.json] reads: none, or a UTF encoding. *)
Definition charset_ok (params : list (string * string)) : bool :=
  let cs := charset params in String.eqb cs "" || String.prefix "utf-" cs.

(** [express.json({ limit: '5mb' })] (server.js line 17): a request that
    is not JSON keeps [req.body = {}] and its body is not read; a charset
    that is not UTF is refused with 415; the body of a JSON request is
    then read by [json_body].  These errors are answered by Express's
    default error handler, before the route's handler runs. *)
Definition express_json (ctype : option string) (body : string) : http + value :=
  match json_params ctype with
  | None => inr (VObj [])
  | Some params =>
      if charset_ok params then json_body body
      else inl {| h_status := 415; h_body := "UnsupportedMediaTypeError: unsupported charset" |}
  end.

(** A request whose body [express.json] reads. *)
Definition reads_json (ctype : option string) : bool :=
  match json_params ctype with Some params => charset_ok params | None => false end.

(** [loadWorkflow()] (server.js lines 29-32) on the result of
    [fs.readFile]: [None] when the read fails. *)
Definition loadWorkflow (read : option string) : throws value :=
  match read with
  | None => Throw (SystemError "ENOENT: no such file or directory")
  | Some raw =>
      match JSON_parse raw with
      | Some v => Ret v
      | None => Throw (SyntaxError "Unexpected token in JSON")
      end
  end.

(** [saveWorkflow(workflow)] (server.js lines 34-36): the text written to
    the file. *)
Definition saveWorkflow (workflow : value) : throws string :=
  match stringify_pretty workflow with
  | Some text => Ret text
  | None => Throw (TypeError "The data argument must be of type string")
  end.

(** [GET /api/workflow] (server.js lines 84-91). *)
Definition get_workflow (read : option string) : http :=
  match loadWorkflow read with
  | Ret workflow => send {| status := 200; payload := workflow |}
  | Throw e => send (error_response 500 (exn_message e))
  end.

(** [POST /api/workflow] (server.js lines 93-100) behind the body parser:
    the answer and the file after the request. *)
Definition post_workflow (ctype : option string) (body : string) (file : option string) :
    http * option string :=
  match express_json ctype body with
  | inl err => (err, file)
  | inr workflow =>
      match saveWorkflow workflow with
      | Ret text => (send ok_response, Some text)
      | Throw e => (send (error_response 500 (exn_message e)), file)
      end
  end.

(** ** The client *)

Record client := {
  c_workflow : value;
  c_log : list (string * string)
}.

(** [loadWorkflow()] of the client (app.js lines 259-263) once [fetch]
    answered: the status is not looked at, the body becomes the workflow;
    a body that is not JSON throws. *)
Definition client_load (answer : http) (c : client) : throws client :=
  match JSON_parse (h_body answer) with
  | Some data => Ret {| c_workflow := data; c_log := c_log c |}
  | None => Throw (SyntaxError "Unexpected token in JSON")
  end.

(** The body the save button posts. *)
Definition save_body (c : client) : string := default "" (stringify (c_workflow c)).

(** The save button (app.js lines 325-332) once [fetch] answered: the
    answer is not looked at. *)
Definition client_saved (answer : http) (c : client) : client :=
  {| c_workflow := c_workflow c; c_log := ("工作流已保存", "success") :: c_log c |}.

(** A click on the save button with the server's file [file]: the client
    after the answer, and the file after the request. *)
Definition save_click (c : client) (file : option string) : client * option string :=
  let '(answer, file') := post_workflow client_json (save_body c) file in
  (client_saved answer c, file').

(** A load with the server's read result [read]. *)
Definition load (read : option string) (c : client) : throws client :=
  client_load (get_workflow read) c.

(** A workflow document is an object or an array: the strict body parser
    accepts nothing else. *)
Definition is_container (v : value) : Prop :=
  match v with VArr _ | VObj _ => True | _ => False end.

(** ** Lemmas *)

Lemma wrap_first (c : ascii) (cl gap indent : string) (parts : list string) :
  exists r, wrap (String c EmptyString) cl gap indent parts = String c r.
Proof. unfold wrap. destruct parts; [|destruct (String.eqb gap "")]; by eexists. Qed.

Lemma serialize_container (gap : string) (v : value) :
  is_container v -> exists c r, serialize gap "" v = Some (String c r) /\
    (Ascii.eqb c "{" || Ascii.eqb c "[") = true.
Proof.
  destruct v as [| | | | |xs|ps]; try done; intros _.
  - rewrite serialize_arr. edestruct wrap_first as [r ->]. by exists "["%char, r.
  - rewrite serialize_obj. edestruct wrap_first as [r ->]. by exists "{"%char, r.
Qed.

(** The body parser accepts the text of a container within the limit and
    gives back the value [JSON.parse] reads from it. *)
Lemma express_json_reads (ctype : option string) (body : string) :
  reads_json ctype = true -> express_json ctype body = json_body body.
Proof. unfold reads_json, express_json. destruct (json_params ctype); [|done]. by intros ->. Qed.

Lemma express_json_text (v w : value) (t : string) :
  is_container v -> keys_unique v -> stringify v = Some t -> normalize_opt v = Some w ->
  (N.of_nat (String.length t) <= body_limit)%N -> json_body t = inr w.
Proof.
  intros Hc Hk Ht Hw Hlen. unfold json_body.
  rewrite (proj2 (N.ltb_ge _ _) Hlen).
  destruct (serialize_container "" v Hc) as (c & r & E & Hcr).
  unfold stringify in Ht. rewrite Ht in E. inv E.
  assert (Hws : is_ws c = false).
  { apply orb_prop in Hcr as [->%Ascii.eqb_eq | ->%Ascii.eqb_eq]; done. }
  cbn [String.eqb]. rewrite skip_ws_stop, Hcr by done.
  by rewrite (parse_serialize "" v (String c r)), Hw.
Qed.

(** What the save leaves in the file and what a load then gives back. *)
Lemma save_load_ok (c : client) (file : option string) (w : value) :
  keys_unique w -> normalize_opt w = Some w -> is_container w ->
  c_workflow c = w -> (N.of_nat (String.length (save_body c)) <= body_limit)%N ->
  exists text, stringify_pretty w = Some text /\ save_click c file =
    ({| c_workflow := w; c_log := ("工作流已保存", "success") :: c_log c |}, Some text) /\
    load (Some text) {| c_workflow := w; c_log := ("工作流已保存", "success") :: c_log c |} =
      Ret {| c_workflow := w; c_log := ("工作流已保存", "success") :: c_log c |}.
Proof.
  intros Hk Hn Hc Hw Hlen. subst w.
  destruct (serialize_container "" (c_workflow c) Hc) as (ch & r & Ec & _).
  destruct (serialize_container "  " (c_workflow c) Hc) as (ch' & r' & Ep & _).
  exists (String ch' r'). split; [done|]. split.
  - unfold save_click, post_workflow, save_body in *. unfold stringify in Hlen |- *.
    rewrite Ec in Hlen |- *. simpl default in *.
    rewrite (express_json_text (c_workflow c) (c_workflow c)) by done.
    unfold saveWorkflow, stringify_pretty. by rewrite Ep.
  - unfold load, get_workflow, loadWorkflow.
    rewrite (parse_serialize "  " (c_workflow c) (String ch' r')), Hn by done.
    unfold client_load, send. simpl. unfold stringify. rewrite Ec. simpl.
    by rewrite (parse_serialize "" (c_workflow c) (String ch r)), Hn.
Qed.

Lemma JSON_parse_keys_unique (text : string) (v : value) :
  JSON_parse text = Some v -> keys_unique v.
Proof.
  unfold JSON_parse. destruct (parse_value _ text) as [[v' r]|] eqn:E; [|done].
  destruct (skip_ws r); [|done]. intros [= <-].
  by apply (proj1 (parse_keys_unique (S (String.length text))) text v' r).
Qed.

(** A workflow loaded with status 200 is a fixed point of the round trip. *)
Lemma loaded_normal (raw : string) (c c1 : client) :
  load (Some raw) c = Ret c1 -> h_status (get_workflow (Some raw)) = 200%Z ->
  keys_unique (c_workflow c1) /\ normalize_opt (c_workflow c1) = Some (c_workflow c1).
Proof.
  unfold load, get_workflow, loadWorkflow.
  destruct (JSON_parse raw) as [p|] eqn:Ep; [|done]. intros Hl _.
  pose proof (JSON_parse_keys_unique raw p Ep) as Hk.
  unfold client_load, send in Hl. simpl in Hl.
  destruct (stringify p) as [t|] eqn:Et; [|done]. simpl in Hl.
  rewrite (parse_serialize "" p t eq_refl Hk Et) in Hl.
  destruct (normalize_opt p) as [d|] eqn:Ed; [|done]. inv Hl. simpl. split.
  - by apply (keys_unique_normalize p).
  - by apply (normalize_idem p).
Qed.

(** ** Theorems *)

(** C29 (spec section 8, save-then-load): after the save button posted a
    workflow that is an object or an array within the body limit, the
    file holds its indented text, and a load gives the client back
    exactly the state it had after the save.  The workflow is one the
    round trip keeps: distinct keys, no [undefined], properties in
    enumeration order; [load_save_load] shows every loaded workflow is one. *)
Theorem save_then_load (c : client) (file : option string) :
  keys_unique (c_workflow c) -> normalize_opt (c_workflow c) = Some (c_workflow c) ->
  is_container (c_workflow c) -> (N.of_nat (String.length (save_body c)) <= body_limit)%N ->
  (save_click c file).2 = stringify_pretty (c_workflow c) /\
  load (save_click c file).2 (save_click c file).1 = Ret (save_click c file).1.
Proof.
  intros Hk Hn Hc Hlen.
  by destruct (save_load_ok c file (c_workflow c)) as (text & Ep & -> & Hl).
Qed.

(** Whatever text the workflow file holds, a workflow the client has
    loaded with status 200 survives a save and a load unchanged, provided
    it is an object or an array and its text is within the body limit. *)
Theorem load_save_load (raw : string) (c c1 : client) :
  load (Some raw) c = Ret c1 -> h_status (get_workflow (Some raw)) = 200%Z ->
  is_container (c_workflow c1) -> (N.of_nat (String.length (save_body c1)) <= body_limit)%N ->
  c_workflow (save_click c1 (Some raw)).1 = c_workflow c1 /\
  load (save_click c1 (Some raw)).2 (save_click c1 (Some raw)).1 = Ret (save_click c1 (Some raw)).1.
Proof.
  intros Hl H200 Hc Hlen. destruct (loaded_normal raw c c1 Hl H200) as [Hk Hn].
  by destruct (save_load_ok c1 (Some raw) (c_workflow c1)) as (text & Ep & -> & Hl').
Qed.

(** C30: a save the server does not accept (an answer other than 200:
    the body parser's 400 or 413, or a write error) leaves the stored
    workflow as it was, and the client still reports it as saved. *)
Theorem save_reported_despite_rejection (c : client) (file : option string) :
  h_status (post_workflow client_json (save_body c) file).1 <> 200%Z ->
  (save_click c file).2 = file /\
  c_log (save_click c file).1 = ("工作流已保存", "success") :: c_log c.
Proof.
  unfold save_click. destruct (post_workflow client_json (save_body c) file) as [answer file'] eqn:E.
  simpl. intros Hs. split; [|done].
  unfold post_workflow in E. destruct (express_json client_json (save_body c)) as [err|v]; [by inv E|].
  by destruct (saveWorkflow v); inv E.
Qed.

(** C31: a [POST /api/workflow] that is not typed JSON replaces the stored
    workflow by [{}].  [express.json] leaves [req.body = {}] for a request
    whose [Content-Type] is missing, unparsable or not
    [application/json], and the handler saves it without a check and
    answers [{ ok: true }]; the next load gives every client the empty
    workflow.  A page of any other site can send such a request from the
    user's browser (a form posting [text/plain], a [no-cors] fetch)
    without a preflight, so any site the user visits can erase the
    workflow. *)
Theorem untyped_post_wipes_workflow (ctype : option string) (body : string) (file : option string)
    (c : client) :
  json_params ctype = None ->
  post_workflow ctype body file = (send ok_response, Some "{}") /\
  load (post_workflow ctype body file).2 c = Ret {| c_workflow := VObj []; c_log := c_log c |}.
Proof.
  intros H. assert (E : post_workflow ctype body file = (send ok_response, Some "{}")).
  { unfold post_workflow, express_json. rewrite H. reflexivity. }
  split; [done|]. rewrite E. reflexivity.
Qed.

(** A load whose read of the file fails is not noticed: the error
    body [{ error }] becomes the client's workflow, and the next save
    writes it over the stored workflow, whatever the file held. *)
Theorem failed_load_overwrites (c : client) (stored : string) :
  exists c1, load None c = Ret c1 /\
    c_workflow c1 = VObj [("error", VStr "ENOENT: no such file or directory")] /\
    (save_click c1 (Some stored)).2 = stringify_pretty (c_workflow c1).
Proof. eexists. split; [reflexivity|]. split; reflexivity. Qed.

(** ** Witnesses *)

Definition ex_doc : value :=
  VObj [("last_node_id", VNum 9);
        ("nodes", VArr [VObj [("id", VNum 3); ("type", VStr "KSampler"); ("mode", VNum 0);
                              ("widgets_values", VArr [VNum 42; VStr "euler"; VNum 20])]]);
        ("links", VArr [])].

Definition ex_client : client := {| c_workflow := ex_doc; c_log := [] |}.

(** A stored text whose keys are not in enumeration order: [10] and [2]
    are array indices and come first once parsed and sent. *)
Definition ex_stored : string :=
  "{" ++ quote "nodes" ++ ":[]," ++ quote "10" ++ ":1," ++ quote "2" ++ ":true}".

Lemma save_then_load_witness :
  (save_click ex_client None).2 = stringify_pretty ex_doc /\
  load (save_click ex_client None).2 (save_click ex_client None).1 = Ret (save_click ex_client None).1.
Proof.
  apply (save_then_load ex_client None).
  - apply keys_uniqueb_spec. reflexivity.
  - reflexivity.
  - exact I.
  - apply N.leb_le. vm_compute. reflexivity.
Defined.

Lemma load_save_load_witness :
  c_workflow (save_click {| c_workflow := VObj [("2", VBool true); ("10", VNum 1); ("nodes", VArr [])];
                            c_log := [] |} (Some ex_stored)).1 =
    VObj [("2", VBool true); ("10", VNum 1); ("nodes", VArr [])].
Proof.
  apply (load_save_load ex_stored ex_client
           {| c_workflow := VObj [("2", VBool true); ("10", VNum 1); ("nodes", VArr [])]; c_log := [] |}).
  - reflexivity.
  - reflexivity.
  - exact I.
  - apply N.leb_le. vm_compute. reflexivity.
Defined.

Lemma save_reported_despite_rejection_witness :
  (save_click {| c_workflow := VNull; c_log := [] |} None).2 = None /\
  c_log (save_click {| c_workflow := VNull; c_log := [] |} None).1 = [("工作流已保存", "success")].
Proof.
  apply (save_reported_despite_rejection {| c_workflow := VNull; c_log := [] |} None).
  vm_compute. discriminate.
Defined.

(** A cross-site form posting [text/plain] erases the workflow. *)
Lemma untyped_post_wipes_workflow_witness :
  post_workflow (Some "text/plain;charset=UTF-8") "x=1" (Some ex_stored) = (send ok_response, Some "{}") /\
  load (Some "{}") ex_client = Ret {| c_workflow := VObj []; c_log := [] |}.
Proof.
  exact (untyped_post_wipes_workflow (Some "text/plain;charset=UTF-8") "x=1" (Some ex_stored) ex_client
           eq_refl).
Defined.

(** The client's own header is read as JSON, with or without a UTF-8
    charset; a Latin-1 charset is refused. *)
Example content_types :
  reads_json client_json = true /\ reads_json (Some "Application/JSON; charset=utf-8") = true /\
  json_params (Some "application/x-www-form-urlencoded") = None /\
  express_json (Some "application/json; charset=latin1") "{}" =
    inl {| h_status := 415; h_body := "UnsupportedMediaTypeError: unsupported charset" |}.
Proof. split_and!; reflexivity. Qed.
