(* ===== verification/Url.v ===== *)
(** * URLs: [new URL] and [URL.prototype.toString]

    The server builds every URL it fetches with [comfyUrl(pathname)]
    (server.js lines 47-50): [new URL(COMFYUI_BASE_URL)] parses the
    configured base, then [new URL(pathname, base)] resolves a path
    against it, and [toString()] serialises the result.  This file models
    the WHATWG URL parser for these two uses:

    - [parse_url]: an absolute URL of a special scheme ([http], [https],
      [ws], [wss], [ftp]): leading and trailing C0 controls and spaces
      removed, tabs and newlines dropped, the scheme lower-cased, the
      slashes after it ignored, the authority split into credentials
      (percent-encoded with the userinfo set), host and port; the host
      percent-decoded, refused when empty or holding a forbidden domain
      code point, lower-cased, and, when it ends in a number, read by the
      IPv4 parser (decimal, octal and hexadecimal parts, one to four of
      them) and serialised in dotted decimal; the port refused unless decimal and at
      most 65535, and dropped when it is the scheme's default.
    - [new_URL]: an input starting with a slash or a backslash against a
      parsed base: one slash keeps the base's credentials and host, two or
      more start a new authority, parsed as above.

    Paths are split on slashes and backslashes, dot segments removed and
    the path percent-encode set encoded; the query is encoded with the
    special-query set; the fragment is dropped.  Not modelled: the
    [file] scheme and schemes that are not special ([parse_url] refuses
    them; [fetch] would refuse them too), IDNA (bytes outside ASCII are
    kept) and the validation and compression of IPv6 literals (kept as
    written).  The serialisation of a parsed URL
    is read back to the same URL by the parser (the standard's
    idempotence), so [fetch], which parses the text again, is modelled on
    the parsed URL.

    The file also holds the [application/x-www-form-urlencoded] parser
    the backend applies to a query, which states how the client's query
    encoding is read back. *)

From S2P Require Import Prelude JsValue Json JsonParse.

Local Open Scope string_scope.

(** ** Strings *)

(** [s.split(sep)] with a one-character separator. *)
Fixpoint split_at_char (sep : ascii) (s : string) : list string :=
  match s with
  | EmptyString => [""]
  | String c s' =>
      if Ascii.eqb c sep then "" :: split_at_char sep s'
      else match split_at_char sep s' with
           | w :: ws => String c w :: ws
           | [] => [String c ""]
           end
  end.

(** The part before the first character satisfying [stop], and the rest
    from that character on. *)
Fixpoint split_until (stop : ascii -> bool) (s : string) : string * string :=
  match s with
  | EmptyString => ("", "")
  | String c s' =>
      if stop c then ("", s)
      else let '(a, b) := split_until stop s' in (String c a, b)
  end.

Definition is_slash (c : ascii) : bool := Ascii.eqb c "/" || Ascii.eqb c "\".

(** The number of leading slashes and backslashes, and the rest. *)
Fixpoint strip_slashes (s : string) : nat * string :=
  match s with
  | String c s' => if is_slash c then let '(n, r) := strip_slashes s' in (S n, r) else (0, s)
  | EmptyString => (0, EmptyString)
  end.


(** Every character of [s] satisfies [p]. *)
Fixpoint all_chars (p : ascii -> bool) (s : string) : bool :=
  match s with
  | EmptyString => true
  | String c s' => p c && all_chars p s'
  end.

(** ** Percent-encoding *)

(** An upper-case hexadecimal digit. *)
Definition hex_upper (n : nat) : string :=
  if Nat.ltb n 10 then chr (48 + n) else chr (55 + n).


Definition pct_byte (c : ascii) : string :=
  let n := nat_of_ascii c in ("%" ++ hex_upper (Nat.div n 16) ++ hex_upper (Nat.modulo n 16))%string.

Fixpoint pct_encode (inset : ascii -> bool) (s : string) : string :=
  match s with
  | EmptyString => EmptyString
  | String c s' => ((if inset c then pct_byte c else String c EmptyString) ++ pct_encode inset s')%string
  end.

(** The C0 control percent-encode set with space, the double quote, [#], [<] and [>]. *)
Definition fragment_set (c : ascii) : bool :=
  let n := nat_of_ascii c in
  (Nat.ltb n 32) || (Nat.ltb 126 n) || (Nat.eqb n 32) || (Nat.eqb n 34) || (Nat.eqb n 35) || (Nat.eqb n 60) || (Nat.eqb n 62).

(** The special-query percent-encode set: [']. *)
Definition special_query_set (c : ascii) : bool := fragment_set c || (Nat.eqb (nat_of_ascii c) 39).

(** The path percent-encode set: [?], [`], [{] and [}]. *)
Definition path_set (c : ascii) : bool :=
  let n := nat_of_ascii c in fragment_set c || (Nat.eqb n 63) || (Nat.eqb n 96) || (Nat.eqb n 123) || (Nat.eqb n 125).

(** The userinfo percent-encode set: the path set with [/], [:], [;],
    [=], [@], [[] to [^] and [|]. *)
Definition userinfo_set (c : ascii) : bool :=
  let n := nat_of_ascii c in
  path_set c || Nat.eqb n 47 || Nat.eqb n 58 || Nat.eqb n 59 || Nat.eqb n 61 || Nat.eqb n 64 ||
  (Nat.leb 91 n && Nat.leb n 94) || Nat.eqb n 124.

(** The forbidden domain code points: the forbidden host code points, the
    C0 controls, [%] and DEL. *)
Definition forbidden_domain (c : ascii) : bool :=
  let n := nat_of_ascii c in
  Nat.leb n 32 || Nat.eqb n 35 || Nat.eqb n 37 || Nat.eqb n 47 || Nat.eqb n 58 || Nat.eqb n 60 ||
  Nat.eqb n 62 || Nat.eqb n 63 || Nat.eqb n 64 || (Nat.leb 91 n && Nat.leb n 94) ||
  Nat.eqb n 124 || Nat.eqb n 127.

Fixpoint pct_decode (s : string) : string :=
  match s with
  | EmptyString => EmptyString
  | String c s' =>
      if Ascii.eqb c "%" then
        match s' with
        | String h1 (String h2 rest) =>
            match hex_val h1, hex_val h2 with
            | Some a, Some b => String (ascii_of_nat (16 * a + b)) (pct_decode rest)
            | _, _ => String c (pct_decode s')
            end
        | _ => String c (pct_decode s')
        end
      else String c (pct_decode s')
  end.

(** ** URLs *)

Record url := {
  u_scheme : string;
  u_user : string;          (* the credentials as serialised: [user:password@] or empty *)
  u_host : string;          (* the host and the port, as serialised *)
  u_path : list string;
  u_query : option string
}.

Definition single_dot (seg : string) : bool :=
  let s := to_lower seg in String.eqb s "." || String.eqb s "%2e".

Definition double_dot (seg : string) : bool :=
  let s := to_lower seg in
  String.eqb s ".." || String.eqb s ".%2e" || String.eqb s "%2e." || String.eqb s "%2e%2e".

(** The path state over the segments of a path; [acc] is the path so far,
    last segment first.  A dot segment removes nothing or the last
    segment, and leaves an empty segment when it ends the path. *)
Fixpoint path_segments (acc : list string) (segs : list string) : list string :=
  match segs with
  | [] => rev acc
  | seg :: rest =>
      let last := match rest with [] => true | _ => false end in
      if double_dot seg then
        path_segments (if last then "" :: tail acc else tail acc) rest
      else if single_dot seg then
        path_segments (if last then "" :: acc else acc) rest
      else path_segments (pct_encode path_set seg :: acc) rest
  end.

Fixpoint split_slashes (s : string) : list string :=
  match s with
  | EmptyString => [""]
  | String c s' =>
      if is_slash c then "" :: split_slashes s'
      else match split_slashes s' with
           | w :: ws => String c w :: ws
           | [] => [String c ""]
           end
  end.

(** The path, query and fragment after the host: [rest] is empty or
    starts with a slash, [?] or [#]. *)
Definition path_query (base_path : list string) (rest : string) : list string * option string :=
  let '(pre, _) := split_until (fun c => Ascii.eqb c "#") rest in
  let '(p, q) := split_until (fun c => Ascii.eqb c "?") pre in
  let query := match q with
               | String _ q' => Some (pct_encode special_query_set q')
               | EmptyString => None
               end in
  let path := match p with
              | String c p' => if is_slash c then path_segments [] (split_slashes p')
                               else path_segments (tail (rev base_path)) (split_slashes p)
              | EmptyString => path_segments [] [""]
              end in
  (path, query).

(** ** Authorities *)

(** The failure of the parser: [new URL] throws [TypeError: Invalid URL]. *)
Definition invalid_url : exn := TypeError "Invalid URL".

(** The scheme's default port; the special schemes but [file] are the
    schemes that have one. *)
Definition default_port (scheme : string) : option N :=
  if String.eqb scheme "http" || String.eqb scheme "ws" then Some 80%N
  else if String.eqb scheme "https" || String.eqb scheme "wss" then Some 443%N
  else if String.eqb scheme "ftp" then Some 21%N
  else None.

Definition digit_val (c : ascii) : option N :=
  let n := nat_of_ascii c in if Nat.leb 48 n && Nat.leb n 57 then Some (N.of_nat (n - 48)) else None.

(** The value of a decimal numeral, [None] on any other character. *)
Fixpoint decimal (acc : N) (s : string) : option N :=
  match s with
  | EmptyString => Some acc
  | String c s' => match digit_val c with Some d => decimal (10 * acc + d)%N s' | None => None end
  end.

(** The host, up to the first [:] outside brackets, and the port after it. *)
Fixpoint split_hostport (in_brackets : bool) (s : string) : string * option string :=
  match s with
  | EmptyString => ("", None)
  | String c s' =>
      if Ascii.eqb c ":" && negb in_brackets then ("", Some s')
      else let b := if Ascii.eqb c "[" then true else if Ascii.eqb c "]" then false else in_brackets in
           let '(h, p) := split_hostport b s' in (String c h, p)
  end.

(** The port state: empty, or a decimal number at most 65535, serialised
    without leading zeros and dropped when it is the scheme's default. *)
Definition parse_port (scheme port : string) : throws string :=
  if String.eqb port "" then Ret "" else
  match decimal 0 port with
  | None => Throw invalid_url
  | Some n =>
      if N.ltb 65535 n then Throw invalid_url
      else match default_port scheme with
           | Some d => if N.eqb n d then Ret "" else Ret (z_to_str (Z.of_N n))
           | None => Ret (z_to_str (Z.of_N n))
           end
  end.

(** ** IPv4 hosts *)

(** The digits of an IPv4 number in radix [r]: [None] on a character
    that is not a digit of the radix. *)
Fixpoint radix_digits (r acc : N) (s : string) : option N :=
  match s with
  | EmptyString => Some acc
  | String c s' =>
      match hex_val c with
      | Some d => if N.ltb (N.of_nat d) r then radix_digits r (acc * r + N.of_nat d) s' else None
      | None => None
      end
  end.

(** The IPv4 number parser: [0x] or [0X] starts a hexadecimal number, [0]
    followed by more an octal one, anything else is decimal; nothing after
    the prefix is zero, an empty part is refused. *)
Definition ipv4_number (s : string) : option N :=
  if String.eqb s "" then None else
  let '(r, digits) :=
    match s with
    | String z (String x rest) =>
        if Ascii.eqb z "0" && (Ascii.eqb x "x" || Ascii.eqb x "X") then (16%N, rest)
        else if Ascii.eqb z "0" then (8%N, String x rest) else (10%N, s)
    | _ => (10%N, s)
    end in
  radix_digits r 0 digits.

(** The parts of a host on its dots, without one trailing empty part. *)
Definition ipv4_parts (h : string) : list string :=
  let parts := split_at_char "." h in
  if String.eqb (List.last parts "") "" && Nat.ltb 1 (length parts) then removelast parts else parts.

Definition is_digit (c : ascii) : bool := Nat.leb 48 (nat_of_ascii c) && Nat.leb (nat_of_ascii c) 57.

(** The ends-in-a-number checker: the last part is a non-empty run of
    decimal digits or an IPv4 number. *)
Definition ends_in_number (h : string) : bool :=
  let last := List.last (ipv4_parts h) "" in
  (negb (String.eqb last "") && all_chars is_digit last) || bool_decide (is_Some (ipv4_number last)).

(** [n0 * 256^3 + n1 * 256^2 + ...] over the parts before the last. *)
Fixpoint ipv4_sum (i : N) (ns : list N) : N :=
  match ns with
  | [] => 0
  | x :: ns' => x * 256 ^ (3 - i) + ipv4_sum (i + 1) ns'
  end.

(** The dotted-decimal serialisation of an address. *)
Definition ipv4_serialize (a : N) : string :=
  String.concat "." (map (fun k => z_to_str (Z.of_N ((a / 256 ^ k) mod 256))) [3; 2; 1; 0]%N).

(** The IPv4 parser: at most four parts, each an IPv4 number, those but
    the last at most 255 and the last below [256^(5 - n)]; the address
    is serialised. *)
Definition parse_ipv4 (h : string) : throws string :=
  let parts := ipv4_parts h in
  if Nat.ltb 4 (length parts) then Throw invalid_url else
  match mapM ipv4_number parts with
  | None => Throw invalid_url
  | Some ns =>
      let last := List.last ns 0%N in
      if existsb (fun x => N.ltb 255 x) (removelast ns) then Throw invalid_url
      else if N.leb (256 ^ N.of_nat (5 - length ns)) last then Throw invalid_url
      else Ret (ipv4_serialize (last + ipv4_sum 0 (removelast ns)))
  end.

(** The host parser for a special scheme: an IPv6 literal as written,
    otherwise the percent-decoded domain, refused when empty or holding a
    forbidden domain code point, lower-cased, and read as an IPv4
    address when it ends in a number. *)
Definition parse_host (raw : string) : throws string :=
  if String.prefix "[" raw then Ret raw else
  let h := pct_decode raw in
  if String.eqb h "" || negb (all_chars (fun c => negb (forbidden_domain c)) h) then Throw invalid_url
  else let d := to_lower h in if ends_in_number d then parse_ipv4 d else Ret d.

(** The authority: the credentials before the last [@] (the first [:]
    separating user and password, both percent-encoded with the userinfo
    set), then the host and the port.  The result is the serialised
    credentials and the serialised host with its port. *)
Definition parse_authority (scheme auth : string) : throws (string * string) :=
  let parts := split_at_char "@" auth in
  let '(user_raw, rest) := split_until (fun c => Ascii.eqb c ":") (String.concat "@" (removelast parts)) in
  let pass_raw := match rest with String _ p => p | EmptyString => "" end in
  let user := pct_encode userinfo_set user_raw in
  let pass := pct_encode userinfo_set pass_raw in
  let creds := if String.eqb user "" && String.eqb pass "" then ""
               else (user ++ (if String.eqb pass "" then "" else ":" ++ pass) ++ "@")%string in
  let '(h, p) := split_hostport false (List.last parts "") in
  let! host := parse_host h in
  let! port := parse_port scheme (default "" p) in
  Ret (creds, if String.eqb port "" then host else (host ++ ":" ++ port)%string).

(** The authority of a special URL ends at a slash, a backslash, [?] or [#]. *)
Definition authority_end (c : ascii) : bool := is_slash c || Ascii.eqb c "?" || Ascii.eqb c "#".

(** [new URL(input, base)] for an input that starts with a slash or a
    backslash. *)
Definition new_URL (input : string) (base : url) : throws url :=
  let '(n, rest) := strip_slashes input in
  if Nat.leb 2 n then
    let '(auth, rest') := split_until authority_end rest in
    let! ch := parse_authority (u_scheme base) auth in
    let '(p, q) := path_query [] rest' in
    Ret {| u_scheme := u_scheme base; u_user := ch.1; u_host := ch.2; u_path := p; u_query := q |}
  else
    let '(p, q) := path_query (u_path base) input in
    Ret {| u_scheme := u_scheme base; u_user := u_user base; u_host := u_host base; u_path := p;
           u_query := q |}.

(** ** Absolute URLs *)

Fixpoint ltrim_c0 (s : string) : string :=
  match s with
  | String c s' => if Nat.leb (nat_of_ascii c) 32 then ltrim_c0 s' else s
  | EmptyString => EmptyString
  end.

Fixpoint str_rev (s acc : string) : string :=
  match s with EmptyString => acc | String c s' => str_rev s' (String c acc) end.

Fixpoint drop_tab_newline (s : string) : string :=
  match s with
  | EmptyString => EmptyString
  | String c s' =>
      let n := nat_of_ascii c in
      if Nat.eqb n 9 || Nat.eqb n 10 || Nat.eqb n 13 then drop_tab_newline s' else String c (drop_tab_newline s')
  end.

(** The input with leading and trailing C0 controls and spaces removed,
    then tabs and newlines dropped. *)
Definition url_clean (s : string) : string :=
  drop_tab_newline (str_rev (ltrim_c0 (str_rev (ltrim_c0 s) "")) "").

Definition scheme_char (c : ascii) : bool :=
  let n := nat_of_ascii c in
  (Nat.leb 65 n && Nat.leb n 90) || (Nat.leb 97 n && Nat.leb n 122) || (Nat.leb 48 n && Nat.leb n 57) ||
  Nat.eqb n 43 || Nat.eqb n 45 || Nat.eqb n 46.

(** A scheme: an ASCII letter, then letters, digits, [+], [-] and [.]. *)
Definition scheme_ok (s : string) : bool :=
  match s with
  | String c s' => let n := nat_of_ascii c in
                   ((Nat.leb 65 n && Nat.leb n 90) || (Nat.leb 97 n && Nat.leb n 122)) && all_chars scheme_char s'
  | EmptyString => false
  end.

(** [new URL(input)] for an absolute URL of a special scheme but [file]
    (server.js line 48, on [COMFYUI_BASE_URL]); an input without a scheme
    fails, as there is no base. *)
Definition parse_url (input : string) : throws url :=
  let '(sch, rest) := split_until (fun c => Ascii.eqb c ":") (url_clean input) in
  match rest with
  | EmptyString => Throw invalid_url
  | String _ after =>
      if negb (scheme_ok sch) then Throw invalid_url else
      let scheme := to_lower sch in
      match default_port scheme with
      | None => Throw invalid_url
      | Some _ =>
          let '(_, r) := strip_slashes after in
          let '(auth, r') := split_until authority_end r in
          let! ch := parse_authority scheme auth in
          let '(p, q) := path_query [] r' in
          Ret {| u_scheme := scheme; u_user := ch.1; u_host := ch.2; u_path := p; u_query := q |}
      end
  end.

(** [url.toString()]: the scheme, the credentials, the host, each segment
    after a slash, the query after [?]. *)
Definition url_href (u : url) : string :=
  (u_scheme u ++ "://" ++ u_user u ++ u_host u ++
   String.concat "" (List.map (fun seg => "/" ++ seg) (u_path u)) ++
   match u_query u with Some q => "?" ++ q | None => "" end)%string.

(** ** What the backend reads from a query

    The [application/x-www-form-urlencoded] parser of the URL standard,
    which the backend applies to the query of [/view]: the query is split
    on [&], each non-empty part on its first [=], [+] becomes a space and
    [%XX] the byte [XX].  It is not code of the repository; it states what
    the client's encoding must be read back by. *)

Fixpoint plus_to_space (s : string) : string :=
  match s with
  | EmptyString => EmptyString
  | String c s' => String (if Ascii.eqb c "+" then " "%char else c) (plus_to_space s')
  end.

(** One part of a query: its name and its value. *)
Definition form_field (part : string) : option (string * string) :=
  if String.eqb part "" then None else
  let '(name, rest) := split_until (fun c => Ascii.eqb c "=") part in
  let v := match rest with String _ v => v | EmptyString => "" end in
  Some (pct_decode (plus_to_space name), pct_decode (plus_to_space v)).

Definition form_parse (q : string) : list (string * string) :=
  omap form_field (split_at_char "&" q).

(** ** Lemmas on strings *)

Lemma all_chars_app (p : ascii -> bool) (a b : string) :
  all_chars p (a ++ b) = all_chars p a && all_chars p b.
Proof. induction a as [|c a IH]; simpl; [done|]. by rewrite IH, andb_assoc. Qed.

Lemma plus_to_space_app (a b : string) : plus_to_space (a ++ b) = (plus_to_space a ++ plus_to_space b)%string.
Proof. induction a as [|c a IH]; simpl; [done|]. by rewrite IH. Qed.

Lemma split_at_char_app (sep : ascii) (a b : string) :
  all_chars (fun x => negb (Ascii.eqb x sep)) a = true ->
  split_at_char sep (a ++ String sep b) = a :: split_at_char sep b.
Proof.
  induction a as [|c a IH]; simpl; [by rewrite Ascii.eqb_refl|].
  intros [Hc Ha]%andb_true_iff. apply negb_true_iff in Hc. rewrite Hc, IH by done. done.
Qed.

Lemma split_at_char_none (sep : ascii) (a : string) :
  all_chars (fun x => negb (Ascii.eqb x sep)) a = true -> split_at_char sep a = [a].
Proof.
  induction a as [|c a IH]; simpl; [done|].
  intros [Hc Ha]%andb_true_iff. apply negb_true_iff in Hc. rewrite Hc, IH by done. done.
Qed.

Lemma split_until_app (stop : ascii -> bool) (a b : string) :
  all_chars (fun x => negb (stop x)) a = true ->
  split_until stop (a ++ b) = let '(x, y) := split_until stop b in ((a ++ x)%string, y).
Proof.
  induction a as [|c a IH].
  { rewrite (str_app_nil_l b). destruct (split_until stop b). by rewrite str_app_nil_l. }
  simpl.
  intros [Hc Ha]%andb_true_iff. apply negb_true_iff in Hc. rewrite Hc, IH by done.
  by destruct (split_until stop b).
Qed.

Lemma split_until_none (stop : ascii -> bool) (a : string) :
  all_chars (fun x => negb (stop x)) a = true -> split_until stop a = (a, "").
Proof.
  intros Ha. rewrite <- (str_app_nil_r a) at 1. rewrite split_until_app by done. simpl.
  by rewrite str_app_nil_r.
Qed.

Lemma pct_encode_id (inset : ascii -> bool) (s : string) :
  all_chars (fun x => negb (inset x)) s = true -> pct_encode inset s = s.
Proof.
  induction s as [|c s IH]; simpl; [done|].
  intros [Hc Hs]%andb_true_iff. apply negb_true_iff in Hc. rewrite Hc, IH by done. done.
Qed.

(** An input that starts with a slash does not read the base's path. *)
Lemma path_query_abs (bp bp' : list string) (s : string) :
  path_query bp (String "/" s) = path_query bp' (String "/" s).
Proof.
  unfold path_query. cbn [split_until].
  replace (Ascii.eqb "/" "#") with false by reflexivity. cbv iota beta.
  destruct (split_until (fun c => Ascii.eqb c "#") s) as [a b]. cbn [split_until].
  replace (Ascii.eqb "/" "?") with false by reflexivity. cbv iota beta.
  by destruct (split_until (fun c => Ascii.eqb c "?") a).
Qed.

Lemma all_chars_impl (p q : ascii -> bool) (s : string) :
  (forall x, p x = true -> q x = true) -> all_chars p s = true -> all_chars q s = true.
Proof.
  intros Hpq. induction s as [|c s IH]; simpl; [done|].
  intros [Hc Hs]%andb_true_iff. by rewrite Hpq, IH.
Qed.

Lemma pct_decode_id (s : string) :
  all_chars (fun x => negb (Ascii.eqb x "%")) s = true -> pct_decode s = s.
Proof.
  induction s as [|c s IH]; simpl; [done|].
  intros [Hc Hs]%andb_true_iff. apply negb_true_iff in Hc. by rewrite Hc, IH.
Qed.

Lemma split_hostport_none (b : bool) (s : string) :
  all_chars (fun x => negb (Ascii.eqb x ":")) s = true -> split_hostport b s = (s, None).
Proof.
  revert b. induction s as [|c s IH]; intros b; simpl; [done|].
  intros [Hc Hs]%andb_true_iff. apply negb_true_iff in Hc. rewrite Hc. simpl. by rewrite IH.
Qed.

(** A character allowed in a domain is none of the delimiters the
    authority parser looks for. *)
Lemma domain_char_delims (x : ascii) :
  negb (forbidden_domain x) = true ->
  negb (Ascii.eqb x "@") = true /\ negb (Ascii.eqb x ":") = true /\ negb (Ascii.eqb x "%") = true /\
  negb (authority_end x) = true.
Proof. destruct x as [[] [] [] [] [] [] [] []]; done. Qed.

Lemma parse_host_nonempty (h host : string) : parse_host h = Ret host -> String.eqb h "" = false.
Proof. by destruct h. Qed.

(** An authority made of allowed characters has no credentials and no
    port: it is the host [parse_host] makes of it. *)
Lemma parse_authority_host (scheme h host : string) :
  all_chars (fun c => negb (forbidden_domain c)) h = true -> parse_host h = Ret host ->
  parse_authority scheme h = Ret ("", host).
Proof.
  intros Hh Hhost.
  assert (D : forall p, (forall x, negb (forbidden_domain x) = true -> p x = true) -> all_chars p h = true).
  { intros p Hp. by apply (all_chars_impl (fun c => negb (forbidden_domain c))). }
  unfold parse_authority.
  rewrite (split_at_char_none "@" h) by (apply D; intros x Hx; apply (domain_char_delims x Hx)).
  cbn [removelast String.concat List.last split_until pct_encode String.eqb andb]. cbv iota beta.
  rewrite split_hostport_none by (apply D; intros x Hx; apply (domain_char_delims x Hx)).
  rewrite Hhost. reflexivity.
Qed.

(** ** Printable inputs *)

(** A character above the space: not trimmed, not a tab or newline. *)
Definition printable (c : ascii) : bool := Nat.ltb 32 (nat_of_ascii c).

Lemma str_rev_acc (s acc : string) : str_rev s acc = (str_rev s "" ++ acc)%string.
Proof.
  revert acc. induction s as [|c s IH]; intros acc; simpl; [done|].
  rewrite (IH (String c acc)), (IH (String c "")), str_app_assoc. done.
Qed.

Lemma str_rev_involutive (s : string) : str_rev (str_rev s "") "" = s.
Proof.
  assert (G : forall acc, str_rev (str_rev s acc) "" = (str_rev acc "" ++ s)%string).
  { induction s as [|c s IH]; intros acc; simpl.
    - by rewrite str_app_nil_r.
    - rewrite IH. simpl. rewrite (str_rev_acc acc (String c "")), str_app_assoc. done. }
  by rewrite G.
Qed.

Lemma all_chars_str_rev (p : ascii -> bool) (s : string) :
  all_chars p (str_rev s "") = all_chars p s.
Proof.
  induction s as [|c s IH]; simpl; [done|].
  rewrite str_rev_acc, all_chars_app, IH. simpl. by rewrite andb_true_r, andb_comm.
Qed.

Lemma ltrim_c0_printable (s : string) : all_chars printable s = true -> ltrim_c0 s = s.
Proof.
  destruct s as [|c s]; simpl; [done|]. intros [Hc _]%andb_true_iff.
  unfold printable in Hc. apply Nat.ltb_lt in Hc. by rewrite (proj2 (Nat.leb_gt _ _) Hc).
Qed.

Lemma drop_tab_newline_printable (s : string) : all_chars printable s = true -> drop_tab_newline s = s.
Proof.
  induction s as [|c s IH]; simpl; [done|]. intros [Hc Hs]%andb_true_iff.
  unfold printable in Hc. apply Nat.ltb_lt in Hc. rewrite IH by done.
  replace (Nat.eqb (nat_of_ascii c) 9 || Nat.eqb (nat_of_ascii c) 10 || Nat.eqb (nat_of_ascii c) 13)
    with false; [done|].
  symmetry. repeat apply orb_false_intro; apply Nat.eqb_neq; lia.
Qed.

(** The basic parser leaves a printable input as it is. *)
Lemma url_clean_printable (s : string) : all_chars printable s = true -> url_clean s = s.
Proof.
  intros Hs. unfold url_clean.
  rewrite (ltrim_c0_printable s), (ltrim_c0_printable (str_rev s "")), str_rev_involutive
    by (rewrite ?all_chars_str_rev; done).
  by apply drop_tab_newline_printable.
Qed.
