(* ===== verification/Route.v ===== *)
(** * The URL of a registry entry and the route that reads it back

    The delete button of a registry entry (app.js lines 78-81) sends
    [fetch(`/api/models/${model.id}`, { method: 'DELETE' })]: the id is
    pasted into a relative URL, which the browser parses against the
    page's URL before sending the request line.  The server answers it
    with the route [app.delete('/api/models/:id', ...)] (server.js line
    134): Express matches the path of the request (without its query)
    against [^\/api\/models\/(?:([^\/]+?))\/?$], case-insensitively, and
    [req.params.id] is the matched segment passed through
    [decodeURIComponent]; a segment that does not decode is answered 400,
    a path the route does not match 404, and neither deletes anything.

    This file holds [decodeURIComponent] (ECMAScript's [Decode] with an
    empty reserved set, on the UTF-8 bytes of a string), the route's
    match, and what they give for the ids the server generates and for
    ids holding a [?]. *)

From S2P Require Import Prelude JsValue Json JsonParse Url.

Local Open Scope string_scope.

(** ** [decodeURIComponent] *)

(** A string read as escapes: a byte of its own, or [%XX]. *)
Inductive utoken : Type :=
  | URaw (c : ascii)
  | UEsc (b : nat).

(** [%] must be followed by two hexadecimal digits; [None] is the
    [URIError] [decodeURIComponent] throws. *)
Fixpoint utokens (s : string) : option (list utoken) :=
  match s with
  | EmptyString => Some []
  | String c s' =>
      if Ascii.eqb c "%" then
        match s' with
        | String h1 (String h2 rest) =>
            match hex_val h1, hex_val h2 with
            | Some a, Some b => cons (UEsc (16 * a + b)) <$> utokens rest
            | _, _ => None
            end
        | _ => None
        end
      else cons (URaw c) <$> utokens s'
  end.

(** The number of continuation bytes the first byte of an escaped UTF-8
    sequence announces: [n - 1] for [n] leading one bits, an error for
    one leading one bit or more than four. *)
Definition utf8_more (b : nat) : option nat :=
  if Nat.ltb b 192 then None else if Nat.ltb b 224 then Some 1
  else if Nat.ltb b 240 then Some 2 else if Nat.ltb b 248 then Some 3 else None.

(** The code point of a sequence of bytes, read as UTF-8. *)
Definition utf8_code (bs : list nat) : N :=
  let six b := N.of_nat (b mod 64) in
  match bs with
  | [b0; b1] => N.of_nat (b0 mod 32) * 64 + six b1
  | [b0; b1; b2] => (N.of_nat (b0 mod 16) * 64 + six b1) * 64 + six b2
  | [b0; b1; b2; b3] => ((N.of_nat (b0 mod 8) * 64 + six b1) * 64 + six b2) * 64 + six b3
  | _ => 0
  end%N.

(** The sequence is the shortest UTF-8 encoding of a code point that is
    not a surrogate and at most U+10FFFF. *)
Definition utf8_valid (bs : list nat) : bool :=
  let cp := utf8_code bs in
  match length bs with
  | 2 => N.leb 128 cp
  | 3 => N.leb 2048 cp && negb (N.leb 55296 cp && N.leb cp 57343)
  | 4 => N.leb 65536 cp && N.leb cp 1114111
  | _ => false
  end.

(** [Decode] over the escapes: [more] continuation bytes are still
    expected after the bytes [acc] (in reverse) of the sequence begun.  A
    decoded character is kept as its UTF-8 bytes, the representation of
    strings of the development. *)
Fixpoint decode_tokens (more : nat) (acc : list nat) (ts : list utoken) : option string :=
  match ts, more with
  | [], 0 => Some ""
  | [], S _ => None
  | URaw c :: ts', 0 => String c <$> decode_tokens 0 [] ts'
  | UEsc b :: ts', 0 =>
      if Nat.ltb b 128 then String (ascii_of_nat b) <$> decode_tokens 0 [] ts'
      else match utf8_more b with
           | Some n => decode_tokens n [b] ts'
           | None => None
           end
  | URaw _ :: _, S _ => None
  | UEsc b :: ts', S more' =>
      if Nat.leb 128 b && Nat.ltb b 192 then
        match more' with
        | 0 => let bs := rev (b :: acc) in
               if utf8_valid bs
               then append (string_of_list_ascii (map ascii_of_nat bs)) <$> decode_tokens 0 [] ts'
               else None
        | S _ => decode_tokens more' (b :: acc) ts'
        end
      else None
  end.

(** [decodeURIComponent(s)]: [None] when it throws [URIError]. *)
Definition decodeURIComponent (s : string) : option string :=
  utokens s ≫= decode_tokens 0 [].

(** ** The route [/api/models/:id] *)

(** What Express makes of a request path for the route: not matched (the
    router's 404), matched with a parameter that does not decode (400), or
    matched with [req.params.id]. *)
Inductive route_match : Type :=
  | NoRoute
  | BadParam
  | Param (id : string).

(** The path's segments, after its first slash, against
    [^\/api\/models\/(?:([^\/]+?))\/?$] with the [i] flag: a non-empty
    third segment, then at most an empty one (the optional trailing
    slash); the parameter is decoded by [decode_param]. *)
Definition models_id_route (path : list string) : route_match :=
  let param p :=
    if String.eqb p "" then NoRoute else
    match decodeURIComponent p with Some id => Param id | None => BadParam end in
  match path with
  | [a; m; p] | [a; m; p; ""] =>
      if String.eqb (to_lower a) "api" && String.eqb (to_lower m) "models" then param p else NoRoute
  | _ => NoRoute
  end.

(** The page's URL, the one the server announces (server.js line 172).
    A path that starts with one slash keeps only its scheme and host. *)
Definition page_url : url :=
  {| u_scheme := "http"; u_user := ""; u_host := "localhost:3000"; u_path := [""]; u_query := None |}.

(** The URL [fetch] resolves [`/api/models/${model.id}`] to, for the
    text [raw] of the id ([ToString] of [model.id]). *)
Definition delete_url (raw : string) : throws url :=
  new_URL (url_clean ("/api/models/" ++ raw)) page_url.

(** An id the route gives back as it is: printable ASCII with no
    character the path parser encodes or splits on ([?], [#], the slashes,
    space, quotes, braces, the backquote), no [%], not empty and not a dot
    segment.  The ids [crypto.randomUUID()] makes are such ids. *)
Definition seg_char (c : ascii) : bool := negb (path_set c || is_slash c).

Definition id_char (c : ascii) : bool := seg_char c && negb (Ascii.eqb c "%").

Definition route_safe (id : string) : bool :=
  all_chars id_char id && negb (String.eqb id "") && negb (single_dot id) && negb (double_dot id).

(** ** Lemmas *)

Lemma seg_char_props (c : ascii) :
  seg_char c = true ->
  printable c = true /\ negb (Ascii.eqb c "#") = true /\ negb (Ascii.eqb c "?") = true /\
  negb (is_slash c) = true /\ negb (path_set c) = true.
Proof. destruct c as [[] [] [] [] [] [] [] []]; done. Qed.

Lemma id_char_seg (c : ascii) : id_char c = true -> seg_char c = true.
Proof. unfold id_char. by intros [? _]%andb_true_iff. Qed.

Lemma id_char_pct (c : ascii) : id_char c = true -> negb (Ascii.eqb c "%") = true.
Proof. unfold id_char. by intros [_ ?]%andb_true_iff. Qed.

Lemma split_slashes_none (s : string) :
  all_chars (fun c => negb (is_slash c)) s = true -> split_slashes s = [s].
Proof.
  induction s as [|c s IH]; simpl; [done|]. intros [Hc Hs]%andb_true_iff.
  apply negb_true_iff in Hc. by rewrite Hc, IH.
Qed.

Lemma utokens_raw (s : string) :
  all_chars (fun c => negb (Ascii.eqb c "%")) s = true ->
  utokens s = Some (map URaw (list_ascii_of_string s)).
Proof.
  induction s as [|c s IH]; simpl; [done|]. intros [Hc Hs]%andb_true_iff.
  apply negb_true_iff in Hc. by rewrite Hc, IH.
Qed.

Lemma decode_tokens_raw (cs : list ascii) :
  decode_tokens 0 [] (map URaw cs) = Some (string_of_list_ascii cs).
Proof. induction cs as [|c cs IH]; simpl; [done|]. by rewrite IH. Qed.

Lemma route_safe_parts (id : string) :
  route_safe id = true ->
  all_chars id_char id = true /\ String.eqb id "" = false /\ single_dot id = false /\ double_dot id = false.
Proof.
  unfold route_safe. rewrite !andb_true_iff, !negb_true_iff. tauto.
Qed.

(** A string with no [%] decodes to itself. *)
Lemma decodeURIComponent_raw (s : string) :
  all_chars (fun c => negb (Ascii.eqb c "%")) s = true -> decodeURIComponent s = Some s.
Proof.
  intros Hs. unfold decodeURIComponent. rewrite utokens_raw by done. simpl.
  by rewrite decode_tokens_raw, string_of_list_ascii_of_string.
Qed.

(** The route reads a safe id back from the segment the URL parser made of it. *)
Lemma models_id_route_safe (id : string) (tail : list string) :
  route_safe id = true -> tail = [] \/ tail = [""] ->
  models_id_route ("api" :: "models" :: id :: tail) = Param id.
Proof.
  intros Hs Htail. apply route_safe_parts in Hs as (Hid & Hne & _ & _).
  assert (Hdec : decodeURIComponent id = Some id).
  { apply decodeURIComponent_raw. apply (all_chars_impl id_char); [|done]. apply id_char_pct. }
  unfold models_id_route. destruct Htail as [-> | ->]; cbn -[decodeURIComponent]; by rewrite Hne, Hdec.
Qed.

(** The path of [`/api/models/${id}`] followed by nothing, a query or a
    fragment is the three segments [api], [models] and the id. *)
Lemma delete_url_path (id r : string) :
  all_chars seg_char id = true -> single_dot id = false -> double_dot id = false ->
  all_chars printable r = true ->
  match r with EmptyString => true | String c _ => Ascii.eqb c "?" || Ascii.eqb c "#" end = true ->
  exists u, delete_url (id ++ r) = Ret u /\ u_path u = ["api"; "models"; id].
Proof.
  intros Hid Hsd Hdd Hr Hstop.
  assert (All : forall p, (forall c, seg_char c = true -> p c = true) -> all_chars p id = true).
  { intros p Hp. by apply (all_chars_impl seg_char). }
  unfold delete_url. rewrite url_clean_printable.
  2:{ rewrite !all_chars_app, Hr, (All printable) by (intros c Hc; apply (seg_char_props c Hc)). done. }
  unfold new_URL.
  replace (strip_slashes ("/api/models/" ++ id ++ r)) with (1, ("api/models/" ++ id ++ r)%string)
    by reflexivity.
  cbv iota beta. cbn [Nat.leb].
  destruct (path_query _ _) as [p q] eqn:E. eexists. split; [reflexivity|]. cbn [u_path].
  revert E. unfold path_query.
  assert (Hq : forall x, (x = "" \/ exists x', x = String "?" x') ->
             split_until (fun c => Ascii.eqb c "?") (("/api/models/" ++ id) ++ x) = (("/api/models/" ++ id)%string, x)).
  { intros x Hx. rewrite split_until_app.
    2:{ rewrite all_chars_app, (All (fun x => negb (Ascii.eqb x "?"))) by (intros c Hc; apply (seg_char_props c Hc)). done. }
    destruct Hx as [-> | [x' ->]]; cbn; by rewrite str_app_nil_r. }
  rewrite <- str_app_assoc, split_until_app.
  2:{ rewrite all_chars_app, (All (fun x => negb (Ascii.eqb x "#"))) by (intros c Hc; apply (seg_char_props c Hc)). done. }
  destruct (split_until (fun c => Ascii.eqb c "#") r) as [x y] eqn:Ex.
  rewrite Hq.
  2:{ destruct r as [|c r']; cbn in Ex.
      - injection Ex as <- _. by left.
      - apply orb_true_iff in Hstop as [Hc|Hc]; apply Ascii.eqb_eq in Hc as ->; cbn in Ex.
        + destruct (split_until _ r') as [a b]. injection Ex as <- _. right. by eexists.
        + injection Ex as <- _. by left. }
  cbn [String.append is_slash Ascii.eqb orb]. cbv iota beta.
  intros E. injection E as <- _.
  rewrite str_app_nil_l, split_slashes_none by (apply All; intros c Hc; apply (seg_char_props c Hc)).
  cbn [path_segments]. rewrite Hdd, Hsd, pct_encode_id by (apply All; intros c Hc; apply (seg_char_props c Hc)).
  reflexivity.
Qed.

(** The route reads the id back from [`/api/models/${id}`], and reads
    only its part before a [?] or [#] that follows it. *)
Lemma delete_route_prefix (id r : string) :
  route_safe id = true -> all_chars printable r = true ->
  match r with EmptyString => true | String c _ => Ascii.eqb c "?" || Ascii.eqb c "#" end = true ->
  exists u, delete_url (id ++ r) = Ret u /\ models_id_route (u_path u) = Param id.
Proof.
  intros Hs Hr Hstop. pose proof (route_safe_parts id Hs) as (Hid & _ & Hsd & Hdd).
  assert (Hseg : all_chars seg_char id = true) by (apply (all_chars_impl id_char); [apply id_char_seg | done]).
  destruct (delete_url_path id r Hseg Hsd Hdd Hr Hstop) as (u & Hu & Hp).
  exists u. split; [done|]. rewrite Hp. apply models_id_route_safe; [done | by left].
Qed.

Lemma to_lower_app (a b : string) : to_lower (a ++ b) = (to_lower a ++ to_lower b)%string.
Proof. induction a as [|c a IH]; simpl; [done|]. by rewrite IH. Qed.

Lemma str_rev_app (a b acc : string) : str_rev (a ++ b) acc = str_rev b (str_rev a acc).
Proof. revert acc. induction a as [|c a IH]; intros acc; simpl; [done|]. apply IH. Qed.

(** A string that ends in [%] is none of the strings that do not. *)
Lemma app_pct_neq (s t : string) :
  match str_rev t "" with String c _ => negb (Ascii.eqb c "%") | EmptyString => true end = true ->
  String.eqb (s ++ "%") t = false.
Proof.
  intros Ht. destruct (String.eqb_spec (s ++ "%") t) as [<-|]; [|done]. exfalso.
  rewrite str_rev_app in Ht. done.
Qed.

(** A [%] at the end of a segment is not the start of an escape. *)
Lemma utokens_trailing_pct (a : string) :
  all_chars (fun c => negb (Ascii.eqb c "%")) a = true -> utokens (a ++ "%") = None.
Proof.
  induction a as [|c a IH]; simpl; [done|]. intros [Hc Ha]%andb_true_iff.
  apply negb_true_iff in Hc. by rewrite Hc, IH.
Qed.

(** The route answers 400 for [`/api/models/${id}`] when the id is a safe
    id followed by a [%]: the segment reaches the route and does not
    decode. *)
Lemma delete_route_trailing_pct (a : string) :
  route_safe a = true ->
  exists u, delete_url (a ++ "%") = Ret u /\ models_id_route (u_path u) = BadParam.
Proof.
  intros Hs. pose proof (route_safe_parts a Hs) as (Ha & Hne & _ & _).
  assert (Hpct : all_chars (fun c => negb (Ascii.eqb c "%")) a = true)
    by (apply (all_chars_impl id_char); [apply id_char_pct | done]).
  assert (Hsd : single_dot (a ++ "%") = false).
  { unfold single_dot. rewrite to_lower_app. cbn [to_lower ascii_lower]. by rewrite !app_pct_neq. }
  assert (Hdd : double_dot (a ++ "%") = false).
  { unfold double_dot. rewrite to_lower_app. cbn [to_lower ascii_lower]. by rewrite !app_pct_neq. }
  assert (Hseg : all_chars seg_char (a ++ "%") = true).
  { rewrite all_chars_app. rewrite (all_chars_impl id_char seg_char a id_char_seg Ha). done. }
  destruct (delete_url_path (a ++ "%") "" Hseg Hsd Hdd eq_refl eq_refl) as (u & Hu & Hp).
  rewrite str_app_nil_r in Hu. exists u. split; [done|]. rewrite Hp.
  unfold models_id_route. cbn [to_lower ascii_lower String.eqb andb].
  rewrite app_pct_neq by done. unfold decodeURIComponent. by rewrite utokens_trailing_pct.
Qed.
