(* ===== verification/Models.v ===== *)
(** * The model registry seen from the client

    The client keeps the registry it last fetched in its global
    [modelRegistry] (app.js line 16), which the name heuristic of the
    parameter binder reads ([inferModelChoices], app.js lines 36-42).  It
    fetches it with [loadModels()] (app.js lines 277-282) from
    [GET /api/models] (server.js lines 102-109); the registration form
    (app.js lines 312-322) posts [Object.fromEntries(new FormData(form))]
    to [POST /api/models], resets the form and fetches the registry again;
    the delete button of an entry (app.js lines 78-81) sends
    [DELETE /api/models/:id] and fetches it again.

    The server side is [Registry]: the file is the document [JSON.parse]
    reads from [data/models.json].  [models_file_roundtrip] shows that for
    the documents the server writes this is the document it wrote, which
    is the abstraction [Registry] makes.

    The theorems: a registration the server accepts reaches the name
    heuristic of the binder (spec sections 4.2 and 6); a registration it
    rejects is not reported and the form is cleared; a deletion removes the
    entry from the registry the client fetches back. *)

From S2P Require Import Prelude JsValue Json JsonParse Html Schema Registry Persist Url Route.

Local Open Scope string_scope.

(** ** The server's answer *)

(** [GET /api/models] (server.js lines 102-109) on the file's document:
    [res.json(models)], or 500 when [loadModels()] throws. *)
Definition get_models (file : option value) : http :=
  match file with
  | Some models => send {| status := 200; payload := models |}
  | None => send (error_response 500 "cannot read models.json")
  end.

(** ** The list of models *)

(** An item of [modelList]: the placeholder, or the item of an entry with
    its markup and the entry its delete button was bound to. *)
Inductive model_li :=
  | EmptyNote (text : string)
  | ModelItem (html : string) (button : option value).

(** The template literal of an item (app.js lines 70-77), with its line
    breaks and indentation: every field is inserted with [ToString] and
    nothing is escaped. *)
Definition model_item_html (name type path note id : value) : string :=
  chr 10 ++ "      <div>" ++ chr 10 ++
  "        <strong>" ++ to_str name ++ "</strong>" ++ chr 10 ++
  "        <div class=" ++ dquote ++ "muted" ++ dquote ++ ">" ++ to_str type ++
    (if truthy path then " · " ++ to_str path else "") ++ "</div>" ++ chr 10 ++
  "        " ++
    (if truthy note then "<div class=" ++ dquote ++ "muted" ++ dquote ++ ">" ++ to_str note ++ "</div>"
     else "") ++ chr 10 ++
  "      </div>" ++ chr 10 ++
  "      <button data-id=" ++ dquote ++ to_str id ++ dquote ++ " class=" ++ dquote ++ "danger" ++
    dquote ++ ">删除</button>" ++ chr 10 ++
  "    ".

(** [item.querySelector('button')?.addEventListener('click', ...)]
    (app.js line 78): the listener that deletes [model] is bound to the
    first button of the item, if its markup opens one. *)
Definition delete_button (html : string) (model : value) : option value :=
  if existsb (String.eqb "button") (start_tags html) then Some model else None.

(** The body of the [forEach] callback for one entry (app.js lines
    68-82): reading [model.name] throws when the entry is [null] or
    [undefined]; the item is its markup and the entry its button
    deletes. *)
Definition render_item (model : value) : throws model_li :=
  let! name := get_strict model "name" in
  let html := model_item_html name (get model "type") (get model "path") (get model "note") (get model "id") in
  Ret (ModelItem html (delete_button html model)).

(** The markup of the item of an entry. *)
Definition entry_html (m : value) : string :=
  model_item_html (get m "name") (get m "type") (get m "path") (get m "note") (get m "id").

(** [renderModels()] (app.js lines 58-84) on [modelRegistry]: the items
    on the page and the exception it throws; the items appended before an
    exception stay. *)
Definition renderModels (registry : value) : list model_li * option exn :=
  if strict_eq (get registry "length") (VNum 0) then ([EmptyNote "暂无登记模型"], None)
  else match registry with
       | VArr ms => map_throws render_item ms
       | _ => ([], Some (TypeError "modelRegistry.forEach is not a function"))
       end.

(** ** The client *)

Record model_client := {
  mc_registry : value;                 (* [modelRegistry] *)
  mc_list : list model_li;             (* the items of [modelList] *)
  mc_form : list (string * string);    (* the fields of [modelForm] *)
  mc_log : list (string * string)      (* the messages of [renderOutput] *)
}.

(** [loadModels()] of the client (app.js lines 277-282) once [fetch]
    answered: [modelRegistry = data.models || []] and [renderModels()].
    The status is not looked at; a body that is not JSON, or is [null],
    throws before [modelRegistry] changes; an exception of [renderModels]
    leaves the new registry and the items drawn before it. *)
Definition loadModels (answer : http) (c : model_client) : model_client * option exn :=
  match JSON_parse (h_body answer) with
  | None => (c, Some (SyntaxError "Unexpected token in JSON"))
  | Some data =>
      match get_strict data "models" with
      | Throw e => (c, Some e)
      | Ret models =>
          let registry := js_or models (VArr []) in
          let '(items, err) := renderModels registry in
          ({| mc_registry := registry; mc_list := items; mc_form := mc_form c; mc_log := mc_log c |}, err)
      end
  end.

(** [Object.fromEntries(formData.entries())]: a later field of the same
    name overwrites an earlier one in its place. *)
Definition fromEntries (fields : list (string * string)) : value :=
  VObj (fold_left (fun acc kv => assoc_set kv.1 (VStr kv.2) acc) fields []).

(** [modelForm.reset()]: every field is back to its empty default. *)
Definition form_reset (fields : list (string * string)) : list (string * string) :=
  List.map (fun kv => (kv.1, "")) fields.

(** The submit handler of the registration form (app.js lines 312-322):
    the answer of the [POST] is not looked at; the form is reset and the
    registry fetched again.  The fresh id and the time stamp are inputs.
    The result is the client after the reload and the file after both
    requests. *)
Definition submit_model (c : model_client) (file : option value) (uuid now : string) :
    (model_client * option exn) * option value :=
  let body := default "" (stringify (fromEntries (mc_form c))) in
  let file' :=
    match express_json client_json body with
    | inl _ => file
    | inr payload => (post_models file payload uuid now).2
    end in
  let c' := {| mc_registry := mc_registry c; mc_list := mc_list c; mc_form := form_reset (mc_form c);
              mc_log := mc_log c |} in
  (loadModels (get_models file') c', file').

(** The delete button of the entry [model] (app.js lines 78-81):
    [fetch(`/api/models/${model.id}`, { method: 'DELETE' })] resolves the
    URL against the page ([Route.delete_url]); the server deletes only
    when its route reads an id back from the URL's path
    ([Route.models_id_route]), and answers 404 or 400 otherwise.  The
    answer is not looked at and the registry is fetched again; a URL
    [fetch] refused would reject the listener before that. *)
Definition delete_click (model : value) (c : model_client) (file : option value) :
    (model_client * option exn) * option value :=
  match delete_url (to_str (get model "id")) with
  | Throw e => ((c, Some e), file)
  | Ret u =>
      let file' := match models_id_route (u_path u) with
                   | Param id => (delete_model file id).2
                   | NoRoute | BadParam => file
                   end in
      (loadModels (get_models file') c, file')
  end.

(** ** Documents the file gives back as they were written *)

(** [JSON.parse] of the text of [v] is [v] itself. *)
Definition normal (v : value) : Prop := normalize_opt v = Some v.

Lemma norm_members_normal (qs : list (string * value)) :
  Forall (fun kv => normal kv.2) (norm_members qs).
Proof.
  induction qs as [|[k x] qs IH]; [constructor|]. rewrite norm_members_cons.
  destruct (normalize_opt x) as [y|] eqn:E; [|done]. constructor; [|done].
  by apply (normalize_idem x).
Qed.

Lemma normal_obj (ps : list (string * value)) :
  normal (VObj ps) <-> props_ordered ps /\ Forall (fun kv => normal kv.2) ps.
Proof.
  unfold normal. rewrite normalize_obj. split.
  - intros [= E]. rewrite <- E. split; [|apply norm_members_normal].
    rewrite norm_members_omap. apply props_ordered_omap; [|apply own_order_is_ordered].
    intros kv kv' Ekv. destruct (normalize_opt kv.2); by inv Ekv.
  - intros [Ho Hn]. rewrite own_order_ordered by done. do 2 f_equal. clear Ho.
    induction Hn as [|[k x] qs Hx _ IH]; [done|]. rewrite norm_members_cons.
    unfold normal in Hx. simpl in Hx. by rewrite Hx, IH.
Qed.

Lemma normal_arr (xs : list value) : normal (VArr xs) <-> Forall normal xs.
Proof.
  unfold normal. rewrite normalize_arr. split.
  - intros [= E]. induction xs as [|x xs IH]; [constructor|]. simpl in E. injection E as E1 E2.
    constructor; [|by apply IH]. rewrite <- E1 at 2. destruct (normalize_opt x) eqn:Ex; [by f_equal|].
    by apply normalize_None in Ex as ->.
  - intros Hn. do 2 f_equal. induction Hn as [|x xs Hx _ IH]; [done|].
    simpl. unfold normal in Hx. by rewrite Hx, IH.
Qed.

(** An assignment to a key the object has replaces the one member with
    that key. *)
Lemma assoc_set_existing (k : string) (x : value) (ps : list (string * value)) :
  NoDup (List.map fst ps) -> k ∈ List.map fst ps ->
  assoc_set k x ps = List.map (fun kv => if String.eqb k kv.1 then (kv.1, x) else kv) ps.
Proof.
  induction ps as [|[k' y] ps IH]; simpl; [by intros _ ?%elem_of_nil|].
  intros [Hk' Hnd]%NoDup_cons Hin. destruct (String.eqb_spec k k') as [<-|Hne].
  - f_equal. symmetry. rewrite <- (map_id ps) at 2. apply map_ext_in. intros [k2 y2] Hin2.
    simpl. destruct (String.eqb_spec k k2) as [<-|]; [|done].
    exfalso. apply Hk'. apply list_elem_of_In. by apply (in_map fst _ (k, y2)).
  - f_equal. apply IH; [done|]. by apply elem_of_cons in Hin as [?|?].
Qed.

Lemma props_ordered_map {A B} (F : string * A -> string * B) (l : list (string * A)) :
  (forall kv, (F kv).1 = kv.1) -> props_ordered l -> props_ordered (List.map F l).
Proof.
  intros HF Hl. replace (List.map F l) with (omap (fun kv => Some (F kv)) l).
  - apply props_ordered_omap; [|done]. intros kv kv' [= <-]. apply HF.
  - induction l as [|kv l IH]; simpl; by f_equal.
Qed.

(** Assigning a normal value to a key the object has keeps it normal and
    its keys distinct. *)
Lemma normal_set (ps : list (string * value)) (k : string) (x : value) :
  normal (VObj ps) -> keys_unique (VObj ps) -> k ∈ List.map fst ps -> normal x ->
  normal (set (VObj ps) k x).
Proof.
  intros [Ho Hn]%normal_obj [Hnd _]%keys_unique_obj Hk Hx. simpl.
  rewrite assoc_set_existing by done. apply normal_obj. split.
  - apply props_ordered_map; [|done]. intros kv. by destruct (String.eqb k kv.1).
  - apply Forall_map. eapply Forall_impl; [exact Hn|]. intros kv Hkv.
    by destruct (String.eqb k kv.1).
Qed.

Lemma keys_unique_set (ps : list (string * value)) (k : string) (x : value) :
  keys_unique (VObj ps) -> keys_unique x -> keys_unique (set (VObj ps) k x).
Proof.
  intros [Hnd Hks]%keys_unique_obj Hx. apply keys_unique_obj. split.
  - by apply assoc_set_NoDup.
  - by apply assoc_set_Forall.
Qed.

Lemma get_present (ps : list (string * value)) (k : string) :
  get (VObj ps) k <> VUndef -> k ∈ List.map fst ps.
Proof.
  simpl. induction ps as [|[k' y] ps IH]; simpl; [done|].
  destruct (String.eqb_spec k k') as [<-|_]; intros H; [by left|right; by apply IH].
Qed.

(** The server writes [JSON.stringify(models, null, 2)] and reads the
    file back with [JSON.parse]: a normal document with distinct keys is
    read back as it was written. *)
Lemma models_file_roundtrip (doc : value) :
  normal doc -> keys_unique doc -> exists t, stringify_pretty doc = Some t /\ JSON_parse t = Some doc.
Proof.
  intros Hn Hk. destruct (stringify_pretty doc) as [t|] eqn:Et.
  - exists t. split; [done|]. by rewrite (parse_serialize "  " doc t).
  - apply serialize_None in Et as ->. done.
Qed.

Lemma assoc_get_Forall (P : value -> Prop) (ps : list (string * value)) (k : string) (v : value) :
  Forall (fun kv => P kv.2) ps -> assoc_get k ps = Some v -> P v.
Proof.
  induction 1 as [|[k' y] ps Hy _ IH]; simpl; [done|].
  destruct (String.eqb k k'); [by intros [= <-]|done].
Qed.

(** The members of a normal object with distinct keys are normal and have
    distinct keys. *)
Lemma get_normal (ps : list (string * value)) (k : string) (v : value) :
  normal (VObj ps) -> keys_unique (VObj ps) -> get (VObj ps) k = v -> v <> VUndef ->
  normal v /\ keys_unique v.
Proof.
  intros [_ Hn]%normal_obj [_ Hk]%keys_unique_obj. simpl.
  destruct (assoc_get k ps) as [w|] eqn:E; simpl; [intros <- _|done].
  split; [by apply (assoc_get_Forall normal ps k)|by apply (assoc_get_Forall keys_unique ps k)].
Qed.

Lemma Forall_filter_keep {A} (P : A -> Prop) (Q : A -> Prop) `{!forall x, Decision (Q x)} (l : list A) :
  Forall P l -> Forall P (filter Q l).
Proof.
  rewrite !Forall_forall. intros HP x [_ Hx]%list_elem_of_filter. by apply HP.
Qed.

(** The entry [POST /api/models] builds from string fields. *)
Lemma new_entry_normal (n t p o uuid now : string) :
  normal (new_entry (VStr n) (VStr t) (VStr p) (VStr o) uuid now) /\
  keys_unique (new_entry (VStr n) (VStr t) (VStr p) (VStr o) uuid now).
Proof.
  unfold new_entry, js_or. split; [|apply keys_uniqueb_spec];
    destruct (truthy (VStr p)), (truthy (VStr o)); reflexivity.
Qed.

(** The body the registration form posts. *)
Lemma fromEntries_form (n t p o : string) :
  fromEntries [("name", n); ("type", t); ("path", p); ("note", o)] =
    VObj [("name", VStr n); ("type", VStr t); ("path", VStr p); ("note", VStr o)].
Proof. reflexivity. Qed.

(** The items of a registry whose entries are objects: one per entry, in
    order, each with the markup of its fields. *)
Lemma renderModels_entries (ms : list value) :
  ms <> [] -> Forall (fun m => nullish m = false) ms ->
  renderModels (VArr ms) =
    (List.map (fun m => ModelItem (entry_html m) (delete_button (entry_html m) m)) ms, None).
Proof.
  intros Hne Hnull. unfold renderModels.
  assert (Hl : get (VArr ms) "length" = VNum (Z.of_nat (length ms))) by reflexivity. rewrite Hl.
  destruct ms as [|m0 ms0]; [done|]. cbn [strict_eq length].
  rewrite (proj2 (Z.eqb_neq _ _)) by lia.
  apply map_throws_total. intros m Hm. rewrite Forall_forall in Hnull.
  unfold render_item, get_strict. by rewrite (Hnull m Hm).
Qed.

Lemma renderModels_no_error (ms : list value) :
  Forall (fun m => nullish m = false) ms -> (renderModels (VArr ms)).2 = None.
Proof.
  intros Hnull. destruct ms as [|m ms]; [reflexivity|]. by rewrite renderModels_entries.
Qed.

(** Fetching the registry again reads the document of the file as it is
    and draws its list. *)
Lemma loadModels_reads (ps : list (string * value)) (c : model_client) :
  normal (VObj ps) -> keys_unique (VObj ps) ->
  loadModels (get_models (Some (VObj ps))) c =
    let registry := js_or (get (VObj ps) "models") (VArr []) in
    ({| mc_registry := registry; mc_list := (renderModels registry).1;
        mc_form := mc_form c; mc_log := mc_log c |}, (renderModels registry).2).
Proof.
  intros Hn Hk. destruct (serialize_container "" (VObj ps) I) as (ch & r & E & _).
  unfold loadModels, get_models, send. cbn [h_body payload]. unfold stringify. rewrite E.
  simpl default. rewrite (parse_serialize "" (VObj ps) (String ch r)), Hn by done.
  cbn [get_strict nullish negb]. by destruct (renderModels _).
Qed.

(** A registration with string fields reaches [POST /api/models] as the
    object of its fields. *)
Lemma submit_model_posts (c : model_client) (file : option value) (n t p o uuid now : string) :
  mc_form c = [("name", n); ("type", t); ("path", p); ("note", o)] ->
  (N.of_nat (String.length (default "" (stringify (fromEntries (mc_form c))))) <= body_limit)%N ->
  let payload := VObj [("name", VStr n); ("type", VStr t); ("path", VStr p); ("note", VStr o)] in
  let file' := (post_models file payload uuid now).2 in
  submit_model c file uuid now =
    (loadModels (get_models file')
       {| mc_registry := mc_registry c; mc_list := mc_list c; mc_form := form_reset (mc_form c);
          mc_log := mc_log c |}, file').
Proof.
  intros Hf Hlen payload file'. subst file'. unfold submit_model. rewrite Hf, fromEntries_form in Hlen |- *.
  fold payload in Hlen |- *. destruct (serialize_container "" payload I) as (ch & r & E & _).
  unfold stringify in Hlen |- *. rewrite E in Hlen |- *. simpl default in Hlen |- *.
  rewrite express_json_reads by reflexivity.
  rewrite (express_json_text payload payload) by first [done | apply keys_uniqueb_spec; reflexivity].
  done.
Qed.

(** A registration the server accepts: the entry is appended to the
    file and the client reads back the registry with it, drawn without an
    error. *)
Lemma submit_model_accepted (c : model_client) (ps : list (string * value)) (ms : list value)
    (n t p o uuid now : string) :
  mc_form c = [("name", n); ("type", t); ("path", p); ("note", o)] -> n <> "" -> t <> "" ->
  (N.of_nat (String.length (default "" (stringify (fromEntries (mc_form c))))) <= body_limit)%N ->
  normal (VObj ps) -> keys_unique (VObj ps) -> get (VObj ps) "models" = VArr ms ->
  Forall (fun m => nullish m = false) ms ->
  let entry := new_entry (VStr n) (VStr t) (VStr p) (VStr o) uuid now in
  submit_model c (Some (VObj ps)) uuid now =
    (({| mc_registry := VArr (ms ++ [entry]); mc_list := (renderModels (VArr (ms ++ [entry]))).1;
         mc_form := form_reset (mc_form c); mc_log := mc_log c |}, None),
     Some (set (VObj ps) "models" (VArr (ms ++ [entry])))).
Proof.
  intros Hf Hn Ht Hlen Hnorm Hk Hms Hnull entry.
  rewrite (submit_model_posts c _ n t p o) by done.
  rewrite (post_models_ok ps ms) by (simpl; by rewrite ?(proj2 (String.eqb_neq _ _) Hn),
                                                   ?(proj2 (String.eqb_neq _ _) Ht)).
  destruct (get_normal ps "models" (VArr ms)) as [Hmsn Hmsk]; [done..|].
  destruct (new_entry_normal n t p o uuid now) as [Hen Hek].
  assert (Hall : Forall (fun m => nullish m = false) (ms ++ [entry])).
  { apply Forall_app. by split; [|constructor]. }
  cbn [snd]. rewrite (loadModels_reads (assoc_set "models" (VArr (ms ++ [entry])) ps)); cycle 1.
  - change (normal (set (VObj ps) "models" (VArr (ms ++ [entry])))). apply normal_set; [done|done|apply get_present; by rewrite Hms|].
    apply normal_arr. apply normal_arr in Hmsn. apply Forall_app. by split; [|constructor].
  - change (keys_unique (set (VObj ps) "models" (VArr (ms ++ [entry])))).
    apply keys_unique_set; [done|]. apply keys_unique_arr. apply keys_unique_arr in Hmsk.
    apply Forall_app. by split; [|constructor].
  - cbn [get]. rewrite assoc_get_set_eq. cbn [default]. unfold js_or. cbn [truthy].
    unfold id. cbn [truthy]. rewrite renderModels_no_error by done.
  done.
Qed.

(** The delete button of an entry whose URL the route reads as the id
    [id], when an entry has that id: the file and the client's registry
    keep exactly the entries whose id is not [id]. *)
Lemma delete_click_param (c : model_client) (ps : list (string * value)) (ms : list value)
    (model : value) (u : url) (id : string) :
  normal (VObj ps) -> keys_unique (VObj ps) -> get (VObj ps) "models" = VArr ms ->
  Forall (fun m => nullish m = false) ms -> Exists (fun m => get m "id" = VStr id) ms ->
  delete_url (to_str (get model "id")) = Ret u -> models_id_route (u_path u) = Param id ->
  let ms' := filter (fun m => get m "id" <> VStr id) ms in
  delete_click model c (Some (VObj ps)) =
    (({| mc_registry := VArr ms'; mc_list := (renderModels (VArr ms')).1;
         mc_form := mc_form c; mc_log := mc_log c |}, (renderModels (VArr ms')).2),
     Some (set (VObj ps) "models" (VArr ms'))).
Proof.
  intros Hn Hk Hms Hnull Hex Hu Hr ms'. unfold delete_click. rewrite Hu, Hr.
  rewrite (delete_model_ok ps ms) by done.
  rewrite decide_True by done. cbn [snd].
  destruct (get_normal ps "models" (VArr ms)) as [Hmsn Hmsk]; [done..|].
  apply normal_arr in Hmsn. apply keys_unique_arr in Hmsk.
  rewrite (loadModels_reads (assoc_set "models" (VArr ms') ps)).
  - cbn [get]. by rewrite assoc_get_set_eq.
  - change (normal (set (VObj ps) "models" (VArr ms'))). apply normal_set; [done|done|apply get_present; by rewrite Hms|].
    apply normal_arr. by apply Forall_filter_keep.
  - change (keys_unique (set (VObj ps) "models" (VArr ms'))).
    apply keys_unique_set; [done|]. apply keys_unique_arr. by apply Forall_filter_keep.
Qed.

(** ** Theorems *)

(** C16: a registration the server accepts reaches the binder.  When the
    form holds a non-empty name and type and the registry file holds a
    document the server wrote, submitting the form appends the new entry
    to the file, and after the reload the name heuristic of the binder
    offers the names of the models registered before followed by the new
    name, for every input whose name looks like a model selector and for
    which the schema gives no choices (spec sections 4.2 and 6). *)
Theorem registration_offers_model (c : model_client) (ps : list (string * value)) (ms : list value)
    (n t p o uuid now : string) (oi nodeType : value) (s : string) :
  mc_form c = [("name", n); ("type", t); ("path", p); ("note", o)] -> n <> "" -> t <> "" ->
  (N.of_nat (String.length (default "" (stringify (fromEntries (mc_form c))))) <= body_limit)%N ->
  normal (VObj ps) -> keys_unique (VObj ps) -> get (VObj ps) "models" = VArr ms ->
  Forall (fun m => nullish m = false) ms ->
  model_like s = true -> (forall ch, ~ schema_resolves oi (to_str nodeType) s ch) ->
  let entry := new_entry (VStr n) (VStr t) (VStr p) (VStr o) uuid now in
  exists c', submit_model c (Some (VObj ps)) uuid now =
      ((c', None), Some (set (VObj ps) "models" (VArr (ms ++ [entry])))) /\
    mc_form c' = form_reset (mc_form c) /\
    resolveChoices oi (mc_registry c') nodeType (VStr s) =
      Ret (Some (List.map (fun m => get m "name") ms ++ [VStr n])%list).
Proof.
  intros Hf Hn Ht Hlen Hnorm Hk Hms Hnull Hs Hno entry.
  rewrite (submit_model_accepted c ps ms n t p o) by done.
  eexists. split_and!; [reflexivity|done|]. simpl mc_registry.
  rewrite heuristic_fallback_ok; [by rewrite Hs, map_app|done|].
  apply Forall_app. by split; [|constructor].
Qed.

(** C20: a registration the server rejects is not reported.  When the
    name or the type of the form is empty, [POST /api/models] answers 400
    and writes nothing, but the handler adds no message to the output, the
    form is cleared all the same and the registry fetched back is the one
    stored; the spec requires the validation failure to be reported
    (section 6). *)
Theorem registration_rejection_unreported (c : model_client) (ps : list (string * value))
    (ms : list value) (n t p o uuid now : string) :
  mc_form c = [("name", n); ("type", t); ("path", p); ("note", o)] -> n = "" \/ t = "" ->
  (N.of_nat (String.length (default "" (stringify (fromEntries (mc_form c))))) <= body_limit)%N ->
  normal (VObj ps) -> keys_unique (VObj ps) -> get (VObj ps) "models" = VArr ms ->
  submit_model c (Some (VObj ps)) uuid now =
    (({| mc_registry := VArr ms; mc_list := (renderModels (VArr ms)).1;
         mc_form := form_reset (mc_form c); mc_log := mc_log c |}, (renderModels (VArr ms)).2),
     Some (VObj ps)).
Proof.
  intros Hf Hnt Hlen Hn Hk Hms. rewrite (submit_model_posts c _ n t p o) by done.
  assert (Hrej : (post_models (Some (VObj ps))
                   (VObj [("name", VStr n); ("type", VStr t); ("path", VStr p); ("note", VStr o)])
                   uuid now).2 = Some (VObj ps)).
  { unfold post_models, post_validate. destruct Hnt as [-> | ->]; simpl; [done|].
    by destruct (negb (String.eqb n "")). }
  rewrite Hrej, loadModels_reads by done. by rewrite Hms.
Qed.

(** C21: the delete button of a registered entry removes it from the
    registry the client fetches back, for every id the route reads back
    as it is (the ids [crypto.randomUUID()] makes are such ids): the file
    and the client's registry keep, in their order, exactly the entries
    whose id is not the id of the entry clicked. *)
Theorem deletion_withdraws_model (c : model_client) (ps : list (string * value)) (ms : list value)
    (model : value) (id : string) :
  normal (VObj ps) -> keys_unique (VObj ps) -> get (VObj ps) "models" = VArr ms ->
  Forall (fun m => nullish m = false) ms -> model ∈ ms -> get model "id" = VStr id ->
  route_safe id = true ->
  let ms' := filter (fun m => get m "id" <> VStr id) ms in
  delete_click model c (Some (VObj ps)) =
    (({| mc_registry := VArr ms'; mc_list := (renderModels (VArr ms')).1;
         mc_form := mc_form c; mc_log := mc_log c |}, (renderModels (VArr ms')).2),
     Some (set (VObj ps) "models" (VArr ms'))).
Proof.
  intros Hn Hk Hms Hnull Hin Hid Hs.
  destruct (delete_route_prefix id "" Hs eq_refl eq_refl) as (u & Hu & Hr).
  rewrite str_app_nil_r in Hu.
  apply (delete_click_param c ps ms model u id); try done.
  - apply Exists_exists. by exists model.
  - by rewrite Hid.
Qed.

(** C22: the delete button of an entry whose id holds a [?] deletes
    another entry and not its own: [fetch] sends what follows the [?] as
    the query, so the route reads the id [id] before it.  The file and
    the client's registry lose the entries of id [id] and keep the entry
    clicked. *)
Theorem query_id_deletes_other (c : model_client) (ps : list (string * value)) (ms : list value)
    (model other : value) (id q : string) :
  normal (VObj ps) -> keys_unique (VObj ps) -> get (VObj ps) "models" = VArr ms ->
  Forall (fun m => nullish m = false) ms -> other ∈ ms -> get other "id" = VStr id ->
  route_safe id = true -> all_chars printable q = true -> get model "id" = VStr (id ++ "?" ++ q) ->
  let ms' := filter (fun m => get m "id" <> VStr id) ms in
  delete_click model c (Some (VObj ps)) =
    (({| mc_registry := VArr ms'; mc_list := (renderModels (VArr ms')).1;
         mc_form := mc_form c; mc_log := mc_log c |}, (renderModels (VArr ms')).2),
     Some (set (VObj ps) "models" (VArr ms'))) /\
  (model ∈ ms -> model ∈ ms').
Proof.
  intros Hn Hk Hms Hnull Hin Hid Hs Hq Hmid ms'. split.
  - destruct (delete_route_prefix id ("?" ++ q) Hs Hq eq_refl) as (u & Hu & Hr).
    apply (delete_click_param c ps ms model u id); try done.
    + apply Exists_exists. by exists other.
    + by rewrite Hmid.
  - intros Hm. apply list_elem_of_filter. split; [|done]. rewrite Hmid. intros [= E].
    apply (f_equal String.length) in E. rewrite !str_length_app in E. simpl String.length in E. lia.
Qed.

(** C23: the delete button of an entry whose id ends in a [%] never
    deletes it: the route reads the segment and [decodeURIComponent]
    throws, Express answers 400, the file is kept as it was and the
    client fetches back the same registry, the entry still in it. *)
Theorem trailing_pct_id_undeletable (c : model_client) (file : option value) (model : value) (a : string) :
  route_safe a = true -> get model "id" = VStr (a ++ "%") ->
  delete_click model c file = (loadModels (get_models file) c, file).
Proof.
  intros Hs Hid. destruct (delete_route_trailing_pct a Hs) as (u & Hu & Hr).
  unfold delete_click. rewrite Hid. cbn [to_str]. by rewrite Hu, Hr.
Qed.

(** A registry file the server cannot read is shown as an empty
    registry and nothing is reported: [GET /api/models] answers 500 with
    an error object, [data.models || []] turns it into the empty list, and
    every model-like input without schema choices is then offered no
    choice at all. *)
Theorem unreadable_registry_empty (c : model_client) (oi nodeType : value) (s : string) :
  (forall ch, ~ schema_resolves oi (to_str nodeType) s ch) ->
  exists c', loadModels (get_models None) c = (c', None) /\ mc_log c' = mc_log c /\
    mc_list c' = [EmptyNote "暂无登记模型"] /\
    resolveChoices oi (mc_registry c') nodeType (VStr s) =
      Ret (if model_like s then Some [] else None).
Proof.
  intros Hno. eexists. split; [reflexivity|]. split_and!; [done|done|].
  by apply heuristic_fallback_ok.
Qed.

(** The name of an entry is inserted right after the [<strong>] of its
    item. *)
Lemma model_item_html_name (name type path note id : value) :
  exists post, model_item_html name type path note id =
    (chr 10 ++ "      <div>" ++ chr 10 ++ "        <strong>") ++ to_str name ++ post.
Proof. eexists. unfold model_item_html. rewrite !str_app_assoc. reflexivity. Qed.

(** C18: the names of the registry are markup.  Whatever string a
    registration stored as the name of an entry ([POST /api/models] takes
    it as sent, see [registration_offers_model]), every client that fetches the registry draws an
    item whose [innerHTML] opens the start tags of the template's [div]
    and [strong] followed by the start tags of the name itself: a name
    such as [<img src=x onerror=...>] creates an element with an event
    handler in the page of every visitor.  The only condition is that the
    name leaves the tokenizer in the data state. *)
Theorem registry_names_become_markup (c : model_client) (ps : list (string * value)) (ms : list value)
    (m : value) (n : string) :
  normal (VObj ps) -> keys_unique (VObj ps) -> get (VObj ps) "models" = VArr ms ->
  Forall (fun m => nullish m = false) ms -> m ∈ ms -> get m "name" = VStr n -> data_closed n = true ->
  exists html rest, ModelItem html (delete_button html m) ∈ mc_list (loadModels (get_models (Some (VObj ps))) c).1 /\
    start_tags html = (["div"; "strong"] ++ start_tags n ++ rest)%list.
Proof.
  intros Hn Hk Hms Hnull Hin Hname Hclosed.
  rewrite loadModels_reads by done. cbn [mc_list fst]. rewrite Hms. unfold js_or, id. cbn [truthy].
  rewrite renderModels_entries by (done || (intros ->; by apply not_elem_of_nil in Hin)). cbn [fst].
  destruct (model_item_html_name (get m "name") (get m "type") (get m "path") (get m "note") (get m "id"))
    as [post Hpost].
  exists (entry_html m), (tk_run TData post).2. split.
  - apply list_elem_of_In. apply (in_map (fun m => ModelItem (entry_html m) (delete_button (entry_html m) m))).
    by apply list_elem_of_In.
  - unfold entry_html. rewrite Hpost, Hname. cbn [to_str]. by apply start_tags_insert.
Qed.

(** C19: a name can make its entry undeletable from the page.  The item's
    delete listener is bound to the first button its markup opens
    ([querySelector('button')?.]); a name that opens [plaintext] after a
    text closed in the data state (and no button of its own) turns the
    rest of the item, the delete button included, into text: the item
    has no delete listener, and no item of the list fetched back deletes
    the entry.  The RCDATA and RAWTEXT elements ([textarea], [title],
    [style], ...) and an unclosed comment do the same to the rest of the
    item. *)
Theorem plaintext_name_undeletable (c : model_client) (ps : list (string * value)) (ms : list value)
    (m : value) (a b : string) :
  normal (VObj ps) -> keys_unique (VObj ps) -> get (VObj ps) "models" = VArr ms ->
  Forall (fun m => nullish m = false) ms -> m ∈ ms ->
  get m "name" = VStr (a ++ "<plaintext>" ++ b) -> data_closed a = true -> "button" ∉ start_tags a ->
  start_tags (entry_html m) = (["div"; "strong"] ++ start_tags a ++ ["plaintext"])%list /\
  ModelItem (entry_html m) None ∈ mc_list (loadModels (get_models (Some (VObj ps))) c).1 /\
  forall html, ModelItem html (Some m) ∉ mc_list (loadModels (get_models (Some (VObj ps))) c).1.
Proof.
  intros Hn Hk Hms Hnull Hin Hname Ha Hbtn.
  assert (Htags : start_tags (entry_html m) = (["div"; "strong"] ++ start_tags a ++ ["plaintext"])%list).
  { unfold entry_html.
    destruct (model_item_html_name (get m "name") (get m "type") (get m "path") (get m "note") (get m "id"))
      as [post Hpost].
    rewrite Hpost, Hname. cbn [to_str]. by apply start_tags_plaintext. }
  assert (Hnone : delete_button (entry_html m) m = None).
  { unfold delete_button. rewrite Htags. destruct (existsb _ _) eqn:E; [|done]. exfalso. apply Hbtn.
    apply existsb_exists in E as (x & Hx & Ex). apply String.eqb_eq in Ex as <-.
    apply list_elem_of_In. cbn in Hx. destruct Hx as [Hx|[Hx|Hx]]; try discriminate.
    apply in_app_or in Hx as [Hx|[Hx|[]]]; [done|discriminate]. }
  split; [done|].
  rewrite loadModels_reads by done. cbn [mc_list fst]. rewrite Hms. unfold js_or, id. cbn [truthy].
  rewrite renderModels_entries by (done || (intros ->; by apply not_elem_of_nil in Hin)). cbn [fst].
  split.
  - rewrite <- Hnone. apply list_elem_of_In.
    apply (in_map (fun m => ModelItem (entry_html m) (delete_button (entry_html m) m))).
    by apply list_elem_of_In.
  - intros html Hl. apply list_elem_of_In, in_map_iff in Hl as (m' & Heq & _).
    injection Heq as _ Hb. unfold delete_button in Hb.
    destruct (existsb (String.eqb "button") (start_tags (entry_html m'))) eqn:E; [|discriminate].
    injection Hb as ->. unfold delete_button in Hnone. by rewrite E in Hnone.
Qed.

(** ** Witnesses *)

Definition ex_sdxl_entry : value :=
  VObj [("id", VStr "a"); ("name", VStr "sdxl"); ("type", VStr "checkpoint")].

Definition ex_models_props : list (string * value) := [("models", VArr [ex_sdxl_entry])].

Definition ex_models_doc : value := VObj ex_models_props.

Definition ex_model_client (name : string) : model_client :=
  {| mc_registry := VArr []; mc_list := [];
     mc_form := [("name", name); ("type", "vae"); ("path", ""); ("note", "")]; mc_log := [] |}.

Lemma ex_models_doc_ok : normal ex_models_doc /\ keys_unique ex_models_doc.
Proof. split; [reflexivity|apply keys_uniqueb_spec; reflexivity]. Qed.

Lemma no_schema (t n : string) (c : list value) : ~ schema_resolves VNull t n c.
Proof. intros [d [Hd _]]. destruct Hd; discriminate. Qed.

(** Registering [vae-ft] beside [sdxl] offers both names to the input
    [vae_name] of a node type the schema does not know. *)
Lemma registration_offers_model_witness :
  exists c', (submit_model (ex_model_client "vae-ft") (Some ex_models_doc) "b" "t").1 = (c', None) /\
    resolveChoices VNull (mc_registry c') (VStr "VAELoader") (VStr "vae_name") =
      Ret (Some [VStr "sdxl"; VStr "vae-ft"]).
Proof.
  destruct ex_models_doc_ok as [Hn Hk].
  destruct (registration_offers_model (ex_model_client "vae-ft") ex_models_props [ex_sdxl_entry]
              "vae-ft" "vae" "" "" "b" "t" VNull (VStr "VAELoader") "vae_name")
    as (c' & E & _ & R);
    first [exists c'; split; [unfold ex_models_doc; rewrite E; reflexivity|exact R] | done
          | apply N.leb_le; vm_compute; reflexivity | intros ch; apply no_schema | solve [apply Forall_singleton; reflexivity]].
Defined.

(** A form with an empty name leaves the file and the registry as they
    were and logs nothing. *)
Lemma registration_rejection_unreported_witness :
  submit_model (ex_model_client "") (Some ex_models_doc) "b" "t" =
    (({| mc_registry := VArr [ex_sdxl_entry]; mc_list := (renderModels (VArr [ex_sdxl_entry])).1;
         mc_form := [("name", ""); ("type", ""); ("path", ""); ("note", "")]; mc_log := [] |}, None),
     Some ex_models_doc).
Proof.
  destruct ex_models_doc_ok as [Hn Hk].
  rewrite (registration_rejection_unreported (ex_model_client "") ex_models_props [ex_sdxl_entry] "" "vae" "" "");
    first [done | by left | apply N.leb_le; vm_compute; reflexivity].
Defined.

(** Deleting the entry of the generated id
    [0b6e2f0c-7a1d-4c55-9f3e-2d8a6b1c4e7f] leaves an empty registry. *)
Definition ex_uuid : string := "0b6e2f0c-7a1d-4c55-9f3e-2d8a6b1c4e7f".

Definition ex_uuid_entry : value := VObj [("id", VStr ex_uuid); ("name", VStr "sdxl")].

Lemma deletion_withdraws_model_witness :
  delete_click ex_uuid_entry (ex_model_client "") (Some (VObj [("models", VArr [ex_uuid_entry])])) =
    (({| mc_registry := VArr []; mc_list := [EmptyNote "暂无登记模型"];
         mc_form := mc_form (ex_model_client ""); mc_log := [] |}, None),
     Some (VObj [("models", VArr [])])).
Proof.
  rewrite (deletion_withdraws_model _ [("models", VArr [ex_uuid_entry])] [ex_uuid_entry] ex_uuid_entry ex_uuid);
    first [reflexivity | apply keys_uniqueb_spec; reflexivity | by left | solve [apply Forall_singleton; reflexivity]].
Defined.

(** The registry [a], [a?x]: the button of [a?x] deletes [a]. *)
Definition ex_query_entry : value := VObj [("id", VStr "a?x")].

Definition ex_plain_a : value := VObj [("id", VStr "a")].

Lemma query_id_deletes_other_witness :
  delete_click ex_query_entry (ex_model_client "")
    (Some (VObj [("models", VArr [ex_plain_a; ex_query_entry])])) =
    (({| mc_registry := VArr [ex_query_entry]; mc_list := (renderModels (VArr [ex_query_entry])).1;
         mc_form := mc_form (ex_model_client ""); mc_log := [] |}, (renderModels (VArr [ex_query_entry])).2),
     Some (VObj [("models", VArr [ex_query_entry])])) /\
  (ex_query_entry ∈ [ex_plain_a; ex_query_entry] -> ex_query_entry ∈ [ex_query_entry]).
Proof.
  apply (query_id_deletes_other (ex_model_client "") [("models", VArr [ex_plain_a; ex_query_entry])]
           [ex_plain_a; ex_query_entry] ex_query_entry ex_plain_a "a" "x");
    first [reflexivity | apply keys_uniqueb_spec; reflexivity | by left |
           solve [repeat constructor]].
Defined.


(** With the file unreadable, [ckpt_name] is offered no model. *)
Lemma unreadable_registry_empty_witness :
  exists c', loadModels (get_models None) (ex_model_client "") = (c', None) /\
    resolveChoices VNull (mc_registry c') (VStr "CheckpointLoaderSimple") (VStr "ckpt_name") =
      Ret (Some []).
Proof.
  destruct (unreadable_registry_empty (ex_model_client "") VNull (VStr "CheckpointLoaderSimple") "ckpt_name")
    as (c' & E & _ & _ & R); [intros ch; apply no_schema|].
  exists c'. split; [exact E|exact R].
Defined.

(** A name with an image whose error handler runs script. *)
Definition ex_xss_name : string := "<img src=x onerror=alert(1)>".

Definition ex_xss_entry : value :=
  VObj [("id", VStr "a"); ("name", VStr ex_xss_name); ("type", VStr "lora")].

Definition ex_xss_props : list (string * value) := [("models", VArr [ex_xss_entry])].

(** Its item opens an [img] element after the template's [div] and
    [strong]. *)
Lemma registry_names_become_markup_witness :
  start_tags ex_xss_name = ["img"] /\
  exists html rest,
    ModelItem html (delete_button html ex_xss_entry) ∈ mc_list (loadModels (get_models (Some (VObj ex_xss_props))) (ex_model_client "")).1 /\
    start_tags html = (["div"; "strong"] ++ start_tags ex_xss_name ++ rest)%list.
Proof.
  split; [reflexivity|].
  apply (registry_names_become_markup _ ex_xss_props [ex_xss_entry] ex_xss_entry ex_xss_name);
    first [reflexivity | apply keys_uniqueb_spec; reflexivity | apply Forall_singleton; reflexivity | by left].
Defined.

(** An entry named [<plaintext>]: its item shows the template's [div] and
    [strong] and then only text, and has no delete listener. *)
Definition ex_plain_entry : value :=
  VObj [("name", VStr "<plaintext>"); ("type", VStr "lora"); ("id", VStr "p1")].

Definition ex_plain_props : list (string * value) := [("models", VArr [ex_sdxl_entry; ex_plain_entry])].

Lemma plaintext_name_undeletable_witness :
  start_tags (entry_html ex_plain_entry) = ["div"; "strong"; "plaintext"] /\
  ModelItem (entry_html ex_plain_entry) None
    ∈ mc_list (loadModels (get_models (Some (VObj ex_plain_props))) (ex_model_client "")).1 /\
  ~ exists html, ModelItem html (Some ex_plain_entry)
      ∈ mc_list (loadModels (get_models (Some (VObj ex_plain_props))) (ex_model_client "")).1.
Proof.
  destruct (plaintext_name_undeletable (ex_model_client "") ex_plain_props [ex_sdxl_entry; ex_plain_entry]
              ex_plain_entry "" "")
    as (H1 & H2 & H3);
    first [reflexivity | apply keys_uniqueb_spec; reflexivity | by right; left
          | solve [repeat constructor] | intros Hb; by apply not_elem_of_nil in Hb | idtac].
  split_and!; [exact H1|exact H2|]. intros [html Hh]. exact (H3 html Hh).
Defined.

(** The same for a name that opens [textarea] or an unclosed comment. *)
Example rcdata_and_comment_names_hide_delete :
  let e1 := VObj [("name", VStr "<textarea>"); ("type", VStr "vae"); ("id", VStr "t1")] in
  let e2 := VObj [("name", VStr "x<!--"); ("type", VStr "vae"); ("id", VStr "t2")] in
  delete_button (entry_html e1) e1 = None /\ delete_button (entry_html e2) e2 = None.
Proof. split; reflexivity. Qed.

(** The registry [50%]: its button leaves it in the file and in the list. *)
Definition ex_pct_entry : value := VObj [("id", VStr "50%"); ("name", VStr "lora")].

Lemma trailing_pct_id_undeletable_witness :
  delete_click ex_pct_entry (ex_model_client "") (Some (VObj [("models", VArr [ex_pct_entry])])) =
    (loadModels (get_models (Some (VObj [("models", VArr [ex_pct_entry])]))) (ex_model_client ""),
     Some (VObj [("models", VArr [ex_pct_entry])])).
Proof. apply (trailing_pct_id_undeletable _ _ ex_pct_entry "50"); reflexivity. Defined.
