(* ===== verification/History.v ===== *)
(** * Submission and output history of the client

    After a run is submitted ([runWorkflowButton] listener, app.js lines
    334-357) the client puts the returned [prompt_id] at the front of
    [promptHistory] and schedules one delayed [loadHistory] (lines
    284-301), which fetches [/history/:id] and turns the outputs into image
    links with [collectImagesFromHistory] (lines 231-251).  The refresh
    button reloads the most recent entry (lines 304-310).

    The state is the part of the session these handlers touch: the history
    list, the output log ([renderOutput] prepends) and the delayed
    [loadHistory] calls not yet fired.  Network answers are inputs of the
    handlers.  [hist_step] is the step relation of these events in any
    order. *)

From S2P Require Import Prelude JsValue Json Url.

(** ** Image links *)

Record image := {
  img_url : string;
  img_label : string
}.

(** The [application/x-www-form-urlencoded] byte serialiser of
    [URLSearchParams]: a space is [+], the unreserved bytes stay, every
    other byte is percent-encoded. *)
Definition form_byte (c : ascii) : string :=
  let n := nat_of_ascii c in
  if Nat.eqb n 32 then "+"
  else if (Nat.eqb n 42) || (Nat.eqb n 45) || (Nat.eqb n 46) || (Nat.eqb n 95)
          || ((48 <=? n) && (n <=? 57)) || ((65 <=? n) && (n <=? 90))
          || ((97 <=? n) && (n <=? 122))
  then String c EmptyString
  else ("%" ++ hex_upper (Nat.div n 16) ++ hex_upper (Nat.modulo n 16))%string.

Fixpoint form_encode (s : string) : string :=
  match s with
  | EmptyString => EmptyString
  | String c s' => (form_byte c ++ form_encode s')%string
  end.

(** [new URLSearchParams({ filename, type, subfolder }).toString()] *)
Definition view_query (filename type subfolder : value) : string :=
  ("filename=" ++ form_encode (to_str filename) ++
   "&type=" ++ form_encode (to_str type) ++
   "&subfolder=" ++ form_encode (to_str subfolder))%string.

(** The link of one output image (app.js lines 239-247). *)
Definition image_link (nodeId : string) (im : value) : throws image :=
  let! filename := get_strict im "filename" in
  Ret {| img_url := ("/api/comfyui/view?" ++
                     view_query filename (get im "type") (js_or (get im "subfolder") (VStr "")))%string;
         img_label := (to_str filename ++ " · 节点 " ++ nodeId)%string |}.

(** [Object.entries(v)] *)
Definition entries (v : value) : list (string * value) :=
  match v with
  | VObj ps => own_order ps
  | VArr xs => map (fun ix => (z_to_str (Z.of_nat ix.1), ix.2)) (zip (seq 0 (length xs)) xs)
  | _ => []
  end.

(** The images of one output: [(output.images || []).forEach(...)]. *)
Definition output_images (nodeId : string) (output : value) : throws (list image) :=
  let! ims := get_strict output "images" in
  match js_or ims (VArr []) with
  | VArr xs => all_throws (image_link nodeId) xs
  | _ => Throw (TypeError "output.images.forEach is not a function")
  end.

Fixpoint concat_throws {A B} (f : A -> throws (list B)) (l : list A) : throws (list B) :=
  match l with
  | [] => Ret []
  | x :: l' => let! a := f x in let! b := concat_throws f l' in Ret (a ++ b)
  end.

(** [collectImagesFromHistory(promptId, historyData)] (app.js lines
    231-251). *)
Definition collectImagesFromHistory (promptId historyData : value) : throws (list image) :=
  let historyEntry := get_opt historyData (to_str promptId) in
  let outputs := get_opt historyEntry "outputs" in
  if negb (truthy outputs) then Ret [] else
  concat_throws (fun kv => output_images kv.1 kv.2) (entries outputs).

(** ** The history state *)

Record hentry := {
  h_id : value;
  h_images : list image
}.

(** ** The gallery *)

(** What [renderGallery] leaves on the page: the markup of [historyList]
    and its buttons, each with the entry its click listener renders, and
    the markup of [galleryGrid] and its cards, each showing an image
    ([img.src] its url, [img.alt] and the caption its label). *)
Record gallery := {
  g_history_html : string;
  g_buttons : list (string * hentry);
  g_grid_html : string;
  g_cards : list image
}.

Definition muted_note (text : string) : string :=
  ("<p class=" ++ dquote ++ "muted" ++ dquote ++ ">" ++ text ++ "</p>")%string.

(** [renderGallery(entries)] (app.js lines 186-229).  A button's listener
    holds the entry object itself; the only change of an entry,
    [existing.images = images] in [loadHistory], is followed at once by a
    new [renderGallery(promptHistory)], so a button is never clicked after
    its entry changed and holding the entry's value is the same. *)
Definition renderGallery (es : list hentry) : gallery :=
  match es with
  | [] => {| g_history_html := muted_note "暂无历史记录"; g_buttons := [];
             g_grid_html := muted_note "暂无图片"; g_cards := [] |}
  | _ =>
      let images := flat_map h_images es in
      {| g_history_html := "";
         g_buttons := map (fun e => (("任务 " ++ to_str (h_id e))%string, e)) es;
         g_grid_html := match images with [] => muted_note "此任务暂无输出图" | _ => "" end;
         g_cards := images |}
  end.

Record hstate := {
  hs_history : list hentry;
  hs_log : list (string * string);
  hs_timers : list value;
  hs_gallery : gallery
}.

(** [renderOutput(content, type)]: the newest message goes first. *)
Definition log (msg kind : string) (s : hstate) : hstate :=
  {| hs_history := hs_history s; hs_log := (msg, kind) :: hs_log s; hs_timers := hs_timers s;
     hs_gallery := hs_gallery s |}.

(** The answer of a [fetch] followed by [response.json()]: the network
    failed, or an HTTP answer with its [ok] flag and its JSON body ([None]
    when the body is not JSON). *)
Inductive answer : Type :=
  | NetworkError (msg : string)
  | Http (ok : bool) (body : option value).

Fixpoint find_entry (id : value) (hs : list hentry) : option nat :=
  match hs with
  | [] => None
  | h :: hs' => if strict_eq (h_id h) id then Some 0 else S <$> find_entry id hs'
  end.

(** [loadHistory(promptId)] once its fetch has completed with [a]
    (app.js lines 284-301). *)
Definition loadHistory (promptId : value) (a : answer) (s : hstate) : hstate :=
  if negb (truthy promptId) then s else
  match a with
  | NetworkError m => log m "warning" s
  | Http false _ => log "无法获取历史记录" "warning" s
  | Http true None => log "Unexpected token in JSON" "warning" s
  | Http true (Some data) =>
      match collectImagesFromHistory promptId data with
      | Throw e => log (exn_message e) "warning" s
      | Ret images =>
          match find_entry promptId (hs_history s) with
          | Some i =>
              let hs := alter (fun h => {| h_id := h_id h; h_images := images |}) i (hs_history s) in
              {| hs_history := hs; hs_log := hs_log s; hs_timers := hs_timers s;
                 hs_gallery := renderGallery hs |}
          | None =>
              let hs := {| h_id := promptId; h_images := images |} :: hs_history s in
              {| hs_history := hs; hs_log := hs_log s; hs_timers := hs_timers s;
                 hs_gallery := renderGallery hs |}
          end
      end
  end.

(** [new Error(data.error || '运行失败')]: the message is [ToString] of the
    value. *)
Definition run_error_message (data : value) : string :=
  to_str (js_or (get data "error") (VStr "运行失败")).

(** The [runWorkflowButton] listener once [/api/run] answered [a]
    (app.js lines 334-357); a truthy [prompt_id] goes to the front of the
    history and gets one delayed [loadHistory]. *)
Definition submit (workflow : value) (a : answer) (s : hstate) : hstate :=
  if negb (truthy workflow) then s else
  let s := log "正在提交工作流…" "info" s in
  match a with
  | NetworkError m => log m "error" s
  | Http _ None => log "Unexpected token in JSON" "error" s
  | Http ok (Some data) =>
      if nullish data then log ("Cannot read properties of " ++ to_str data)%string "error" s else
      if negb ok then log (run_error_message data) "error" s else
      let pid := get data "prompt_id" in
      let s := log ("已提交任务: " ++ to_str (js_or pid (VStr "unknown")))%string "success" s in
      if truthy pid then
        let hs := {| h_id := pid; h_images := [] |} :: hs_history s in
        {| hs_history := hs; hs_log := hs_log s; hs_timers := pid :: hs_timers s;
           hs_gallery := renderGallery hs |}
      else s
  end.

(** The refresh button (app.js lines 304-310): with an empty history a
    warning, otherwise [loadHistory] of the most recent entry. *)
Definition refresh (a : answer) (s : hstate) : hstate :=
  match hs_history s with
  | [] => log "暂无历史任务，请先运行工作流" "warning" s
  | h :: _ => loadHistory (h_id h) a s
  end.

(** A click on the [k]-th button of the history list:
    [renderGallery([entry])] (app.js lines 200-202). *)
Definition gallery_click (k : nat) (s : hstate) : hstate :=
  match g_buttons (hs_gallery s) !! k with
  | Some (_, e) => {| hs_history := hs_history s; hs_log := hs_log s; hs_timers := hs_timers s;
                      hs_gallery := renderGallery [e] |}
  | None => s
  end.

(** The [i]-th pending [setTimeout(() => loadHistory(data.prompt_id), 2000)]
    fires and its fetch completes with [a]: it is no longer pending, and
    [loadHistory] runs on the id it was scheduled with. *)
Definition fire_timer (i : nat) (a : answer) (s : hstate) : hstate :=
  match hs_timers s !! i with
  | Some pid => loadHistory pid a {| hs_history := hs_history s; hs_log := hs_log s;
                                     hs_timers := delete i (hs_timers s); hs_gallery := hs_gallery s |}
  | None => s
  end.

(** The events of the history, in any order: a submission answered, a
    delayed [loadHistory] fired and answered, a refresh answered, a click
    on a button of the history list. *)
Inductive hist_step : hstate -> hstate -> Prop :=
  | hs_submit s wf a : hist_step s (submit wf a s)
  | hs_timer s i a : is_Some (hs_timers s !! i) -> hist_step s (fire_timer i a s)
  | hs_refresh s a : hist_step s (refresh a s)
  | hs_click s k : hist_step s (gallery_click k s).

(** ** What the theorems speak of *)

(** The ids of the history entries and of the pending delayed loads are truthy. *)
Definition ids_truthy (s : hstate) : Prop :=
  Forall (fun h => truthy (h_id h) = true) (hs_history s) /\
  Forall (fun v => truthy v = true) (hs_timers s).

(** The link built for a non-nullish image object. *)
Definition link_of (nodeId : string) (im : value) : image :=
  {| img_url := ("/api/comfyui/view?" ++
                 view_query (get im "filename") (get im "type")
                   (js_or (get im "subfolder") (VStr "")))%string;
     img_label := (to_str (get im "filename") ++ " · 节点 " ++ nodeId)%string |}.

(** An output the client can read: an object whose [images] is absent or
    an array of objects. *)
Definition output_ok (o : value) : Prop :=
  nullish o = false /\
  exists ims, js_or (get o "images") (VArr []) = VArr ims /\ Forall (fun im => nullish im = false) ims.

Definition images_of (o : value) : list value :=
  match js_or (get o "images") (VArr []) with VArr ims => ims | _ => [] end.

(** Example inputs. *)

Definition ex_state : hstate :=
  {| hs_history := []; hs_log := []; hs_timers := []; hs_gallery := renderGallery [] |}.

Definition ex_prompt : value := VObj [("3", VObj [("class_type", VStr "KSampler")])].

Definition ex_accepted : value := VObj [("prompt_id", VStr "abc")].

(** The body ComfyUI sends when the prompt fails validation. *)
Definition ex_rejected : value :=
  VObj [("error", VObj [("type", VStr "prompt_outputs_failed_validation");
                        ("message", VStr "Prompt outputs failed validation")])].

Definition ex_history : value :=
  VObj [("abc", VObj [("outputs", VObj [
    ("9", VObj [("images", VArr [VObj [("filename", VStr "ComfyUI_00001_.png");
                                       ("subfolder", VStr "");
                                       ("type", VStr "output")]])])])])].

(** The gallery shows the whole history, or the one entry of it whose
    button was clicked last, with the entries as they are now. *)
Definition gallery_current (s : hstate) : Prop :=
  hs_gallery s = renderGallery (hs_history s) \/
  exists e, e ∈ hs_history s /\ hs_gallery s = renderGallery [e].

(** ** Lemmas *)

Lemma renderGallery_buttons (es : list hentry) (k : nat) (label : string) (e : hentry) :
  g_buttons (renderGallery es) !! k = Some (label, e) -> e ∈ es.
Proof.
  destruct es as [|e0 es0]; [done|]. cbn [renderGallery g_buttons].
  intros Hk%list_elem_of_lookup_2. apply list_elem_of_In, in_map_iff in Hk as (e' & [= _ <-] & Hin).
  by apply list_elem_of_In.
Qed.

Lemma log_current (msg kind : string) (s : hstate) :
  gallery_current s -> gallery_current (log msg kind s).
Proof. done. Qed.

Lemma loadHistory_current (pid : value) (a : answer) (s : hstate) :
  gallery_current s -> gallery_current (loadHistory pid a s).
Proof.
  intros Hs. unfold loadHistory. destruct (negb (truthy pid)); [done|].
  destruct a as [m|[] [data|]]; try by apply log_current.
  destruct (collectImagesFromHistory pid data); [|by apply log_current].
  destruct (find_entry pid (hs_history s)); by left.
Qed.

Lemma submit_current (wf : value) (a : answer) (s : hstate) :
  gallery_current s -> gallery_current (submit wf a s).
Proof.
  intros Hs. unfold submit. destruct (negb (truthy wf)); [done|].
  apply (log_current "正在提交工作流…" "info") in Hs. revert Hs. generalize (log "正在提交工作流…" "info" s).
  intros s1 Hs1. destruct a as [m|ok [data|]]; try by apply log_current.
  destruct (nullish data); [by apply log_current|]. destruct (negb ok); [by apply log_current|].
  destruct (truthy (get data "prompt_id")); [by left|by apply log_current].
Qed.

Lemma click_current (k : nat) (s : hstate) :
  gallery_current s -> gallery_current (gallery_click k s).
Proof.
  intros Hs. unfold gallery_click.
  destruct (g_buttons (hs_gallery s) !! k) as [[label e]|] eqn:Hk; [|done].
  right. exists e. split; [|done]. cbn [hs_history].
  destruct Hs as [Hg|(e' & He' & Hg)]; rewrite Hg in Hk; apply renderGallery_buttons in Hk; [done|].
  by apply list_elem_of_singleton in Hk as ->.
Qed.


Lemma loadHistory_ids (pid : value) (a : answer) (s : hstate) :
  ids_truthy s -> ids_truthy (loadHistory pid a s).
Proof.
  intros [Hh Ht]. unfold loadHistory. destruct (truthy pid) eqn:Hp; [|done]. simpl.
  destruct a as [m|[|] [data|]]; try done.
  destruct (collectImagesFromHistory pid data) as [images|e]; [|done].
  destruct (find_entry pid (hs_history s)) as [i|]; split; simpl; try done.
  - apply Forall_alter; [done|]. by intros h Hh'.
  - by constructor.
Qed.

Lemma submit_ids (wf : value) (a : answer) (s : hstate) :
  ids_truthy s -> ids_truthy (submit wf a s).
Proof.
  intros [Hh Ht]. unfold submit. destruct (truthy wf); [|done]. simpl.
  destruct a as [m|ok [data|]]; try done.
  destruct (nullish data); [done|]. destruct ok; [|done]. simpl.
  destruct (truthy (get data "prompt_id")) eqn:Hp; [|done].
  split; simpl; by constructor.
Qed.

Lemma concat_throws_total {A B} (f : A -> throws (list B)) (g : A -> list B) (l : list A) :
  (forall x, x ∈ l -> f x = Ret (g x)) -> concat_throws f l = Ret (flat_map g l).
Proof.
  induction l as [|x l IH]; intros Hf; simpl; [done|].
  rewrite Hf by by left. simpl. rewrite IH; [done|]. intros y Hy. apply Hf. by right.
Qed.

Lemma output_images_ok (nodeId : string) (o : value) :
  output_ok o -> output_images nodeId o = Ret (map (link_of nodeId) (images_of o)).
Proof.
  intros [Ho [ims [Hims Hok]]]. unfold output_images, get_strict, images_of.
  rewrite Ho. simpl. rewrite Hims. apply all_throws_total.
  intros im Him. rewrite Forall_forall in Hok. unfold image_link, get_strict.
  by rewrite (Hok im Him).
Qed.

(** ** Theorems *)

(** C24: every id in the history and every pending delayed load is truthy,
    in every state reachable by submissions, delayed loads and refreshes
    in any order (induction on the steps). *)
Theorem ids_truthy_reachable (s s' : hstate) :
  ids_truthy s -> rtc hist_step s s' -> ids_truthy s'.
Proof.
  intros Hs Hsteps. induction Hsteps as [s|s1 s2 s3 Hstep _ IH]; [done|].
  apply IH. destruct Hstep as [s wf a|s i a _|s a|s k].
  - by apply submit_ids.
  - unfold fire_timer. destruct (hs_timers s !! i); [|done].
    apply loadHistory_ids. destruct Hs as [Hh Ht]. split; [done|]. simpl.
    by apply Forall_delete.
  - unfold refresh. destruct (hs_history s); [done|]. by apply loadHistory_ids.
  - unfold gallery_click. by repeat case_match.
Qed.

(** A rejected submission whose [error] field is an object (the shape
    of ComfyUI's validation errors) is reported as the text
    ["[object Object]"], not as a readable message. *)
Theorem run_error_object_unreadable (wf : value) (data : value) (ps : list (string * value))
    (s : hstate) :
  truthy wf = true -> nullish data = false -> get data "error" = VObj ps ->
  hs_log (submit wf (Http false (Some data)) s) =
    ("[object Object]", "error") :: ("正在提交工作流…", "info") :: hs_log s.
Proof.
  intros Hwf Hd He. unfold submit. rewrite Hwf. simpl. rewrite Hd. simpl.
  unfold run_error_message. by rewrite He.
Qed.

(** An accepted submission with a [prompt_id] puts it, with no images
    yet, at the front of the history and schedules exactly one delayed
    load for it; the log says which id was submitted. *)
Theorem submit_accepted (wf data : value) (s : hstate) :
  truthy wf = true -> nullish data = false -> truthy (get data "prompt_id") = true ->
  let pid := get data "prompt_id" in
  submit wf (Http true (Some data)) s =
    {| hs_history := {| h_id := pid; h_images := [] |} :: hs_history s;
       hs_log := (("已提交任务: " ++ to_str pid)%string, "success")
                   :: ("正在提交工作流…", "info") :: hs_log s;
       hs_timers := pid :: hs_timers s;
       hs_gallery := renderGallery ({| h_id := pid; h_images := [] |} :: hs_history s) |}.
Proof.
  intros Hwf Hd Hp pid. subst pid. unfold submit. rewrite Hwf. simpl. rewrite Hd. simpl.
  unfold js_or. by rewrite Hp.
Qed.

(** C27: every image of every output is linked exactly once: the links are
    a permutation of the images of the outputs taken in the order of the
    document (the client lists them by numeric node id first). *)
Theorem collect_images_complete (promptId data : value) (ps : list (string * value)) :
  get_opt (get_opt data (to_str promptId)) "outputs" = VObj ps ->
  Forall (fun kv => output_ok kv.2) ps ->
  exists imgs, collectImagesFromHistory promptId data = Ret imgs /\
    imgs ≡ₚ flat_map (fun kv => map (link_of kv.1) (images_of kv.2)) ps.
Proof.
  intros Hout Hok. unfold collectImagesFromHistory. cbv zeta. rewrite Hout.
  simpl truthy. cbv iota. simpl entries. eexists. split.
  - apply concat_throws_total with (g := fun kv => map (link_of kv.1) (images_of kv.2)).
    intros kv Hkv. apply output_images_ok.
    rewrite Forall_forall in Hok. apply Hok. by rewrite <- (own_order_perm ps).
  - by rewrite own_order_perm.
Qed.

(** A completed [loadHistory] for a truthy id attaches the images to
    the entry of that id when there is one, in place, and otherwise adds a
    new entry at the front. *)
Theorem loadHistory_attaches (pid data : value) (images : list image) (s : hstate) :
  truthy pid = true -> collectImagesFromHistory pid data = Ret images ->
  hs_history (loadHistory pid (Http true (Some data)) s) =
    match find_entry pid (hs_history s) with
    | Some i => alter (fun h => {| h_id := h_id h; h_images := images |}) i (hs_history s)
    | None => {| h_id := pid; h_images := images |} :: hs_history s
    end.
Proof.
  intros Hp Hc. unfold loadHistory. rewrite Hp. simpl. rewrite Hc.
  by destruct (find_entry pid (hs_history s)).
Qed.

(** C25: the gallery never shows images an entry no longer has.  In every
    state reachable by submissions, delayed loads, refreshes and clicks on
    the history buttons, in any order, the gallery is the render of the
    whole current history or of one entry of it as it is now: each
    [loadHistory] that attaches images renders the gallery again. *)
Theorem gallery_current_reachable (s s' : hstate) :
  gallery_current s -> rtc hist_step s s' -> gallery_current s'.
Proof.
  intros Hs Hsteps. induction Hsteps as [s|s1 s2 s3 Hstep _ IH]; [done|].
  apply IH. destruct Hstep as [s wf a|s i a _|s a|s k].
  - by apply submit_current.
  - unfold fire_timer. destruct (hs_timers s !! i); [by apply loadHistory_current|done].
  - unfold refresh. destruct (hs_history s); [by apply log_current|]. by apply loadHistory_current.
  - by apply click_current.
Qed.

(** C26: every accepted run gets its images into the gallery through the
    delayed load it schedules itself, with no refresh from the user.  A
    submission the server accepts with a string [prompt_id] is a step
    that puts exactly one pending load for the run in front of the
    pending ones; firing that load, with the backend's history of the run
    as its answer, is the next step: it is no longer pending, the run's
    entry at the front of the history holds the run's images and the
    gallery shows them first, before the images of the earlier runs. *)
Theorem accepted_run_reaches_gallery (wf data hist : value) (id : string) (images : list image)
    (s : hstate) :
  truthy wf = true -> nullish data = false -> get data "prompt_id" = VStr id -> id <> "" ->
  collectImagesFromHistory (VStr id) hist = Ret images ->
  let s1 := submit wf (Http true (Some data)) s in
  let s2 := fire_timer 0 (Http true (Some hist)) s1 in
  hist_step s s1 /\ hs_timers s1 = VStr id :: hs_timers s /\
  hist_step s1 s2 /\ hs_timers s2 = hs_timers s /\
  hs_history s2 = {| h_id := VStr id; h_images := images |} :: hs_history s /\
  g_cards (hs_gallery s2) = images ++ flat_map h_images (hs_history s).
Proof.
  intros Hwf Hd Hp Hne Hc s1 s2.
  assert (Ht : truthy (get data "prompt_id") = true).
  { rewrite Hp. cbn. by destruct (String.eqb_spec id ""). }
  pose proof (submit_accepted wf data s Hwf Hd Ht) as E1. cbv zeta in E1. rewrite Hp in E1.
  fold s1 in E1.
  split; [apply hs_submit|]. split; [by rewrite E1|].
  split; [apply hs_timer; by rewrite E1|].
  subst s2. unfold fire_timer. rewrite E1. cbn [hs_timers lookup list_lookup]. unfold loadHistory.
  cbn [truthy negb]. rewrite (proj2 (String.eqb_neq _ _) Hne).
  cbn [negb]. rewrite Hc. cbn [hs_history find_entry h_id strict_eq]. rewrite String.eqb_refl.
  done.
Qed.

(** ** Witnesses *)

Lemma ids_truthy_reachable_witness :
  ids_truthy (submit ex_prompt (Http true (Some ex_accepted)) ex_state).
Proof.
  apply (ids_truthy_reachable ex_state).
  - split; constructor.
  - eapply rtc_l; [apply hs_submit | apply rtc_refl].
Defined.

Lemma run_error_object_unreadable_witness :
  hs_log (submit ex_prompt (Http false (Some ex_rejected)) ex_state) =
    ("[object Object]", "error") :: ("正在提交工作流…", "info") :: [].
Proof.
  apply (run_error_object_unreadable ex_prompt ex_rejected
           [("type", VStr "prompt_outputs_failed_validation");
            ("message", VStr "Prompt outputs failed validation")] ex_state);
    reflexivity.
Defined.

Lemma submit_accepted_witness :
  submit ex_prompt (Http true (Some ex_accepted)) ex_state =
    {| hs_history := [{| h_id := VStr "abc"; h_images := [] |}];
       hs_log := [("已提交任务: abc", "success"); ("正在提交工作流…", "info")];
       hs_timers := [VStr "abc"];
       hs_gallery := renderGallery [{| h_id := VStr "abc"; h_images := [] |}] |}.
Proof. apply (submit_accepted ex_prompt ex_accepted ex_state); reflexivity. Defined.

Lemma collect_images_complete_witness :
  exists imgs, collectImagesFromHistory (VStr "abc") ex_history = Ret imgs /\
    imgs ≡ₚ flat_map (fun kv => map (link_of kv.1) (images_of kv.2))
              [("9", VObj [("images", VArr [VObj [("filename", VStr "ComfyUI_00001_.png");
                                                  ("subfolder", VStr "");
                                                  ("type", VStr "output")]])])].
Proof.
  apply collect_images_complete.
  - reflexivity.
  - constructor; [|constructor]. split; [reflexivity|].
    eexists. split; [reflexivity|]. repeat constructor.
Defined.

Lemma loadHistory_attaches_witness :
  hs_history (loadHistory (VStr "abc") (Http true (Some ex_history))
                (submit ex_prompt (Http true (Some ex_accepted)) ex_state)) =
    [{| h_id := VStr "abc";
        h_images := [{| img_url := "/api/comfyui/view?filename=ComfyUI_00001_.png&type=output&subfolder=";
                        img_label := "ComfyUI_00001_.png · 节点 9" |}] |}].
Proof.
  rewrite (loadHistory_attaches (VStr "abc") ex_history
             [{| img_url := "/api/comfyui/view?filename=ComfyUI_00001_.png&type=output&subfolder=";
                 img_label := "ComfyUI_00001_.png · 节点 9" |}]); reflexivity.
Defined.

(** A submission, a refresh that attaches its image and a click on its
    button: the gallery shows the entry with its image. *)
Lemma gallery_current_reachable_witness :
  gallery_current (gallery_click 0 (refresh (Http true (Some ex_history))
                     (submit ex_prompt (Http true (Some ex_accepted)) ex_state))).
Proof.
  apply (gallery_current_reachable ex_state); [by left|].
  eapply rtc_l; [apply hs_submit|]. eapply rtc_l; [apply hs_refresh|].
  eapply rtc_l; [apply hs_click|]. apply rtc_refl.
Defined.

(** The run [abc] accepted, its own load fired: the gallery shows its image. *)
Lemma accepted_run_reaches_gallery_witness :
  let s1 := submit ex_prompt (Http true (Some ex_accepted)) ex_state in
  let s2 := fire_timer 0 (Http true (Some ex_history)) s1 in
  hist_step ex_state s1 /\ hs_timers s1 = [VStr "abc"] /\
  hist_step s1 s2 /\ hs_timers s2 = [] /\
  hs_history s2 = [{| h_id := VStr "abc";
                      h_images := [{| img_url := "/api/comfyui/view?filename=ComfyUI_00001_.png&type=output&subfolder=";
                                      img_label := "ComfyUI_00001_.png · 节点 9" |}] |}] /\
  g_cards (hs_gallery s2) =
    [{| img_url := "/api/comfyui/view?filename=ComfyUI_00001_.png&type=output&subfolder=";
        img_label := "ComfyUI_00001_.png · 节点 9" |}] ++ [].
Proof.
  apply (accepted_run_reaches_gallery ex_prompt ex_accepted ex_history "abc"); try reflexivity.
  discriminate.
Defined.
