(* ===== verification/Session.v ===== *)
(** * The session of the page

    The client keeps its state in globals (app.js lines 14-17): the
    [workflow], the [objectInfo] fetched from the backend, the
    [modelRegistry] and the output log.  Events change them in any order:
    the user edits a field or toggles a card (the listeners of
    [renderWorkflow]), a metadata refresh completes ([loadObjectInfo],
    app.js lines 265-276) and re-renders the workflow, a registry reload
    completes ([loadModels], app.js lines 277-282) and re-renders only the
    list of models, the workflow is loaded ([loadWorkflow], app.js lines
    259-263).  A fetch is asynchronous, so an edit can happen between the
    click on the refresh button and the completion of the refresh:
    [session_step] runs the completions as events among the user's.

    The theorems: in every reachable session the page shows the render of
    the workflow under the current schema and some registry (the one of
    the last render), so a metadata refresh never discards an edit (spec
    section 5); a registry reload does not re-render, so a model just
    registered is not offered until the next refresh. *)

From S2P Require Import Prelude JsValue Json Schema StableSort Binder Coherence History.

Local Open Scope string_scope.

Record session := {
  se_page : page;                    (* [workflow] and the cards on screen *)
  se_oi : value;                     (* [objectInfo] *)
  se_reg : value;                    (* [modelRegistry] *)
  se_log : list (string * string)    (* the messages of [renderOutput] *)
}.

Definition with_page (s : session) (pg : page) : session :=
  {| se_page := pg; se_oi := se_oi s; se_reg := se_reg s; se_log := se_log s |}.

Definition se_say (msg kind : string) (s : session) : session :=
  {| se_page := se_page s; se_oi := se_oi s; se_reg := se_reg s; se_log := (msg, kind) :: se_log s |}.

(** [renderWorkflow()] on the session's globals: the session after it
    and the exception it throws, if a card throws; the cards appended
    before the exception stay. *)
Definition rerender (s : session) : session * option exn :=
  let v := renderWorkflow (pg_workflow (se_page s)) (se_oi s) (se_reg s) (pg_view (se_page s)) in
  (with_page s {| pg_workflow := pg_workflow (se_page s); pg_view := v |}, v_error v).

(** [loadObjectInfo()] once [fetch] answered (app.js lines 265-276): an
    exception of [renderWorkflow()] is caught and logged like a failed
    fetch. *)
Definition loadObjectInfo (a : answer) (s : session) : session :=
  match a with
  | NetworkError m => se_say m "warning" s
  | Http false _ => se_say "无法获取 ComfyUI 元数据" "warning" s
  | Http true None => se_say "Unexpected token in JSON" "warning" s
  | Http true (Some data) =>
      let '(s', err) :=
        rerender (se_say "已刷新 ComfyUI 元数据" "success"
                    {| se_page := se_page s; se_oi := data; se_reg := se_reg s; se_log := se_log s |}) in
      match err with
      | Some e => se_say (exn_message e) "warning" s'
      | None => s'
      end
  end.

(** [loadModels()] once the registry [models] is read: [modelRegistry]
    changes and [renderModels()] redraws the list of models, not the
    workflow. *)
Definition reload_models (models : value) (s : session) : session :=
  {| se_page := se_page s; se_oi := se_oi s; se_reg := models; se_log := se_log s |}.

(** [loadWorkflow()] of the client once the document [data] is read
    (app.js lines 259-263): nothing catches an exception of the render. *)
Definition load_workflow (data : value) (s : session) : session :=
  fst (rerender {| se_page := {| pg_workflow := data; pg_view := pg_view (se_page s) |};
            se_oi := se_oi s; se_reg := se_reg s; se_log := se_log s |}).

(** The events of the session, in any order.  An edit is one a render
    shows again ([edit_faithful]); a loaded workflow is an object whose
    nodes the listeners can write. *)
Inductive session_step : session -> session -> Prop :=
  | ss_edit s k j ev :
      edit_faithful (se_page s) k j ev ->
      session_step s (with_page s (on_change (se_page s) k j ev))
  | ss_toggle s k : session_step s (with_page s (on_toggle (se_page s) k))
  | ss_meta s a : session_step s (loadObjectInfo a s)
  | ss_models s models : session_step s (reload_models models s)
  | ss_workflow s wps : nodes_ok (VObj wps) -> session_step s (load_workflow (VObj wps) s).

(** ** The page stays a render of the workflow *)

(** The page shows the render of its workflow under the current schema
    and the registry of its last render, and the listeners can write its
    nodes. *)
Definition coherent (s : session) : Prop :=
  (exists reg, page_rendered (se_page s) (se_oi s) reg) /\ nodes_ok (pg_workflow (se_page s)).

Lemma on_change_nodes_ok (pg : page) (k j : nat) (ev : user_input) :
  nodes_ok (pg_workflow pg) -> nodes_ok (pg_workflow (on_change pg k j ev)).
Proof.
  intros Hok. unfold on_change. repeat case_match; try done. cbn [pg_workflow].
  apply nodes_ok_update; [|done]. intros ps Hw. by apply write_widget_ok.
Qed.

Lemma on_toggle_nodes_ok (pg : page) (k : nat) :
  nodes_ok (pg_workflow pg) -> nodes_ok (pg_workflow (on_toggle pg k)).
Proof.
  intros Hok. unfold on_toggle. case_match; [|done]. cbn [pg_workflow].
  apply nodes_ok_update; [|done]. intros ps Hw. by apply set_mode_ok.
Qed.

(** A render of an object workflow is a page that shows it. *)
Lemma rerender_rendered (s : session) (wps : list (string * value)) :
  pg_workflow (se_page s) = VObj wps ->
  page_rendered (se_page (rerender s).1) (se_oi s) (se_reg s) /\
  pg_workflow (se_page (rerender s).1) = VObj wps.
Proof.
  intros Hw. unfold rerender. cbn. rewrite Hw. split; [|done].
  exists wps. split; [done|]. apply renderWorkflow_old.
Qed.


(** Every event keeps the page a render of the workflow. *)
Lemma session_step_coherent (s s' : session) :
  coherent s -> session_step s s' -> coherent s'.
Proof.
  intros [[reg Hr] Hok] Hstep. destruct Hstep as [s k j ev Hfa|s k|s a|s models|s wps Hwps].
  - split; [|by apply on_change_nodes_ok]. exists reg. by apply on_change_rendered.
  - split; [|by apply on_toggle_nodes_ok]. exists reg. by apply on_toggle_rendered.
  - destruct Hr as [wps [Hw Hv]].
    destruct a as [m|[] [data|]]; try (split; [by exists reg, wps|done]).
    unfold loadObjectInfo.
    set (s1 := se_say _ _ _).
    destruct (rerender_rendered s1 wps Hw) as [Hr1 Hw1].
    assert (Hc : coherent (rerender s1).1).
    { split; [by exists (se_reg s1)|]. rewrite Hw1, <- Hw. done. }
    rewrite (surjective_pairing (rerender s1)). cbv iota beta.
    destruct ((rerender s1).2); [|done]. destruct Hc as [[r Hr2] Hok2]. split; [by exists r|done].
  - split; [by exists reg|done].
  - set (s1 := {| se_page := {| pg_workflow := VObj wps; pg_view := pg_view (se_page s) |};
                  se_oi := se_oi s; se_reg := se_reg s; se_log := se_log s |}).
    destruct (rerender_rendered s1 wps eq_refl) as [Hr1 Hw1].
    unfold load_workflow. fold s1. split; [by exists (se_reg s1)|by rewrite Hw1].
Qed.

(** ** Theorems *)

(** C7: in every session reachable from a coherent one, through edits,
    toggles, metadata refreshes, registry reloads and workflow loads in
    any order, the page shows the render of the current workflow under
    the current [objectInfo] and the registry of its last render.  In
    particular a refresh that completes after an edit renders the edited
    workflow: the edit is kept (spec section 5). *)
Theorem session_coherent (s s' : session) :
  coherent s -> rtc session_step s s' -> coherent s'.
Proof.
  intros Hc Hrun. induction Hrun as [s|s s1 s' Hstep _ IH]; [done|].
  apply IH. by apply (session_step_coherent s).
Qed.

(** The control of the [j]-th field of the [k]-th card on screen. *)
Definition shown_control (s : session) (k j : nat) : option control :=
  match v_cards (pg_view (se_page s)) !! k with
  | Some c => match c_body c with Fields fs => f_control <$> fs !! j | Placeholder => None end
  | None => None
  end.

Definition ex_loader : value :=
  VObj [("id", VNum 4); ("type", VStr "CheckpointLoaderSimple"); ("title", VStr "Load");
        ("inputs", VArr [VObj [("name", VStr "ckpt_name"); ("type", VStr "COMBO")]]);
        ("widgets_values", VArr [])].

Definition ex_session_wf : value := VObj [("nodes", VArr [ex_loader])].

Definition ex_session : session :=
  {| se_page := {| pg_workflow := ex_session_wf;
                   pg_view := renderWorkflow ex_session_wf VNull (VArr [])
                                {| v_count := ""; v_cards := []; v_error := None |} |};
     se_oi := VNull; se_reg := VArr []; se_log := [] |}.

Definition ex_registry : value := VArr [VObj [("name", VStr "sdxl")]].

(** A registry reload does not re-render the workflow.  With no
    schema, a checkpoint loader rendered while the registry was empty
    shows a select without options; after the reload the registry holds
    [sdxl] and the name heuristic gives it, but the page still shows no
    option, until a metadata refresh renders the workflow again. *)
Example registry_reload_not_rendered :
  let s1 := reload_models ex_registry ex_session in
  session_step ex_session s1 /\
  shown_control s1 0 0 = Some (Select [] None) /\
  resolveChoices (se_oi s1) (se_reg s1) (VStr "CheckpointLoaderSimple") (VStr "ckpt_name") =
    Ret (Some [VStr "sdxl"]) /\
  shown_control (loadObjectInfo (Http true (Some VNull)) s1) 0 0 = Some (Select ["sdxl"] (Some 0)).
Proof. split; [apply ss_models|]. vm_compute. split_and!; reflexivity. Qed.

(** ** Witness *)

Lemma ex_session_coherent : coherent ex_session.
Proof.
  split; [exists (VArr []), [("nodes", VArr [ex_loader])]; split; reflexivity|].
  exists [ex_loader]. split; [reflexivity|]. apply Forall_singleton. eexists. split; [reflexivity|]. exact I.
Qed.

(** A reload of the registry followed by a refresh: the page is again
    the render of the workflow. *)
Lemma session_coherent_witness :
  coherent (loadObjectInfo (Http true (Some VNull)) (reload_models ex_registry ex_session)).
Proof.
  apply (session_coherent ex_session); [exact ex_session_coherent|].
  eapply rtc_l; [apply ss_models|]. eapply rtc_l; [apply ss_meta|]. apply rtc_refl.
Defined.
