(* ===== verification/Startup.v ===== *)
(** * Start-up of the server and of the page

    The server reads its configuration from the environment (server.js
    lines 11-13), creates [data/models.json] when it does not exist
    ([ensureDataFiles], lines 20-27, awaited at line 169 before
    [app.listen]; the creation of the directory is assumed to succeed,
    and a file [fs.access] cannot reach is taken as missing), reads and
    writes it whole ([loadModels] and [saveModels], lines 38-45), and
    answers [GET /api/config] with the backend's base URL (lines 80-82).
    [models_file_abstraction] shows that reading back what [saveModels]
    wrote gives the document, the abstraction of the file [Registry]
    makes.

    The page runs [init()] (app.js lines 359-367) once: [loadConfig]
    (lines 253-257), then the client's [loadWorkflow], [loadModels] and
    [loadObjectInfo], each awaited in turn, then [renderGallery].  [init]
    catches nothing: a step that rejects stops the ones after it, and the
    rejection of [init()] is not handled.  [loadObjectInfo] catches its own
    errors; the other three do not.

    The state of the page is the session of [Session] (workflow, cards,
    [objectInfo], [modelRegistry], output log) with the text of
    [#comfyui-url], the items of [#model-list], [promptHistory] and the
    gallery.  The answers of the four fetches are inputs.  [init] is run
    as the sequence it is when no event of the user comes between its
    steps; the events after it are the steps of [Session], [Models] and
    [History].

    The theorems: once the configuration and the workflow have loaded,
    [init] leaves the page a render of the workflow under the current
    [objectInfo], whatever the registry and metadata answers, which is
    the invariant [Session.session_coherent] keeps; a registry answer
    that is not JSON stops [init] before the metadata is fetched, so the
    cards keep the choices of a page without schema. *)

From S2P Require Import Prelude JsValue Json JsonParse Html Schema StableSort Binder Coherence Registry Persist Models History Session.

Local Open Scope string_scope.

(** ** The server *)

Definition default_comfyui : string := "http://127.0.0.1:8188".

(** [process.env.COMFYUI_BASE_URL || 'http://127.0.0.1:8188'] (server.js
    line 12): an unset or empty variable gives the default. *)
Definition COMFYUI_BASE_URL (env : option string) : string :=
  match env with
  | Some v => if String.eqb v "" then default_comfyui else v
  | None => default_comfyui
  end.

(** [GET /api/config] (server.js lines 80-82). *)
Definition get_config (base : string) : http :=
  send {| status := 200; payload := VObj [("comfyuiBaseUrl", VStr base)] |}.

Definition empty_registry : value := VObj [("models", VArr [])].

(** [ensureDataFiles()] (server.js lines 20-27) on the text of
    [data/models.json], [None] when it does not exist: an existing file is
    kept whatever it holds, a missing one is written with
    [JSON.stringify({ models: [] }, null, 2)]. *)
Definition ensureDataFiles (file : option string) : option string :=
  match file with
  | Some text => Some text
  | None => stringify_pretty empty_registry
  end.

(** The server's [loadModels()] (server.js lines 38-41): [JSON.parse] of
    the file's text, [None] when the read or the parse fails.  This is the
    document [Registry] and [Models] take as the state of the file. *)
Definition read_models (file : option string) : option value :=
  match file with
  | Some raw => JSON_parse raw
  | None => None
  end.

(** The server's [saveModels(models)] (server.js lines 43-45): the text
    written to the file. *)
Definition saveModels (models : value) : option string := stringify_pretty models.

(** ** The page *)

Record app := {
  a_comfyui : string;          (* the text of [#comfyui-url] *)
  a_session : session;         (* workflow, cards, [objectInfo], [modelRegistry], log *)
  a_models : list model_li;    (* the items of [#model-list] *)
  a_history : list hentry;     (* [promptHistory] *)
  a_gallery : gallery          (* [#history-list] and [#gallery-grid] *)
}.

(** The answers of the fetches of [init]. *)
Record init_answers := {
  ia_config : http;            (* [/api/config] *)
  ia_workflow : http;          (* [/api/workflow] *)
  ia_models : http;            (* [/api/models] *)
  ia_object_info : answer      (* [/api/comfyui/object_info] *)
}.

(** [loadConfig()] (app.js lines 253-257): the text it shows.  Setting
    [textContent] to [null] or [undefined] clears it. *)
Definition loadConfig (answer : http) : throws string :=
  match JSON_parse (h_body answer) with
  | None => Throw (SyntaxError "Unexpected token in JSON")
  | Some data =>
      let! url := get_strict data "comfyuiBaseUrl" in
      Ret (text_content url)
  end.

Definition with_session (a : app) (s : session) : app :=
  {| a_comfyui := a_comfyui a; a_session := s; a_models := a_models a; a_history := a_history a;
     a_gallery := a_gallery a |}.

(** The client's [loadWorkflow()] (app.js lines 259-263):
    [workflow = await response.json()] then [renderWorkflow()]; the
    session after it and the exception it throws. *)
Definition init_workflow (answer : http) (s : session) : session * option exn :=
  match JSON_parse (h_body answer) with
  | None => (s, Some (SyntaxError "Unexpected token in JSON"))
  | Some data =>
      rerender {| se_page := {| pg_workflow := data; pg_view := pg_view (se_page s) |};
                  se_oi := se_oi s; se_reg := se_reg s; se_log := se_log s |}
  end.

(** [loadModels()] on the page: [Models.loadModels] on the page's
    [modelRegistry], its list and its log. *)
Definition init_models (answer : http) (a : app) : app * option exn :=
  let s := a_session a in
  let '(c, err) := loadModels answer {| mc_registry := se_reg s; mc_list := a_models a;
                                         mc_form := []; mc_log := se_log s |} in
  ({| a_comfyui := a_comfyui a; a_session := reload_models (mc_registry c) s; a_models := mc_list c;
      a_history := a_history a; a_gallery := a_gallery a |}, err).

(** [init()] (app.js lines 359-365): the page after it and the exception
    that stopped it, if one did. *)
Definition init (ans : init_answers) (a : app) : app * option exn :=
  match loadConfig (ia_config ans) with
  | Throw e => (a, Some e)
  | Ret url =>
      let a1 := {| a_comfyui := url; a_session := a_session a; a_models := a_models a;
                   a_history := a_history a; a_gallery := a_gallery a |} in
      let '(s2, err2) := init_workflow (ia_workflow ans) (a_session a1) in
      let a2 := with_session a1 s2 in
      match err2 with
      | Some e => (a2, Some e)
      | None =>
          let '(a3, err3) := init_models (ia_models ans) a2 in
          match err3 with
          | Some e => (a3, Some e)
          | None =>
              let a4 := with_session a3 (loadObjectInfo (ia_object_info ans) (a_session a3)) in
              ({| a_comfyui := a_comfyui a4; a_session := a_session a4; a_models := a_models a4;
                  a_history := a_history a4; a_gallery := renderGallery (a_history a4) |}, None)
          end
      end
  end.

(** ** Lemmas *)

(** A workflow object loaded by [loadWorkflow] is on the page as its
    render. *)
Lemma init_workflow_coherent (answer : http) (s : session) (wps : list (string * value)) :
  JSON_parse (h_body answer) = Some (VObj wps) -> nodes_ok (VObj wps) ->
  coherent (init_workflow answer s).1.
Proof.
  intros Hw Hok. unfold init_workflow. rewrite Hw.
  set (s1 := {| se_page := {| pg_workflow := VObj wps; pg_view := pg_view (se_page s) |};
                se_oi := se_oi s; se_reg := se_reg s; se_log := se_log s |}).
  destruct (rerender_rendered s1 wps eq_refl) as [Hr Hw1].
  split; [by exists (se_reg s1)|by rewrite Hw1].
Qed.

(** [loadModels] changes the registry and the list, not the cards nor
    the text of the configuration. *)
Lemma init_models_keeps (answer : http) (a : app) :
  a_comfyui (init_models answer a).1 = a_comfyui a /\
  session_step (a_session a) (a_session (init_models answer a).1).
Proof.
  unfold init_models. destruct (loadModels _ _) as [c err]. split; [done|]. apply ss_models.
Qed.

(** [loadWorkflow] keeps [modelRegistry]. *)
Lemma init_workflow_reg (answer : http) (s : session) : se_reg (init_workflow answer s).1 = se_reg s.
Proof. unfold init_workflow. by destruct (JSON_parse _). Qed.

(** [loadModels] on the page leaves the history and the gallery, and
    draws the list of the registry it sets, or changes neither. *)
Lemma init_models_frame (answer : http) (a : app) :
  a_history (init_models answer a).1 = a_history a /\ a_gallery (init_models answer a).1 = a_gallery a /\
  (a_models a = (renderModels (se_reg (a_session a))).1 ->
   a_models (init_models answer a).1 = (renderModels (se_reg (a_session (init_models answer a).1))).1).
Proof.
  unfold init_models, loadModels. split_and!; [by repeat case_match..|].
  intros Hl. destruct (JSON_parse _); [|done]. destruct (get_strict _ _); [|done].
  destruct (renderModels (js_or _ _)) as [items err] eqn:E. cbn. by rewrite E.
Qed.

(** The file abstraction of [Registry]: what [saveModels] writes,
    [loadModels] reads back, for the documents the server writes (no
    [undefined], keys in enumeration order and distinct); and the file
    [ensureDataFiles] creates reads as the empty registry. *)
Lemma models_file_abstraction (doc : value) :
  normal doc -> keys_unique doc -> read_models (saveModels doc) = Some doc.
Proof.
  intros Hn Hk. destruct (models_file_roundtrip doc Hn Hk) as (t & Et & Ep).
  unfold read_models, saveModels. by rewrite Et.
Qed.

Lemma ensureDataFiles_fresh : read_models (ensureDataFiles None) = Some empty_registry.
Proof. reflexivity. Qed.

(** ** Theorems *)

(** After [init] the cards are the render of the loaded workflow,
    wherever start-up stopped. *)
Lemma init_session_coherent (ans : init_answers) (a : app) (url : string) (wps : list (string * value)) :
  loadConfig (ia_config ans) = Ret url ->
  JSON_parse (h_body (ia_workflow ans)) = Some (VObj wps) -> nodes_ok (VObj wps) ->
  coherent (a_session (init ans a).1).
Proof.
  intros Hc Hw Hok. unfold init. rewrite Hc. cbn [a_session].
  pose proof (init_workflow_coherent (ia_workflow ans) (a_session a) wps Hw Hok) as H2.
  destruct (init_workflow (ia_workflow ans) (a_session a)) as [s2 [e2|]]; [done|].
  set (a2 := with_session _ s2).
  destruct (init_models_keeps (ia_models ans) a2) as [Hu Hst].
  pose proof (session_step_coherent _ _ H2 Hst) as H3.
  destruct (init_models (ia_models ans) a2) as [a3 [e3|]]; cbn in Hu, H3 |- *; [done|].
  apply (session_step_coherent _ _ H3). apply ss_meta.
Qed.

(** C8: start-up leaves a coherent page.  When [/api/config] answered
    with a JSON object and [/api/workflow] with a workflow object whose
    nodes are objects, [init] ends, whatever the registry and metadata
    answers and even when a render or the registry load throws, with the
    configured URL shown and the cards the render of the loaded workflow
    under the current [objectInfo]: the invariant [session_coherent]
    keeps from then on. *)
Theorem init_coherent (ans : init_answers) (a : app) (url : string) (wps : list (string * value)) :
  loadConfig (ia_config ans) = Ret url ->
  JSON_parse (h_body (ia_workflow ans)) = Some (VObj wps) -> nodes_ok (VObj wps) ->
  coherent (a_session (init ans a).1) /\ a_comfyui (init ans a).1 = url.
Proof.
  intros Hc Hw Hok. split; [by apply (init_session_coherent _ _ url wps)|].
  unfold init. rewrite Hc. cbn [a_session]. destruct (init_workflow _ _) as [s2 [e2|]]; [done|].
  match goal with |- context [init_models ?m ?a2] => destruct (init_models_keeps m a2) as [Hu _] end.
  by destruct (init_models _ _) as [a3 [e3|]]; cbn in Hu |- *.
Qed.

(** C32: a registry answer that is not JSON stops start-up before the
    metadata is fetched.  [init] catches nothing: when the body of
    [/api/models] does not parse (an error page of a proxy, say),
    [init] rejects with the [SyntaxError], [loadObjectInfo] never runs,
    so [objectInfo] stays as it was and the cards keep the choices of a
    page without schema even when ComfyUI is up; the gallery is not
    drawn either. *)
Theorem init_stops_on_models_error (ans : init_answers) (a : app) (url : string) (s2 : session) :
  loadConfig (ia_config ans) = Ret url ->
  init_workflow (ia_workflow ans) (a_session a) = (s2, None) ->
  JSON_parse (h_body (ia_models ans)) = None ->
  init ans a =
    ({| a_comfyui := url; a_session := s2; a_models := a_models a; a_history := a_history a;
        a_gallery := a_gallery a |}, Some (SyntaxError "Unexpected token in JSON")).
Proof.
  intros Hc Hw Hm. unfold init. rewrite Hc. cbn [a_session]. rewrite Hw.
  unfold init_models, loadModels. cbn [a_session with_session]. rewrite Hm.
  by destruct s2.
Qed.

(** ** Witnesses *)

Definition ex_blank_session : session :=
  {| se_page := {| pg_workflow := VNull; pg_view := {| v_count := ""; v_cards := []; v_error := None |} |};
     se_oi := VNull; se_reg := VArr []; se_log := [] |}.

(** The page before [init]: nothing loaded, the history empty. *)
Definition ex_app : app :=
  {| a_comfyui := ""; a_session := ex_blank_session; a_models := []; a_history := [];
     a_gallery := renderGallery [] |}.

(** The answers of a server started without [COMFYUI_BASE_URL], with the
    workflow of a checkpoint loader, and [models] for the registry. *)
Definition ex_answers (models : http) : init_answers :=
  {| ia_config := get_config (COMFYUI_BASE_URL None);
     ia_workflow := send {| status := 200; payload := ex_session_wf |};
     ia_models := models;
     ia_object_info := Http true (Some VNull) |}.

(** A fresh install: the registry file is the one [ensureDataFiles]
    writes. *)
Definition ex_fresh_models : http := get_models (read_models (ensureDataFiles None)).

(** An error page of a proxy in front of the server. *)
Definition ex_bad_gateway : http := {| h_status := 502; h_body := "<html>502 Bad Gateway</html>" |}.

Lemma init_coherent_witness :
  coherent (a_session (init (ex_answers ex_fresh_models) ex_app).1) /\
  a_comfyui (init (ex_answers ex_fresh_models) ex_app).1 = "http://127.0.0.1:8188".
Proof.
  apply (init_coherent _ _ "http://127.0.0.1:8188" [("nodes", VArr [ex_loader])]); [reflexivity|reflexivity|].
  exists [ex_loader]. split; [reflexivity|]. apply Forall_singleton. eexists. split; [reflexivity|]. exact I.
Defined.

Lemma init_stops_on_models_error_witness :
  init (ex_answers ex_bad_gateway) ex_app =
    ({| a_comfyui := "http://127.0.0.1:8188";
        a_session := (init_workflow (ia_workflow (ex_answers ex_bad_gateway)) ex_blank_session).1;
        a_models := []; a_history := []; a_gallery := renderGallery [] |},
     Some (SyntaxError "Unexpected token in JSON")).
Proof.
  apply init_stops_on_models_error; [reflexivity| |reflexivity].
  rewrite (surjective_pairing (init_workflow _ _)). reflexivity.
Defined.
