(* ===== verification/Proxy.v ===== *)
(** * The proxy to the ComfyUI backend

    [comfyUrl(pathname)] (server.js lines 47-50) parses
    [COMFYUI_BASE_URL] and resolves a path against it (the parser is in
    [Url]); [proxyToComfyUI] (lines 52-78) forwards a request to
    [comfyUrl('/' + targetPath)] and copies the answer back.  Three routes
    give the target path (lines 164-167): [object_info],
    [history/:id], [view?<the query of the request>] and, for any other
    path under [/api/comfyui/], the rest of the path.  [POST /api/run]
    (lines 149-162) posts the workflow to [comfyUrl('/prompt')] and
    catches every failure.

    [fetch] builds a [Request] from the URL first: a URL with credentials
    is refused with a [TypeError], and a scheme other than [http] or
    [https] makes the fetch fail; both happen before anything is sent.
    The checks [fetch] makes on the headers it is given are not modelled
    (undici refuses [transfer-encoding], [keep-alive], [upgrade],
    [expect], a [connection] other than [close] or [keep-alive], and a
    [content-length] that differs from the body it sends, the copied
    header of a body [JSON.stringify] wrote again): [forward] is the
    request sent for headers that pass them; headers that fail them are
    one more way for the handler's promise to reject.

    The server runs on Express 4 (the unnamed wildcard [/api/comfyui/*]
    is refused by Express 5): a route handler whose promise rejects is not
    caught, and Node (15 and later) exits on an unhandled rejection. *)

From S2P Require Import Prelude JsValue Json JsonParse History Startup Url.

Local Open Scope string_scope.

(** ** [comfyUrl] and [fetch] *)

(** The URL [comfyUrl(pathname)] builds, with [COMFYUI_BASE_URL] as the
    text [cfg]: [new URL(pathname, new URL(COMFYUI_BASE_URL))]. *)
Definition comfy_url (cfg pathname : string) : throws url :=
  let! base := parse_url cfg in new_URL pathname base.

(** [comfyUrl(pathname)] (server.js lines 47-50): its [toString()]. *)
Definition comfyUrl (cfg pathname : string) : throws string :=
  let! u := comfy_url cfg pathname in Ret (url_href u).

(** What [fetch(url)] does with the URL before sending: [new Request]
    refuses credentials, and a scheme other than [http] or [https] is a
    network error ([TypeError: fetch failed]). *)
Definition request_target (u : url) : throws string :=
  if negb (String.eqb (u_user u) "") then
    Throw (TypeError ("Request cannot be constructed from a URL that includes credentials: " ++ url_href u))
  else if String.eqb (u_scheme u) "http" || String.eqb (u_scheme u) "https" then Ret (url_href u)
  else Throw (TypeError "fetch failed").

(** A URL [fetch] sends a request to. *)
Definition fetchable (u : url) : bool :=
  String.eqb (u_user u) "" && (String.eqb (u_scheme u) "http" || String.eqb (u_scheme u) "https").

(** ** The proxy *)

(** The routes of the proxy (server.js lines 164-167); [RView] carries
    [req.url], [RAny] the part of the path after [/api/comfyui/]
    ([req.params[0]]). *)
Inductive route : Type :=
  | RObjectInfo
  | RHistory (id : string)
  | RView (req_url : string)
  | RAny (rest : string).

(** [pathnameOverride || req.params[0]]; for the view route
    [`view?${req.url.split('?')[1] || ''}`]. *)
Definition target_path (r : route) : string :=
  match r with
  | RObjectInfo => "object_info"
  | RHistory id => "history/" ++ id
  | RView u => "view?" ++ match split_at_char "?" u with _ :: q :: _ => q | _ => "" end
  | RAny rest => rest
  end.

Record request := {
  rq_method : string;
  rq_headers : list (string * string);   (* names in lower case, as Node gives them *)
  rq_body : value                        (* [req.body] after [express.json] *)
}.

Record outgoing := {
  out_url : string;
  out_method : string;
  out_headers : list (string * string);
  out_body : option string
}.

(** The request [proxyToComfyUI] sends (server.js lines 53-62): to the
    URL [comfyUrl] builds, once [fetch] accepted it, with the incoming
    headers without [host] and the body serialised again except for [GET]
    and [HEAD]. *)
Definition forward (cfg : string) (r : route) (rq : request) : throws outgoing :=
  let! u := comfy_url cfg ("/" ++ target_path r) in
  let! target := request_target u in
  Ret {| out_url := target; out_method := rq_method rq;
         out_headers := filter (fun kv => kv.1 <> "host") (rq_headers rq);
         out_body := if String.eqb (rq_method rq) "GET" || String.eqb (rq_method rq) "HEAD"
                     then None else stringify (rq_body rq) |}.

(** What the backend does with the request: [fetch] fails (the backend is
    unreachable), or it answers with a status, headers and a body. *)
Inductive backend : Type :=
  | Unreachable (msg : string)
  | Answer (st : Z) (headers : list (string * string)) (body : string).

(** What becomes of the client's request: an answer, or an exception no
    one catches, which ends the server process. *)
Inductive outcome : Type :=
  | Answered (st : Z) (headers : list (string * string)) (body : string)
  | Crashed (e : exn).

Fixpoint header (k : string) (hs : list (string * string)) : option string :=
  match hs with
  | [] => None
  | (k', v) :: hs' => if String.eqb (to_lower k') k then Some v else header k hs'
  end.

(** [proxyToComfyUI(req, res, pathnameOverride)] (server.js lines 52-78):
    the request sent, if any, and the outcome.  The status and the
    headers but [content-encoding] are copied; a JSON answer is parsed and
    sent again with [res.json], any other body is copied.  Nothing catches
    an exception. *)
Definition proxyToComfyUI (cfg : string) (r : route) (rq : request) (be : backend) :
    option outgoing * outcome :=
  match forward cfg r rq with
  | Throw e => (None, Crashed e)
  | Ret out =>
      (Some out,
       match be with
       | Unreachable _ => Crashed (TypeError "fetch failed")
       | Answer st hs body =>
           let hs' := filter (fun kv => to_lower kv.1 <> "content-encoding") hs in
           if includes (default "" (header "content-type" hs)) "application/json" then
             match JSON_parse body with
             | Some data => Answered st hs' (default "" (stringify data))
             | None => Crashed (SyntaxError "Unexpected token in JSON")
             end
           else Answered st hs' body
       end)
  end.

(** [POST /api/run] (server.js lines 149-162): the workflow is posted to
    [comfyUrl('/prompt')] and the answer relayed with its status; every
    failure is caught and answered with 500. *)
Definition run_api (cfg : string) (body : value) (be : backend) : outcome :=
  let fail e := Answered 500 [] (default "" (stringify (VObj [("error", VStr (exn_message e))]))) in
  match (let! u := comfy_url cfg "/prompt" in request_target u) with
  | Throw e => fail e
  | Ret _ =>
      match be with
      | Unreachable _ => fail (TypeError "fetch failed")
      | Answer st _ text =>
          match JSON_parse text with
          | Some data => Answered st [] (default "" (stringify data))
          | None => fail (SyntaxError "Unexpected token in JSON")
          end
      end
  end.

(** ** The client's encoding read back *)

(** The characters [form_encode] leaves: none separates a query, a
    path or a fragment, and none is encoded again in a query. *)
Definition form_safe (c : ascii) : bool :=
  negb (Ascii.eqb c "&" || Ascii.eqb c "=" || Ascii.eqb c "?" || Ascii.eqb c "#" || is_slash c ||
        special_query_set c).

Lemma form_byte_safe (c : ascii) : all_chars form_safe (form_byte c) = true.
Proof. destruct c as [[] [] [] [] [] [] [] []]; reflexivity. Qed.

Lemma form_byte_decode (c : ascii) (r : string) :
  pct_decode (plus_to_space (form_byte c) ++ r) = String c (pct_decode r).
Proof. destruct c as [[] [] [] [] [] [] [] []]; reflexivity. Qed.

Lemma form_encode_safe (s : string) : all_chars form_safe (form_encode s) = true.
Proof. induction s as [|c s IH]; simpl; [done|]. by rewrite all_chars_app, form_byte_safe, IH. Qed.

(** Decoding reads back what [form_encode] wrote. *)
Lemma form_encode_decode (s : string) : pct_decode (plus_to_space (form_encode s)) = s.
Proof.
  induction s as [|c s IH]; simpl; [done|].
  by rewrite plus_to_space_app, form_byte_decode, IH.
Qed.

Lemma form_encode_avoids (s : string) (sep : ascii) :
  form_safe sep = false -> all_chars (fun x => negb (Ascii.eqb x sep)) (form_encode s) = true.
Proof.
  intros Hsep. apply (all_chars_impl form_safe); [|apply form_encode_safe].
  intros x Hx. apply negb_true_iff, Ascii.eqb_neq. intros ->. congruence.
Qed.

(** A part [name=encoded value] reads as the name and the value. *)
Lemma form_field_encoded (k s : string) :
  String.eqb k "" = false -> all_chars (fun x => negb (Ascii.eqb x "=")) k = true ->
  pct_decode (plus_to_space k) = k ->
  form_field ((k ++ "=") ++ form_encode s) = Some (k, s).
Proof.
  intros Hk Hk' Hdec. unfold form_field.
  assert (Hne : String.eqb ((k ++ "=") ++ form_encode s) "" = false).
  { destruct k; [done|]. by rewrite !str_app_cons. }
  rewrite Hne, str_app_assoc, split_until_app by done.
  rewrite str_app_cons, str_app_nil_l.
  assert (E : split_until (fun c => Ascii.eqb c "=") (String "=" (form_encode s)) =
                ("", String "=" (form_encode s))) by reflexivity.
  rewrite E. cbv iota beta. rewrite str_app_nil_r. by rewrite Hdec, form_encode_decode.
Qed.

Lemma view_query_shape (fn ty sub : value) :
  view_query fn ty sub =
    (("filename" ++ "=") ++ form_encode (to_str fn)) ++
    String "&" ((("type" ++ "=") ++ form_encode (to_str ty)) ++
                String "&" (("subfolder" ++ "=") ++ form_encode (to_str sub))).
Proof. unfold view_query. rewrite !str_app_assoc. reflexivity. Qed.

(** The backend reads from the query of an image link the file name, the
    type and the subfolder the client encoded. *)
Lemma view_query_parse (fn ty sub : value) :
  form_parse (view_query fn ty sub) =
    [("filename", to_str fn); ("type", to_str ty); ("subfolder", to_str sub)].
Proof.
  rewrite view_query_shape. unfold form_parse.
  assert (Hamp : forall k s, all_chars (fun x => negb (Ascii.eqb x "=")) k = true ->
            all_chars (fun x => negb (Ascii.eqb x "&")) k = true ->
            all_chars (fun x => negb (Ascii.eqb x "&")) ((k ++ "=") ++ form_encode s) = true).
  { intros k s _ Hk. rewrite !all_chars_app, Hk, form_encode_avoids by done. done. }
  rewrite split_at_char_app by (apply Hamp; reflexivity).
  rewrite split_at_char_app by (apply Hamp; reflexivity).
  rewrite split_at_char_none by (apply Hamp; reflexivity).
  cbn [omap list_omap]. rewrite !form_field_encoded by reflexivity. done.
Qed.

(** The characters a query keeps through the proxy and [new URL]. *)
Definition query_safe (c : ascii) : bool :=
  negb (Ascii.eqb c "?" || Ascii.eqb c "#" || special_query_set c).

Lemma form_safe_query_safe (x : ascii) : form_safe x = true -> query_safe x = true.
Proof. destruct x as [[] [] [] [] [] [] [] []]; done. Qed.

(** A query-safe character is neither [?] nor [#] and is not encoded in
    a query. *)
Lemma query_safe_chars (x : ascii) :
  query_safe x = true ->
  negb (Ascii.eqb x "?") = true /\ negb (Ascii.eqb x "#") = true /\ negb (special_query_set x) = true.
Proof. destruct x as [[] [] [] [] [] [] [] []]; done. Qed.

Lemma view_query_safe (fn ty sub : value) : all_chars query_safe (view_query fn ty sub) = true.
Proof.
  assert (H : forall s, all_chars query_safe (form_encode s) = true).
  { intros s. apply (all_chars_impl form_safe); [apply form_safe_query_safe|apply form_encode_safe]. }
  unfold view_query. by rewrite !all_chars_app, !H.
Qed.

(** ** URLs the proxy builds *)

Lemma request_target_ok (u : url) : fetchable u = true -> request_target u = Ret (url_href u).
Proof.
  unfold fetchable, request_target. intros [Hu Hs]%andb_true_iff. by rewrite Hu, Hs.
Qed.

Lemma fetchable_user (u : url) : fetchable u = true -> u_user u = "".
Proof. unfold fetchable. intros [Hu _]%andb_true_iff. by apply String.eqb_eq. Qed.

(** A path with one leading slash stays on the base's host, with the
    base's credentials. *)
Lemma new_URL_path (c : ascii) (s : string) (base : url) :
  is_slash c = false ->
  new_URL (String "/" (String c s)) base =
    let '(p, q) := path_query (u_path base) (String "/" (String c s)) in
    Ret {| u_scheme := u_scheme base; u_user := u_user base; u_host := u_host base; u_path := p;
           u_query := q |}.
Proof.
  intros Hc. unfold new_URL. cbn [strip_slashes]. replace (is_slash "/") with true by reflexivity.
  rewrite Hc. reflexivity.
Qed.

(** A path starting with two slashes and an authority [a] (not empty,
    without a delimiter) is read on the authority [a]. *)
Lemma new_URL_authority (a rest : string) (base : url) :
  String.eqb a "" = false -> all_chars (fun c => negb (authority_end c)) a = true ->
  (rest = "" \/ exists r, rest = String "/" r) ->
  new_URL ("/" ++ ("/" ++ a ++ rest)) base =
    let! ch := parse_authority (u_scheme base) a in
    let '(p, q) := path_query [] rest in
    Ret {| u_scheme := u_scheme base; u_user := ch.1; u_host := ch.2; u_path := p; u_query := q |}.
Proof.
  intros Hne Ha Hrest. destruct a as [|c a']; [done|].
  assert (Hc : is_slash c = false).
  { simpl in Ha. apply andb_true_iff in Ha as [Hc _]. unfold authority_end in Hc.
    by destruct (is_slash c). }
  assert (Hsplit : split_until authority_end (String c a' ++ rest) = (String c a', rest)).
  { rewrite split_until_app by done.
    destruct Hrest as [->|[r ->]]; cbn; by rewrite str_app_nil_r. }
  unfold new_URL. change ("/" ++ ("/" ++ String c a' ++ rest))%string
    with (String "/" (String "/" (String c a' ++ rest))).
  rewrite str_app_cons. cbn [strip_slashes]. rewrite Hc.
  replace (is_slash "/") with true by reflexivity. cbn [Nat.leb]. cbv iota beta.
  rewrite str_app_cons in Hsplit. rewrite Hsplit. reflexivity.
Qed.

(** The view route forwards the query of the request unchanged to
    [/view] on the backend's host. *)
Lemma forward_view (cfg : string) (base : url) (q : string) (rq : request) :
  parse_url cfg = Ret base -> fetchable base = true -> all_chars query_safe q = true ->
  exists out, forward cfg (RView ("/api/comfyui/view?" ++ q)) rq = Ret out /\
    out_url out = (u_scheme base ++ "://" ++ u_host base ++ "/view?" ++ q)%string.
Proof.
  intros Hb Hf Hq.
  assert (Hnq : all_chars (fun x => negb (Ascii.eqb x "?")) q = true).
  { apply (all_chars_impl query_safe); [|done]. intros x Hx. apply query_safe_chars, Hx. }
  assert (Hnh : all_chars (fun x => negb (Ascii.eqb x "#")) q = true).
  { apply (all_chars_impl query_safe); [|done]. intros x Hx. apply query_safe_chars, Hx. }
  assert (Hsq : all_chars (fun x => negb (special_query_set x)) q = true).
  { apply (all_chars_impl query_safe); [|done]. intros x Hx. apply query_safe_chars, Hx. }
  unfold forward, target_path, comfy_url. rewrite Hb. cbn [throws_bind].
  change ("/api/comfyui/view?" ++ q)%string with ("/api/comfyui/view" ++ String "?" q)%string.
  rewrite split_at_char_app, split_at_char_none by done.
  change ("/" ++ ("view?" ++ q))%string with (String "/" (String "v" ("iew" ++ String "?" q)))%string.
  rewrite new_URL_path by reflexivity. unfold path_query.
  rewrite (split_until_none (fun c => Ascii.eqb c "#"))
    by (cbn [all_chars]; rewrite all_chars_app; cbn [all_chars]; rewrite Hnh; reflexivity).
  cbv iota beta.
  assert (E : split_until (fun c => Ascii.eqb c "?") (String "/" (String "v" ("iew" ++ String "?" q))) =
                ("/view", String "?" q)).
  { change (String "/" (String "v" ("iew" ++ String "?" q))) with ("/view" ++ String "?" q)%string.
    rewrite split_until_app by reflexivity. reflexivity. }
  rewrite E. cbv iota beta. rewrite pct_encode_id by done. cbn [throws_bind].
  rewrite request_target_ok by done. cbn [throws_bind].
  eexists. split; [reflexivity|]. cbn. by rewrite (fetchable_user base Hf).
Qed.

(** ** Theorems *)

(** C33: the wildcard route forwards to any host.  A request for
    [/api/comfyui//h/...] gives the wildcard [req.params[0] = "/h/..."],
    the proxy builds [comfyUrl("//h/...")], which [new URL] reads as a
    URL on the host [parse_host] makes of [h] (a domain, lower-cased, or
    an IPv4 address in any of its notations, normalised), and sends it
    the incoming request with all its headers but [host] (cookies and
    credentials included): the proxy is open to every host the server
    can reach. *)
Theorem proxy_reaches_any_host (cfg : string) (base : url) (h host rest : string) (rq : request) :
  parse_url cfg = Ret base -> (String.eqb (u_scheme base) "http" || String.eqb (u_scheme base) "https") = true ->
  all_chars (fun c => negb (forbidden_domain c)) h = true -> parse_host h = Ret host ->
  (rest = "" \/ exists r, rest = String "/" r) ->
  exists out, forward cfg (RAny ("/" ++ h ++ rest)) rq = Ret out /\
    (exists path, out_url out = (u_scheme base ++ "://" ++ host ++ path)%string) /\
    out_headers out = filter (fun kv => kv.1 <> "host") (rq_headers rq).
Proof.
  intros Hb Hs Hh Hhost Hrest. unfold forward, target_path, comfy_url. rewrite Hb. cbn [throws_bind].
  rewrite new_URL_authority; [|by apply parse_host_nonempty in Hhost| |done].
  2:{ apply (all_chars_impl (fun c => negb (forbidden_domain c))); [|done].
      intros x Hx. apply (domain_char_delims x Hx). }
  rewrite (parse_authority_host _ h host) by done. cbn [throws_bind].
  destruct (path_query [] rest) as [p q]. unfold request_target. cbn [throws_bind u_user u_scheme fst snd].
  replace (String.eqb "" "") with true by reflexivity. cbn [negb]. rewrite Hs. cbn. eexists. split; [reflexivity|]. split; [eexists; reflexivity|reflexivity].
Qed.

(** C35: an image link of the gallery reaches the backend as the client
    built it.  The link [collectImagesFromHistory] builds is
    [/api/comfyui/view?q]; the view route forwards [q] unchanged to
    [/view] on the backend's host, and the backend's form parser reads
    from [q] exactly the output's [filename], [type] and [subfolder]. *)
Theorem view_link_reaches_backend (cfg : string) (base : url) (nodeId : string) (im : value)
    (img : image) (rq : request) :
  parse_url cfg = Ret base -> fetchable base = true -> image_link nodeId im = Ret img ->
  exists q, img_url img = ("/api/comfyui/view?" ++ q)%string /\
    (exists out, forward cfg (RView (img_url img)) rq = Ret out /\
       out_url out = (u_scheme base ++ "://" ++ u_host base ++ "/view?" ++ q)%string) /\
    form_parse q = [("filename", to_str (get im "filename")); ("type", to_str (get im "type"));
                    ("subfolder", to_str (js_or (get im "subfolder") (VStr "")))].
Proof.
  intros Hb Hf. unfold image_link, get_strict. destruct (nullish im); [done|]. cbn [throws_bind].
  intros [= <-]. cbn [img_url]. eexists. split; [reflexivity|]. split.
  - apply (forward_view cfg base); [done|done|apply view_query_safe].
  - apply view_query_parse.
Qed.

(** C36: an unreachable backend ends the server.  Every proxied request
    then rejects in [proxyToComfyUI], which no one catches, so the request
    gets no answer and the process exits; [POST /api/run], which catches
    the same failure, answers 500 with the error's message (spec section
    7: failures are caught at the boundary and reported). *)
Theorem unreachable_backend_crashes (cfg : string) (base : url) (r : route) (rq : request)
    (body : value) (msg : string) :
  parse_url cfg = Ret base -> fetchable base = true ->
  (exists e, (proxyToComfyUI cfg r rq (Unreachable msg)).2 = Crashed e) /\
  exists t, run_api cfg body (Unreachable msg) = Answered 500 [] t /\
    JSON_parse t = Some (VObj [("error", VStr "fetch failed")]).
Proof.
  intros Hb Hf. split.
  - unfold proxyToComfyUI. destruct (forward cfg r rq); by eexists.
  - unfold run_api, comfy_url. rewrite Hb. cbn [throws_bind].
    rewrite new_URL_path by reflexivity. destruct (path_query _ _) as [p q]. cbn [throws_bind].
    rewrite request_target_ok by exact Hf. eexists. split; [reflexivity|]. vm_compute. reflexivity.
Qed.

(** C37: [comfyUrl] ignores the path of [COMFYUI_BASE_URL]: every path
    the server builds starts with a slash, which [new URL] resolves
    against the base's credentials and host only, so a backend behind a
    path prefix ([http://host/comfy/]) is called at the host's root. *)
Theorem base_path_ignored (cfg cfg' : string) (b b' : url) (p : string) :
  parse_url cfg = Ret b -> parse_url cfg' = Ret b' ->
  u_scheme b = u_scheme b' -> u_user b = u_user b' -> u_host b = u_host b' ->
  comfyUrl cfg ("/" ++ p) = comfyUrl cfg' ("/" ++ p).
Proof.
  intros Hb Hb' Hs Hu Hh. unfold comfyUrl, comfy_url. rewrite Hb, Hb'. cbn [throws_bind].
  unfold new_URL. rewrite Hs, Hu, Hh.
  destruct (strip_slashes ("/" ++ p)) as [n rest]. destruct (Nat.leb 2 n); [done|].
  change ("/" ++ p)%string with (String "/" p). by rewrite (path_query_abs (u_path b) (u_path b')).
Qed.

(** C34: a client can end the server with one request.  For a path
    [/api/comfyui//a...] the proxy reads [a] as the authority of the URL
    it fetches: an authority [new URL] refuses (an empty or invalid host,
    a forbidden character, a port that is not a number or above 65535)
    makes [comfyUrl] throw, and one with credentials ([user@host]) makes
    [fetch] refuse the request; in both cases nothing is sent and the
    handler's promise rejects with no one to catch it, whatever the
    backend would have answered. *)
Theorem authority_error_crashes (cfg : string) (base : url) (a rest : string) (rq : request) (be : backend) :
  parse_url cfg = Ret base ->
  String.eqb a "" = false -> all_chars (fun c => negb (authority_end c)) a = true ->
  (rest = "" \/ exists r, rest = String "/" r) ->
  (forall e, parse_authority (u_scheme base) a = Throw e ->
     proxyToComfyUI cfg (RAny ("/" ++ a ++ rest)) rq be = (None, Crashed e)) /\
  (forall creds host, parse_authority (u_scheme base) a = Ret (creds, host) -> creds <> "" ->
     exists target, proxyToComfyUI cfg (RAny ("/" ++ a ++ rest)) rq be =
       (None, Crashed (TypeError ("Request cannot be constructed from a URL that includes credentials: " ++
                                  target)))).
Proof.
  intros Hb Hne Ha Hrest.
  unfold proxyToComfyUI, forward, target_path, comfy_url. rewrite Hb. cbn [throws_bind].
  rewrite new_URL_authority by done. split.
  - intros e He. by rewrite He.
  - intros creds host He Hc. rewrite He. cbn [throws_bind]. destruct (path_query [] rest) as [p q].
    unfold request_target. cbn [throws_bind u_user fst snd].
    rewrite (proj2 (String.eqb_neq creds "") Hc). by eexists.
Qed.

(** ** Witnesses *)

(** The server's default configuration. *)
Definition ex_base : url :=
  {| u_scheme := "http"; u_user := ""; u_host := "127.0.0.1:8188"; u_path := [""]; u_query := None |}.

Lemma ex_base_parse : parse_url (COMFYUI_BASE_URL None) = Ret ex_base.
Proof. reflexivity. Qed.

Definition ex_request : request :=
  {| rq_method := "GET"; rq_headers := [("host", "localhost:3000"); ("cookie", "sid=1")]; rq_body := VNull |}.

(** [/api/comfyui//2852039166/latest/meta-data] is sent, with the cookie
    of the request, to the link-local metadata address: [2852039166] is
    the decimal notation of [169.254.169.254]. *)
Lemma proxy_reaches_any_host_witness :
  exists out, forward (COMFYUI_BASE_URL None) (RAny "/2852039166/latest/meta-data") ex_request = Ret out /\
    out_url out = "http://169.254.169.254/latest/meta-data" /\ out_headers out = [("cookie", "sid=1")].
Proof.
  destruct (proxy_reaches_any_host (COMFYUI_BASE_URL None) ex_base "2852039166" "169.254.169.254"
              "/latest/meta-data" ex_request)
    as (out & E & _ & Hh); [exact ex_base_parse|reflexivity|reflexivity|vm_compute; reflexivity|right; by eexists|].
  exists out. split; [exact E|]. split; [|exact Hh].
  change ("/2852039166/latest/meta-data") with ("/" ++ "2852039166" ++ "/latest/meta-data")%string in E.
  revert E. vm_compute. intros E. injection E as <-. reflexivity.
Defined.

(** The link of [a b.png] in the subfolder [x&y] reaches the backend with
    those names. *)
Lemma view_link_reaches_backend_witness :
  exists img, image_link "9" (VObj [("filename", VStr "a b.png"); ("subfolder", VStr "x&y")]) = Ret img /\
    exists q, img_url img = ("/api/comfyui/view?" ++ q)%string /\
      form_parse q = [("filename", "a b.png"); ("type", "undefined"); ("subfolder", "x&y")].
Proof.
  eexists. split; [reflexivity|].
  destruct (view_link_reaches_backend (COMFYUI_BASE_URL None) ex_base "9"
              (VObj [("filename", VStr "a b.png"); ("subfolder", VStr "x&y")]) _ ex_request
              ex_base_parse eq_refl eq_refl) as (q & Hq & _ & Hp).
  exists q. split; [exact Hq|exact Hp].
Defined.

(** With the default configuration and ComfyUI down, [/api/run] answers
    500 with [fetch failed]. *)
Lemma unreachable_backend_crashes_witness :
  exists t, run_api (COMFYUI_BASE_URL None) VNull (Unreachable "ECONNREFUSED") = Answered 500 [] t /\
    JSON_parse t = Some (VObj [("error", VStr "fetch failed")]).
Proof.
  destruct (unreachable_backend_crashes (COMFYUI_BASE_URL None) ex_base RObjectInfo ex_request VNull
              "ECONNREFUSED" ex_base_parse eq_refl) as [_ H]. exact H.
Defined.

(** [COMFYUI_BASE_URL=http://127.0.0.1:8188/comfy/] calls [/prompt] at
    the host's root, as the bare host does. *)
Lemma base_path_ignored_witness :
  comfyUrl "http://127.0.0.1:8188/comfy/" "/prompt" = comfyUrl (COMFYUI_BASE_URL None) "/prompt" /\
  comfyUrl (COMFYUI_BASE_URL None) "/prompt" = Ret "http://127.0.0.1:8188/prompt".
Proof.
  split; [|reflexivity].
  exact (base_path_ignored "http://127.0.0.1:8188/comfy/" (COMFYUI_BASE_URL None)
           {| u_scheme := "http"; u_user := ""; u_host := "127.0.0.1:8188"; u_path := ["comfy"; ""];
              u_query := None |} ex_base "prompt" eq_refl ex_base_parse eq_refl eq_refl eq_refl).
Defined.

(** A port above 65535 and a user name in the authority both end the
    server, with the default configuration. *)
Lemma authority_error_crashes_witness :
  proxyToComfyUI (COMFYUI_BASE_URL None) (RAny "/x:99999/") ex_request (Answer 200 [] "") =
    (None, Crashed invalid_url) /\
  exists target,
    proxyToComfyUI (COMFYUI_BASE_URL None) (RAny "/u@evil.example/") ex_request (Answer 200 [] "") =
      (None, Crashed (TypeError ("Request cannot be constructed from a URL that includes credentials: " ++
                                 target))).
Proof.
  split.
  - apply (proj1 (authority_error_crashes (COMFYUI_BASE_URL None) ex_base "x:99999" "/" ex_request
             (Answer 200 [] "") ex_base_parse eq_refl eq_refl (or_intror (ex_intro _ "" eq_refl)))).
    reflexivity.
  - apply (proj2 (authority_error_crashes (COMFYUI_BASE_URL None) ex_base "u@evil.example" "/" ex_request
             (Answer 200 [] "") ex_base_parse eq_refl eq_refl (or_intror (ex_intro _ "" eq_refl)))
             "u@" "evil.example"); [reflexivity|discriminate].
Defined.
