(* ===== verification/System.v ===== *)
(** * The page and the server together

    After [init] the page reacts to events in any order: the user edits a
    field or toggles a card (the listeners of [renderWorkflow]), refreshes
    the metadata ([loadObjectInfo]), runs the workflow, refreshes the
    history or clicks a history button, saves the workflow, registers a
    model with the form or deletes one; a delayed [loadHistory] fires.
    Each component file models its handlers on its own part of the state;
    this file runs them on one state: the page of [Startup] (whose output
    log, [modelRegistry] and workflow every handler shares), the pending
    delayed loads, and the two files of the server, [data/models.json]
    (the document [Registry] reads from it) and the workflow file (its
    text).

    [sys_step] is the step relation: one constructor per event, each the
    handler of its component on the projection of the state it reads,
    written back into the whole state.  A request to the server is
    answered before the next event, so the interleavings of the server's
    handlers among themselves are those of [Registry.srv_step], not
    repeated here; the answers of ComfyUI are inputs.

    The theorems: every state reachable from a good page keeps it good
    (the cards are the render of the workflow under the current schema,
    the gallery shows the current history, the model list shows the
    registry, the history ids are truthy), by induction over the steps
    with the component lemmas lifted to the whole state; and a model
    registered with the form reaches the cards at the next metadata
    refresh, not before. *)

From S2P Require Import Prelude JsValue Json JsonParse Html Schema StableSort Binder Coherence Registry Persist Url Route Models History Session Startup.

Local Open Scope string_scope.

Record system := {
  sy_page : app;                     (* the page *)
  sy_timers : list value;            (* the [setTimeout(() => loadHistory(id))] not fired yet *)
  sy_models_file : option value;     (* [data/models.json] *)
  sy_workflow_file : option string   (* the workflow file *)
}.

(** ** Projections of the state on the components *)

Definition y_session (y : system) : session := a_session (sy_page y).

Definition with_sess (y : system) (s : session) : system :=
  {| sy_page := with_session (sy_page y) s; sy_timers := sy_timers y;
     sy_models_file := sy_models_file y; sy_workflow_file := sy_workflow_file y |}.

(** The state of [History]: [promptHistory], the output log, the pending
    loads and the gallery. *)
Definition y_hstate (y : system) : hstate :=
  {| hs_history := a_history (sy_page y); hs_log := se_log (y_session y);
     hs_timers := sy_timers y; hs_gallery := a_gallery (sy_page y) |}.

Definition with_hstate (y : system) (h : hstate) : system :=
  let s := y_session y in
  {| sy_page := {| a_comfyui := a_comfyui (sy_page y);
                   a_session := {| se_page := se_page s; se_oi := se_oi s; se_reg := se_reg s;
                                   se_log := hs_log h |};
                   a_models := a_models (sy_page y); a_history := hs_history h;
                   a_gallery := hs_gallery h |};
     sy_timers := hs_timers h; sy_models_file := sy_models_file y;
     sy_workflow_file := sy_workflow_file y |}.

(** The client of [Models]: [modelRegistry], the list, the form's fields
    and the log. *)
Definition y_client (y : system) (form : list (string * string)) : model_client :=
  {| mc_registry := se_reg (y_session y); mc_list := a_models (sy_page y); mc_form := form;
     mc_log := se_log (y_session y) |}.

Definition with_client (y : system) (c : model_client) (file : option value) : system :=
  let s := y_session y in
  {| sy_page := {| a_comfyui := a_comfyui (sy_page y);
                   a_session := {| se_page := se_page s; se_oi := se_oi s; se_reg := mc_registry c;
                                   se_log := mc_log c |};
                   a_models := mc_list c; a_history := a_history (sy_page y);
                   a_gallery := a_gallery (sy_page y) |};
     sy_timers := sy_timers y; sy_models_file := file; sy_workflow_file := sy_workflow_file y |}.

(** The client of [Persist]: [workflow] and the log. *)
Definition y_wclient (y : system) : client :=
  {| c_workflow := pg_workflow (se_page (y_session y)); c_log := se_log (y_session y) |}.

Definition with_wclient (y : system) (c : client) (file : option string) : system :=
  let s := y_session y in
  {| sy_page := with_session (sy_page y)
                  {| se_page := se_page s; se_oi := se_oi s; se_reg := se_reg s; se_log := c_log c |};
     sy_timers := sy_timers y; sy_models_file := sy_models_file y; sy_workflow_file := file |}.

(** ** The events *)

Inductive sys_step : system -> system -> Prop :=
  (** a change of the [k]-th card's [j]-th field (app.js lines 164-167) *)
  | sy_edit y k j ev :
      edit_faithful (se_page (y_session y)) k j ev ->
      sys_step y (with_sess y (with_page (y_session y) (on_change (se_page (y_session y)) k j ev)))
  (** the enable checkbox of the [k]-th card (app.js lines 112-114) *)
  | sy_toggle y k :
      sys_step y (with_sess y (with_page (y_session y) (on_toggle (se_page (y_session y)) k)))
  (** the refresh-metadata button, answered [a] (app.js line 303) *)
  | sy_meta y a : sys_step y (with_sess y (loadObjectInfo a (y_session y)))
  (** the run button with the page's [workflow], answered [a] *)
  | sy_run y a :
      sys_step y (with_hstate y (submit (pg_workflow (se_page (y_session y))) a (y_hstate y)))
  (** the [i]-th pending delayed load fires, answered [a] *)
  | sy_timer y i pid a :
      sy_timers y !! i = Some pid ->
      sys_step y (with_hstate y (loadHistory pid a
                   {| hs_history := a_history (sy_page y); hs_log := se_log (y_session y);
                      hs_timers := delete i (sy_timers y); hs_gallery := a_gallery (sy_page y) |}))
  (** the refresh-history button, answered [a] *)
  | sy_refresh y a : sys_step y (with_hstate y (refresh a (y_hstate y)))
  (** a click on the [k]-th history button *)
  | sy_gallery y k : sys_step y (with_hstate y (gallery_click k (y_hstate y)))
  (** the save button, answered by [POST /api/workflow] on the file *)
  | sy_save y :
      sys_step y (with_wclient y (save_click (y_wclient y) (sy_workflow_file y)).1
                                 (save_click (y_wclient y) (sy_workflow_file y)).2)
  (** the registration form with the fields [form]; the server draws
      [uuid] and [now] *)
  | sy_register y form uuid now :
      sys_step y (with_client y (submit_model (y_client y form) (sy_models_file y) uuid now).1.1
                                (submit_model (y_client y form) (sy_models_file y) uuid now).2)
  (** the delete button of an item of the list, bound to the entry [m] *)
  | sy_delete y html m :
      ModelItem html (Some m) ∈ a_models (sy_page y) ->
      sys_step y (with_client y (delete_click m (y_client y []) (sy_models_file y)).1.1
                                (delete_click m (y_client y []) (sy_models_file y)).2).


(** ** What stays true *)

(** The model list is the one [renderModels] draws from [modelRegistry]. *)
Definition list_shows_registry (c : model_client) : Prop :=
  mc_list c = (renderModels (mc_registry c)).1.

(** A good page: the cards are the render of the workflow under the
    current schema, the gallery shows the current history, the model list
    shows the registry and the history ids are truthy. *)
Definition page_ok (y : system) : Prop :=
  coherent (y_session y) /\ gallery_current (y_hstate y) /\
  list_shows_registry (y_client y []) /\ ids_truthy (y_hstate y).

(** ** Lemmas *)

(** Applies an event to a state written as its result, matching the
    handlers' results syntactically instead of running them. *)
Local Ltac sys_apply c :=
  with_strategy opaque [submit_model loadObjectInfo y_client form_reset with_client with_sess y_session]
    exact c.

(** Coherence reads the page and the schema only. *)
Lemma coherent_frame (s s' : session) :
  se_page s' = se_page s -> se_oi s' = se_oi s -> coherent s -> coherent s'.
Proof. intros Hp Ho [[reg Hr] Hok]. split; [exists reg; by rewrite Hp, Ho|by rewrite Hp]. Qed.

(** A refresh of the metadata keeps [modelRegistry]. *)
Lemma loadObjectInfo_reg (a : answer) (s : session) : se_reg (loadObjectInfo a s) = se_reg s.
Proof.
  unfold loadObjectInfo, rerender. destruct a as [m|[] [data|]]; try done.
  by case_match.
Qed.

(** A successful refresh renders the workflow under the schema fetched
    and the current registry. *)
Lemma loadObjectInfo_renders (s : session) (oi : value) (wps : list (string * value)) :
  pg_workflow (se_page s) = VObj wps ->
  page_rendered (se_page (loadObjectInfo (Http true (Some oi)) s)) oi (se_reg s).
Proof.
  intros Hw. unfold loadObjectInfo.
  set (s1 := se_say _ _ {| se_page := se_page s; se_oi := oi; se_reg := se_reg s; se_log := se_log s |}).
  destruct (rerender_rendered s1 wps Hw) as [Hr _].
  rewrite (surjective_pairing (rerender s1)). cbv iota beta. by destruct (rerender s1).2.
Qed.

(** [loadModels] draws the list of the registry it sets, or changes
    neither. *)
Lemma loadModels_list (answer : http) (c : model_client) :
  list_shows_registry c -> list_shows_registry (loadModels answer c).1.
Proof.
  intros Hc. unfold loadModels. destruct (JSON_parse _); [|done].
  destruct (get_strict _ _); [|done]. destruct (renderModels _) as [items err] eqn:E.
  unfold list_shows_registry. cbn. by rewrite E.
Qed.

Lemma submit_model_list (c : model_client) (file : option value) (uuid now : string) :
  list_shows_registry c -> list_shows_registry (submit_model c file uuid now).1.1.
Proof. intros Hc. unfold submit_model. cbn. by apply loadModels_list. Qed.

Lemma delete_click_list (m : value) (c : model_client) (file : option value) :
  list_shows_registry c -> list_shows_registry (delete_click m c file).1.1.
Proof. intros Hc. unfold delete_click. destruct (delete_url _); [|done]. cbn. by apply loadModels_list. Qed.

(** Writing back a component's state keeps the parts of [page_ok] it
    does not touch. *)
Lemma with_sess_ok (y : system) (s : session) :
  page_ok y -> coherent s -> se_reg s = se_reg (y_session y) -> page_ok (with_sess y s).
Proof.
  intros (_ & Hg & Hl & Hi) Hc Hr. split_and!; [done|done| |done].
  unfold list_shows_registry in *. cbn. by rewrite Hr.
Qed.

Lemma with_hstate_ok (y : system) (h : hstate) :
  page_ok y -> gallery_current h -> ids_truthy h -> page_ok (with_hstate y h).
Proof.
  intros (Hc & _ & Hl & _) Hg Hi. split_and!; [|by destruct h|done|by destruct h].
  by apply (coherent_frame (y_session y)).
Qed.

Lemma with_client_ok (y : system) (c : model_client) (file : option value) :
  page_ok y -> list_shows_registry c -> page_ok (with_client y c file).
Proof.
  intros (Hc & Hg & _ & Hi) Hl. split_and!; [|done|done|done].
  by apply (coherent_frame (y_session y)).
Qed.

Lemma with_wclient_ok (y : system) (c : client) (file : option string) :
  page_ok y -> page_ok (with_wclient y c file).
Proof.
  intros (Hc & Hg & Hl & Hi). split_and!; [|done|done|done].
  by apply (coherent_frame (y_session y)).
Qed.

Lemma log_ids (msg kind : string) (h : hstate) : ids_truthy h -> ids_truthy (log msg kind h).
Proof. done. Qed.

(** Every event keeps the page good. *)
Lemma sys_step_page_ok (y y' : system) : page_ok y -> sys_step y y' -> page_ok y'.
Proof.
  intros Hy Hstep. pose proof Hy as (Hc & Hg & Hl & [Hh Ht]).
  destruct Hstep as [y k j ev Hfa|y k|y a|y a|y i pid a Hi|y a|y k|y|y form uuid now|y html m Hm].
  - apply with_sess_ok; [done| |done]. apply (session_step_coherent (y_session y)); [done|by constructor].
  - apply with_sess_ok; [done| |done]. apply (session_step_coherent (y_session y)); [done|by constructor].
  - apply with_sess_ok; [done| |apply loadObjectInfo_reg].
    apply (session_step_coherent (y_session y)); [done|by constructor].
  - apply with_hstate_ok; [done|by apply submit_current|by apply submit_ids].
  - apply with_hstate_ok; [done|by apply loadHistory_current|].
    apply loadHistory_ids. split; [done|]. by apply Forall_delete.
  - unfold refresh. destruct (hs_history (y_hstate y)).
    + apply with_hstate_ok; [done|by apply log_current|apply log_ids; exact (proj2 (proj2 (proj2 Hy)))].
    + apply with_hstate_ok; [done|by apply loadHistory_current|apply loadHistory_ids; exact (proj2 (proj2 (proj2 Hy)))].
  - apply with_hstate_ok; [done|by apply click_current|].
    unfold gallery_click. by repeat case_match.
  - by apply with_wclient_ok.
  - apply with_client_ok; [done|]. by apply submit_model_list.
  - apply with_client_ok; [done|]. by apply delete_click_list.
Qed.

(** ** Theorems *)

(** C9: the page stays good whatever the user does.  From a good page,
    every sequence of events (edits, toggles, metadata and history
    refreshes, runs, delayed loads, clicks in the history, saves,
    registrations and deletions, in any order and with any answers of the
    servers) leads to a page whose cards are the render of its workflow
    under the current schema, whose gallery shows the current history,
    whose model list is the one drawn from [modelRegistry] and whose
    history ids are truthy. *)
Theorem page_ok_reachable (y y' : system) : page_ok y -> rtc sys_step y y' -> page_ok y'.
Proof. intros Hy Hr. induction Hr as [|y1 y2 y3 H12 _ IH]; [done|]. by eapply IH, sys_step_page_ok. Qed.

(** C17: a model registered with the form reaches the cards at the next
    metadata refresh, and not before.  When the form holds a non-empty
    name and type and [data/models.json] holds a document the server
    wrote, the submit appends the entry to the file and sets
    [modelRegistry] to the registry with it, but leaves the cards as they
    were; the next successful [loadObjectInfo] renders the workflow under
    the schema fetched and that registry. *)
Theorem registration_reaches_cards (y : system) (form : list (string * string))
    (ps : list (string * value)) (ms : list value) (n t p o uuid now : string)
    (oi : value) (wps : list (string * value)) :
  form = [("name", n); ("type", t); ("path", p); ("note", o)] -> n <> "" -> t <> "" ->
  (N.of_nat (String.length (default "" (stringify (fromEntries form)))) <= body_limit)%N ->
  sy_models_file y = Some (VObj ps) -> normal (VObj ps) -> keys_unique (VObj ps) ->
  get (VObj ps) "models" = VArr ms -> Forall (fun m => nullish m = false) ms ->
  pg_workflow (se_page (y_session y)) = VObj wps ->
  let entry := new_entry (VStr n) (VStr t) (VStr p) (VStr o) uuid now in
  let y1 := with_client y (submit_model (y_client y form) (sy_models_file y) uuid now).1.1
                          (submit_model (y_client y form) (sy_models_file y) uuid now).2 in
  let y2 := with_sess y1 (loadObjectInfo (Http true (Some oi)) (y_session y1)) in
  sys_step y y1 /\ sys_step y1 y2 /\
  sy_models_file y1 = Some (set (VObj ps) "models" (VArr (ms ++ [entry]))) /\
  se_reg (y_session y1) = VArr (ms ++ [entry]) /\ se_page (y_session y1) = se_page (y_session y) /\
  se_reg (y_session y2) = VArr (ms ++ [entry]) /\
  page_rendered (se_page (y_session y2)) oi (VArr (ms ++ [entry])).
Proof.
  intros Hf Hn Ht Hlen Hfile Hnorm Hk Hms Hnull Hw entry y1 y2.
  split; [|split]; [sys_apply (sy_register y form uuid now)|sys_apply (sy_meta y1 (Http true (Some oi)))|].
  assert (E : submit_model (y_client y form) (sy_models_file y) uuid now =
    (({| mc_registry := VArr (ms ++ [entry]); mc_list := (renderModels (VArr (ms ++ [entry]))).1;
         mc_form := form_reset form; mc_log := se_log (y_session y) |}, None),
     Some (set (VObj ps) "models" (VArr (ms ++ [entry]))))).
  { rewrite Hfile. by apply (submit_model_accepted (y_client y form)). }
  subst y1 y2. rewrite E. split_and!; [done..| |].
  - cbn [y_session with_sess with_session a_session sy_page]. by rewrite loadObjectInfo_reg.
  - by apply loadObjectInfo_renders with wps.
Qed.


(** ** Examples *)

(** The page of [Session]'s example, an empty model list and history, and
    a registry file holding [sdxl]. *)
Definition ex_system : system :=
  {| sy_page := {| a_comfyui := "http://127.0.0.1:8188"; a_session := ex_session;
                   a_models := (renderModels (VArr [])).1; a_history := [];
                   a_gallery := renderGallery [] |};
     sy_timers := []; sy_models_file := Some ex_models_doc; sy_workflow_file := None |}.

Definition ex_form : list (string * string) :=
  [("name", "vae-ft"); ("type", "vae"); ("path", ""); ("note", "")].

(** [vae-ft] registered with the form, then the metadata refreshed. *)
Definition ex_registered : system :=
  with_client ex_system (submit_model (y_client ex_system ex_form) (sy_models_file ex_system) "b" "t").1.1
                        (submit_model (y_client ex_system ex_form) (sy_models_file ex_system) "b" "t").2.

Definition ex_refreshed : system :=
  with_sess ex_registered (loadObjectInfo (Http true (Some VNull)) (y_session ex_registered)).

Lemma ex_system_ok : page_ok ex_system.
Proof.
  split_and!; [exact ex_session_coherent|by left|reflexivity|].
  split; constructor.
Qed.

Lemma page_ok_reachable_witness :
  page_ok ex_system /\ rtc sys_step ex_system ex_refreshed /\ page_ok ex_refreshed.
Proof.
  assert (Hr : rtc sys_step ex_system ex_refreshed).
  { eapply rtc_l; [apply sy_register|]. eapply rtc_l; [apply sy_meta|]. apply rtc_refl. }
  split_and!; [exact ex_system_ok|exact Hr|exact (page_ok_reachable _ _ ex_system_ok Hr)].
Defined.

Lemma registration_reaches_cards_witness :
  sys_step ex_system ex_registered /\ sys_step ex_registered ex_refreshed /\
  se_reg (y_session ex_refreshed) =
    VArr [ex_sdxl_entry; new_entry (VStr "vae-ft") (VStr "vae") (VStr "") (VStr "") "b" "t"] /\
  page_rendered (se_page (y_session ex_refreshed)) VNull
    (VArr [ex_sdxl_entry; new_entry (VStr "vae-ft") (VStr "vae") (VStr "") (VStr "") "b" "t"]).
Proof.
  destruct ex_models_doc_ok as [Hn Hk].
  destruct (registration_reaches_cards ex_system ex_form ex_models_props [ex_sdxl_entry]
              "vae-ft" "vae" "" "" "b" "t" VNull [("nodes", VArr [ex_loader])])
    as (H1 & H2 & _ & _ & _ & H3 & H4);
    first [ exact (conj H1 (conj H2 (conj H3 H4))) | done
          | apply N.leb_le; vm_compute; reflexivity | solve [apply Forall_singleton; reflexivity]].
Defined.


